(** * libTIMS-SDR: the bulk-transfer streaming engine of [src/timssdr.c]

    A shallow embedding of the streaming core of the library: the ring of
    bulk transfers, the two libusb completion handlers, the start / stop /
    flush coordination, the device life cycle and the process-wide
    open-device counter.

    Conventions of the embedding.
    - C [int] values are [Z]; the [uint16_t] counter [open_devices] is a [Z]
      with its wrap-around modulo 2^16 written out.
    - The flags of [struct timssdr_device] ([typedef int bool], only ever
      assigned [true] or [false]) are Rocq [bool]s.
    - A pointer that may be NULL is an [option]; a byte buffer is a
      [list Z]; a slot of the ring is addressed by its index.
    - Calls into application code are functions over an abstract
      application state [App]; every call into libusb or into the
      application is appended to a chronological [trace].
    - What libusb answers to the n-th [libusb_submit_transfer] is given by
      an oracle [libusb_submit_result].
    - [Fault] stands for undefined behaviour of the C program (a NULL
      dereference, a write outside a buffer); [Blocked] for a thread that
      waits on the condition variable and is never woken up again. *)

From Stdlib Require Import ZArith String List Lia Bool.
From stdpp Require Import base tactics option list.
Import ListNotations.
Local Open Scope Z_scope.

(** ** Constants of [timssdr.c], [timssdr.h] and [libusb.h] *)

Definition TRANSFER_COUNT : nat := 4.
Definition TRANSFER_BUFFER_SIZE : Z := 262144.
Definition DEVICE_BUFFER_SIZE : Z := 32768.
Definition USB_CONFIG_STANDARD : Z := 1.

Definition LIBUSB_ENDPOINT_IN : Z := 128.
Definition LIBUSB_ENDPOINT_OUT : Z := 0.
Definition RX_ENDPOINT_ADDRESS : Z := Z.lor LIBUSB_ENDPOINT_IN 1.
Definition TX_ENDPOINT_ADDRESS : Z := Z.lor LIBUSB_ENDPOINT_OUT 2.

Definition LIBUSB_SUCCESS : Z := 0.
Definition LIBUSB_ERROR_BUSY : Z := -6.
Definition LIBUSB_TRANSFER_COMPLETED : Z := 0.
Definition LIBUSB_TRANSFER_ERROR : Z := 1.
Definition LIBUSB_TRANSFER_CANCELLED : Z := 3.
Definition LIBUSB_TRANSFER_FREE_BUFFER : Z := 2.

(** [enum timssdr_error], in declaration order starting at 0. *)
Definition TIMSSDR_SUCCESS : Z := 0.
Definition TIMSSDR_TRUE : Z := 1.
Definition TIMSSDR_ERROR_INVALID_PARAM : Z := 2.
Definition TIMSSDR_ERROR_NOT_FOUND : Z := 3.
Definition TIMSSDR_ERROR_LIBUSB : Z := 4.
Definition TIMSSDR_ERROR_NOT_LAST_DEVICE : Z := 5.
Definition TIMSSDR_ERROR_NO_MEM : Z := 6.
Definition TIMSSDR_ERROR_THREAD : Z := 7.
Definition TIMSSDR_ERROR_BUSY : Z := 8.
Definition TIMSSDR_ERROR_OTHER : Z := 9.
Definition TIMSSDR_ERROR_STREAMING_THREAD_ERR : Z := 10.
Definition TIMSSDR_ERROR_STREAMING_STOPPED : Z := 11.
Definition TIMSSDR_ERROR_STREAMING_EXIT_CALLED : Z := 12.

(** ** Results of a call: a value, undefined behaviour, or a blocked thread *)

Inductive outcome (A : Type) : Type :=
| Ok (a : A)
| Fault
| Blocked.
Arguments Ok {A} a.
Arguments Fault {A}.
Arguments Blocked {A}.

#[global] Instance outcome_bind : MBind outcome :=
  fun A B (k : A -> outcome B) (m : outcome A) =>
    match m with
    | Ok a => k a
    | Fault => Fault
    | Blocked => Blocked
    end.

(** ** Data model *)

(** An opaque [void*] context supplied by the application. *)
Definition ctx : Type := Z.

(** The value of [libusb_transfer.callback]: NULL or one of the two
    completion handlers of the library. *)
Inductive libusb_transfer_cb_fn : Type :=
| cb_NULL
| cb_timssdr_libusb_transfer_callback
| cb_timssdr_libusb_flush_callback.

(** The fields of [struct libusb_transfer] the library reads or writes. *)
Record libusb_transfer : Type := mk_libusb_transfer {
  usb_endpoint : Z;
  usb_flags : Z;
  usb_status : Z;
  usb_length : Z;
  usb_actual_length : Z;
  usb_callback : libusb_transfer_cb_fn;
  usb_buffer : option (list Z)
}.

(** [timssdr_transfer], the descriptor handed to the application. The
    [device] back pointer is opaque to the application and is left out. *)
Record timssdr_transfer : Type := mk_timssdr_transfer {
  buffer : option (list Z);
  buffer_length : Z;
  valid_length : Z;
  t_rx_ctx : ctx;
  t_tx_ctx : ctx
}.

(** Which transfer a libusb call is about. *)
Inductive xfer_ref : Type :=
| Slot (transfer_index : nat)
| FlushTransfer.

(** What the library does to the outside, in the order it does it. *)
Inductive event : Type :=
| EvLock
| EvUnlock
| EvBroadcast
| EvCondWait
| EvSubmit (r : xfer_ref) (t : libusb_transfer) (result : Z)
| EvCancel (r : xfer_ref)
| EvAllocTransfer (r : xfer_ref)
| EvFreeTransfer (r : xfer_ref)
| EvSampleBlock (r : xfer_ref) (t : timssdr_transfer) (ret : Z)
| EvTxBlockComplete (t : timssdr_transfer) (success : bool)
| EvFlushCallback (flush_ctx : ctx) (success : bool).

(** The file-scope variables of [timssdr.c]. *)
Record globals : Type := mk_globals {
  open_devices : Z;
  g_libusb_context : bool;
  last_libusb_error : Z
}.

(** ** [timssdr_error_name] *)

Section ErrorName.

(** Whether [LIBUSB_API_VERSION >= 0x01000103] held when compiling. *)
Variable libusb_has_strerror : bool.
(** [libusb_strerror], a [const char*]: [None] would be NULL. *)
Variable libusb_strerror : Z -> option string.

Definition timssdr_error_name (g : globals) (errcode : Z) : option string :=
  if errcode =? TIMSSDR_SUCCESS then Some "TIMSSDR_SUCCESS"%string
  else if errcode =? TIMSSDR_TRUE then Some "TIMSSDR_TRUE"%string
  else if errcode =? TIMSSDR_ERROR_INVALID_PARAM then Some "invalid parameter(s)"%string
  else if errcode =? TIMSSDR_ERROR_NOT_FOUND then Some "TimsSDR not found"%string
  else if errcode =? TIMSSDR_ERROR_BUSY then Some "TimsSDR busy"%string
  else if errcode =? TIMSSDR_ERROR_NO_MEM then Some "insufficient memory"%string
  else if errcode =? TIMSSDR_ERROR_LIBUSB then
    if libusb_has_strerror && negb (last_libusb_error g =? LIBUSB_SUCCESS)
    then libusb_strerror (last_libusb_error g)
    else Some "USB error"%string
  else if errcode =? TIMSSDR_ERROR_THREAD then Some "transfer thread error"%string
  else if errcode =? TIMSSDR_ERROR_STREAMING_THREAD_ERR
    then Some "streaming thread encountered an error"%string
  else if errcode =? TIMSSDR_ERROR_STREAMING_STOPPED then Some "streaming stopped"%string
  else if errcode =? TIMSSDR_ERROR_STREAMING_EXIT_CALLED
    then Some "streaming terminated"%string
  else if errcode =? TIMSSDR_ERROR_NOT_LAST_DEVICE
    then Some "one or more TimsSDRs still in use"%string
  else if errcode =? TIMSSDR_ERROR_OTHER then Some "unspecified error"%string
  else Some "unknown error code"%string.

End ErrorName.

(** ** The device record, the application and the world around it *)

Section Engine.

(** The state of the application, as far as its callbacks change it. *)
Context {App : Type}.

(** [timssdr_sample_block_cb_fn]: the return value, the descriptor as the
    callback leaves it (buffer contents and [valid_length]) and the new
    application state. *)
Definition timssdr_sample_block_cb_fn : Type :=
  App -> timssdr_transfer -> Z * timssdr_transfer * App.

(** [timssdr_tx_block_complete_cb_fn], called with the descriptor and the
    success flag. *)
Definition timssdr_tx_block_complete_cb_fn : Type :=
  App -> timssdr_transfer -> bool -> timssdr_transfer * App.

(** [timssdr_flush_cb_fn], called with [flush_ctx] and the success flag. *)
Definition timssdr_flush_cb_fn : Type := App -> ctx -> bool -> App.

(** [struct timssdr_device]. The 1 MiB [buffer] array is held slot by slot
    in [usb_buffer] of the four transfers, which point into it; the mutex,
    the condition variable and the thread handle appear as events only. *)
Record timssdr_device : Type := mk_timssdr_device {
  usb_device : option Z;
  transfers : option (list (option libusb_transfer));
  callback : option timssdr_sample_block_cb_fn;
  transfer_thread_started : bool;
  streaming : bool;
  rx_ctx : ctx;
  tx_ctx : ctx;
  do_exit : bool;
  transfers_setup : bool;
  active_transfers : Z;
  flush : bool;
  flush_transfer : option libusb_transfer;
  flush_callback : option timssdr_flush_cb_fn;
  tx_completion_callback : option timssdr_tx_block_complete_cb_fn;
  flush_ctx : ctx
}.

(** Everything outside the device record: the globals of the library, the
    application, the trace of calls and the transport. *)
Record world : Type := mk_world {
  glob : globals;
  app : App;
  trace : list event;
  submits : nat;
  libusb_submit_result : nat -> Z
}.

(** *** Field updates *)

Definition set_transfers v (d : timssdr_device) : timssdr_device :=
  mk_timssdr_device (usb_device d) v (callback d) (transfer_thread_started d)
    (streaming d) (rx_ctx d) (tx_ctx d) (do_exit d) (transfers_setup d)
    (active_transfers d) (flush d) (flush_transfer d) (flush_callback d)
    (tx_completion_callback d) (flush_ctx d).
Definition set_usb_device v (d : timssdr_device) : timssdr_device :=
  mk_timssdr_device v (transfers d) (callback d) (transfer_thread_started d)
    (streaming d) (rx_ctx d) (tx_ctx d) (do_exit d) (transfers_setup d)
    (active_transfers d) (flush d) (flush_transfer d) (flush_callback d)
    (tx_completion_callback d) (flush_ctx d).
Definition set_callback v (d : timssdr_device) : timssdr_device :=
  mk_timssdr_device (usb_device d) (transfers d) v (transfer_thread_started d)
    (streaming d) (rx_ctx d) (tx_ctx d) (do_exit d) (transfers_setup d)
    (active_transfers d) (flush d) (flush_transfer d) (flush_callback d)
    (tx_completion_callback d) (flush_ctx d).
Definition set_transfer_thread_started v (d : timssdr_device) : timssdr_device :=
  mk_timssdr_device (usb_device d) (transfers d) (callback d) v
    (streaming d) (rx_ctx d) (tx_ctx d) (do_exit d) (transfers_setup d)
    (active_transfers d) (flush d) (flush_transfer d) (flush_callback d)
    (tx_completion_callback d) (flush_ctx d).
Definition set_streaming v (d : timssdr_device) : timssdr_device :=
  mk_timssdr_device (usb_device d) (transfers d) (callback d) (transfer_thread_started d)
    v (rx_ctx d) (tx_ctx d) (do_exit d) (transfers_setup d)
    (active_transfers d) (flush d) (flush_transfer d) (flush_callback d)
    (tx_completion_callback d) (flush_ctx d).
Definition set_rx_ctx v (d : timssdr_device) : timssdr_device :=
  mk_timssdr_device (usb_device d) (transfers d) (callback d) (transfer_thread_started d)
    (streaming d) v (tx_ctx d) (do_exit d) (transfers_setup d)
    (active_transfers d) (flush d) (flush_transfer d) (flush_callback d)
    (tx_completion_callback d) (flush_ctx d).
Definition set_tx_ctx v (d : timssdr_device) : timssdr_device :=
  mk_timssdr_device (usb_device d) (transfers d) (callback d) (transfer_thread_started d)
    (streaming d) (rx_ctx d) v (do_exit d) (transfers_setup d)
    (active_transfers d) (flush d) (flush_transfer d) (flush_callback d)
    (tx_completion_callback d) (flush_ctx d).
Definition set_do_exit v (d : timssdr_device) : timssdr_device :=
  mk_timssdr_device (usb_device d) (transfers d) (callback d) (transfer_thread_started d)
    (streaming d) (rx_ctx d) (tx_ctx d) v (transfers_setup d)
    (active_transfers d) (flush d) (flush_transfer d) (flush_callback d)
    (tx_completion_callback d) (flush_ctx d).
Definition set_transfers_setup v (d : timssdr_device) : timssdr_device :=
  mk_timssdr_device (usb_device d) (transfers d) (callback d) (transfer_thread_started d)
    (streaming d) (rx_ctx d) (tx_ctx d) (do_exit d) v
    (active_transfers d) (flush d) (flush_transfer d) (flush_callback d)
    (tx_completion_callback d) (flush_ctx d).
Definition set_active_transfers v (d : timssdr_device) : timssdr_device :=
  mk_timssdr_device (usb_device d) (transfers d) (callback d) (transfer_thread_started d)
    (streaming d) (rx_ctx d) (tx_ctx d) (do_exit d) (transfers_setup d)
    v (flush d) (flush_transfer d) (flush_callback d)
    (tx_completion_callback d) (flush_ctx d).
Definition set_flush v (d : timssdr_device) : timssdr_device :=
  mk_timssdr_device (usb_device d) (transfers d) (callback d) (transfer_thread_started d)
    (streaming d) (rx_ctx d) (tx_ctx d) (do_exit d) (transfers_setup d)
    (active_transfers d) v (flush_transfer d) (flush_callback d)
    (tx_completion_callback d) (flush_ctx d).
Definition set_flush_transfer v (d : timssdr_device) : timssdr_device :=
  mk_timssdr_device (usb_device d) (transfers d) (callback d) (transfer_thread_started d)
    (streaming d) (rx_ctx d) (tx_ctx d) (do_exit d) (transfers_setup d)
    (active_transfers d) (flush d) v (flush_callback d)
    (tx_completion_callback d) (flush_ctx d).
Definition set_flush_callback v (d : timssdr_device) : timssdr_device :=
  mk_timssdr_device (usb_device d) (transfers d) (callback d) (transfer_thread_started d)
    (streaming d) (rx_ctx d) (tx_ctx d) (do_exit d) (transfers_setup d)
    (active_transfers d) (flush d) (flush_transfer d) v
    (tx_completion_callback d) (flush_ctx d).
Definition set_tx_completion_callback v (d : timssdr_device) : timssdr_device :=
  mk_timssdr_device (usb_device d) (transfers d) (callback d) (transfer_thread_started d)
    (streaming d) (rx_ctx d) (tx_ctx d) (do_exit d) (transfers_setup d)
    (active_transfers d) (flush d) (flush_transfer d) (flush_callback d)
    v (flush_ctx d).
Definition set_flush_ctx v (d : timssdr_device) : timssdr_device :=
  mk_timssdr_device (usb_device d) (transfers d) (callback d) (transfer_thread_started d)
    (streaming d) (rx_ctx d) (tx_ctx d) (do_exit d) (transfers_setup d)
    (active_transfers d) (flush d) (flush_transfer d) (flush_callback d)
    (tx_completion_callback d) v.

Definition set_glob v (w : world) : world :=
  mk_world v (app w) (trace w) (submits w) (libusb_submit_result w).
Definition set_app v (w : world) : world :=
  mk_world (glob w) v (trace w) (submits w) (libusb_submit_result w).
(** Append one event to the trace. *)
Definition log (e : event) (w : world) : world :=
  mk_world (glob w) (app w) (trace w ++ [e]) (submits w) (libusb_submit_result w).

Definition set_open_devices v (g : globals) : globals :=
  mk_globals v (g_libusb_context g) (last_libusb_error g).
Definition set_g_libusb_context v (g : globals) : globals :=
  mk_globals (open_devices g) v (last_libusb_error g).
Definition set_last_libusb_error v (g : globals) : globals :=
  mk_globals (open_devices g) (g_libusb_context g) v.

Definition set_usb_endpoint v (t : libusb_transfer) : libusb_transfer :=
  mk_libusb_transfer v (usb_flags t) (usb_status t) (usb_length t)
    (usb_actual_length t) (usb_callback t) (usb_buffer t).
Definition set_usb_flags v (t : libusb_transfer) : libusb_transfer :=
  mk_libusb_transfer (usb_endpoint t) v (usb_status t) (usb_length t)
    (usb_actual_length t) (usb_callback t) (usb_buffer t).
Definition set_usb_status v (t : libusb_transfer) : libusb_transfer :=
  mk_libusb_transfer (usb_endpoint t) (usb_flags t) v (usb_length t)
    (usb_actual_length t) (usb_callback t) (usb_buffer t).
Definition set_usb_length v (t : libusb_transfer) : libusb_transfer :=
  mk_libusb_transfer (usb_endpoint t) (usb_flags t) (usb_status t) v
    (usb_actual_length t) (usb_callback t) (usb_buffer t).
Definition set_usb_actual_length v (t : libusb_transfer) : libusb_transfer :=
  mk_libusb_transfer (usb_endpoint t) (usb_flags t) (usb_status t) (usb_length t)
    v (usb_callback t) (usb_buffer t).
Definition set_usb_callback v (t : libusb_transfer) : libusb_transfer :=
  mk_libusb_transfer (usb_endpoint t) (usb_flags t) (usb_status t) (usb_length t)
    (usb_actual_length t) v (usb_buffer t).
Definition set_usb_buffer v (t : libusb_transfer) : libusb_transfer :=
  mk_libusb_transfer (usb_endpoint t) (usb_flags t) (usb_status t) (usb_length t)
    (usb_actual_length t) (usb_callback t) v.

(** *** The transport and the ring *)

(** [libusb_alloc_transfer(0)]: a zero-initialised transfer. *)
Definition libusb_alloc_transfer : libusb_transfer :=
  mk_libusb_transfer 0 0 0 0 0 cb_NULL None.

(** [libusb_fill_bulk_transfer], for the fields of the model. *)
Definition libusb_fill_bulk_transfer (t : libusb_transfer) (endpoint : Z)
    (buf : option (list Z)) (len : Z) (cbk : libusb_transfer_cb_fn) : libusb_transfer :=
  set_usb_callback cbk (set_usb_length len (set_usb_buffer buf (set_usb_endpoint endpoint t))).

(** [n] zero bytes, as [calloc] and [memset(.., 0, ..)] leave them. *)
Definition zeros (n : Z) : list Z := repeat 0 (Z.to_nat n).

(** [libusb_submit_transfer]: the transport is shown the transfer as it is
    now and answers with the next result of the oracle. *)
Definition libusb_submit_transfer (r : xfer_ref) (t : libusb_transfer) (w : world)
  : Z * world :=
  let result := libusb_submit_result w (submits w) in
  (result,
   mk_world (glob w) (app w) (trace w ++ [EvSubmit r t result]) (S (submits w))
     (libusb_submit_result w)).

(** The transfer a reference points to; dereferencing NULL is a fault. *)
Definition get_xfer (d : timssdr_device) (r : xfer_ref) : outcome libusb_transfer :=
  match r with
  | Slot transfer_index =>
      match transfers d with
      | Some ts =>
          match ts !! transfer_index with
          | Some (Some t) => Ok t
          | _ => Fault
          end
      | None => Fault
      end
  | FlushTransfer =>
      match flush_transfer d with
      | Some t => Ok t
      | None => Fault
      end
  end.

(** Store through such a reference. *)
Definition put_xfer (r : xfer_ref) (t : libusb_transfer) (d : timssdr_device)
  : timssdr_device :=
  match r with
  | Slot transfer_index =>
      set_transfers (option_map (fun ts => <[transfer_index := Some t]> ts) (transfers d)) d
  | FlushTransfer => set_flush_transfer (Some t) d
  end.

Definition set_last_error (error : Z) (w : world) : world :=
  set_glob (set_last_libusb_error error (glob w)) w.

(** *** Padding to the 512-byte boundary *)

(** [while (length % 512 != 0) buffer[length++] = 0;] on a buffer of
    [length buf] bytes. C's [%] truncates ([Z.rem]); a write outside the
    buffer is a fault. The loop body runs fewer than 512 times; running out
    of [fuel] would mean that it does not end. *)
Fixpoint pad_to_512 (fuel : nat) (buf : list Z) (len : Z) : outcome (list Z * Z) :=
  if Z.rem len 512 =? 0 then Ok (buf, len)
  else
    match fuel with
    | O => Blocked
    | S fuel' =>
        if (0 <=? len) && (len <? Z.of_nat (length buf))
        then pad_to_512 fuel' (<[Z.to_nat len := 0]> buf) (len + 1)
        else Fault
    end.

(** The padding loop applied to a transfer. *)
Definition pad_transfer (t : libusb_transfer) : outcome libusb_transfer :=
  match usb_buffer t with
  | Some buf =>
      '(buf', len') ← pad_to_512 512 buf (usb_length t);
      Ok (set_usb_length len' (set_usb_buffer (Some buf') t))
  | None => if Z.rem (usb_length t) 512 =? 0 then Ok t else Fault
  end.

(** What a callback wrote through [transfer.buffer] is in the transfer's
    buffer afterwards. *)
Definition written_back (transfer : timssdr_transfer) (t : libusb_transfer)
  : libusb_transfer :=
  match buffer transfer with
  | Some b => set_usb_buffer (Some b) t
  | None => t
  end.

(** *** The completion handlers *)

(** [libusb_submit_transfer(device->flush_transfer)]. *)
Definition submit_flush_transfer (d : timssdr_device) (w : world) : outcome (Z * world) :=
  match flush_transfer d with
  | Some t => Ok (libusb_submit_transfer FlushTransfer t w)
  | None => Fault
  end.

(** The branch [else if (device->flush) { ... }] of the handler. *)
Definition flush_if_armed (d : timssdr_device) (w : world)
  : outcome (timssdr_device * world) :=
  if flush d then
    '(result, w) ← submit_flush_transfer d w;
    if result =? LIBUSB_SUCCESS then Ok (d, w)
    else Ok (set_flush false (set_streaming false d), w)
  else Ok (d, w).

(** The block guarded by [if (!resubmit || result != LIBUSB_SUCCESS)]. *)
Definition retire_transfer (d : timssdr_device) (w : world) : timssdr_device * world :=
  let d := set_streaming false d in
  if active_transfers d =? 1 then
    if negb (flush d) then (set_active_transfers 0 d, log EvBroadcast w)
    else (d, w)
  else (set_active_transfers (active_transfers d - 1) d, w).

(** The call [device->tx_completion_callback(&transfer, success)], made
    when that callback is not NULL. *)
Definition call_tx_completion_callback (d : timssdr_device)
    (transfer : timssdr_transfer) (success : bool) (w : world)
  : timssdr_transfer * world :=
  match tx_completion_callback d with
  | Some f =>
      let '(transfer, a) := f (app w) transfer success in
      (transfer, log (EvTxBlockComplete transfer success) (set_app a w))
  | None => (transfer, w)
  end.

(** The body of [if (success) { ... }]: call the application while
    streaming and hand the transfer to libusb again, or else submit the
    flush transfer when one is armed. It yields [Some result] when
    [resubmit] became true (the data transfer was submitted, with that
    result) and [None] when it stayed false. *)
Definition resubmit_or_flush (r : xfer_ref) (usb_transfer : libusb_transfer)
    (transfer : timssdr_transfer) (d : timssdr_device) (w : world)
  : outcome (option Z * libusb_transfer * timssdr_device * world) :=
  if streaming d then
    match callback d with
    | None => Fault
    | Some f =>
        let '(ret, transfer, a) := f (app w) transfer in
        let w := log (EvSampleBlock r transfer ret) (set_app a w) in
        let usb_transfer := written_back transfer usb_transfer in
        if (ret =? 0) && (0 <? valid_length transfer) then
          if transfers_setup d then
            usb_transfer ←
              (if usb_endpoint usb_transfer =? TX_ENDPOINT_ADDRESS
               then pad_transfer (set_usb_length (valid_length transfer) usb_transfer)
               else Ok usb_transfer);
            let '(result, w) := libusb_submit_transfer r usb_transfer w in
            Ok (Some result, usb_transfer, d, w)
          else Ok (None, usb_transfer, d, w)
        else
          '(d, w) ← flush_if_armed d w;
          Ok (None, usb_transfer, d, w)
    end
  else
    '(d, w) ← flush_if_armed d w;
    Ok (None, usb_transfer, d, w).

(** [timssdr_libusb_transfer_callback(usb_transfer)], where [usb_transfer]
    is the transfer [r] refers to. *)
Definition timssdr_libusb_transfer_callback (r : xfer_ref) (d : timssdr_device) (w : world)
  : outcome (timssdr_device * world) :=
  usb_transfer ← get_xfer d r;
  let transfer :=
    mk_timssdr_transfer (usb_buffer usb_transfer) TRANSFER_BUFFER_SIZE
      (usb_actual_length usb_transfer) (rx_ctx d) (tx_ctx d) in
  let success := usb_status usb_transfer =? LIBUSB_TRANSFER_COMPLETED in
  let '(transfer, w) := call_tx_completion_callback d transfer success w in
  let usb_transfer := written_back transfer usb_transfer in
  let w := log EvLock w in
  '(resubmit, usb_transfer, d, w) ←
    (if success then resubmit_or_flush r usb_transfer transfer d w
     else Ok (None, usb_transfer, set_flush false (set_streaming false d), w));
  let d := put_xfer r usb_transfer d in
  let '(d, w) :=
    match resubmit with
    | Some result => if result =? LIBUSB_SUCCESS then (d, w) else retire_transfer d w
    | None => retire_transfer d w
    end in
  Ok (d, log EvUnlock w).

(** [timssdr_libusb_flush_callback(usb_transfer)]. *)
Definition timssdr_libusb_flush_callback (usb_transfer : libusb_transfer)
    (d : timssdr_device) (w : world) : timssdr_device * world :=
  let success := usb_status usb_transfer =? LIBUSB_TRANSFER_COMPLETED in
  let w := log EvLock w in
  let d := set_flush false d in
  let d := set_active_transfers 0 d in
  let w := log EvBroadcast w in
  let w := log EvUnlock w in
  match flush_callback d with
  | Some f =>
      (d, log (EvFlushCallback (flush_ctx d) success)
            (set_app (f (app w) (flush_ctx d) success) w))
  | None => (d, w)
  end.

(** *** The event pump *)

(** A completion reported by the transport: which transfer, its
    [status] and its [actual_length]. *)
Inductive completion : Type :=
| Completion (r : xfer_ref) (status : Z) (actual_length : Z).

(** libusb completes one transfer: it stores the status and the length
    and calls [transfer->callback] when it is not NULL. *)
Definition libusb_complete (c : completion) (d : timssdr_device) (w : world)
  : outcome (timssdr_device * world) :=
  match c with
  | Completion r status n =>
      t ← get_xfer d r;
      let t := set_usb_actual_length n (set_usb_status status t) in
      let d := put_xfer r t d in
      match usb_callback t with
      | cb_NULL => Ok (d, w)
      | cb_timssdr_libusb_transfer_callback => timssdr_libusb_transfer_callback r d w
      | cb_timssdr_libusb_flush_callback => Ok (timssdr_libusb_flush_callback t d w)
      end
  end.

(** [libusb_handle_events_timeout]: the pump handles a batch of
    completions, one after the other. *)
Fixpoint libusb_handle_events (batch : list completion) (d : timssdr_device) (w : world)
  : outcome (timssdr_device * world) :=
  match batch with
  | [] => Ok (d, w)
  | c :: batch' =>
      '(d, w) ← libusb_complete c d w;
      libusb_handle_events batch' d w
  end.

(** *** Stopping: [cancel_transfers] *)

Definition transfers_check_setup (d : timssdr_device) : bool :=
  match transfers d with
  | Some _ => transfers_setup d
  | None => false
  end.

(** The loop over the ring that calls [libusb_cancel_transfer] on every
    entry that is not NULL. *)
Fixpoint cancel_slots (n transfer_index : nat) (ts : list (option libusb_transfer))
    (w : world) : world :=
  match n with
  | O => w
  | S n' =>
      let w :=
        match ts !! transfer_index with
        | Some (Some _) => log (EvCancel (Slot transfer_index)) w
        | _ => w
        end in
      cancel_slots n' (S transfer_index) ts w
  end.

(** [while (device->active_transfers > 0) pthread_cond_wait(..)]. Every
    element of [sched] is what the pump handles, the lock being released,
    between the start of one wait and the wake-up that ends it. When the
    pump has nothing more to deliver the waiting thread stays blocked. *)
Fixpoint wait_all_finished (sched : list (list completion)) (d : timssdr_device)
    (w : world) {struct sched} : outcome (timssdr_device * world) :=
  if 0 <? active_transfers d then
    match sched with
    | [] => Blocked
    | batch :: sched' =>
        '(d, w) ← libusb_handle_events batch d (log EvCondWait w);
        wait_all_finished sched' d w
    end
  else Ok (d, w).

Definition cancel_transfers (sched : list (list completion)) (d : timssdr_device)
    (w : world) : outcome (Z * timssdr_device * world) :=
  let d := set_streaming false d in
  if transfers_check_setup d then
    let w := log EvLock w in
    let w := cancel_slots TRANSFER_COUNT 0 (default [] (transfers d)) w in
    let w :=
      match flush_transfer d with
      | Some _ => log (EvCancel FlushTransfer) w
      | None => w
      end in
    let d := set_transfers_setup false d in
    let d := set_flush false d in
    '(d, w) ← wait_all_finished sched d w;
    let w := log EvUnlock w in
    Ok (TIMSSDR_SUCCESS, d, w)
  else Ok (TIMSSDR_ERROR_OTHER, d, w).

Definition timssdr_stop_rx (sched : list (list completion)) (d : timssdr_device)
    (w : world) : outcome (Z * timssdr_device * world) :=
  '(result, d, w) ← cancel_transfers sched d w;
  if negb (result =? TIMSSDR_SUCCESS) then Ok (result, d, w)
  else Ok (result, d, w).

Definition timssdr_stop_tx (sched : list (list completion)) (d : timssdr_device)
    (w : world) : outcome (Z * timssdr_device * world) :=
  '(result, d, w) ← cancel_transfers sched d w;
  if negb (result =? TIMSSDR_SUCCESS) then Ok (result, d, w)
  else Ok (result, d, w).

(** *** Starting: [prepare_transfers] *)

(** The first loop of [prepare_transfers] (TX only): the application fills
    the buffers in slot order until it declines; [ready_transfers] counts
    the slots filled. [n] is the number of slots left to visit. *)
Fixpoint fill_tx_buffers (n transfer_index ready_transfers : nat) (d : timssdr_device)
    (w : world) : outcome (nat * timssdr_device * world) :=
  match n with
  | O => Ok (ready_transfers, d, w)
  | S n' =>
      usb_transfer ← get_xfer d (Slot transfer_index);
      let transfer :=
        mk_timssdr_transfer (usb_buffer usb_transfer) TRANSFER_BUFFER_SIZE
          TRANSFER_BUFFER_SIZE (rx_ctx d) (tx_ctx d) in
      match callback d with
      | None => Fault
      | Some f =>
          let '(ret, transfer, a) := f (app w) transfer in
          let w := log (EvSampleBlock (Slot transfer_index) transfer ret) (set_app a w) in
          let usb_transfer := written_back transfer usb_transfer in
          if (ret =? 0) && (0 <? valid_length transfer) then
            let usb_transfer := set_usb_length (valid_length transfer) usb_transfer in
            fill_tx_buffers n' (S transfer_index) (S ready_transfers)
              (put_xfer (Slot transfer_index) usb_transfer d) w
          else Ok (ready_transfers, put_xfer (Slot transfer_index) usb_transfer d, w)
      end
  end.

(** The second loop: submit the ready transfers in slot order, stopping at
    the first error. [error] is the C variable of that name; [n] is the
    number of ready transfers not yet submitted. *)
Fixpoint submit_ready_transfers (n transfer_index : nat) (error : Z)
    (endpoint_address : Z) (cbk : libusb_transfer_cb_fn) (d : timssdr_device)
    (w : world) : outcome (Z * timssdr_device * world) :=
  match n with
  | O => Ok (error, d, w)
  | S n' =>
      transfer ← get_xfer d (Slot transfer_index);
      let transfer := set_usb_callback cbk (set_usb_endpoint endpoint_address transfer) in
      transfer ←
        (if endpoint_address =? TX_ENDPOINT_ADDRESS then pad_transfer transfer
         else Ok transfer);
      let '(error, w) := libusb_submit_transfer (Slot transfer_index) transfer w in
      let d := put_xfer (Slot transfer_index) transfer d in
      if negb (error =? 0) then Ok (error, d, set_last_error error w)
      else
        submit_ready_transfers n' (S transfer_index) error endpoint_address cbk
          (set_active_transfers (active_transfers d + 1) d) w
  end.

(** [prepare_transfers]. The local [int error] is declared without an
    initialiser and is first assigned inside the submit loop;
    [error_uninit] is the indeterminate value it holds until then. *)
Definition prepare_transfers (error_uninit : Z) (endpoint_address : Z)
    (cbk : libusb_transfer_cb_fn) (d : timssdr_device) (w : world)
  : outcome (Z * timssdr_device * world) :=
  match transfers d with
  | None => Ok (TIMSSDR_ERROR_OTHER, d, w)
  | Some _ =>
      '(ready_transfers, d, w) ←
        (if endpoint_address =? TX_ENDPOINT_ADDRESS
         then fill_tx_buffers TRANSFER_COUNT 0 0 d w
         else Ok (TRANSFER_COUNT, d, w));
      let w := log EvLock w in
      '(error, d, w) ←
        submit_ready_transfers ready_transfers 0 error_uninit endpoint_address cbk d w;
      '(error, d, w) ←
        (if error =? 0 then
           let d := set_streaming (Nat.eqb ready_transfers TRANSFER_COUNT) d in
           let d := set_transfers_setup true d in
           if negb (streaming d) && flush d then
             '(error, w) ← submit_flush_transfer d w;
             Ok (error, d, if negb (error =? 0) then set_last_error error w else w)
           else Ok (error, d, w)
         else Ok (error, d, w));
      let w := log EvUnlock w in
      Ok (if error =? 0 then TIMSSDR_SUCCESS else TIMSSDR_ERROR_LIBUSB, d, w)
  end.

Definition prepare_setup_transfers (error_uninit : Z) (endpoint_address : Z)
    (cb : option timssdr_sample_block_cb_fn) (d : timssdr_device) (w : world)
  : outcome (Z * timssdr_device * world) :=
  if transfers_setup d then Ok (TIMSSDR_ERROR_BUSY, d, w)
  else
    prepare_transfers error_uninit endpoint_address cb_timssdr_libusb_transfer_callback
      (set_callback cb d) w.

Definition timssdr_start_rx (error_uninit : Z) (cb : option timssdr_sample_block_cb_fn)
    (rx_ctx' : ctx) (d : timssdr_device) (w : world)
  : outcome (Z * timssdr_device * world) :=
  let d := set_rx_ctx rx_ctx' d in
  prepare_setup_transfers error_uninit RX_ENDPOINT_ADDRESS cb d w.

Definition timssdr_start_tx (error_uninit : Z) (cb : option timssdr_sample_block_cb_fn)
    (tx_ctx' : ctx) (d : timssdr_device) (w : world)
  : outcome (Z * timssdr_device * world) :=
  let d :=
    match flush_transfer d with
    | Some _ => set_flush true d
    | None => d
    end in
  let d := set_tx_ctx tx_ctx' d in
  prepare_setup_transfers error_uninit TX_ENDPOINT_ADDRESS cb d w.

(** *** Status query and the callback setters *)

Definition timssdr_is_streaming (d : timssdr_device) : Z :=
  if transfer_thread_started d && streaming d && negb (do_exit d) then TIMSSDR_TRUE
  else if negb (transfer_thread_started d) then TIMSSDR_ERROR_STREAMING_THREAD_ERR
  else if negb (streaming d) then TIMSSDR_ERROR_STREAMING_STOPPED
  else TIMSSDR_ERROR_STREAMING_EXIT_CALLED.

Definition timssdr_set_tx_block_complete_callback
    (cb : option timssdr_tx_block_complete_cb_fn) (d : timssdr_device)
  : Z * timssdr_device :=
  (TIMSSDR_SUCCESS, set_tx_completion_callback cb d).

(** [timssdr_enable_tx_flush]. [alloc_ok] tells whether
    [libusb_alloc_transfer] returns a transfer, [calloc_ok] whether
    [calloc(1, DEVICE_BUFFER_SIZE)] returns a buffer; neither is consulted
    when the flush transfer exists already. *)
Definition timssdr_enable_tx_flush (alloc_ok calloc_ok : bool)
    (cb : option timssdr_flush_cb_fn) (flush_ctx' : ctx) (d : timssdr_device) (w : world)
  : Z * timssdr_device * world :=
  let d := set_flush_callback cb d in
  let d := set_flush_ctx flush_ctx' d in
  match flush_transfer d with
  | Some _ => (TIMSSDR_SUCCESS, d, w)
  | None =>
      if alloc_ok then
        let w := log (EvAllocTransfer FlushTransfer) w in
        let t :=
          libusb_fill_bulk_transfer libusb_alloc_transfer TX_ENDPOINT_ADDRESS
            (if calloc_ok then Some (zeros DEVICE_BUFFER_SIZE) else None)
            DEVICE_BUFFER_SIZE cb_timssdr_libusb_flush_callback in
        let t := set_usb_flags LIBUSB_TRANSFER_FREE_BUFFER t in
        (TIMSSDR_SUCCESS, set_flush_transfer (Some t) d, w)
      else (TIMSSDR_ERROR_LIBUSB, d, w)
  end.

(** [libusb_free_transfer(device->flush_transfer)]; freeing NULL does
    nothing. *)
Definition free_flush_transfer (d : timssdr_device) (w : world) : world :=
  match flush_transfer d with
  | Some _ => log (EvFreeTransfer FlushTransfer) w
  | None => w
  end.

Definition timssdr_disable_tx_flush (d : timssdr_device) (w : world)
  : Z * timssdr_device * world :=
  let w := free_flush_transfer d w in
  let d := set_flush_transfer None d in
  let d := set_flush_callback None d in
  let d := set_flush_ctx 0 d in
  (TIMSSDR_SUCCESS, d, w).

(** *** Opening and closing a device *)

(** What the system answers while a device is opened:
    [set_timssdr_configuration], [libusb_claim_interface], the [calloc] of
    the device record, [pthread_mutex_init], [pthread_cond_init], the
    [calloc] of the ring, [libusb_alloc_transfer] per slot and
    [pthread_create]. *)
Record open_env : Type := mk_open_env {
  set_configuration_result : Z;
  claim_interface_result : Z;
  calloc_device_ok : bool;
  mutex_init_result : Z;
  cond_init_result : Z;
  calloc_transfers_ok : bool;
  alloc_transfer_ok : nat -> bool;
  pthread_create_result : Z
}.

(** The loop of [allocate_transfers]; [n] slots are left to allocate. *)
Fixpoint allocate_slots (n transfer_index : nat) (alloc_ok : nat -> bool)
    (ts : list (option libusb_transfer)) (w : world)
  : Z * list (option libusb_transfer) * world :=
  match n with
  | O => (TIMSSDR_SUCCESS, ts, w)
  | S n' =>
      if alloc_ok transfer_index then
        let w := log (EvAllocTransfer (Slot transfer_index)) w in
        let t :=
          libusb_fill_bulk_transfer libusb_alloc_transfer 0
            (Some (zeros TRANSFER_BUFFER_SIZE)) TRANSFER_BUFFER_SIZE cb_NULL in
        let ts := <[transfer_index := Some t]> ts in
        match usb_buffer t with
        | None => (TIMSSDR_ERROR_NO_MEM, ts, w)
        | Some _ => allocate_slots n' (S transfer_index) alloc_ok ts w
        end
      else (TIMSSDR_ERROR_LIBUSB, ts, w)
  end.

Definition allocate_transfers (env : open_env) (d : timssdr_device) (w : world)
  : Z * timssdr_device * world :=
  match transfers d with
  | None =>
      if calloc_transfers_ok env then
        let '(result, ts, w) :=
          allocate_slots TRANSFER_COUNT 0 (alloc_transfer_ok env)
            (repeat None TRANSFER_COUNT) w in
        (result, set_transfers (Some ts) d, w)
      else (TIMSSDR_ERROR_NO_MEM, d, w)
  | Some _ => (TIMSSDR_ERROR_BUSY, d, w)
  end.

Definition create_transfer_thread (env : open_env) (d : timssdr_device)
  : Z * timssdr_device :=
  if negb (transfer_thread_started d) then
    let d := set_streaming false d in
    let d := set_do_exit false d in
    if pthread_create_result env =? 0
    then (TIMSSDR_SUCCESS, set_transfer_thread_started true d)
    else (TIMSSDR_ERROR_THREAD, d)
  else (TIMSSDR_ERROR_BUSY, d).

(** [uint16_t] arithmetic on [open_devices]. *)
Definition uint16 (n : Z) : Z := n mod 65536.

(** The device record as [calloc] and the assignments of
    [timssdr_open_setup] leave it. *)
Definition fresh_device (usb_device' : Z) : timssdr_device :=
  mk_timssdr_device (Some usb_device') None None false false 0 0 false false 0 false
    None None None 0.

(** [timssdr_open_setup]: the result and, on success, the device stored
    through the [device] out-parameter. *)
Definition timssdr_open_setup (usb_device' : Z) (env : open_env) (w : world)
  : Z * option timssdr_device * world :=
  if negb (set_configuration_result env =? LIBUSB_SUCCESS)
  then (set_configuration_result env, None, w)
  else if negb (claim_interface_result env =? LIBUSB_SUCCESS)
  then (TIMSSDR_ERROR_LIBUSB, None, set_last_error (claim_interface_result env) w)
  else if negb (calloc_device_ok env) then (TIMSSDR_ERROR_NO_MEM, None, w)
  else
    let lib_device := fresh_device usb_device' in
    if negb (mutex_init_result env =? 0) then (TIMSSDR_ERROR_THREAD, None, w)
    else if negb (cond_init_result env =? 0) then (TIMSSDR_ERROR_THREAD, None, w)
    else
      let '(result, lib_device, w) := allocate_transfers env lib_device w in
      if negb (result =? 0) then (TIMSSDR_ERROR_NO_MEM, None, w)
      else
        let '(result, lib_device) := create_transfer_thread env lib_device in
        if negb (result =? 0) then (result, None, w)
        else
          let w := set_glob (set_open_devices (uint16 (open_devices (glob w) + 1)) (glob w)) w in
          (TIMSSDR_SUCCESS, Some lib_device, w).

(** [timssdr_open]. [device_out] tells whether the out-parameter is not
    NULL, [found] is what [libusb_open_device_with_vid_pid] returns. *)
Definition timssdr_open (device_out : bool) (found : option Z) (env : open_env) (w : world)
  : Z * option timssdr_device * world :=
  if negb device_out then (TIMSSDR_ERROR_INVALID_PARAM, None, w)
  else
    match found with
    | None => (TIMSSDR_ERROR_NOT_FOUND, None, w)
    | Some usb_device' => timssdr_open_setup usb_device' env w
    end.

(** [kill_transfer_thread]; [join_result] is what [pthread_join] returns. *)
Definition kill_transfer_thread (sched : list (list completion)) (join_result : Z)
    (d : timssdr_device) (w : world) : outcome (Z * timssdr_device * world) :=
  if transfer_thread_started d then
    '(_, d, w) ← cancel_transfers sched d w;
    let d := set_do_exit true d in
    if negb (join_result =? 0) then Ok (TIMSSDR_ERROR_THREAD, d, w)
    else
      let d := set_transfer_thread_started false d in
      Ok (TIMSSDR_SUCCESS, set_do_exit false d, w)
  else Ok (TIMSSDR_SUCCESS, set_do_exit false d, w).

(** The loop of [free_transfers]. *)
Fixpoint free_slots (n transfer_index : nat) (ts : list (option libusb_transfer))
    (w : world) : world :=
  match n with
  | O => w
  | S n' =>
      let w :=
        match ts !! transfer_index with
        | Some (Some _) => log (EvFreeTransfer (Slot transfer_index)) w
        | _ => w
        end in
      free_slots n' (S transfer_index) ts w
  end.

Definition free_transfers (d : timssdr_device) (w : world) : Z * timssdr_device * world :=
  let '(d, w) :=
    match transfers d with
    | Some ts => (set_transfers None d, free_slots TRANSFER_COUNT 0 ts w)
    | None => (d, w)
    end in
  (TIMSSDR_SUCCESS, d, free_flush_transfer d w).

(** [timssdr_close(device)], [None] being the NULL pointer. The device
    record is freed, so only the result and the world remain. *)
Definition timssdr_close (sched : list (list completion)) (join_result : Z)
    (device : option timssdr_device) (w : world) : outcome (Z * world) :=
  let result1 := TIMSSDR_SUCCESS in
  '(result2, w) ←
    match device with
    | Some d =>
        '(result2, d, w) ← kill_transfer_thread sched join_result d w;
        let d := set_usb_device None d in
        let '(_, _, w) := free_transfers d w in
        Ok (result2, w)
    | None => Ok (TIMSSDR_SUCCESS, w)
    end;
  let w := set_glob (set_open_devices (uint16 (open_devices (glob w) - 1)) (glob w)) w in
  if negb (result2 =? TIMSSDR_SUCCESS) then Ok (result2, w)
  else Ok (result1, w).

(** [timssdr_init]; [libusb_init_result] is what [libusb_init] returns. *)
Definition timssdr_init (libusb_init_result : Z) (w : world) : Z * world :=
  if g_libusb_context (glob w) then (TIMSSDR_SUCCESS, w)
  else if negb (libusb_init_result =? 0)
  then (TIMSSDR_ERROR_LIBUSB, set_last_error libusb_init_result w)
  else (TIMSSDR_SUCCESS, set_glob (set_g_libusb_context true (glob w)) w).

Definition timssdr_exit (w : world) : Z * world :=
  if open_devices (glob w) =? 0 then
    (TIMSSDR_SUCCESS, set_glob (set_g_libusb_context false (glob w)) w)
  else (TIMSSDR_ERROR_NOT_LAST_DEVICE, w).

End Engine.

Arguments timssdr_sample_block_cb_fn : clear implicits.
Arguments timssdr_tx_block_complete_cb_fn : clear implicits.
Arguments timssdr_flush_cb_fn : clear implicits.
Arguments timssdr_device : clear implicits.
Arguments world : clear implicits.
Arguments pad_to_512 : simpl never.
Arguments zeros : simpl never.

(** * Vocabulary of the statements *)

(** [n] rounded up to the nearest multiple of 512. *)
Definition round_up_512 (n : Z) : Z := (n + 511) / 512 * 512.

(** How often the application's sample-block callback was called. *)
Fixpoint sample_block_calls (tr : list event) : nat :=
  match tr with
  | [] => O
  | EvSampleBlock _ _ _ :: tr' => S (sample_block_calls tr')
  | _ :: tr' => sample_block_calls tr'
  end.

(** A transfer of the ring: its buffer is one slot of
    [TRANSFER_BUFFER_SIZE] bytes. *)
Definition slot_ok (t : libusb_transfer) : Prop :=
  exists b, usb_buffer t = Some b /\ Z.of_nat (length b) = TRANSFER_BUFFER_SIZE.

(** A callback writes inside the buffer it was given: the buffer has the
    same size afterwards. *)
Definition keeps_buffer (t t' : timssdr_transfer) : Prop :=
  forall b, buffer t = Some b -> exists b', buffer t' = Some b' /\ length b' = length b.

(** The descriptor does not announce more bytes than its buffer holds. *)
Definition within_buffer (t : timssdr_transfer) : Prop :=
  forall b, buffer t = Some b -> valid_length t <= Z.of_nat (length b).

(** The contract of a sample-block callback: it writes inside the buffer,
    and when it asks to go on (returns 0) the [valid_length] it leaves is not
    larger than the buffer, given that the one it found was not. *)
Definition sample_block_cb_ok {App : Type} (f : timssdr_sample_block_cb_fn App) : Prop :=
  forall (a : App) (t : timssdr_transfer),
    keeps_buffer t (f a t).1.2 /\
    (within_buffer t -> (f a t).1.1 = 0 -> within_buffer (f a t).1.2).

(** The same contract for the block-complete callback. *)
Definition tx_block_complete_cb_ok {App : Type}
    (f : timssdr_tx_block_complete_cb_fn App) : Prop :=
  forall (a : App) (t : timssdr_transfer) (s : bool),
    keeps_buffer t (f a t s).1 /\ (within_buffer t -> within_buffer (f a t s).1).

(** What the completion handler relies on when libusb calls it for slot
    [transfer_index]: the transfer exists, owns its slot and reports no more
    bytes than the slot holds, a well-behaved sample-block callback is
    installed, the block-complete callback (if any) is well behaved, and an
    armed flush has its transfer. *)
Definition completion_ready {App : Type} (d : timssdr_device App) (transfer_index : nat)
  : Prop :=
  (exists usb,
     get_xfer d (Slot transfer_index) = Ok usb /\ slot_ok usb /\
     usb_actual_length usb <= TRANSFER_BUFFER_SIZE) /\
  (exists f, callback d = Some f /\ sample_block_cb_ok f) /\
  (forall f, tx_completion_callback d = Some f -> tx_block_complete_cb_ok f) /\
  (flush d = true -> flush_transfer d <> None).

(** The transfer [t] carries [vl] bytes of [data] followed by zeros up to
    the next multiple of 512. *)
Definition padded (vl : Z) (data : option (list Z)) (t : libusb_transfer) : Prop :=
  usb_length t = round_up_512 vl /\
  exists b,
    usb_buffer t = Some b /\
    (forall j, vl <= j < round_up_512 vl -> b !! Z.to_nat j = Some 0) /\
    (forall b0, data = Some b0 ->
                forall j, 0 <= j < vl -> b !! Z.to_nat j = b0 !! Z.to_nat j).

(** Every data transfer handed to the transport on the TX endpoint in the
    events [tr] was filled by a sample-block callback call in [tr] on the same
    slot that returned 0 with a positive [valid_length], and is that data
    padded. *)
Definition tx_submissions_padded (tr : list event) : Prop :=
  forall (i : nat) (t : libusb_transfer) (result : Z),
    In (EvSubmit (Slot i) t result) tr ->
    usb_endpoint t = TX_ENDPOINT_ADDRESS ->
    exists t_cb,
      In (EvSampleBlock (Slot i) t_cb 0) tr /\
      0 < valid_length t_cb /\
      padded (valid_length t_cb) (buffer t_cb) t.

(** Events that are neither a callback call nor a submission of a slot. *)
Definition quiet (new : list event) : Prop :=
  sample_block_calls new = 0%nat /\
  (forall i t result, ~ In (EvSubmit (Slot i) t result) new).

(** Every slot of the ring is allocated and owns its buffer. *)
Definition ring_ok {App : Type} (d : timssdr_device App) : Prop :=
  forall i, (i < TRANSFER_COUNT)%nat ->
            exists usb, get_xfer d (Slot i) = Ok usb /\ slot_ok usb.

(** Slot [j] was filled by a sample-block callback call recorded in [tr]:
    the call returned 0 and left a positive [valid_length], which is the
    transfer's length, and the transfer holds the data of the call. *)
Definition filled {App : Type} (tr : list event) (d : timssdr_device App) (j : nat) : Prop :=
  exists usb t_cb,
    get_xfer d (Slot j) = Ok usb /\
    slot_ok usb /\
    In (EvSampleBlock (Slot j) t_cb 0) tr /\
    0 < valid_length t_cb <= TRANSFER_BUFFER_SIZE /\
    usb_length usb = valid_length t_cb /\
    usb_buffer usb = buffer t_cb.

(** The fields of the device other than the ring. *)
Definition same_flags {App : Type} (d d' : timssdr_device App) : Prop :=
  d' = set_transfers (transfers d') d.

(** The fields of the device other than the ring and the count of active
    transfers. *)
Definition same_session {App : Type} (d d' : timssdr_device App) : Prop :=
  d' = set_active_transfers (active_transfers d') (set_transfers (transfers d') d).

(** An armed flush has its transfer. *)
Definition flush_ok {App : Type} (d : timssdr_device App) : Prop :=
  flush d = true -> flush_transfer d <> None.

(** The two places where the library hands data transfers to the
    transport: the start of a TX session ([timssdr_start_tx], whose
    [prepare_transfers] makes the initial submissions) and the completion of
    the transfer of a slot (the handler, which may submit it again). *)
Inductive tx_site (App : Type) : Type :=
| AtStart (error_uninit : Z) (cb : timssdr_sample_block_cb_fn App) (tx_ctx' : ctx)
| AtCompletion (transfer_index : nat).
Arguments AtStart {App} error_uninit cb tx_ctx'.
Arguments AtCompletion {App} transfer_index.

Definition run_tx_site {App : Type} (site : tx_site App) (d : timssdr_device App)
    (w : world App) : outcome (timssdr_device App * world App) :=
  match site with
  | AtStart error_uninit cb tx_ctx' =>
      '(_, d, w) ← timssdr_start_tx error_uninit (Some cb) tx_ctx' d w;
      Ok (d, w)
  | AtCompletion transfer_index =>
      timssdr_libusb_transfer_callback (Slot transfer_index) d w
  end.

(** What each place relies on. *)
Definition tx_site_ready {App : Type} (site : tx_site App) (d : timssdr_device App)
  : Prop :=
  match site with
  | AtStart _ cb _ => ring_ok d /\ sample_block_cb_ok cb /\ flush_ok d
  | AtCompletion transfer_index => completion_ready d transfer_index
  end.

(** ** Concrete inputs

    The application state of the examples counts the calls of the
    sample-block callback. *)

(** A slot as [allocate_transfers] leaves it. *)
Definition idle_slot : libusb_transfer :=
  libusb_fill_bulk_transfer libusb_alloc_transfer 0
    (Some (zeros TRANSFER_BUFFER_SIZE)) TRANSFER_BUFFER_SIZE cb_NULL.

(** A device right after a successful [timssdr_open]. *)
Definition opened_device : timssdr_device nat :=
  mk_timssdr_device (Some 1) (Some (repeat (Some idle_slot) TRANSFER_COUNT)) None
    true false 0 0 false false 0 false None None None 0.

(** Every system call of [timssdr_open_setup] succeeds. *)
Definition all_ok : open_env := mk_open_env 0 0 true 0 0 true (fun _ => true) 0.

(** The world after [timssdr_init] and before any device is opened; the
    transport accepts every submission. *)
Definition initial_world : world nat :=
  mk_world (mk_globals 0 true 0) 0%nat [] 0%nat (fun _ => 0).

(** The world after the one device was opened. *)
Definition opened_world : world nat :=
  mk_world (mk_globals 1 true 0) 0%nat
    [EvAllocTransfer (Slot 0); EvAllocTransfer (Slot 1);
     EvAllocTransfer (Slot 2); EvAllocTransfer (Slot 3)]
    0%nat (fun _ => 0).

(** A TX callback that always offers 100 bytes, when the buffer can hold
    them. *)
Definition send_100 : timssdr_sample_block_cb_fn nat :=
  fun a t =>
    match buffer t with
    | Some b =>
        if 100 <=? Z.of_nat (length b)
        then (0, mk_timssdr_transfer (Some b) (buffer_length t) 100 (t_rx_ctx t) (t_tx_ctx t),
              S a)
        else (1, t, S a)
    | None => (1, t, S a)
    end.

(** A callback that leaves the block as it is and asks for more. *)
Definition keep_going : timssdr_sample_block_cb_fn nat :=
  fun a t => (0, t, S a).

(** A callback that declines at once. *)
Definition decline : timssdr_sample_block_cb_fn nat :=
  fun a t => (1, t, S a).

(** The ring while a session on [endpoint] is running. *)
Definition busy_slot (endpoint : Z) : libusb_transfer :=
  set_usb_callback cb_timssdr_libusb_transfer_callback (set_usb_endpoint endpoint idle_slot).

(** The device after [timssdr_start_rx] with callback [cb] and context 5. *)
Definition rx_device (cb : timssdr_sample_block_cb_fn nat) : timssdr_device nat :=
  mk_timssdr_device (Some 1)
    (Some (repeat (Some (busy_slot RX_ENDPOINT_ADDRESS)) TRANSFER_COUNT))
    (Some cb) true true 5 0 false true 4 false None None None 0.

(** The world after that call: four submissions under the lock. *)
Definition rx_world : world nat :=
  mk_world (mk_globals 1 true 0) 0%nat
    (trace opened_world ++
     [EvLock;
      EvSubmit (Slot 0) (busy_slot RX_ENDPOINT_ADDRESS) 0;
      EvSubmit (Slot 1) (busy_slot RX_ENDPOINT_ADDRESS) 0;
      EvSubmit (Slot 2) (busy_slot RX_ENDPOINT_ADDRESS) 0;
      EvSubmit (Slot 3) (busy_slot RX_ENDPOINT_ADDRESS) 0;
      EvUnlock])
    4%nat (fun _ => 0).

(** A TX callback that fills four blocks and then declines: of every five
    calls the first four return 0 and the fifth returns 1. *)
Definition four_then_stop : timssdr_sample_block_cb_fn nat :=
  fun a t => (if (a mod 5 <? 4)%nat then 0 else 1, t, S a).

(** The flush transfer as [timssdr_enable_tx_flush] builds it. *)
Definition fresh_flush_transfer : libusb_transfer :=
  mk_libusb_transfer TX_ENDPOINT_ADDRESS LIBUSB_TRANSFER_FREE_BUFFER 0 DEVICE_BUFFER_SIZE 0
    cb_timssdr_libusb_flush_callback (Some (zeros DEVICE_BUFFER_SIZE)).

(** The opened device after [timssdr_enable_tx_flush(device, NULL, 9)]. *)
Definition flush_enabled_device : timssdr_device nat :=
  set_flush_ctx 9 (set_flush_transfer (Some fresh_flush_transfer) opened_device).

(** The world after that call. *)
Definition flush_enabled_world : world nat :=
  log (EvAllocTransfer FlushTransfer) opened_world.

(** The RX session of [rx_device] on a device whose flush transfer had been
    enabled before. *)
Definition rx_flush_device (cb : timssdr_sample_block_cb_fn nat) : timssdr_device nat :=
  set_flush_ctx 9 (set_flush_transfer (Some fresh_flush_transfer) (rx_device cb)).

(** Two TX sessions on one device. In the first the application declines
    after four blocks, so that the handler submits the flush transfer, and
    calls [timssdr_stop_tx] at once: the three transfers still in flight are
    cancelled and the call returns, the cancelled flush transfer still being
    in flight. The application starts the second session; then the flush
    transfer of the first session completes, then the first transfer of the
    second, and the application stops the second session. *)
Definition stale_flush_scenario : outcome (Z * timssdr_device nat * world nat) :=
  let '(_, d, w) := timssdr_enable_tx_flush true true None 9 opened_device opened_world in
  '(_, d, w) ← timssdr_start_tx 0 (Some four_then_stop) 0 d w;
  '(d, w) ← libusb_complete
              (Completion (Slot 0) LIBUSB_TRANSFER_COMPLETED TRANSFER_BUFFER_SIZE) d w;
  '(_, d, w) ← timssdr_stop_tx
                 [[Completion (Slot 1) LIBUSB_TRANSFER_CANCELLED 0;
                   Completion (Slot 2) LIBUSB_TRANSFER_CANCELLED 0;
                   Completion (Slot 3) LIBUSB_TRANSFER_CANCELLED 0]] d w;
  '(_, d, w) ← timssdr_start_tx 0 (Some four_then_stop) 0 d w;
  '(d, w) ← libusb_complete (Completion FlushTransfer LIBUSB_TRANSFER_CANCELLED 0) d w;
  '(d, w) ← libusb_complete
              (Completion (Slot 0) LIBUSB_TRANSFER_COMPLETED TRANSFER_BUFFER_SIZE) d w;
  timssdr_stop_tx [] d w.

(** One call of [timssdr_enable_tx_flush]: its arguments and what the
    allocators would answer. *)
Record flush_request (App : Type) : Type := mk_flush_request {
  fr_callback : option (timssdr_flush_cb_fn App);
  fr_ctx : ctx;
  fr_alloc_ok : bool;
  fr_calloc_ok : bool
}.
Arguments mk_flush_request {App} fr_callback fr_ctx fr_alloc_ok fr_calloc_ok.
Arguments fr_callback {App} f.
Arguments fr_ctx {App} f.
Arguments fr_alloc_ok {App} f.
Arguments fr_calloc_ok {App} f.

(** The calls of [timssdr_enable_tx_flush] in [requests], one after the
    other on the same device, with their results in order. *)
Fixpoint enable_tx_flush_calls {App : Type} (requests : list (flush_request App))
    (d : timssdr_device App) (w : world App) : list Z * timssdr_device App * world App :=
  match requests with
  | [] => ([], d, w)
  | q :: requests' =>
      let '(result, d, w) :=
        timssdr_enable_tx_flush (fr_alloc_ok q) (fr_calloc_ok q) (fr_callback q) (fr_ctx q) d w in
      let '(results, d, w) := enable_tx_flush_calls requests' d w in
      (result :: results, d, w)
  end.

(** How many flush transfers were allocated. *)
Fixpoint flush_allocations (tr : list event) : nat :=
  match tr with
  | [] => O
  | EvAllocTransfer FlushTransfer :: tr' => S (flush_allocations tr')
  | _ :: tr' => flush_allocations tr'
  end.

(** The references of the transfers handed to the transport, in order. *)
Fixpoint submissions (tr : list event) : list xfer_ref :=
  match tr with
  | [] => []
  | EvSubmit r _ _ :: tr' => r :: submissions tr'
  | _ :: tr' => submissions tr'
  end.

(** The [rx_ctx] and [tx_ctx] the sample-block callback was given, call by call. *)
Fixpoint contexts_seen (tr : list event) : list (ctx * ctx) :=
  match tr with
  | [] => []
  | EvSampleBlock _ t _ :: tr' => (t_rx_ctx t, t_tx_ctx t) :: contexts_seen tr'
  | _ :: tr' => contexts_seen tr'
  end.

(** ** Vocabulary of the guarantees around the departures *)

(** What no completion handler changes: the globals, the transport, and
    the session flag; and no handler arms the flush. *)
Definition handler_frame {App : Type} (d : timssdr_device App) (w : world App)
    (d' : timssdr_device App) (w' : world App) : Prop :=
  glob w' = glob w /\
  libusb_submit_result w' = libusb_submit_result w /\
  transfers_setup d' = transfers_setup d /\
  (flush d = false -> flush d' = false).

(** How many sample-block callback calls returned 0 with a positive
    [valid_length]. *)
Fixpoint blocks_accepted (tr : list event) : nat :=
  match tr with
  | [] => O
  | EvSampleBlock _ t ret :: tr' =>
      if (ret =? 0) && (0 <? valid_length t) then S (blocks_accepted tr')
      else blocks_accepted tr'
  | _ :: tr' => blocks_accepted tr'
  end.

(** A call of the life-cycle interface: [timssdr_open] with what the
    system answers, or [timssdr_close] of a device (not NULL) with what the
    pump delivers and what [pthread_join] returns. *)
Inductive lifecycle_call (App : Type) : Type :=
| CallOpen (device_out : bool) (found : option Z) (env : open_env)
| CallClose (sched : list (list completion)) (join_result : Z) (device : timssdr_device App).
Arguments CallOpen {App} device_out found env.
Arguments CallClose {App} sched join_result device.

(** The calls one after the other, with their results. *)
Fixpoint run_lifecycle {App : Type} (calls : list (lifecycle_call App)) (w : world App)
  : outcome (list Z * world App) :=
  match calls with
  | [] => Ok ([], w)
  | CallOpen device_out found env :: calls' =>
      let '(result, _, w) := timssdr_open device_out found env w in
      '(results, w) ← run_lifecycle calls' w;
      Ok (result :: results, w)
  | CallClose sched join_result device :: calls' =>
      '(result, w) ← timssdr_close sched join_result (Some device) w;
      '(results, w) ← run_lifecycle calls' w;
      Ok (result :: results, w)
  end.

(** The number of opens among [calls] that returned [TIMSSDR_SUCCESS]. *)
Fixpoint successful_opens {App : Type} (calls : list (lifecycle_call App))
    (results : list Z) : Z :=
  match calls, results with
  | CallOpen _ _ _ :: calls', result :: results' =>
      (if result =? TIMSSDR_SUCCESS then 1 else 0) + successful_opens calls' results'
  | CallClose _ _ _ :: calls', _ :: results' => successful_opens calls' results'
  | _, _ => 0
  end.

(** The number of closes among [calls]. *)
Fixpoint closes {App : Type} (calls : list (lifecycle_call App)) : Z :=
  match calls with
  | [] => 0
  | CallOpen _ _ _ :: calls' => closes calls'
  | CallClose _ _ _ :: calls' => 1 + closes calls'
  end.

(** The opened device with the TX callback [send_100] installed, as
    [prepare_setup_transfers] passes it on. *)
Definition tx_ready_device : timssdr_device nat :=
  set_callback (Some send_100) opened_device.

(** One open that succeeds and the close of the device it returned. *)
Definition open_then_close : list (lifecycle_call nat) :=
  [CallOpen true (Some 1) all_ok; CallClose [] 0 opened_device].

(** Case analysis on the results of the steps of a handler. *)
Ltac frame_cases :=
  repeat match goal with
         | H : Ok _ = Ok _ |- _ => injection H as <- <-
         | H : Fault = Ok _ |- _ => discriminate H
         | H : Blocked = Ok _ |- _ => discriminate H
         | H : context [match ?x with _ => _ end] |- _ => destruct x eqn:?; cbn in H
         | H : context [if ?x then _ else _] |- _ => destruct x eqn:?; cbn in H
         end.

(** ** Vocabulary of the life of the transfers *)

(** The events of allocating the slots [0 .. k-1] of the ring. *)
Definition slot_allocations (first k : nat) : list event :=
  map (fun i => EvAllocTransfer (Slot i)) (seq first k).

(** The ring after the slots [first .. first+k-1] were allocated and filled. *)
Definition allocated_ring (first k : nat) (ts : list (option libusb_transfer))
  : list (option libusb_transfer) :=
  foldl (fun ts i => <[i := Some idle_slot]> ts) ts (seq first k).

(** The device [timssdr_open_setup] hands out for the handle [h]. *)
Definition idle_device {App : Type} (h : Z) : timssdr_device App :=
  mk_timssdr_device (Some h) (Some (repeat (Some idle_slot) TRANSFER_COUNT)) None
    true false 0 0 false false 0 false None None None 0.

(** The second [libusb_alloc_transfer] of the ring fails. *)
Definition third_alloc_fails : open_env :=
  mk_open_env 0 0 true 0 0 true (fun i => (i <? 2)%nat) 0.

(** The slots among [first .. first+n-1] of a ring that hold a transfer. *)
Definition allocated_slots (ts : list (option libusb_transfer)) (first n : nat)
  : list xfer_ref :=
  flat_map (fun i => match ts !! i with Some (Some _) => [Slot i] | _ => [] end)
    (seq first n).

(** The libusb transfers a device holds: those of its ring, in slot order,
    and its flush transfer. *)
Definition held_transfers {App : Type} (d : timssdr_device App) : list xfer_ref :=
  match transfers d with
  | Some ts => allocated_slots ts 0 TRANSFER_COUNT
  | None => []
  end ++
  match flush_transfer d with
  | Some _ => [FlushTransfer]
  | None => []
  end.

(** The calls of [libusb_alloc_transfer] ([true]) and [libusb_free_transfer]
    ([false]) in a trace, in order. *)
Fixpoint alloc_free_log (tr : list event) : list (bool * xfer_ref) :=
  match tr with
  | [] => []
  | EvAllocTransfer r :: tr' => (true, r) :: alloc_free_log tr'
  | EvFreeTransfer r :: tr' => (false, r) :: alloc_free_log tr'
  | _ :: tr' => alloc_free_log tr'
  end.

(** A step that allocates and frees nothing and leaves every transfer of
    the device in its place. *)
Definition keeps_transfers {App : Type} (d : timssdr_device App) (w : world App)
    (d' : timssdr_device App) (w' : world App) : Prop :=
  held_transfers d' = held_transfers d /\
  alloc_free_log (trace w') = alloc_free_log (trace w).

(** A step that changes flags and counters of the device only. *)
Definition same_ring {App : Type} (d : timssdr_device App) (w : world App)
    (d' : timssdr_device App) (w' : world App) : Prop :=
  transfers d' = transfers d /\ flush_transfer d' = flush_transfer d /\
  alloc_free_log (trace w') = alloc_free_log (trace w).

(** A completion libusb reports for a data transfer of the ring that is in
    flight (its callback is the data handler) and did not complete: it was
    cancelled, timed out or failed. *)
Definition failed_in_flight {App : Type} (d : timssdr_device App) (c : completion) : Prop :=
  match c with
  | Completion (Slot i) status _ =>
      status <> LIBUSB_TRANSFER_COMPLETED /\
      exists usb, get_xfer d (Slot i) = Ok usb /\
                  usb_callback usb = cb_timssdr_libusb_transfer_callback
  | Completion FlushTransfer _ _ => False
  end.

(** The calls of [libusb_cancel_transfer] in a trace, in order. *)
Fixpoint cancellations (tr : list event) : list xfer_ref :=
  match tr with
  | [] => []
  | EvCancel r :: tr' => r :: cancellations tr'
  | _ :: tr' => cancellations tr'
  end.

(** The RX session of [rx_device] once none of its transfers is in flight
    any more (each was reported as failed, so that the handler cleared
    [streaming] and counted it off). *)
Definition retired_rx_device : timssdr_device nat :=
  set_active_transfers 0 (set_streaming false (rx_device keep_going)).

(** libusb reports the four transfers of the ring as cancelled. *)
Definition four_cancelled : list completion :=
  map (fun i => Completion (Slot i) LIBUSB_TRANSFER_CANCELLED 0) (seq 0 TRANSFER_COUNT).

(** A transport that accepts two submissions and answers
    [LIBUSB_ERROR_BUSY] to the third. *)
Definition third_submit_refused : world nat :=
  mk_world (glob opened_world) (app opened_world) (trace opened_world) 0%nat
    (fun n => if (n <? 2)%nat then 0 else LIBUSB_ERROR_BUSY).

(** The calls of the block-complete callback in a trace: the success flag
    of each. *)
Fixpoint tx_block_complete_calls (tr : list event) : list bool :=
  match tr with
  | [] => []
  | EvTxBlockComplete _ success :: tr' => success :: tx_block_complete_calls tr'
  | _ :: tr' => tx_block_complete_calls tr'
  end.

(** A step that appends events to the trace, none of them a call of the
    block-complete callback. *)
Definition no_block_complete_call {App : Type} (w w' : world App) : Prop :=
  exists new, trace w' = trace w ++ new /\ tx_block_complete_calls new = [].

(** A block-complete callback that counts the blocks. *)
Definition count_block : timssdr_tx_block_complete_cb_fn nat :=
  fun a t _ => (t, S a).

(** The RX session of [rx_device] with that callback installed. *)
Definition rx_counting_device : timssdr_device nat :=
  (timssdr_set_tx_block_complete_callback (Some count_block) (rx_device keep_going)).2.

(** A TX session whose callback declines at once, started after the flush
    was enabled: [flush] is armed, the device is not streaming. *)
Definition armed_device : timssdr_device nat :=
  set_flush true (set_callback (Some decline) (rx_flush_device decline)).

(** The codes of [enum timssdr_error]. *)
Definition timssdr_error_codes : list Z := map Z.of_nat (seq 0 13).

(** ** Configuring the device: [detach_kernel_drivers] and
    [set_timssdr_configuration] *)

Definition LIBUSB_ERROR_NOT_SUPPORTED : Z := -12.

(** The libusb calls [set_timssdr_configuration] and
    [detach_kernel_drivers] make on the device handle. *)
Inductive libusb_call : Type :=
| GetActiveConfigDescriptor
| FreeConfigDescriptor
| KernelDriverActive (interface : nat)
| DetachKernelDriver (interface : nat)
| GetConfiguration
| SetConfiguration (config : Z).

(** What libusb answers to a call, given the calls made before it. For
    [libusb_get_active_config_descriptor] the answer is the result and
    [bNumInterfaces] of the descriptor, for [libusb_get_configuration] the
    result and the configuration stored through the pointer. *)
Record libusb_answers : Type := mk_libusb_answers {
  libusb_get_active_config_descriptor : list libusb_call -> Z * nat;
  libusb_kernel_driver_active : list libusb_call -> nat -> Z;
  libusb_detach_kernel_driver : list libusb_call -> nat -> Z;
  libusb_get_configuration : list libusb_call -> Z * Z;
  libusb_set_configuration : list libusb_call -> Z -> Z
}.

(** The loop of [detach_kernel_drivers] over the interfaces; [n] interfaces
    are left, [i] is the next one. *)
Fixpoint detach_interfaces (ans : libusb_answers) (n i : nat) (calls : list libusb_call)
    (g : globals) : Z * list libusb_call * globals :=
  match n with
  | O => (TIMSSDR_SUCCESS, calls, g)
  | S n' =>
      let result := libusb_kernel_driver_active ans calls i in
      let calls := calls ++ [KernelDriverActive i] in
      if result <? 0 then
        if result =? LIBUSB_ERROR_NOT_SUPPORTED then (0, calls, g)
        else (TIMSSDR_ERROR_LIBUSB, calls, set_last_libusb_error result g)
      else if result =? 1 then
        let result := libusb_detach_kernel_driver ans calls i in
        let calls := calls ++ [DetachKernelDriver i] in
        if negb (result =? 0)
        then (TIMSSDR_ERROR_LIBUSB, calls, set_last_libusb_error result g)
        else detach_interfaces ans n' (S i) calls g
      else detach_interfaces ans n' (S i) calls g
  end.

Definition detach_kernel_drivers (ans : libusb_answers) (calls : list libusb_call)
    (g : globals) : Z * list libusb_call * globals :=
  let '(result, num_interfaces) := libusb_get_active_config_descriptor ans calls in
  let calls := calls ++ [GetActiveConfigDescriptor] in
  if result <? 0 then (TIMSSDR_ERROR_LIBUSB, calls, set_last_libusb_error result g)
  else
    let calls := calls ++ [FreeConfigDescriptor] in
    detach_interfaces ans num_interfaces 0 calls g.

Definition set_timssdr_configuration (ans : libusb_answers) (config : Z)
    (calls : list libusb_call) (g : globals) : Z * list libusb_call * globals :=
  (* the statements after the block [if (curr_config != config) { ... }] *)
  let finish calls g :=
    let '(result, calls, g) := detach_kernel_drivers ans calls g in
    if negb (result =? 0) then (result, calls, g)
    else (LIBUSB_SUCCESS, calls, g) in
  let '(result, curr_config) := libusb_get_configuration ans calls in
  let calls := calls ++ [GetConfiguration] in
  if negb (result =? 0) then (TIMSSDR_ERROR_LIBUSB, calls, set_last_libusb_error result g)
  else if negb (curr_config =? config) then
    let '(result, calls, g) := detach_kernel_drivers ans calls g in
    if negb (result =? 0) then (result, calls, g)
    else
      let result := libusb_set_configuration ans calls config in
      let calls := calls ++ [SetConfiguration config] in
      if negb (result =? 0)
      then (TIMSSDR_ERROR_LIBUSB, calls, set_last_libusb_error result g)
      else finish calls g
  else finish calls g.

(** [timssdr_open_setup] with its first step, the call of
    [set_timssdr_configuration(usb_device, USB_CONFIG_STANDARD)], carried out
    on the answers of libusb: the result of that call takes the place of
    [set_configuration_result], and what it stored in [last_libusb_error] is
    in the globals. *)
Definition timssdr_open_setup_configuring {App : Type} (ans : libusb_answers)
    (usb_device' : Z) (env : open_env) (w : world App)
  : Z * option (timssdr_device App) * world App * list libusb_call :=
  let '(result, calls, g) := set_timssdr_configuration ans USB_CONFIG_STANDARD [] (glob w) in
  let env :=
    mk_open_env result (claim_interface_result env) (calloc_device_ok env)
      (mutex_init_result env) (cond_init_result env) (calloc_transfers_ok env)
      (alloc_transfer_ok env) (pthread_create_result env) in
  (timssdr_open_setup usb_device' env (set_glob g w), calls).

(** What libusb answered to [call], made after the calls [before]:
    the value the call returned, 0 for a call that returns nothing. *)
Definition libusb_answer (ans : libusb_answers) (before : list libusb_call)
    (call : libusb_call) : Z :=
  match call with
  | GetActiveConfigDescriptor => (libusb_get_active_config_descriptor ans before).1
  | FreeConfigDescriptor => 0
  | KernelDriverActive i => libusb_kernel_driver_active ans before i
  | DetachKernelDriver i => libusb_detach_kernel_driver ans before i
  | GetConfiguration => (libusb_get_configuration ans before).1
  | SetConfiguration config => libusb_set_configuration ans before config
  end.

(** A function started with the globals [g] gave [out], its result, all
    the libusb calls made so far and the globals: it succeeded and left the
    globals alone, or it returned [TIMSSDR_ERROR_LIBUSB] right after a
    libusb call that answered a code other than 0, and that code is in
    [last_libusb_error], nothing else being changed. *)
Definition reports_libusb_error (ans : libusb_answers) (g : globals)
    (out : Z * list libusb_call * globals) : Prop :=
  out.1.1 = TIMSSDR_SUCCESS /\ out.2 = g \/
  out.1.1 = TIMSSDR_ERROR_LIBUSB /\
  exists before call,
    out.1.2 = before ++ [call] /\
    libusb_answer ans before call <> 0 /\
    out.2 = set_last_libusb_error (libusb_answer ans before call) g.

(** Every [libusb_detach_kernel_driver] among the calls [new], made after
    the calls [calls], is for the interface about which the call just
    before asked [libusb_kernel_driver_active], which answered 1. *)
Definition detaches_active_only (ans : libusb_answers) (calls new : list libusb_call)
  : Prop :=
  forall pre post i,
    new = pre ++ DetachKernelDriver i :: post ->
    exists pre',
      pre = pre' ++ [KernelDriverActive i] /\
      libusb_kernel_driver_active ans (calls ++ pre') i = 1.

(** [libusb_set_configuration] is not among the calls. *)
Definition no_set_configuration (new : list libusb_call) : Prop :=
  forall config, ~ In (SetConfiguration config) new.

(** How often the calls ask for the active configuration descriptor, which
    [detach_kernel_drivers] does once per run. *)
Fixpoint descriptor_reads (new : list libusb_call) : nat :=
  match new with
  | [] => O
  | GetActiveConfigDescriptor :: new' => S (descriptor_reads new')
  | _ :: new' => descriptor_reads new'
  end.

(** What one run of a step over the calls guarantees. *)
Definition configuration_step (ans : libusb_answers) (calls : list libusb_call)
    (g : globals) (out : Z * list libusb_call * globals) : Prop :=
  reports_libusb_error ans g out /\
  exists new,
    out.1.2 = calls ++ new /\
    detaches_active_only ans calls new /\
    no_set_configuration new.

(** libusb cannot read the configuration: [LIBUSB_ERROR_NO_DEVICE]. *)
Definition device_gone : libusb_answers :=
  mk_libusb_answers (fun _ => (0, 1%nat)) (fun _ _ => 0) (fun _ _ => 0)
    (fun _ => (-4, 0)) (fun _ _ => 0).

(** ** Finding the boards on the bus: [timssdr_open_usb],
    [timssdr_open_by_serial] and the device list *)

Definition TIMSSDR_VENDOR_ID : Z := 0x0403.

Definition TIMSSDR_PRODUCT_ID : Z := 0x6014.

Definition timssdr_usb_vid : Z := TIMSSDR_VENDOR_ID.

Definition timssdr_usb_pid : Z := TIMSSDR_PRODUCT_ID.

Definition USB_MAX_SERIAL_LENGTH : Z := 32.

(** A USB device as libusb shows it during one scan: the fields of its
    device descriptor the library reads, what [libusb_open] returns for it,
    and what [libusb_get_string_descriptor_ascii] does for its serial-number
    string: it returns an error code, or it writes the characters and
    returns their number. *)
Record libusb_device : Type := mk_libusb_device {
  idVendor : Z;
  idProduct : Z;
  iSerialNumber : Z;
  libusb_open_result : Z;
  string_descriptor : Z + list Z
}.

(** What the scans do to the outside, in order: the libusb calls on device
    [i] of the list, the lines printed, and the memory freed. *)
Inductive usb_event : Type :=
| UsbOpen (i : nat) (result : Z)
| UsbClose (i : nat)
| UsbFreeDeviceList
| PrintDevicesFound
| PrintIds (vendor product : Z)
| FreeSerialNumber (idx : nat)
| FreeSerialNumbers
| FreeUsbBoardIds
| FreeUsbDeviceIndex
| FreeList.

(** [strlen] of the C string whose characters are the list up to its first
    0 (the memory holds a 0 after the list). *)
Fixpoint strlen (s : list Z) : nat :=
  match s with
  | [] => O
  | c :: s' => if c =? 0 then O else S (strlen s')
  end.

(** [strncmp(s1, s2, n)] on the memory the two pointers point to; reading
    beyond it is a fault. *)
Fixpoint strncmp (s1 s2 : list Z) (n : nat) {struct n} : outcome Z :=
  match n with
  | O => Ok 0
  | S n' =>
      match s1, s2 with
      | c1 :: s1', c2 :: s2' =>
          if c1 =? c2 then (if c1 =? 0 then Ok 0 else strncmp s1' s2' n')
          else Ok (c1 - c2)
      | _, _ => Fault
      end
  end.

(** [strdup(s)]: the characters of the memory up to the first 0. *)
Fixpoint strdup (mem : list Z) : outcome (list Z) :=
  match mem with
  | [] => Fault
  | c :: mem' => if c =? 0 then Ok [] else (s ← strdup mem'; Ok (c :: s))
  end.

(** [libusb_get_string_descriptor_ascii(handle, index, data, 64)] for the
    serial-number string of [dev]: on success at most 63 characters and a
    terminating 0 are written at the start of [data]. *)
Definition libusb_get_string_descriptor_ascii (dev : libusb_device) (data : list Z)
  : Z * list Z :=
  match string_descriptor dev with
  | inl error => (error, data)
  | inr chars =>
      let chars := take 63 chars in
      (Z.of_nat (length chars), chars ++ [0] ++ drop (S (length chars)) data)
  end.

(** [serial_number[serial_number_length] = 0] on the 64-byte array. *)
Definition terminate_at (serial_number : list Z) (serial_number_length : Z)
  : outcome (list Z) :=
  if (0 <=? serial_number_length) && (serial_number_length <? Z.of_nat (length serial_number))
  then Ok (<[Z.to_nat serial_number_length := 0]> serial_number)
  else Fault.

(** How a round of the loop of [timssdr_open_usb] ends: with [break], the
    variable [usb_device] holding the handle of a device of the list (given
    by its index) or NULL, or by going on to the next device with the local
    array [serial_number] as it is now. *)
Inductive open_usb_round : Type :=
| Break (usb_device' : option nat) (log : list usb_event)
| Continue (serial_number : list Z) (log : list usb_event).

(** The body of the loop of [timssdr_open_usb] for device [i]. *)
Definition timssdr_open_usb_round (desired_serial_number : option (list Z)) (match_len : Z)
    (i : nat) (dev : libusb_device) (serial_number : list Z) (log : list usb_event)
  : outcome open_usb_round :=
  if (idVendor dev =? timssdr_usb_vid) && (idProduct dev =? timssdr_usb_pid) then
    match desired_serial_number with
    | Some desired =>
        if 0 <? iSerialNumber dev then
          let log := log ++ [UsbOpen i (libusb_open_result dev)] in
          if negb (libusb_open_result dev =? 0) then Ok (Continue serial_number log)
          else
            let '(serial_number_length, serial_number) :=
              libusb_get_string_descriptor_ascii dev serial_number in
            let serial_number_length :=
              if serial_number_length >=? USB_MAX_SERIAL_LENGTH
              then USB_MAX_SERIAL_LENGTH else serial_number_length in
            serial_number ← terminate_at serial_number serial_number_length;
            if serial_number_length - match_len <? 0 then Fault
            else
              diff ← strncmp
                       (drop (Z.to_nat (serial_number_length - match_len)) serial_number)
                       (desired ++ [0]) (Z.to_nat match_len);
              if diff =? 0 then Ok (Break (Some i) log)
              else Ok (Continue serial_number (log ++ [UsbClose i]))
        else Ok (Continue serial_number log)
    | None =>
        Ok (Break (if libusb_open_result dev =? 0 then Some i else None)
              (log ++ [UsbOpen i (libusb_open_result dev)]))
    end
  else Ok (Continue serial_number log).

(** The loop of [timssdr_open_usb] from device [i] on; the result is the
    value of [usb_device] after the loop, which is NULL when the loop ran to
    the end of the list. *)
Fixpoint timssdr_open_usb_scan (desired_serial_number : option (list Z)) (match_len : Z)
    (devices : list libusb_device) (i : nat) (serial_number : list Z)
    (log : list usb_event) : outcome (option nat * list usb_event) :=
  match devices with
  | [] => Ok (None, log)
  | dev :: devices' =>
      round ← timssdr_open_usb_round desired_serial_number match_len i dev serial_number log;
      match round with
      | Break usb_device' log => Ok (usb_device', log)
      | Continue serial_number log =>
          timssdr_open_usb_scan desired_serial_number match_len devices' (S i)
            serial_number log
      end
  end.

(** [timssdr_open_usb(desired_serial_number)]. [device_list] is what
    [libusb_get_device_list] finds ([None] when it fails, with a negative
    count), [serial_number] the contents of the local array on entry, which
    C leaves unspecified. *)
Definition timssdr_open_usb (desired_serial_number : option (list Z))
    (device_list : option (list libusb_device)) (serial_number : list Z)
  : outcome (option nat * list usb_event) :=
  let match_len :=
    match desired_serial_number with
    | Some desired => Z.of_nat (strlen desired)
    | None => 0
    end in
  if 32 <? match_len then Ok (None, [])
  else
    '(usb_device', log) ←
      timssdr_open_usb_scan desired_serial_number match_len (default [] device_list) 0
        serial_number [];
    Ok (usb_device', log ++ [UsbFreeDeviceList]).

(** [timssdr_open_by_serial]. *)
Definition timssdr_open_by_serial {App : Type} (desired_serial_number : option (list Z))
    (device_out : bool) (found : option Z) (device_list : option (list libusb_device))
    (serial_number : list Z) (env : open_env) (w : world App)
  : outcome (Z * option (timssdr_device App) * world App * list usb_event) :=
  match desired_serial_number with
  | None =>
      let '(result, device, w) := timssdr_open device_out found env w in
      Ok (result, device, w, [])
  | Some _ =>
      if negb device_out then Ok (TIMSSDR_ERROR_INVALID_PARAM, None, w, [])
      else
        '(usb_device', log) ← timssdr_open_usb desired_serial_number device_list serial_number;
        match usb_device' with
        | None => Ok (TIMSSDR_ERROR_NOT_FOUND, None, w, log)
        | Some i =>
            let '(result, device, w) := timssdr_open_setup (Z.of_nat i) env w in
            Ok (result, device, w, log)
        end
  end.

(** [struct timssdr_device_list]; an array that may be NULL is an
    [option]. *)
Record timssdr_device_list_t : Type := mk_timssdr_device_list_t {
  serial_numbers : option (list (option (list Z)));
  usb_board_ids : option (list Z);
  usb_device_index : option (list Z);
  devicecount : Z;
  usb_devices : option (list libusb_device);
  usb_devicecount : Z
}.

Definition set_serial_numbers v (l : timssdr_device_list_t) : timssdr_device_list_t :=
  mk_timssdr_device_list_t v (usb_board_ids l) (usb_device_index l) (devicecount l)
    (usb_devices l) (usb_devicecount l).

Definition set_usb_board_ids v (l : timssdr_device_list_t) : timssdr_device_list_t :=
  mk_timssdr_device_list_t (serial_numbers l) v (usb_device_index l) (devicecount l)
    (usb_devices l) (usb_devicecount l).

Definition set_usb_device_index v (l : timssdr_device_list_t) : timssdr_device_list_t :=
  mk_timssdr_device_list_t (serial_numbers l) (usb_board_ids l) v (devicecount l)
    (usb_devices l) (usb_devicecount l).

Definition set_devicecount v (l : timssdr_device_list_t) : timssdr_device_list_t :=
  mk_timssdr_device_list_t (serial_numbers l) (usb_board_ids l) (usb_device_index l) v
    (usb_devices l) (usb_devicecount l).

(** [array[idx] = v] through a pointer that may be NULL, on an array that
    holds [length array] elements: a store behind the block is undefined
    behaviour. *)
Definition store {A : Type} (array : option (list A)) (idx : nat) (v : A)
  : outcome (option (list A)) :=
  match array with
  | Some a => if (idx <? length a)%nat then Ok (Some (<[idx := v]> a)) else Fault
  | None => Fault
  end.

(** What the allocator answers during [timssdr_device_list]: the four
    [calloc]s and the [strdup] for device [i]. *)
Record list_env : Type := mk_list_env {
  calloc_list_ok : bool;
  calloc_serial_numbers_ok : bool;
  calloc_usb_board_ids_ok : bool;
  calloc_usb_device_index_ok : bool;
  strdup_ok : nat -> bool
}.

(** [uint8_t] conversion. *)
Definition uint8 (n : Z) : Z := n mod 256.

(** The body of the loop of [timssdr_device_list] for device [i]: the
    local array [serial_number], the list and the log afterwards. *)
Definition timssdr_device_list_round (env : list_env) (i : nat) (dev : libusb_device)
    (serial_number : list Z) (lst : timssdr_device_list_t) (log : list usb_event)
  : outcome (list Z * timssdr_device_list_t * list usb_event) :=
  let log := log ++ [PrintIds (idVendor dev) (idProduct dev)] in
  if (idVendor dev =? timssdr_usb_vid) && (idProduct dev =? timssdr_usb_pid) then
    let idx := Z.to_nat (uint8 (devicecount lst)) in
    let lst := set_devicecount (devicecount lst + 1) lst in
    ids ← store (usb_board_ids lst) idx (idProduct dev);
    let lst := set_usb_board_ids ids lst in
    index ← store (usb_device_index lst) idx (Z.of_nat i);
    let lst := set_usb_device_index index lst in
    if 0 <? iSerialNumber dev then
      let log := log ++ [UsbOpen i (libusb_open_result dev)] in
      if negb (libusb_open_result dev =? 0) then Ok (serial_number, lst, log)
      else
        let '(result, serial_number) :=
          libusb_get_string_descriptor_ascii dev serial_number in
        let serial_number_length := uint8 result in
        let serial_number_length :=
          if serial_number_length >=? USB_MAX_SERIAL_LENGTH
          then USB_MAX_SERIAL_LENGTH else serial_number_length in
        serial_number ← terminate_at serial_number serial_number_length;
        copy ← strdup serial_number;
        serials ← store (serial_numbers lst) idx
                    (if strdup_ok env i then Some copy else None);
        let lst := set_serial_numbers serials lst in
        Ok (serial_number, lst, log ++ [UsbClose i])
    else Ok (serial_number, lst, log)
  else Ok (serial_number, lst, log).

(** The loop of [timssdr_device_list] from device [i] on. *)
Fixpoint timssdr_device_list_scan (env : list_env) (devices : list libusb_device) (i : nat)
    (serial_number : list Z) (lst : timssdr_device_list_t) (log : list usb_event)
  : outcome (list Z * timssdr_device_list_t * list usb_event) :=
  match devices with
  | [] => Ok (serial_number, lst, log)
  | dev :: devices' =>
      '(serial_number, lst, log) ←
        timssdr_device_list_round env i dev serial_number lst log;
      timssdr_device_list_scan env devices' (S i) serial_number lst log
  end.

(** The loop of [timssdr_device_list_free] over the serial numbers. *)
Fixpoint free_serial_numbers (n i : nat) (serials : option (list (option (list Z))))
    (log : list usb_event) : outcome (list usb_event) :=
  match n with
  | O => Ok log
  | S n' =>
      match serials with
      | Some a =>
          match a !! i with
          | Some (Some _) => free_serial_numbers n' (S i) serials (log ++ [FreeSerialNumber i])
          | Some None => free_serial_numbers n' (S i) serials log
          | None => Fault
          end
      | None => Fault
      end
  end.

(** [timssdr_device_list_free(list)]; [free(NULL)] does nothing. *)
Definition timssdr_device_list_free (lst : timssdr_device_list_t) (log : list usb_event)
  : outcome (list usb_event) :=
  let log := log ++ [UsbFreeDeviceList] in
  log ← free_serial_numbers (Z.to_nat (devicecount lst)) 0 (serial_numbers lst) log;
  let log := match serial_numbers lst with Some _ => log ++ [FreeSerialNumbers] | None => log end in
  let log := match usb_board_ids lst with Some _ => log ++ [FreeUsbBoardIds] | None => log end in
  let log :=
    match usb_device_index lst with Some _ => log ++ [FreeUsbDeviceIndex] | None => log end in
  Ok (log ++ [FreeList]).

(** [sizeof(timssdr_usb_vid)], the size of a [uint16_t], with which the
    block of [usb_board_ids] is allocated, and the size of the elements the
    array has, [enum timssdr_usb_board_id]: that of [int], 4 bytes, with
    GCC, Clang and MSVC. *)
Definition sizeof_timssdr_usb_vid : Z := 2.
Definition sizeof_timssdr_usb_board_id : Z := 4.

(** The whole elements of [elem] bytes each that the block returned by
    [calloc(nmemb, size)] holds. *)
Definition calloc_elements (nmemb size elem : Z) : nat := Z.to_nat (nmemb * size / elem).

(** [timssdr_device_list()]: the list, or [None] for NULL. [device_list]
    is what [libusb_get_device_list] answers: an error code, or the
    devices. [serial_numbers] and [usb_device_index] are allocated with the
    size of their elements; [usb_board_ids] is allocated with
    [sizeof(timssdr_usb_vid)] bytes per USB device, half of what its
    elements take. *)
Definition timssdr_device_list (env : list_env) (device_list : Z + list libusb_device)
    (serial_number : list Z) : outcome (option timssdr_device_list_t * list usb_event) :=
  if negb (calloc_list_ok env) then Ok (None, [])
  else
    let lst :=
      match device_list with
      | inl error =>
          mk_timssdr_device_list_t None None None 0 None error
      | inr devices =>
          mk_timssdr_device_list_t None None None 0 (Some devices)
            (Z.of_nat (length devices))
      end in
    let zeroed {A : Type} (ok : bool) (zero : A) (elements : nat) : option (list A) :=
      if ok then Some (repeat zero elements) else None in
    let lst :=
      set_serial_numbers
        (zeroed (calloc_serial_numbers_ok env) None (Z.to_nat (usb_devicecount lst))) lst in
    let lst :=
      set_usb_board_ids
        (zeroed (calloc_usb_board_ids_ok env) 0
           (calloc_elements (usb_devicecount lst) sizeof_timssdr_usb_vid
              sizeof_timssdr_usb_board_id)) lst in
    let lst :=
      set_usb_device_index
        (zeroed (calloc_usb_device_index_ok env) 0 (Z.to_nat (usb_devicecount lst))) lst in
    match serial_numbers lst, usb_board_ids lst, usb_device_index lst with
    | Some _, Some _, Some _ =>
        '(_, lst, log) ←
          timssdr_device_list_scan env (default [] (usb_devices lst)) 0 serial_number lst
            [PrintDevicesFound];
        Ok (Some lst, log)
    | _, _, _ =>
        log ← timssdr_device_list_free lst [];
        Ok (None, log)
    end.

(** [timssdr_device_list_open(list, idx, device)]. [open_result] is what
    [libusb_open] returns now for the device the entry points to. *)
Definition timssdr_device_list_open {App : Type} (lst : option timssdr_device_list_t)
    (idx : Z) (device_out : bool) (open_result : Z) (env : open_env) (w : world App)
  : outcome (Z * option (timssdr_device App) * world App) :=
  match lst with
  | Some l =>
      if negb device_out || (idx <? 0) || (idx >=? devicecount l)
      then Ok (TIMSSDR_ERROR_INVALID_PARAM, None, w)
      else
        match usb_device_index l, usb_devices l with
        | Some index, Some devices =>
            match index !! Z.to_nat idx with
            | Some i =>
                if (0 <=? i) && (i <? Z.of_nat (length devices)) then
                  if negb (open_result =? 0)
                  then Ok (TIMSSDR_ERROR_LIBUSB, None, set_last_error open_result w)
                  else Ok (timssdr_open_setup i env w)
                else Fault
            | None => Fault
            end
        | _, _ => Fault
        end
  | None => Ok (TIMSSDR_ERROR_INVALID_PARAM, None, w)
  end.

(** The device has the vendor and product id of the board. *)
Definition is_timssdr (dev : libusb_device) : bool :=
  (idVendor dev =? timssdr_usb_vid) && (idProduct dev =? timssdr_usb_pid).

(** The first device of the list that satisfies [p], with its index; [i]
    is the index of the head of the list. *)
Fixpoint find_device (p : libusb_device -> bool) (devices : list libusb_device) (i : nat)
  : option (nat * libusb_device) :=
  match devices with
  | [] => None
  | dev :: devices' => if p dev then Some (i, dev) else find_device p devices' (S i)
  end.

(** The serial number of a device as the library reads it: the first 32
    characters of the string descriptor. *)
Definition listed_serial (dev : libusb_device) : list Z :=
  match string_descriptor dev with
  | inr chars => take 32 chars
  | inl _ => []
  end.

(** A board that has a serial-number string and can be opened. *)
Definition candidate (dev : libusb_device) : bool :=
  is_timssdr dev && (0 <? iSerialNumber dev) && (libusb_open_result dev =? 0).

(** The serial number of the device ends with the requested one. *)
Definition serial_ends_with (desired : list Z) (dev : libusb_device) : bool :=
  bool_decide
    (drop (length (listed_serial dev) - strlen desired) (listed_serial dev) =
     take (strlen desired) desired).

(** The handles that are open after the events of a log: opened with
    success and not closed since. *)
Definition open_handles (log : list usb_event) : list nat :=
  foldl (fun held e =>
           match e with
           | UsbOpen i result => if result =? 0 then held ++ [i] else held
           | UsbClose i => remove Nat.eq_dec i held
           | _ => held
           end) [] log.

(** The serial number of every candidate can be read and is not shorter
    than the requested one. *)
Definition serials_readable (desired : list Z) (devices : list libusb_device) : Prop :=
  Forall (fun dev =>
            candidate dev = true ->
            exists chars, string_descriptor dev = inr chars /\
                          (strlen desired <= length (take 32 chars))%nat) devices.

(** A board with the serial number [serial]. *)
Definition board (serial : list Z) : libusb_device :=
  mk_libusb_device TIMSSDR_VENDOR_ID TIMSSDR_PRODUCT_ID 3 0 (inr serial).

(** Another USB device. *)
Definition mouse : libusb_device := mk_libusb_device 0x046d 0xc077 0 0 (inr []).

(** The characters of [TIMS0001], [TIMS0002] and [0002]. *)
Definition serial_TIMS0001 : list Z := [84; 73; 77; 83; 48; 48; 48; 49].

Definition serial_TIMS0002 : list Z := [84; 73; 77; 83; 48; 48; 48; 50].

Definition serial_0002 : list Z := [48; 48; 48; 50].

(** A mouse and two boards. *)
Definition two_boards : list libusb_device :=
  [mouse; board serial_TIMS0001; board serial_TIMS0002].

(** Two boards on a bus with two other devices. *)
Definition two_boards_two_mice : list libusb_device :=
  [mouse; board serial_TIMS0001; mouse; board serial_TIMS0002].

(** The boards among the devices, each with its index in the list; [i] is
    the index of the head of the list. *)
Fixpoint boards (devices : list libusb_device) (i : nat) : list (nat * libusb_device) :=
  match devices with
  | [] => []
  | dev :: devices' =>
      if is_timssdr dev then (i, dev) :: boards devices' (S i) else boards devices' (S i)
  end.

(** The board has a serial-number string and [libusb_open] succeeds. *)
Definition serial_readable (dev : libusb_device) : bool :=
  (0 <? iSerialNumber dev) && (libusb_open_result dev =? 0).

(** What an entry of [serial_numbers] is for the board [b.2] at index
    [b.1]: a string of at most 32 characters or NULL; NULL when the board has
    no serial-number string, cannot be opened, or [strdup] fails; and the
    first 32 characters of the string descriptor when that can be read and
    holds no 0 character. *)
Definition serial_entry_ok (env : list_env) (b : nat * libusb_device)
    (entry : option (list Z)) : Prop :=
  (forall s, entry = Some s -> (length s <= 32)%nat) /\
  (serial_readable b.2 = false -> entry = None) /\
  (strdup_ok env b.1 = false -> entry = None) /\
  (forall chars,
     serial_readable b.2 = true -> strdup_ok env b.1 = true ->
     string_descriptor b.2 = inr chars ->
     Forall (fun c => c <> 0) (take 32 chars) ->
     entry = Some (take 32 chars)).

(** The elements [usb_board_ids] has room for on a bus of [n] devices. *)
Definition usb_board_ids_room (n : nat) : nat :=
  calloc_elements (Z.of_nat n) sizeof_timssdr_usb_vid sizeof_timssdr_usb_board_id.

(** The list holds the boards [bs] with the serial-number entries
    [entries]: [serial_numbers] and [usb_device_index] in arrays of [n]
    elements, [usb_board_ids] in one of [room] elements, the rest of which
    is still zero. *)
Definition built (n room : nat) (bs : list (nat * libusb_device))
    (entries : list (option (list Z))) (lst : timssdr_device_list_t) : Prop :=
  devicecount lst = Z.of_nat (length bs) /\
  usb_device_index lst =
    Some (map (fun b => Z.of_nat b.1) bs ++ repeat 0 (n - length bs)) /\
  usb_board_ids lst =
    Some (repeat TIMSSDR_PRODUCT_ID (length bs) ++ repeat 0 (room - length bs)) /\
  serial_numbers lst = Some (entries ++ repeat None (n - length bs)) /\
  length entries = length bs.

(** The lines printed for the devices. *)
Fixpoint printed_ids (log : list usb_event) : list (Z * Z) :=
  match log with
  | [] => []
  | PrintIds vendor product :: log' => (vendor, product) :: printed_ids log'
  | _ :: log' => printed_ids log'
  end.

(** Every allocation of [timssdr_device_list] succeeds. *)
Definition allocations_ok (env : list_env) : Prop :=
  calloc_list_ok env = true /\ calloc_serial_numbers_ok env = true /\
  calloc_usb_board_ids_ok env = true /\ calloc_usb_device_index_ok env = true.

(** The indices of the entries of [serial_numbers] that hold a string; [i]
    is the index of the head of the list. *)
Fixpoint stored_strings (serials : list (option (list Z))) (i : nat) : list nat :=
  match serials with
  | [] => []
  | Some _ :: serials' => i :: stored_strings serials' (S i)
  | None :: serials' => stored_strings serials' (S i)
  end.

(** Every allocation succeeds. *)
Definition allocating : list_env := mk_list_env true true true true (fun _ => true).

(** The local array [serial_number], here holding zeros at the start. *)
Definition zeroed_serial_number : list Z := repeat 0 64.

(** A board whose string descriptor cannot be read (LIBUSB_ERROR_IO). *)
Definition unreadable_board : libusb_device :=
  mk_libusb_device TIMSSDR_VENDOR_ID TIMSSDR_PRODUCT_ID 3 0 (inl (-1)).

(** * Properties *)

(** ** [timssdr_is_streaming] *)

(** C8. [timssdr_is_streaming] returns [TIMSSDR_TRUE] exactly when
    [transfer_thread_started] and [streaming] are true and [do_exit] is
    false; otherwise it returns the error of the first flag that is off, in
    the order thread started, streaming, exit called. *)
Theorem timssdr_is_streaming_priority {App : Type} (d : timssdr_device App) :
  (timssdr_is_streaming d = TIMSSDR_TRUE <->
   transfer_thread_started d = true /\ streaming d = true /\ do_exit d = false) /\
  timssdr_is_streaming d =
    (if negb (transfer_thread_started d) then TIMSSDR_ERROR_STREAMING_THREAD_ERR
     else if negb (streaming d) then TIMSSDR_ERROR_STREAMING_STOPPED
     else if do_exit d then TIMSSDR_ERROR_STREAMING_EXIT_CALLED
     else TIMSSDR_TRUE).
Proof.
  unfold timssdr_is_streaming.
  destruct (transfer_thread_started d), (streaming d), (do_exit d); cbn;
    (split; [split; [discriminate || tauto | intros (? & ? & ?); congruence] | reflexivity]).
Qed.

(** ** [timssdr_error_name] *)

Lemma error_name_unknown (has : bool) (strerror : Z -> option string) (g : globals)
    (errcode : Z) :
  ~ (0 <= errcode <= 12) ->
  timssdr_error_name has strerror g errcode = Some "unknown error code"%string.
Proof.
  intros Hout. unfold timssdr_error_name.
  repeat match goal with
         | |- context [?a =? ?b] =>
             destruct (Z.eqb_spec a b) as [He | _];
             [ exfalso; apply Hout; rewrite He; vm_compute; split; discriminate | ]
         end.
  reflexivity.
Qed.

(** C10. [timssdr_error_name] is total: for every integer it returns a
    string and not NULL (given that [libusb_strerror] never returns NULL), a
    code outside the enumeration gives "unknown error code", and for
    [TIMSSDR_ERROR_LIBUSB] the string depends on the globals only through
    [last_libusb_error]. *)
Theorem timssdr_error_name_total (has : bool) (strerror : Z -> option string)
    (g : globals) (errcode : Z) :
  (forall e, strerror e <> None) ->
  (exists s, timssdr_error_name has strerror g errcode = Some s) /\
  (~ (0 <= errcode <= 12) ->
   timssdr_error_name has strerror g errcode = Some "unknown error code"%string) /\
  (forall g', last_libusb_error g' = last_libusb_error g ->
     timssdr_error_name has strerror g' TIMSSDR_ERROR_LIBUSB =
     timssdr_error_name has strerror g TIMSSDR_ERROR_LIBUSB).
Proof.
  intros Hstr. split; [| split].
  - unfold timssdr_error_name.
    repeat match goal with
           | |- context [if ?a =? ?b then _ else _] => destruct (a =? b); [eauto |]
           end; [| eauto].
    destruct (has && _); [| eauto].
    destruct (strerror (last_libusb_error g)) eqn:E; [eauto | now apply Hstr in E].
  - apply error_name_unknown.
  - intros g' Hg. unfold timssdr_error_name. cbn. now rewrite Hg.
Qed.

Lemma timssdr_error_name_total_witness :
  (forall e : Z, (fun _ : Z => Some "Other error"%string) e <> None) /\
  (exists s, timssdr_error_name true (fun _ => Some "Other error"%string)
               (mk_globals 0 false (-4)) 99 = Some s) /\
  (~ (0 <= 99 <= 12) ->
   timssdr_error_name true (fun _ => Some "Other error"%string)
     (mk_globals 0 false (-4)) 99 = Some "unknown error code"%string) /\
  (forall g', last_libusb_error g' = last_libusb_error (mk_globals 0 false (-4)) ->
     timssdr_error_name true (fun _ => Some "Other error"%string) g' TIMSSDR_ERROR_LIBUSB =
     timssdr_error_name true (fun _ => Some "Other error"%string)
       (mk_globals 0 false (-4)) TIMSSDR_ERROR_LIBUSB).
Proof.
  split.
  - intros e. discriminate.
  - apply (timssdr_error_name_total true (fun _ => Some "Other error"%string)
             (mk_globals 0 false (-4)) 99).
    intros e. discriminate.
Defined.

(** ** Padding to the 512-byte boundary *)

Lemma round_up_512_bounds (n : Z) : n <= round_up_512 n < n + 512.
Proof. unfold round_up_512. Z.div_mod_to_equations. lia. Qed.

Lemma round_up_512_multiple (n : Z) : round_up_512 n mod 512 = 0.
Proof. unfold round_up_512. apply Z.mod_mul. lia. Qed.

Lemma round_up_512_fixed (n : Z) : n mod 512 = 0 -> round_up_512 n = n.
Proof. unfold round_up_512. intros H. Z.div_mod_to_equations. lia. Qed.

Lemma round_up_512_next (n : Z) :
  n mod 512 <> 0 -> round_up_512 (n + 1) = round_up_512 n.
Proof. unfold round_up_512. intros H. Z.div_mod_to_equations. lia. Qed.

Lemma rem_512_nonneg (n : Z) : 0 <= n -> Z.rem n 512 = n mod 512.
Proof. intros H. apply Z.rem_mod_nonneg; lia. Qed.

Lemma pad_to_512_step (fuel : nat) (buf : list Z) (len : Z) :
  pad_to_512 (S fuel) buf len =
    if Z.rem len 512 =? 0 then Ok (buf, len)
    else if (0 <=? len) && (len <? Z.of_nat (length buf))
         then pad_to_512 fuel (<[Z.to_nat len := 0]> buf) (len + 1)
         else Fault.
Proof. reflexivity. Qed.

(** The loop writes zeros from [len] up to the boundary and nothing else,
    provided the boundary lies inside the buffer. *)
Lemma pad_to_512_spec (fuel : nat) :
  forall (buf : list Z) (len : Z),
    0 <= len ->
    round_up_512 len <= Z.of_nat (length buf) ->
    round_up_512 len - len < Z.of_nat fuel ->
    exists buf',
      pad_to_512 fuel buf len = Ok (buf', round_up_512 len) /\
      length buf' = length buf /\
      (forall j, len <= j < round_up_512 len -> buf' !! Z.to_nat j = Some 0) /\
      (forall j, 0 <= j < len \/ round_up_512 len <= j ->
                 buf' !! Z.to_nat j = buf !! Z.to_nat j).
Proof.
  induction fuel as [| fuel IH]; intros buf len Hlen Hfit Hfuel.
  - pose proof (round_up_512_bounds len). lia.
  - rewrite pad_to_512_step, rem_512_nonneg by assumption.
    destruct (Z.eqb_spec (len mod 512) 0) as [Hz | Hnz].
    + rewrite (round_up_512_fixed len Hz). exists buf.
      split; [reflexivity |]. split; [reflexivity |].
      split; [intros j Hj; lia | reflexivity].
    + pose proof (round_up_512_bounds len) as Hb.
      assert (Hlt : len < round_up_512 len).
      { destruct (Z.eq_dec (round_up_512 len) len) as [E | E]; [| lia].
        pose proof (round_up_512_multiple len) as Hm. rewrite E in Hm. contradiction. }
      replace (0 <=? len) with true by (symmetry; apply Z.leb_le; lia).
      replace (len <? Z.of_nat (length buf)) with true by (symmetry; apply Z.ltb_lt; lia).
      cbn [andb].
      destruct (IH (<[Z.to_nat len := 0]> buf) (len + 1)) as (buf' & Hrun & Hsize & Hzero & Hkeep).
      * lia.
      * rewrite round_up_512_next by assumption. rewrite length_insert. lia.
      * rewrite round_up_512_next by assumption. lia.
      * rewrite round_up_512_next in Hrun, Hzero, Hkeep by assumption.
        exists buf'. split; [exact Hrun |]. split; [now rewrite Hsize, length_insert |].
        split.
        -- intros j Hj. destruct (Z.eq_dec j len) as [-> | Hne].
           ++ rewrite Hkeep by lia. apply list_lookup_insert_eq. lia.
           ++ apply Hzero. lia.
        -- intros j Hj. rewrite Hkeep by lia.
           apply list_lookup_insert_ne. lia.
Qed.

(** 512 rounds of the loop are always enough. *)
Lemma pad_to_512_fuel (buf : list Z) (len : Z) :
  0 <= len ->
  round_up_512 len <= Z.of_nat (length buf) ->
  exists buf',
    pad_to_512 512 buf len = Ok (buf', round_up_512 len) /\
    length buf' = length buf /\
    (forall j, len <= j < round_up_512 len -> buf' !! Z.to_nat j = Some 0) /\
    (forall j, 0 <= j < len \/ round_up_512 len <= j ->
               buf' !! Z.to_nat j = buf !! Z.to_nat j).
Proof.
  intros Hlen Hfit. apply pad_to_512_spec; try assumption.
  pose proof (round_up_512_bounds len). change (Z.of_nat 512) with 512. lia.
Qed.

(** ** The completion handler and the submit loops *)

Lemma round_up_512_capacity (vl : Z) :
  vl <= TRANSFER_BUFFER_SIZE -> round_up_512 vl <= TRANSFER_BUFFER_SIZE.
Proof. unfold round_up_512, TRANSFER_BUFFER_SIZE. intros H. Z.div_mod_to_equations. lia. Qed.

Lemma pad_transfer_spec (t : libusb_transfer) (b : list Z) :
  usb_buffer t = Some b ->
  Z.of_nat (length b) = TRANSFER_BUFFER_SIZE ->
  0 < usb_length t <= TRANSFER_BUFFER_SIZE ->
  exists t',
    pad_transfer t = Ok t' /\
    slot_ok t' /\
    usb_endpoint t' = usb_endpoint t /\
    padded (usb_length t) (Some b) t'.
Proof.
  intros Hb Hsize Hvl. unfold pad_transfer. rewrite Hb.
  destruct (pad_to_512_fuel b (usb_length t)) as (b' & Hrun & Hlen & Hzero & Hkeep).
  - lia.
  - rewrite Hsize. apply round_up_512_capacity. lia.
  - rewrite Hrun. cbn. eexists. split; [reflexivity |]. split; [| split].
    + exists b'. cbn. split; [reflexivity | congruence].
    + reflexivity.
    + split; [reflexivity |]. exists b'. cbn. split; [reflexivity |]. split; [exact Hzero |].
      intros b0 [= <-] j Hj. apply Hkeep. lia.
Qed.

Lemma written_back_slot_ok (t t' : timssdr_transfer) (usb : libusb_transfer) :
  slot_ok usb -> buffer t = usb_buffer usb -> keeps_buffer t t' ->
  slot_ok (written_back t' usb) /\ usb_buffer (written_back t' usb) = buffer t' /\
  usb_endpoint (written_back t' usb) = usb_endpoint usb /\
  usb_status (written_back t' usb) = usb_status usb.
Proof.
  intros (b & Hb & Hsize) Ht Hkeep. unfold written_back.
  destruct (Hkeep b) as (b' & Eb' & Hlen); [congruence |]. rewrite Eb'. cbn.
  repeat split. exists b'. cbn. split; [reflexivity | congruence].
Qed.

Lemma sample_block_calls_app (tr1 tr2 : list event) :
  sample_block_calls (tr1 ++ tr2) = (sample_block_calls tr1 + sample_block_calls tr2)%nat.
Proof.
  induction tr1 as [| e tr1 IH]; [reflexivity |].
  destruct e; cbn; rewrite IH; reflexivity.
Qed.

Lemma flush_if_armed_spec {App : Type} (d : timssdr_device App) (w : world App) :
  (flush d = true -> flush_transfer d <> None) ->
  exists d' w' new,
    flush_if_armed d w = Ok (d', w') /\
    trace w' = trace w ++ new /\
    sample_block_calls new = 0%nat /\
    (forall i t result, ~ In (EvSubmit (Slot i) t result) new) /\
    (d' = d \/ d' = set_flush false (set_streaming false d)).
Proof.
  intros Hflush. unfold flush_if_armed, submit_flush_transfer.
  destruct (flush d) eqn:Efl.
  - destruct (flush_transfer d) as [t |] eqn:Et; [| now exfalso; apply Hflush].
    cbn. destruct (_ =? LIBUSB_SUCCESS); eexists _, _, [_]; cbn.
    all: split; [reflexivity |]; cbn; split; [reflexivity |]; split; [reflexivity |].
    all: split; [intros i t' res [Hin | []]; discriminate Hin | auto].
  - exists d, w, []. rewrite app_nil_r. repeat split; auto.
Qed.

Lemma resubmit_or_flush_spec {App : Type} (i : nat) (usb : libusb_transfer)
    (transfer : timssdr_transfer) (d : timssdr_device App) (w : world App)
    (f : timssdr_sample_block_cb_fn App) :
  slot_ok usb ->
  buffer transfer = usb_buffer usb ->
  within_buffer transfer ->
  callback d = Some f ->
  sample_block_cb_ok f ->
  (flush d = true -> flush_transfer d <> None) ->
  exists resubmit usb' d' w' new,
    resubmit_or_flush (Slot i) usb transfer d w = Ok (resubmit, usb', d', w') /\
    trace w' = trace w ++ new /\
    sample_block_calls new = (if streaming d then 1%nat else 0%nat) /\
    tx_submissions_padded new /\
    (d' = d \/ d' = set_flush false (set_streaming false d)).
Proof.
  intros Hslot Hbuf Hin0 Hcb Hf Hflush. unfold resubmit_or_flush.
  destruct (streaming d).
  - rewrite Hcb. specialize (Hf (app w) transfer).
    destruct (f (app w) transfer) as [[ret t1] a] eqn:Ef. cbn in Hf.
    destruct Hf as [Hkeep Hvl].
    destruct (written_back_slot_ok transfer t1 usb Hslot Hbuf Hkeep)
      as (Hslot1 & Hbuf1 & Hep1 & _).
    destruct ((ret =? 0) && (0 <? valid_length t1)) eqn:Econt.
    + apply andb_true_iff in Econt as [Hret Hpos].
      apply Z.eqb_eq in Hret. apply Z.ltb_lt in Hpos. subst ret.
      destruct (transfers_setup d).
      * destruct (usb_endpoint (written_back t1 usb) =? TX_ENDPOINT_ADDRESS) eqn:Eep.
        -- destruct Hslot as (b & Hb & Hsize).
           destruct Hslot1 as (b1 & Hb1 & Hsize1).
           destruct (pad_transfer_spec
                       (set_usb_length (valid_length t1) (written_back t1 usb)) b1)
             as (t' & Hpad & _ & Hep' & Hpadded); try assumption.
           { cbn. split; [assumption |]. rewrite <- Hsize1.
             apply Hvl; [assumption | reflexivity | congruence]. }
           rewrite Hpad. cbn.
           eexists _, _, _, _, [_; _]. split; [reflexivity |]. cbn.
           rewrite <- app_assoc. split; [reflexivity |]. split; [reflexivity |].
           split; [| auto].
           intros j t2 res [Hin | [Hin | []]] Hep2; [discriminate Hin |]. injection Hin as <- <- <-.
           exists t1. split; [left; reflexivity |]. split; [assumption |].
           rewrite <- Hbuf1, Hb1. exact Hpadded.
        -- cbn. eexists _, _, _, _, [_; _]. split; [reflexivity |]. cbn.
           rewrite <- app_assoc. split; [reflexivity |]. split; [reflexivity |].
           split; [| auto].
           intros j t2 res [Hin | [Hin | []]] Hep2; [discriminate Hin |]. injection Hin as <- <- <-.
           apply Z.eqb_neq in Eep. contradiction.
      * eexists _, _, _, _, [_]. split; [reflexivity |]. cbn.
        split; [reflexivity |]. split; [reflexivity |]. split; [| auto].
        intros j t2 res [Hin | []]. discriminate Hin.
    + destruct (flush_if_armed_spec d
                  (log (EvSampleBlock (Slot i) t1 ret) (set_app a w)) Hflush)
        as (d' & w' & new & Hrun & Htr & Hcalls & Hnone & Hd).
      rewrite Hrun. cbn.
      eexists _, _, d', w', (EvSampleBlock (Slot i) t1 ret :: new).
      split; [reflexivity |]. cbn in Htr. rewrite Htr, <- app_assoc.
      split; [reflexivity |]. cbn. rewrite Hcalls. split; [reflexivity |].
      split; [| assumption].
      intros j t2 res [Hin | Hin]; [discriminate Hin | now apply Hnone in Hin].
  - destruct (flush_if_armed_spec d w Hflush)
      as (d' & w' & new & Hrun & Htr & Hcalls & Hnone & Hd).
    rewrite Hrun. cbn. eexists _, _, d', w', new.
    split; [reflexivity |]. split; [assumption |]. split; [assumption |].
    split; [| assumption].
    intros j t2 res Hin. now apply Hnone in Hin.
Qed.

Lemma call_tx_completion_callback_spec {App : Type} (d : timssdr_device App)
    (t : timssdr_transfer) (success : bool) (w : world App) :
  (forall f, tx_completion_callback d = Some f -> tx_block_complete_cb_ok f) ->
  exists t1 w1 new,
    call_tx_completion_callback d t success w = (t1, w1) /\
    trace w1 = trace w ++ new /\
    quiet new /\
    keeps_buffer t t1 /\
    (within_buffer t -> within_buffer t1).
Proof.
  intros Htx. unfold call_tx_completion_callback.
  destruct (tx_completion_callback d) as [f |] eqn:Ef.
  - specialize (Htx f eq_refl (app w) t success).
    destruct (f (app w) t success) as [t1 a] eqn:Ecall. cbn in Htx.
    eexists _, _, [_]. split; [reflexivity |]. split; [reflexivity |].
    split; [| assumption].
    split; [reflexivity |]. intros i t' res [Hin | []]. discriminate Hin.
  - exists t, w, []. rewrite app_nil_r. repeat split; auto.
    intros b Hb. eauto.
Qed.

Lemma retire_transfer_spec {App : Type} (d : timssdr_device App) (w : world App) :
  exists d' w' new,
    retire_transfer d w = (d', w') /\
    trace w' = trace w ++ new /\
    quiet new /\
    streaming d' = false /\
    flush d' = flush d.
Proof.
  unfold retire_transfer. cbn.
  destruct (active_transfers d =? 1); [destruct (flush d) eqn:Efl |]; cbn.
  - exists (set_streaming false d), w, []. rewrite app_nil_r. repeat split; auto.
  - eexists _, _, [_]. split; [reflexivity |]. split; [reflexivity |].
    split; [| auto]. split; [reflexivity |]. intros i t' res [Hin | []]. discriminate Hin.
  - eexists _, w, []. rewrite app_nil_r. repeat split; auto.
Qed.

Lemma quiet_app (tr1 tr2 : list event) : quiet tr1 -> quiet tr2 -> quiet (tr1 ++ tr2).
Proof.
  intros [H1 N1] [H2 N2]. split.
  - rewrite sample_block_calls_app, H1, H2. reflexivity.
  - intros i t res Hin. apply in_app_or in Hin as [Hin | Hin]; [eapply N1 | eapply N2]; eauto.
Qed.

Lemma tx_submissions_padded_quiet_l (tr1 tr2 : list event) :
  quiet tr1 -> tx_submissions_padded tr2 -> tx_submissions_padded (tr1 ++ tr2).
Proof.
  intros [_ N1] H2 i t res Hin Hep.
  apply in_app_or in Hin as [Hin | Hin]; [now apply N1 in Hin |].
  destruct (H2 i t res Hin Hep) as (t_cb & Hcb & Hpos & Hpad).
  exists t_cb. split; [apply in_or_app; auto | auto].
Qed.

Lemma tx_submissions_padded_quiet_r (tr1 tr2 : list event) :
  tx_submissions_padded tr1 -> quiet tr2 -> tx_submissions_padded (tr1 ++ tr2).
Proof.
  intros H1 [_ N2] i t res Hin Hep.
  apply in_app_or in Hin as [Hin | Hin]; [| now apply N2 in Hin].
  destruct (H1 i t res Hin Hep) as (t_cb & Hcb & Hpos & Hpad).
  exists t_cb. split; [apply in_or_app; auto | auto].
Qed.

Lemma quiet_padded (tr : list event) : quiet tr -> tx_submissions_padded tr.
Proof. intros [_ N] i t res Hin. now apply N in Hin. Qed.

Lemma quiet_single (e : event) :
  match e with EvSampleBlock _ _ _ | EvSubmit (Slot _) _ _ => False | _ => True end ->
  quiet [e].
Proof.
  intros He. split.
  - destruct e; try reflexivity. contradiction.
  - intros i t res [Hin | []]. subst e. contradiction.
Qed.

Lemma handler_total {App : Type} (i : nat) (d : timssdr_device App) (w : world App)
    (usb : libusb_transfer) :
  completion_ready d i ->
  get_xfer d (Slot i) = Ok usb ->
  exists d' w' new,
    timssdr_libusb_transfer_callback (Slot i) d w = Ok (d', w') /\
    trace w' = trace w ++ new /\
    sample_block_calls new =
      (if (usb_status usb =? LIBUSB_TRANSFER_COMPLETED) && streaming d then 1%nat else 0%nat) /\
    (usb_status usb <> LIBUSB_TRANSFER_COMPLETED -> streaming d' = false /\ flush d' = false) /\
    tx_submissions_padded new.
Proof.
  intros ((usb0 & Hget0 & Hslot & Hactual) & (f & Hcb & Hf) & Htx & Hflush) Hget.
  assert (usb0 = usb) as -> by congruence. clear Hget0.
  unfold timssdr_libusb_transfer_callback. rewrite Hget. cbn [mbind outcome_bind].
  set (t0 := mk_timssdr_transfer _ _ _ _ _).
  assert (Ht0 : buffer t0 = usb_buffer usb) by reflexivity.
  assert (Hin0 : within_buffer t0).
  { intros b Hb. destruct Hslot as (b0 & Hb0 & Hsize). cbn in Hb |- *.
    assert (b = b0) as -> by congruence. lia. }
  destruct (call_tx_completion_callback_spec d t0
              (usb_status usb =? LIBUSB_TRANSFER_COMPLETED) w Htx)
    as (t1 & w1 & new1 & -> & Htr1 & Hq1 & Hkeep1 & Hin1).
  destruct (written_back_slot_ok t0 t1 usb Hslot Ht0 Hkeep1) as (Hslot1 & Hbuf1 & _ & _).
  destruct (Z.eqb_spec (usb_status usb) LIBUSB_TRANSFER_COMPLETED) as [Hdone | Hfail].
  - destruct (resubmit_or_flush_spec i (written_back t1 usb) t1 d (log EvLock w1) f)
      as (resubmit & usb' & d1 & w2 & new2 & -> & Htr2 & Hcalls2 & Hpad2 & Hd1); auto.
    cbn [mbind outcome_bind].
    destruct (retire_transfer_spec (put_xfer (Slot i) usb' d1) w2)
      as (d3 & w3 & new3 & Hret & Htr3 & Hq3 & _ & _).
    assert (Hnew : forall tail, quiet tail ->
              sample_block_calls ((new1 ++ [EvLock]) ++ new2 ++ tail) =
                (if true && streaming d then 1%nat else 0%nat) /\
              tx_submissions_padded ((new1 ++ [EvLock]) ++ new2 ++ tail)).
    { intros tail Htail. split.
      - rewrite !sample_block_calls_app, Hcalls2.
        destruct Hq1 as [-> _], Htail as [-> _]. cbn. lia.
      - apply tx_submissions_padded_quiet_l.
        + apply quiet_app; [assumption | now apply quiet_single].
        + now apply tx_submissions_padded_quiet_r. }
    assert (Htrace : forall tail, trace w2 ++ tail = trace w ++ (new1 ++ [EvLock]) ++ new2 ++ tail).
    { intros tail. rewrite Htr2. cbn. rewrite Htr1, <- !app_assoc. reflexivity. }
    destruct resubmit as [result |]; [destruct (result =? LIBUSB_SUCCESS) |].
    + eexists _, _, _. split; [reflexivity |]. cbn. split; [apply Htrace |].
      destruct (Hnew [EvUnlock]) as [Hc Hp]; [now apply quiet_single |].
      split; [exact Hc |]. split; [intros; contradiction | exact Hp].
    + rewrite Hret. eexists _, _, _. split; [reflexivity |]. cbn.
      rewrite Htr3, <- app_assoc. split; [apply Htrace |].
      destruct (Hnew (new3 ++ [EvUnlock])) as [Hc Hp];
        [apply quiet_app; [assumption | now apply quiet_single] |].
      split; [exact Hc |]. split; [intros; contradiction | exact Hp].
    + rewrite Hret. eexists _, _, _. split; [reflexivity |]. cbn.
      rewrite Htr3, <- app_assoc. split; [apply Htrace |].
      destruct (Hnew (new3 ++ [EvUnlock])) as [Hc Hp];
        [apply quiet_app; [assumption | now apply quiet_single] |].
      split; [exact Hc |]. split; [intros; contradiction | exact Hp].
  - cbn [mbind outcome_bind].
    destruct (retire_transfer_spec
                (put_xfer (Slot i) (written_back t1 usb)
                   (set_flush false (set_streaming false d))) (log EvLock w1))
      as (d3 & w3 & new3 & Hret & Htr3 & Hq3 & Hstr & Hfl).
    rewrite Hret. eexists _, _, _. split; [reflexivity |]. cbn.
    rewrite Htr3. cbn. rewrite Htr1, <- !app_assoc.
    split; [reflexivity |].
    assert (Hq : quiet (new1 ++ [EvLock] ++ new3 ++ [EvUnlock])).
    { repeat apply quiet_app; try assumption; now apply quiet_single. }
    split; [apply Hq |]. split; [| now apply quiet_padded].
    intros _. split; [assumption |]. rewrite Hfl. destruct d; reflexivity.
Qed.

Lemma get_put_same {App : Type} (d : timssdr_device App) (i : nat) (u t : libusb_transfer) :
  get_xfer d (Slot i) = Ok u -> get_xfer (put_xfer (Slot i) t d) (Slot i) = Ok t.
Proof.
  unfold get_xfer, put_xfer. cbn.
  destruct (transfers d) as [ts |]; [| discriminate]. cbn.
  destruct (ts !! i) as [[u' |] |] eqn:E; try discriminate. intros _.
  rewrite list_lookup_insert_eq; [reflexivity |]. now apply lookup_lt_Some in E.
Qed.

Lemma get_put_other {App : Type} (d : timssdr_device App) (i j : nat) (t : libusb_transfer) :
  i <> j -> get_xfer (put_xfer (Slot i) t d) (Slot j) = get_xfer d (Slot j).
Proof.
  intros Hne. unfold get_xfer, put_xfer. cbn.
  destruct (transfers d) as [ts |]; [| reflexivity]. cbn.
  now rewrite list_lookup_insert_ne.
Qed.

Lemma ring_ok_put {App : Type} (d : timssdr_device App) (i : nat) (t : libusb_transfer) :
  ring_ok d -> slot_ok t -> ring_ok (put_xfer (Slot i) t d).
Proof.
  intros Hring Ht j Hj. destruct (Nat.eq_dec i j) as [<- | Hne].
  - destruct (Hring i Hj) as (u & Hu & _). exists t. split; [| assumption].
    eapply get_put_same; eauto.
  - rewrite get_put_other by assumption. auto.
Qed.

Lemma slot_ok_set_usb_length (t : libusb_transfer) (n : Z) :
  slot_ok t -> slot_ok (set_usb_length n t).
Proof. intros (b & Hb & Hs). exists b. auto. Qed.

Lemma same_flags_refl {App : Type} (d : timssdr_device App) : same_flags d d.
Proof. unfold same_flags. destruct d; reflexivity. Qed.

Lemma same_flags_put {App : Type} (d d' : timssdr_device App) (r : nat) (t : libusb_transfer) :
  same_flags d d' -> same_flags d (put_xfer (Slot r) t d').
Proof. unfold same_flags. intros H. rewrite H at 1. destruct d; reflexivity. Qed.

Lemma fill_tx_buffers_spec {App : Type} (f : timssdr_sample_block_cb_fn App) (n : nat) :
  forall (idx ready : nat) (d : timssdr_device App) (w : world App),
    (idx + n <= TRANSFER_COUNT)%nat ->
    ring_ok d ->
    callback d = Some f ->
    sample_block_cb_ok f ->
    exists ready' d' w' new,
      fill_tx_buffers n idx ready d w = Ok (ready', d', w') /\
      trace w' = trace w ++ new /\
      (ready <= ready' <= ready + n)%nat /\
      ring_ok d' /\
      same_flags d d' /\
      (forall r t result, ~ In (EvSubmit r t result) new) /\
      (forall j, (idx <= j < idx + (ready' - ready))%nat -> filled new d' j) /\
      (forall j, (j < idx)%nat -> get_xfer d' (Slot j) = get_xfer d (Slot j)).
Proof.
  induction n as [| n IH]; intros idx ready d w Hidx Hring Hcb Hf.
  - exists ready, d, w, []. cbn. rewrite app_nil_r.
    repeat split; auto using same_flags_refl; try lia.
  - cbn [fill_tx_buffers].
    destruct (Hring idx) as (usb & Hget & Hslot); [lia |].
    rewrite Hget. cbn [mbind outcome_bind]. rewrite Hcb.
    set (t0 := mk_timssdr_transfer _ _ _ _ _).
    pose proof (Hf (app w) t0) as [Hkeep Hvl].
    destruct (f (app w) t0) as [[ret t1] a] eqn:Ef. cbn in Hkeep, Hvl.
    assert (Hin0 : within_buffer t0).
    { intros b Hb. destruct Hslot as (b0 & Hb0 & Hsize). cbn in Hb |- *.
      assert (b = b0) as -> by congruence. lia. }
    destruct (written_back_slot_ok t0 t1 usb Hslot eq_refl Hkeep)
      as (Hslot1 & Hbuf1 & _ & _).
    destruct ((ret =? 0) && (0 <? valid_length t1)) eqn:Econt.
    + apply andb_true_iff in Econt as [Hret Hpos].
      apply Z.eqb_eq in Hret. apply Z.ltb_lt in Hpos. subst ret.
      set (d1 := put_xfer (Slot idx) _ d).
      set (w1 := log _ _).
      assert (Hring1 : ring_ok d1).
      { apply ring_ok_put; [assumption | now apply slot_ok_set_usb_length]. }
      destruct (IH (S idx) (S ready) d1 w1) as
        (ready' & d' & w' & new & Hrun & Htr & Hready & Hring' & Hsame & Hnosub & Hfilled & Hprev);
        [lia | assumption | assumption | assumption |].
      exists ready', d', w', (EvSampleBlock (Slot idx) t1 0 :: new).
      split; [exact Hrun |]. split; [rewrite Htr; cbn; now rewrite <- app_assoc |].
      split; [lia |]. split; [assumption |].
      split; [unfold same_flags in *; rewrite Hsame at 1; destruct d; reflexivity |].
      split; [intros r t res [Hin | Hin]; [discriminate Hin | now apply Hnosub in Hin] |].
      split.
      * intros j Hj. destruct (Nat.eq_dec j idx) as [-> | Hne].
        -- exists (set_usb_length (valid_length t1) (written_back t1 usb)), t1.
           split; [rewrite Hprev by lia; subst d1; eapply get_put_same; eauto |].
           split; [now apply slot_ok_set_usb_length |].
           split; [left; reflexivity |].
           split.
           { split; [assumption |]. destruct Hslot1 as (b1 & Hb1 & Hsize1).
             rewrite <- Hsize1. apply Hvl; [assumption | reflexivity | congruence]. }
           split; [reflexivity | exact Hbuf1].
        -- destruct (Hfilled j) as (u & t_cb & Hu & Hs & Hin & Hrange & Hlen & Hb); [lia |].
           exists u, t_cb. repeat split; auto; try lia. right. exact Hin.
      * intros j Hj. rewrite Hprev by lia. subst d1. apply get_put_other. lia.
    + eexists ready, _, _, [_]. split; [reflexivity |]. split; [reflexivity |].
      split; [lia |]. split; [now apply ring_ok_put |].
      split; [apply same_flags_put, same_flags_refl |].
      split; [intros r t res [Hin | []]; discriminate Hin |].
      split; [intros j Hj; lia |].
      intros j Hj. apply get_put_other. lia.
Qed.

Lemma same_session_refl {App : Type} (d : timssdr_device App) : same_session d d.
Proof. unfold same_session. destruct d; reflexivity. Qed.

Lemma filled_put_other {App : Type} (tr : list event) (d : timssdr_device App)
    (i j : nat) (t : libusb_transfer) (n : Z) :
  i <> j -> filled tr d j ->
  filled tr (set_active_transfers n (put_xfer (Slot i) t d)) j.
Proof.
  intros Hne (u & t_cb & Hu & H). exists u, t_cb. split; [| exact H].
  rewrite <- Hu. rewrite <- (get_put_other d i j t Hne). reflexivity.
Qed.

Lemma submit_ready_transfers_spec {App : Type} (tr0 : list event) (endpoint : Z)
    (cbk : libusb_transfer_cb_fn) (n : nat) :
  forall (idx : nat) (error : Z) (d : timssdr_device App) (w : world App),
    (idx + n <= TRANSFER_COUNT)%nat ->
    ring_ok d ->
    (endpoint = TX_ENDPOINT_ADDRESS ->
     forall j, (idx <= j < idx + n)%nat -> filled tr0 d j) ->
    exists error' d' w' new,
      submit_ready_transfers n idx error endpoint cbk d w = Ok (error', d', w') /\
      trace w' = trace w ++ new /\
      sample_block_calls new = 0%nat /\
      (forall i t result,
         In (EvSubmit (Slot i) t result) new ->
         usb_endpoint t = TX_ENDPOINT_ADDRESS ->
         exists t_cb,
           In (EvSampleBlock (Slot i) t_cb 0) tr0 /\
           0 < valid_length t_cb /\
           padded (valid_length t_cb) (buffer t_cb) t) /\
      same_session d d'.
Proof.
  induction n as [| n IH]; intros idx error d w Hidx Hring Hfilled.
  - exists error, d, w, []. cbn. rewrite app_nil_r.
    repeat split; auto using same_session_refl. intros i t res [].
  - cbn [submit_ready_transfers].
    destruct (Hring idx) as (usb & Hget & Hslot); [lia |].
    rewrite Hget. cbn [mbind outcome_bind].
    set (t0 := set_usb_callback cbk (set_usb_endpoint endpoint usb)).
    assert (Hpad : exists t1,
               (if endpoint =? TX_ENDPOINT_ADDRESS then pad_transfer t0 else Ok t0) = Ok t1 /\
               slot_ok t1 /\
               (usb_endpoint t1 = TX_ENDPOINT_ADDRESS ->
                exists t_cb,
                  In (EvSampleBlock (Slot idx) t_cb 0) tr0 /\
                  0 < valid_length t_cb /\
                  padded (valid_length t_cb) (buffer t_cb) t1)).
    { destruct (Z.eqb_spec endpoint TX_ENDPOINT_ADDRESS) as [Hep | Hep].
      - destruct (Hfilled Hep idx) as (u & t_cb & Hu & (b & Hb & Hsize) & Hin & Hrange & Hlen & Hbuf);
          [lia |].
        assert (u = usb) as -> by congruence.
        destruct (pad_transfer_spec t0 b) as (t1 & Hrun & Hs1 & _ & Hpadded);
          [exact Hb | exact Hsize | cbn; lia |].
        exists t1. split; [exact Hrun |]. split; [exact Hs1 |]. intros _.
        exists t_cb. split; [exact Hin |]. split; [lia |].
        cbn in Hpadded. rewrite Hlen, <- Hb, Hbuf in Hpadded. exact Hpadded.
      - exists t0. split; [reflexivity |]. split.
        + destruct Hslot as (b & Hb & Hsize). exists b. auto.
        + cbn. intros Hep'. contradiction. }
    destruct Hpad as (t1 & -> & Hslot1 & Hpadded). cbn [mbind outcome_bind].
    unfold libusb_submit_transfer at 1. cbn [fst snd].
    set (res := libusb_submit_result w (submits w)).
    set (w1 := mk_world _ _ _ _ _).
    destruct (res =? 0) eqn:Eres; cbn [negb].
    + set (d1 := set_active_transfers _ _).
      destruct (IH (S idx) res d1 w1) as
        (error' & d' & w' & new & Hrun & Htr & Hcalls & Hsub & Hsame).
      * lia.
      * intros j Hj. destruct (ring_ok_put d idx t1 Hring Hslot1 j Hj) as (u & Hu & Hs).
        exists u. split; [exact Hu | exact Hs].
      * intros Hep j Hj. subst d1. apply filled_put_other; [lia |]. apply Hfilled; [assumption | lia].
      * exists error', d', w', (EvSubmit (Slot idx) t1 res :: new).
        split; [exact Hrun |]. split; [rewrite Htr; cbn; now rewrite <- app_assoc |].
        split; [exact Hcalls |]. split.
        -- intros i t r [Hin | Hin] Hep.
           ++ injection Hin as <- <- <-. auto.
           ++ eauto.
        -- unfold same_session in *. rewrite Hsame at 1. destruct d; reflexivity.
    + eexists res, _, _, [_]. split; [reflexivity |]. split; [reflexivity |].
      split; [reflexivity |]. split.
      * intros i t r [Hin | []] Hep. injection Hin as <- <- <-. auto.
      * unfold same_session. destruct d; reflexivity.
Qed.

Lemma ring_ok_transfers {App : Type} (d : timssdr_device App) :
  ring_ok d -> exists ts, transfers d = Some ts.
Proof.
  intros Hring. destruct (Hring 0%nat) as (u & Hu & _); [unfold TRANSFER_COUNT; lia |].
  unfold get_xfer in Hu. destruct (transfers d); [eauto | discriminate].
Qed.

Lemma prepare_transfers_tx_spec {App : Type} (f : timssdr_sample_block_cb_fn App)
    (error_uninit : Z) (cbk : libusb_transfer_cb_fn) (d : timssdr_device App) (w : world App) :
  ring_ok d ->
  callback d = Some f ->
  sample_block_cb_ok f ->
  flush_ok d ->
  exists result d' w' new,
    prepare_transfers error_uninit TX_ENDPOINT_ADDRESS cbk d w = Ok (result, d', w') /\
    trace w' = trace w ++ new /\
    tx_submissions_padded new.
Proof.
  intros Hring Hcb Hf Hflush. unfold prepare_transfers.
  destruct (ring_ok_transfers d Hring) as (ts & ->).
  rewrite Z.eqb_refl.
  destruct (fill_tx_buffers_spec f TRANSFER_COUNT 0 0 d w)
    as (ready & d1 & w1 & new1 & -> & Htr1 & Hready & Hring1 & Hsame1 & Hnosub1 & Hfilled & _);
    [lia | assumption | assumption | assumption |].
  cbn [mbind outcome_bind].
  destruct (submit_ready_transfers_spec new1 TX_ENDPOINT_ADDRESS cbk ready 0 error_uninit d1
              (log EvLock w1))
    as (error & d2 & w2 & new2 & -> & Htr2 & Hcalls2 & Hsub2 & Hsame2).
  { cbn in Hready. lia. }
  { assumption. }
  { intros _ j Hj. apply Hfilled. lia. }
  cbn [mbind outcome_bind].
  assert (Hflags : flush d2 = flush d /\ flush_transfer d2 = flush_transfer d).
  { unfold same_session in Hsame2. unfold same_flags in Hsame1.
    rewrite Hsame2, Hsame1. split; reflexivity. }
  destruct Hflags as [Hfl Hft].
  assert (Hpad : forall tail,
             (forall i t res, ~ In (EvSubmit (Slot i) t res) tail) ->
             tx_submissions_padded (new1 ++ [EvLock] ++ new2 ++ tail)).
  { intros tail Htail i t res Hin Hep.
    rewrite !in_app_iff in Hin.
    destruct Hin as [Hin | [[Hin | []] | [Hin | Hin]]];
      [now apply Hnosub1 in Hin | discriminate Hin | | now apply Htail in Hin].
    destruct (Hsub2 i t res Hin Hep) as (t_cb & Hcbin & Hpos & Hpadded).
    exists t_cb. split; [apply in_or_app; left; exact Hcbin | auto]. }
  assert (Htrace : forall tail, trace w2 ++ tail = trace w ++ new1 ++ [EvLock] ++ new2 ++ tail).
  { intros tail. rewrite Htr2. cbn. rewrite Htr1, <- !app_assoc. reflexivity. }
  destruct (error =? 0) eqn:Eerr.
  - cbn [streaming set_transfers_setup set_streaming flush].
    destruct (negb (ready =? TRANSFER_COUNT)%nat && flush d2) eqn:Efl.
    + apply andb_true_iff in Efl as [_ Efl].
      unfold submit_flush_transfer. cbn [flush_transfer set_transfers_setup set_streaming].
      destruct (flush_transfer d2) as [ft |] eqn:Eft.
      2:{ exfalso. apply Hflush; congruence. }
      cbn [mbind outcome_bind]. unfold libusb_submit_transfer.
      set (res := libusb_submit_result w2 (submits w2)).
      eexists _, _, _, _. split; [reflexivity |].
      destruct (res =? 0); cbn.
      * rewrite <- app_assoc. split; [apply Htrace |]. apply Hpad.
        intros i t r [Hin | [Hin | []]]; discriminate Hin.
      * rewrite <- app_assoc. split; [apply Htrace |]. apply Hpad.
        intros i t r [Hin | [Hin | []]]; discriminate Hin.
    + cbn [mbind outcome_bind]. eexists _, _, _, _. split; [reflexivity |].
      cbn. split; [apply Htrace |]. apply Hpad.
      intros i t r [Hin | []]; discriminate Hin.
  - cbn [mbind outcome_bind]. eexists _, _, _, _. split; [reflexivity |].
    cbn. split; [apply Htrace |]. apply Hpad.
    intros i t r [Hin | []]; discriminate Hin.
Qed.

(** ** The concrete inputs are what the library produces *)

Lemma open_initial_world :
  timssdr_open true (Some 1) all_ok initial_world =
    (TIMSSDR_SUCCESS, Some opened_device, opened_world).
Proof. reflexivity. Qed.

Lemma start_rx_opened_device (cb : timssdr_sample_block_cb_fn nat) :
  timssdr_start_rx 0 (Some cb) 5 opened_device opened_world =
    Ok (TIMSSDR_SUCCESS, rx_device cb, rx_world).
Proof. reflexivity. Qed.

Lemma ring_ok_flags {App : Type} (d d' : timssdr_device App) :
  transfers d' = transfers d -> ring_ok d -> ring_ok d'.
Proof.
  intros Heq Hring i Hi. destruct (Hring i Hi) as (usb & Hget & Hslot).
  exists usb. split; [| assumption]. unfold get_xfer in *. now rewrite Heq.
Qed.

Lemma timssdr_start_tx_spec {App : Type} (error_uninit : Z)
    (cb : timssdr_sample_block_cb_fn App) (tx_ctx' : ctx) (d : timssdr_device App)
    (w : world App) :
  ring_ok d ->
  sample_block_cb_ok cb ->
  flush_ok d ->
  exists result d' w' new,
    timssdr_start_tx error_uninit (Some cb) tx_ctx' d w = Ok (result, d', w') /\
    trace w' = trace w ++ new /\
    tx_submissions_padded new.
Proof.
  intros Hring Hcb Hflush. unfold timssdr_start_tx, prepare_setup_transfers.
  set (d1 := match flush_transfer d with Some _ => set_flush true d | None => d end).
  assert (Hd1 : transfers d1 = transfers d /\ flush_ok d1).
  { subst d1. unfold flush_ok in *. destruct (flush_transfer d) eqn:Eft; cbn.
    - split; [reflexivity |]. rewrite Eft. discriminate.
    - split; [reflexivity |]. intros Hfl. rewrite Eft. now apply Hflush. }
  destruct Hd1 as [Htr1 Hfl1]. cbn [transfers_setup set_tx_ctx].
  destruct (transfers_setup d1).
  - exists TIMSSDR_ERROR_BUSY, (set_tx_ctx tx_ctx' d1), w, []. rewrite app_nil_r.
    split; [reflexivity |]. split; [reflexivity |]. intros i t res [].
  - apply (prepare_transfers_tx_spec cb).
    + eapply ring_ok_flags; [| exact Hring]. exact Htr1.
    + reflexivity.
    + assumption.
    + exact Hfl1.
Qed.

(** ** The concrete inputs meet the preconditions *)

Lemma slot_ok_idle_slot : slot_ok idle_slot.
Proof.
  exists (zeros TRANSFER_BUFFER_SIZE). split; [reflexivity |].
  unfold zeros. rewrite repeat_length. reflexivity.
Qed.

Lemma slot_ok_busy_slot (endpoint : Z) : slot_ok (busy_slot endpoint).
Proof. destruct slot_ok_idle_slot as (b & Hb & Hsize). exists b. auto. Qed.

Lemma ring_ok_repeat {App : Type} (d : timssdr_device App) (t : libusb_transfer) :
  transfers d = Some (repeat (Some t) TRANSFER_COUNT) -> slot_ok t -> ring_ok d.
Proof.
  intros Hts Ht i Hi. exists t. split; [| assumption].
  unfold get_xfer. rewrite Hts. unfold TRANSFER_COUNT in *.
  do 4 (destruct i as [| i]; [reflexivity |]). lia.
Qed.

Lemma sample_block_cb_ok_keep_going : sample_block_cb_ok keep_going.
Proof. intros a t. cbn. split; [intros b Hb; eauto | auto]. Qed.

Lemma sample_block_cb_ok_send_100 : sample_block_cb_ok send_100.
Proof.
  intros a t. unfold send_100. destruct (buffer t) as [b |] eqn:Eb.
  - destruct (Z.leb_spec 100 (Z.of_nat (length b))) as [Hle | Hgt]; cbn.
    + split; [intros b' Hb'; exists b; split; [reflexivity | congruence] |].
      intros _ _ b' Hb'. cbn in Hb' |- *. injection Hb' as <-. exact Hle.
    + split; [intros b' Hb'; eauto | discriminate].
  - cbn. split; [intros b' Hb'; eauto | discriminate].
Qed.

Lemma completion_ready_rx_device (i : nat) :
  (i < TRANSFER_COUNT)%nat -> completion_ready (rx_device keep_going) i.
Proof.
  intros Hi. split; [| split; [| split]].
  - destruct (ring_ok_repeat (rx_device keep_going) (busy_slot RX_ENDPOINT_ADDRESS)
                eq_refl (slot_ok_busy_slot _) i Hi) as (usb & Hget & Hslot).
    exists usb. split; [assumption |]. split; [assumption |].
    unfold get_xfer, TRANSFER_COUNT in *. cbn in Hget.
    do 4 (destruct i as [| i]; [injection Hget as <-; discriminate |]). lia.
  - exists keep_going. split; [reflexivity | apply sample_block_cb_ok_keep_going].
  - intros f Hf. discriminate Hf.
  - intros Hfl. discriminate Hfl.
Qed.

(** ** The claims about the completion handler and the padding *)

(** C3. For every completion of the transfer of a slot, the handler calls
    the application's sample-block callback once when the status is
    COMPLETED and [streaming] is true, and not at all otherwise; on any other
    status it clears [streaming] and [flush]. *)
Theorem sample_block_callback_iff_completed_and_streaming {App : Type} (i : nat)
    (d : timssdr_device App) (w : world App) (usb : libusb_transfer) :
  completion_ready d i ->
  get_xfer d (Slot i) = Ok usb ->
  exists d' w' new,
    timssdr_libusb_transfer_callback (Slot i) d w = Ok (d', w') /\
    trace w' = trace w ++ new /\
    sample_block_calls new =
      (if (usb_status usb =? LIBUSB_TRANSFER_COMPLETED) && streaming d
       then 1%nat else 0%nat) /\
    (usb_status usb <> LIBUSB_TRANSFER_COMPLETED ->
     streaming d' = false /\ flush d' = false).
Proof.
  intros Hready Hget.
  destruct (handler_total i d w usb Hready Hget)
    as (d' & w' & new & Hrun & Htr & Hcalls & Hfail & _).
  exists d', w', new. auto.
Qed.

Lemma sample_block_callback_iff_completed_and_streaming_witness :
  completion_ready (rx_device keep_going) 0 /\
  get_xfer (rx_device keep_going) (Slot 0) = Ok (busy_slot RX_ENDPOINT_ADDRESS) /\
  exists d' w' new,
    timssdr_libusb_transfer_callback (Slot 0) (rx_device keep_going) rx_world = Ok (d', w') /\
    trace w' = trace rx_world ++ new /\
    sample_block_calls new =
      (if (usb_status (busy_slot RX_ENDPOINT_ADDRESS) =? LIBUSB_TRANSFER_COMPLETED)
          && streaming (rx_device keep_going)
       then 1%nat else 0%nat) /\
    (usb_status (busy_slot RX_ENDPOINT_ADDRESS) <> LIBUSB_TRANSFER_COMPLETED ->
     streaming d' = false /\ flush d' = false).
Proof.
  split; [apply completion_ready_rx_device; unfold TRANSFER_COUNT; lia |].
  split; [reflexivity |].
  apply sample_block_callback_iff_completed_and_streaming.
  - apply completion_ready_rx_device. unfold TRANSFER_COUNT. lia.
  - reflexivity.
Defined.

(** C2. At both places where the library hands data transfers to the
    transport, every transfer submitted on the TX endpoint was filled by a
    call of the application callback that returned 0 with [valid_length > 0];
    its length is that [valid_length] rounded up to the nearest multiple of
    512, the bytes from [valid_length] up to the rounded length are zero and
    the bytes before are the application's. *)
Theorem tx_transfer_length_is_padded {App : Type} (site : tx_site App)
    (d : timssdr_device App) (w : world App) :
  tx_site_ready site d ->
  exists d' w' new,
    run_tx_site site d w = Ok (d', w') /\
    trace w' = trace w ++ new /\
    tx_submissions_padded new.
Proof.
  destruct site as [error_uninit cb tx_ctx' | i]; cbn [tx_site_ready run_tx_site].
  - intros (Hring & Hcb & Hflush).
    destruct (timssdr_start_tx_spec error_uninit cb tx_ctx' d w Hring Hcb Hflush)
      as (result & d' & w' & new & -> & Htr & Hpad).
    exists d', w', new. auto.
  - intros Hready.
    destruct Hready as ((usb & Hget & Hslot & Hactual) & Hrest).
    destruct (handler_total i d w usb) as (d' & w' & new & Hrun & Htr & _ & _ & Hpad);
      [split; eauto | assumption |].
    exists d', w', new. auto.
Qed.

Lemma tx_transfer_length_is_padded_witness :
  tx_site_ready (AtStart 0 send_100 7) opened_device /\
  exists d' w' new,
    run_tx_site (AtStart 0 send_100 7) opened_device opened_world = Ok (d', w') /\
    trace w' = trace opened_world ++ new /\
    tx_submissions_padded new.
Proof.
  assert (Hready : tx_site_ready (AtStart 0 send_100 7) opened_device).
  { split; [| split].
    - apply (ring_ok_repeat opened_device idle_slot eq_refl slot_ok_idle_slot).
    - apply sample_block_cb_ok_send_100.
    - intros Hfl. discriminate Hfl. }
  split; [exact Hready |].
  apply tx_transfer_length_is_padded. exact Hready.
Defined.

(** ** The flush completion handler *)

(** C7. The flush completion handler takes the lock, clears [flush], sets
    [active_transfers] to 0, broadcasts the condition and releases the lock;
    only then does it call the application's flush callback (when one is
    installed) with [flush_ctx] and the success flag, which is true exactly
    when the status is COMPLETED. *)
Theorem flush_callback_runs_after_unlock {App : Type} (usb_transfer : libusb_transfer)
    (d : timssdr_device App) (w : world App) :
  exists w',
    timssdr_libusb_flush_callback usb_transfer d w =
      (set_active_transfers 0 (set_flush false d), w') /\
    flush (set_active_transfers 0 (set_flush false d)) = false /\
    active_transfers (set_active_transfers 0 (set_flush false d)) = 0 /\
    trace w' =
      trace w ++ [EvLock; EvBroadcast; EvUnlock] ++
      match flush_callback d with
      | Some _ =>
          [EvFlushCallback (flush_ctx d) (usb_status usb_transfer =? LIBUSB_TRANSFER_COMPLETED)]
      | None => []
      end /\
    app w' =
      match flush_callback d with
      | Some f => f (app w) (flush_ctx d) (usb_status usb_transfer =? LIBUSB_TRANSFER_COMPLETED)
      | None => app w
      end /\
    ((usb_status usb_transfer =? LIBUSB_TRANSFER_COMPLETED) = true <->
     usb_status usb_transfer = LIBUSB_TRANSFER_COMPLETED).
Proof.
  unfold timssdr_libusb_flush_callback. cbn.
  destruct (flush_callback d) as [f |]; eexists; (split; [reflexivity |]); cbn;
    rewrite <- ?app_assoc; repeat split; try reflexivity; apply Z.eqb_eq.
Qed.

(** ** Enabling the flush *)

Lemma enable_tx_flush_again {App : Type} (alloc_ok calloc_ok : bool)
    (cb : option (timssdr_flush_cb_fn App)) (c : ctx) (d : timssdr_device App)
    (w : world App) (t : libusb_transfer) :
  flush_transfer d = Some t ->
  timssdr_enable_tx_flush alloc_ok calloc_ok cb c d w =
    (TIMSSDR_SUCCESS, set_flush_ctx c (set_flush_callback cb d), w).
Proof. intros Ht. unfold timssdr_enable_tx_flush. cbn. now rewrite Ht. Qed.

Lemma last_nonempty_default {A : Type} (x : A) (l : list A) (d1 d2 : A) :
  List.last (x :: l) d1 = List.last (x :: l) d2.
Proof.
  revert x. induction l as [| y l IH]; intros x; [reflexivity |].
  change (List.last (y :: l) d1 = List.last (y :: l) d2). apply IH.
Qed.

Lemma enable_tx_flush_calls_again {App : Type} (requests : list (flush_request App)) :
  forall (d : timssdr_device App) (w : world App) (t : libusb_transfer)
         (cb : option (timssdr_flush_cb_fn App)) (c : ctx),
    flush_transfer d = Some t ->
    flush_callback d = cb ->
    flush_ctx d = c ->
    enable_tx_flush_calls requests d w =
      (repeat TIMSSDR_SUCCESS (length requests),
       set_flush_ctx (fr_ctx (List.last requests (mk_flush_request cb c true true)))
         (set_flush_callback
            (fr_callback (List.last requests (mk_flush_request cb c true true))) d),
       w).
Proof.
  induction requests as [| q requests IH]; intros d w t cb c Ht Hcb Hc.
  - cbn. subst cb c. destruct d; reflexivity.
  - cbn [enable_tx_flush_calls].
    rewrite (enable_tx_flush_again _ _ _ _ d w t Ht).
    rewrite (IH _ w t (fr_callback q) (fr_ctx q)); [| exact Ht | reflexivity | reflexivity].
    cbn [length repeat]. f_equal. f_equal.
    destruct requests as [| q' requests]; [destruct d; reflexivity |].
    change (List.last (q :: q' :: requests) (mk_flush_request cb c true true))
      with (List.last (q' :: requests) (mk_flush_request cb c true true)).
    rewrite (last_nonempty_default q' requests _ (mk_flush_request cb c true true)).
    destruct d; reflexivity.
Qed.

(** C9. Calling [timssdr_enable_tx_flush] [K >= 1] times on an open device
    (it has no flush transfer before the first call, and the first call gets
    its memory; the later calls may be refused any) allocates exactly one
    flush transfer, of [DEVICE_BUFFER_SIZE] zero bytes on the TX endpoint;
    every call returns [TIMSSDR_SUCCESS], and the device after the last call
    is the device after the first call with the callback and context of the
    last call. *)
Theorem enable_tx_flush_allocates_once {App : Type} (q : flush_request App)
    (requests : list (flush_request App)) (d : timssdr_device App) (w : world App) :
  flush_transfer d = None ->
  fr_alloc_ok q = true ->
  fr_calloc_ok q = true ->
  exists d1 new,
    timssdr_enable_tx_flush true true (fr_callback q) (fr_ctx q) d w =
      (TIMSSDR_SUCCESS, d1, log (EvAllocTransfer FlushTransfer) w) /\
    enable_tx_flush_calls (q :: requests) d w =
      (repeat TIMSSDR_SUCCESS (length (q :: requests)),
       set_flush_ctx (fr_ctx (List.last (q :: requests) q))
         (set_flush_callback (fr_callback (List.last (q :: requests) q)) d1),
       log (EvAllocTransfer FlushTransfer) w) /\
    trace (log (EvAllocTransfer FlushTransfer) w) = trace w ++ new /\
    flush_allocations new = 1%nat /\
    flush_transfer d1 =
      Some (mk_libusb_transfer TX_ENDPOINT_ADDRESS LIBUSB_TRANSFER_FREE_BUFFER 0
              DEVICE_BUFFER_SIZE 0 cb_timssdr_libusb_flush_callback
              (Some (zeros DEVICE_BUFFER_SIZE))).
Proof.
  intros Hnone Halloc Hcalloc.
  assert (Hfirst : timssdr_enable_tx_flush true true (fr_callback q) (fr_ctx q) d w =
            (TIMSSDR_SUCCESS,
             set_flush_transfer (Some fresh_flush_transfer)
               (set_flush_ctx (fr_ctx q) (set_flush_callback (fr_callback q) d)),
             log (EvAllocTransfer FlushTransfer) w)).
  { unfold timssdr_enable_tx_flush. cbn. rewrite Hnone. reflexivity. }
  eexists _, [_]. split; [exact Hfirst |]. split; [| split; [reflexivity |]].
  - cbn [enable_tx_flush_calls]. rewrite Halloc, Hcalloc, Hfirst.
    erewrite (enable_tx_flush_calls_again requests _ _ fresh_flush_transfer
                (fr_callback q) (fr_ctx q)); [| reflexivity ..].
    cbn [length repeat]. f_equal. f_equal.
    destruct requests as [| q' requests]; [destruct q; reflexivity |].
    change (List.last (q :: q' :: requests) q) with (List.last (q' :: requests) q).
    rewrite (last_nonempty_default q' requests _ q).
    reflexivity.
  - split; reflexivity.
Qed.

Lemma enable_tx_flush_allocates_once_witness :
  flush_transfer opened_device = None /\
  fr_alloc_ok (mk_flush_request (App := nat) None 9 true true) = true /\
  fr_calloc_ok (mk_flush_request (App := nat) None 9 true true) = true /\
  exists d1 new,
    timssdr_enable_tx_flush true true None 9 opened_device opened_world =
      (TIMSSDR_SUCCESS, d1, log (EvAllocTransfer FlushTransfer) opened_world) /\
    enable_tx_flush_calls
      [mk_flush_request None 9 true true;
       mk_flush_request (Some (fun a _ _ => S a)) 11 false false]
      opened_device opened_world =
      (repeat TIMSSDR_SUCCESS 2,
       set_flush_ctx 11 (set_flush_callback (Some (fun a _ _ => S a)) d1),
       log (EvAllocTransfer FlushTransfer) opened_world) /\
    trace (log (EvAllocTransfer FlushTransfer) opened_world) = trace opened_world ++ new /\
    flush_allocations new = 1%nat /\
    flush_transfer d1 =
      Some (mk_libusb_transfer TX_ENDPOINT_ADDRESS LIBUSB_TRANSFER_FREE_BUFFER 0
              DEVICE_BUFFER_SIZE 0 cb_timssdr_libusb_flush_callback
              (Some (zeros DEVICE_BUFFER_SIZE))).
Proof.
  split; [reflexivity |]. split; [reflexivity |]. split; [reflexivity |].
  apply (enable_tx_flush_allocates_once (mk_flush_request None 9 true true)
           [mk_flush_request (Some (fun a _ _ => S a)) 11 false false]
           opened_device opened_world); reflexivity.
Defined.

(** Out of memory: when the device has no flush transfer and
    [libusb_alloc_transfer] returns NULL, the call returns
    [TIMSSDR_ERROR_LIBUSB] with the callback and the context installed and
    nothing else changed; the next call starts afresh. *)
Lemma enable_tx_flush_alloc_failure {App : Type} (calloc_ok : bool)
    (cb : option (timssdr_flush_cb_fn App)) (c : ctx) (d : timssdr_device App)
    (w : world App) :
  flush_transfer d = None ->
  timssdr_enable_tx_flush false calloc_ok cb c d w =
    (TIMSSDR_ERROR_LIBUSB, set_flush_ctx c (set_flush_callback cb d), w) /\
  flush_transfer (set_flush_ctx c (set_flush_callback cb d)) = None /\
  flush_callback (set_flush_ctx c (set_flush_callback cb d)) = cb /\
  flush_ctx (set_flush_ctx c (set_flush_callback cb d)) = c.
Proof.
  intros Hnone. unfold timssdr_enable_tx_flush. cbn. rewrite Hnone. repeat split.
Qed.

(** ** Where the code departs from the claims *)

(** C1 fails on the code at a NULL argument. With no device open
    [timssdr_exit] succeeds; [timssdr_close(NULL)] returns
    [TIMSSDR_SUCCESS], yet it decrements the [uint16_t] counter from 0 to
    65535, after which [timssdr_exit] refuses with
    [TIMSSDR_ERROR_NOT_LAST_DEVICE] although no device is open. *)
Theorem timssdr_close_null_changes_open_devices :
  open_devices (glob initial_world) = 0 /\
  fst (timssdr_exit initial_world) = TIMSSDR_SUCCESS /\
  match timssdr_close [] 0 None initial_world with
  | Ok (result, w) =>
      result = TIMSSDR_SUCCESS /\
      open_devices (glob w) = 65535 /\
      fst (timssdr_exit w) = TIMSSDR_ERROR_NOT_LAST_DEVICE
  | _ => False
  end.
Proof. vm_compute. repeat split. Qed.

(** C4 fails on the code when the TX callback refuses the first buffer.
    No transfer is ready, the submit loop does not run, and [error] is read
    without ever having been assigned. With the indeterminate value 1 the
    call returns [TIMSSDR_ERROR_LIBUSB] although nothing was submitted and
    libusb reported no error, [transfers_setup] stays false and the armed
    flush transfer is not submitted; with the indeterminate value 0 the same
    call does what the claim says. *)
Theorem prepare_transfers_first_buffer_refused :
  match timssdr_start_tx 1 (Some decline) 0 flush_enabled_device flush_enabled_world with
  | Ok (result, d, w) =>
      result = TIMSSDR_ERROR_LIBUSB /\
      transfers_setup d = false /\
      flush d = true /\
      submissions (trace w) = [] /\
      last_libusb_error (glob w) = LIBUSB_SUCCESS
  | _ => False
  end /\
  match timssdr_start_tx 0 (Some decline) 0 flush_enabled_device flush_enabled_world with
  | Ok (result, d, w) =>
      result = TIMSSDR_SUCCESS /\
      transfers_setup d = true /\
      streaming d = false /\
      submissions (trace w) = [FlushTransfer]
  | _ => False
  end.
Proof. vm_compute. repeat split. Qed.

(** C6 fails on the code for the contexts and the flush flag, which
    [timssdr_start_tx] and [timssdr_start_rx] write before the busy check.
    During an RX session with context 5 on a device whose flush transfer is
    enabled, a rejected [timssdr_start_tx] installs no callback and submits
    nothing, but it arms [flush] and replaces [tx_ctx]: at the next completion
    the first session's callback sees the new context and, once it declines,
    the handler submits the flush transfer, which it would not have done. A
    rejected [timssdr_start_rx] replaces [rx_ctx], so that the first
    session's callback is called with the context of the rejected call. *)
Theorem rejected_start_disturbs_running_session :
  match timssdr_start_tx 0 (Some keep_going) 8 (rx_flush_device decline) rx_world with
  | Ok (result, d, w) =>
      result = TIMSSDR_ERROR_BUSY /\
      submissions (trace w) = submissions (trace rx_world) /\
      (flush (rx_flush_device decline), flush d) = (false, true) /\
      (tx_ctx (rx_flush_device decline), tx_ctx d) = (0, 8) /\
      match libusb_complete (Completion (Slot 0) LIBUSB_TRANSFER_COMPLETED 100)
              (rx_flush_device decline) rx_world,
            libusb_complete (Completion (Slot 0) LIBUSB_TRANSFER_COMPLETED 100) d w with
      | Ok (d1, w1), Ok (d2, w2) =>
          submissions (trace w1) = submissions (trace rx_world) /\
          submissions (trace w2) = submissions (trace rx_world) ++ [FlushTransfer] /\
          (active_transfers d1, active_transfers d2) = (3, 3) /\
          contexts_seen (trace w1) = [(5, 0)] /\
          contexts_seen (trace w2) = [(5, 8)]
      | _, _ => False
      end
  | _ => False
  end /\
  match timssdr_start_rx 0 (Some keep_going) 8 (rx_device decline) rx_world with
  | Ok (result, d, w) =>
      result = TIMSSDR_ERROR_BUSY /\
      (rx_ctx (rx_device decline), rx_ctx d) = (5, 8) /\
      match libusb_complete (Completion (Slot 0) LIBUSB_TRANSFER_COMPLETED 100) d w with
      | Ok (_, w2) => contexts_seen (trace w2) = [(8, 0)]
      | _ => False
      end
  | _ => False
  end.
Proof. vm_compute. repeat split. Qed.

(** C5 fails on the code in [stale_flush_scenario]: the flush transfer of
    a stopped session completes during the next session and its handler sets
    [active_transfers] to 0 while four transfers are in flight; the next
    completion drives the count to -1, and [timssdr_stop_tx] then returns
    [TIMSSDR_SUCCESS] at once, with [active_transfers = -1] and three
    transfers still in flight. *)
Theorem stop_tx_returns_with_negative_active_transfers :
  match stale_flush_scenario with
  | Ok (result, d, w) =>
      result = TIMSSDR_SUCCESS /\
      active_transfers d = -1 /\
      transfers_setup d = false /\
      flush d = false
  | _ => False
  end.
Proof. vm_compute. repeat split. Qed.

(** ** What the code guarantees around the departures *)

(** *** Stopping a session *)

Lemma handler_frame_refl {App : Type} (d : timssdr_device App) (w : world App) :
  handler_frame d w d w.
Proof. repeat split; auto. Qed.

Lemma handler_frame_trans {App : Type} (d1 d2 d3 : timssdr_device App)
    (w1 w2 w3 : world App) :
  handler_frame d1 w1 d2 w2 -> handler_frame d2 w2 d3 w3 -> handler_frame d1 w1 d3 w3.
Proof.
  intros (Hg1 & Ho1 & Hs1 & Hf1) (Hg2 & Ho2 & Hs2 & Hf2).
  repeat split; try congruence. auto.
Qed.

Lemma flush_if_armed_frame {App : Type} (d d' : timssdr_device App) (w w' : world App) :
  flush_if_armed d w = Ok (d', w') -> handler_frame d w d' w'.
Proof.
  unfold flush_if_armed, submit_flush_transfer, libusb_submit_transfer, mbind, outcome_bind.
  intros H. frame_cases; repeat split; cbn; auto; congruence.
Qed.

Lemma retire_transfer_frame {App : Type} (d d' : timssdr_device App) (w w' : world App) :
  retire_transfer d w = (d', w') -> handler_frame d w d' w'.
Proof.
  unfold retire_transfer. cbn. intros H.
  destruct (active_transfers d =? 1); [destruct (flush d) eqn:Efl |]; cbn in H;
    injection H as <- <-; repeat split; cbn; auto.
Qed.

Lemma put_xfer_flags {App : Type} (r : xfer_ref) (t : libusb_transfer)
    (d : timssdr_device App) :
  transfers_setup (put_xfer r t d) = transfers_setup d /\
  flush (put_xfer r t d) = flush d /\
  active_transfers (put_xfer r t d) = active_transfers d /\
  streaming (put_xfer r t d) = streaming d.
Proof. destruct r; repeat split. Qed.

Lemma resubmit_or_flush_frame {App : Type} (r : xfer_ref) (usb usb' : libusb_transfer)
    (t : timssdr_transfer) (d d' : timssdr_device App) (w w' : world App)
    (resubmit : option Z) :
  resubmit_or_flush r usb t d w = Ok (resubmit, usb', d', w') ->
  handler_frame d w d' w'.
Proof.
  unfold resubmit_or_flush. intros H.
  destruct (streaming d).
  - destruct (callback d) as [f |]; [| discriminate H].
    destruct (f (app w) t) as [[ret t1] a].
    destruct ((ret =? 0) && (0 <? valid_length t1)).
    + destruct (transfers_setup d) eqn:Esetup.
      * destruct (if usb_endpoint (written_back t1 usb) =? TX_ENDPOINT_ADDRESS
                  then pad_transfer (set_usb_length (valid_length t1) (written_back t1 usb))
                  else Ok (written_back t1 usb)) as [u | |]; try discriminate H.
        cbn in H. injection H as <- <- <- <-. repeat split; auto.
      * injection H as <- <- <- <-. repeat split; auto.
    + destruct (flush_if_armed d _) as [[d1 w1] | |] eqn:Efl; try discriminate H.
      cbn in H. injection H as <- <- <- <-.
      eapply handler_frame_trans; [| eapply flush_if_armed_frame; exact Efl].
      repeat split; auto.
  - destruct (flush_if_armed d w) as [[d1 w1] | |] eqn:Efl; try discriminate H.
    cbn in H. injection H as <- <- <- <-. now apply flush_if_armed_frame.
Qed.

Lemma timssdr_libusb_transfer_callback_frame {App : Type} (r : xfer_ref)
    (d d' : timssdr_device App) (w w' : world App) :
  timssdr_libusb_transfer_callback r d w = Ok (d', w') -> handler_frame d w d' w'.
Proof.
  unfold timssdr_libusb_transfer_callback. intros H.
  destruct (get_xfer d r) as [usb | |]; try discriminate H. cbn [mbind outcome_bind] in H.
  set (t0 := mk_timssdr_transfer _ _ _ _ _) in H.
  set (success := usb_status usb =? LIBUSB_TRANSFER_COMPLETED) in H.
  assert (Hcall : glob (call_tx_completion_callback d t0 success w).2 = glob w /\
                  libusb_submit_result (call_tx_completion_callback d t0 success w).2 =
                    libusb_submit_result w).
  { unfold call_tx_completion_callback. destruct (tx_completion_callback d) as [f |]; [| auto].
    destruct (f (app w) t0 success). auto. }
  destruct (call_tx_completion_callback d t0 success w) as [t1 w1]. cbn in Hcall.
  destruct Hcall as [Hg1 Ho1].
  assert (Hmid : exists resubmit usb1 d1 w2,
             handler_frame d w d1 w2 /\
             (let '(d2, w3) :=
                match resubmit with
                | Some result =>
                    if result =? LIBUSB_SUCCESS then (put_xfer r usb1 d1, w2)
                    else retire_transfer (put_xfer r usb1 d1) w2
                | None => retire_transfer (put_xfer r usb1 d1) w2
                end in Ok (d2, log EvUnlock w3)) = Ok (d', w')).
  { destruct success.
    - destruct (resubmit_or_flush r (written_back t1 usb) t1 d (log EvLock w1))
        as [[[[resubmit usb1] d1] w2] | |] eqn:Erun; try discriminate H.
      exists resubmit, usb1, d1, w2. split; [| exact H].
      apply resubmit_or_flush_frame in Erun.
      eapply handler_frame_trans; [| exact Erun]. repeat split; auto.
    - eexists None, _, _, _. split; [| exact H]. repeat split; auto. }
  clear H. destruct Hmid as (resubmit & usb1 & d1 & w2 & Hframe & H).
  assert (Hput : handler_frame d1 w2 (put_xfer r usb1 d1) w2).
  { destruct (put_xfer_flags r usb1 d1) as (Hs & Hf & _). repeat split; auto. congruence. }
  assert (Hfinish : forall d2 w3,
             handler_frame (put_xfer r usb1 d1) w2 d2 w3 ->
             Ok (d2, log EvUnlock w3) = Ok (d', w') -> handler_frame d w d' w').
  { intros d2 w3 Hf2 Heq. injection Heq as <- <-.
    eapply handler_frame_trans; [exact Hframe |].
    eapply handler_frame_trans; [exact Hput |].
    eapply handler_frame_trans; [exact Hf2 |]. repeat split; auto. }
  destruct resubmit as [result |]; [destruct (result =? LIBUSB_SUCCESS) |].
  - eapply Hfinish; [apply handler_frame_refl | exact H].
  - destruct (retire_transfer (put_xfer r usb1 d1) w2) as [d2 w3] eqn:Eret.
    eapply Hfinish; [eapply retire_transfer_frame; exact Eret | exact H].
  - destruct (retire_transfer (put_xfer r usb1 d1) w2) as [d2 w3] eqn:Eret.
    eapply Hfinish; [eapply retire_transfer_frame; exact Eret | exact H].
Qed.

Lemma timssdr_libusb_flush_callback_frame {App : Type} (usb : libusb_transfer)
    (d d' : timssdr_device App) (w w' : world App) :
  timssdr_libusb_flush_callback usb d w = (d', w') -> handler_frame d w d' w'.
Proof.
  unfold timssdr_libusb_flush_callback. cbn.
  destruct (flush_callback d); intros H; injection H as <- <-; repeat split; auto.
Qed.

Lemma libusb_complete_frame {App : Type} (c : completion)
    (d d' : timssdr_device App) (w w' : world App) :
  libusb_complete c d w = Ok (d', w') -> handler_frame d w d' w'.
Proof.
  destruct c as [r status n]. unfold libusb_complete. intros H.
  destruct (get_xfer d r) as [t | |]; try discriminate H. cbn [mbind outcome_bind] in H.
  set (t1 := set_usb_actual_length n (set_usb_status status t)) in H.
  assert (Hput : handler_frame d w (put_xfer r t1 d) w).
  { destruct (put_xfer_flags r t1 d) as (Hs & Hf & _). repeat split; auto. congruence. }
  destruct (usb_callback t1).
  - injection H as <- <-. exact Hput.
  - eapply handler_frame_trans; [exact Hput |].
    now apply timssdr_libusb_transfer_callback_frame in H.
  - injection H as H. eapply handler_frame_trans; [exact Hput |].
    now apply timssdr_libusb_flush_callback_frame in H.
Qed.

Lemma libusb_handle_events_frame {App : Type} (batch : list completion) :
  forall (d d' : timssdr_device App) (w w' : world App),
    libusb_handle_events batch d w = Ok (d', w') -> handler_frame d w d' w'.
Proof.
  induction batch as [| c batch IH]; intros d d' w w' H; cbn in H.
  - injection H as <- <-. apply handler_frame_refl.
  - destruct (libusb_complete c d w) as [[d1 w1] | |] eqn:Ec; try discriminate H.
    cbn in H. eapply handler_frame_trans; [eapply libusb_complete_frame; exact Ec |].
    now apply IH.
Qed.

Lemma wait_all_finished_spec {App : Type} (sched : list (list completion)) :
  forall (d d' : timssdr_device App) (w w' : world App),
    wait_all_finished sched d w = Ok (d', w') ->
    handler_frame d w d' w' /\ active_transfers d' <= 0.
Proof.
  induction sched as [| batch sched IH]; intros d d' w w' H; cbn in H.
  - destruct (Z.ltb_spec 0 (active_transfers d)); [discriminate H |].
    injection H as <- <-. split; [apply handler_frame_refl | assumption].
  - destruct (Z.ltb_spec 0 (active_transfers d)).
    + destruct (libusb_handle_events batch d (log EvCondWait w)) as [[d1 w1] | |] eqn:Eb;
        try discriminate H.
      cbn in H. apply IH in H as [Hframe Hle]. split; [| assumption].
      apply libusb_handle_events_frame in Eb.
      eapply handler_frame_trans; [| exact Hframe].
      eapply handler_frame_trans; [| exact Eb]. repeat split; auto.
    + injection H as <- <-. split; [apply handler_frame_refl | assumption].
Qed.

Lemma cancel_slots_frame {App : Type} (n : nat) :
  forall (idx : nat) (ts : list (option libusb_transfer)) (w : world App),
    glob (cancel_slots n idx ts w) = glob w /\
    libusb_submit_result (cancel_slots n idx ts w) = libusb_submit_result w /\
    app (cancel_slots n idx ts w) = app w.
Proof.
  induction n as [| n IH]; intros idx ts w; cbn; [auto |].
  destruct (IH (S idx) ts
              match ts !! idx with
              | Some (Some _) => log (EvCancel (Slot idx)) w
              | _ => w
              end) as (Hg & Ho & Ha).
  rewrite Hg, Ho, Ha. destruct (ts !! idx) as [[t |] |]; auto.
Qed.

(** What [cancel_transfers] guarantees whenever it returns. *)
Lemma cancel_transfers_spec {App : Type} (sched : list (list completion))
    (d d' : timssdr_device App) (w w' : world App) (result : Z) :
  cancel_transfers sched d w = Ok (result, d', w') ->
  glob w' = glob w /\
  if transfers_check_setup d
  then result = TIMSSDR_SUCCESS /\ transfers_setup d' = false /\ flush d' = false /\
       active_transfers d' <= 0
  else result = TIMSSDR_ERROR_OTHER /\ d' = set_streaming false d /\ w' = w.
Proof.
  unfold cancel_transfers.
  replace (transfers_check_setup (set_streaming false d)) with (transfers_check_setup d)
    by reflexivity.
  destruct (transfers_check_setup d); intros H.
  - match type of H with
    | context [wait_all_finished sched ?d0 ?w0] =>
        assert (Hw0 : glob w0 = glob w);
        [| destruct (wait_all_finished sched d0 w0) as [[d1 w1] | |] eqn:Ewait;
           try discriminate H;
           apply wait_all_finished_spec in Ewait as [(Hg & Ho & Hs & Hf) Hle] ]
    end.
    { change (flush_transfer (set_streaming false d)) with (flush_transfer d).
      destruct (flush_transfer d); unfold log at 1; cbn [glob];
        (etransitivity; [apply cancel_slots_frame | reflexivity]). }
    cbn [mbind outcome_bind] in H. injection H as <- <- <-.
    split; [cbn [glob log]; congruence |].
    repeat split; auto.
  - injection H as <- <- <-. auto.
Qed.

(** X1. [timssdr_stop_rx] and [timssdr_stop_tx] on a device without a
    session ([transfers_setup] false) return [TIMSSDR_ERROR_OTHER], having
    cleared [streaming] and nothing else, whatever the pump would deliver. *)
Theorem stop_without_session_returns_other {App : Type} (sched : list (list completion))
    (d : timssdr_device App) (w : world App) :
  transfers_setup d = false ->
  timssdr_stop_rx sched d w = Ok (TIMSSDR_ERROR_OTHER, set_streaming false d, w) /\
  timssdr_stop_tx sched d w = Ok (TIMSSDR_ERROR_OTHER, set_streaming false d, w).
Proof.
  intros Hsetup.
  assert (Hcancel : cancel_transfers sched d w =
                      Ok (TIMSSDR_ERROR_OTHER, set_streaming false d, w)).
  { unfold cancel_transfers, transfers_check_setup. cbn. rewrite Hsetup.
    destruct (transfers d); reflexivity. }
  unfold timssdr_stop_rx, timssdr_stop_tx. rewrite Hcancel. split; reflexivity.
Qed.

Lemma stop_without_session_returns_other_witness :
  transfers_setup opened_device = false /\
  timssdr_stop_rx [] opened_device opened_world =
    Ok (TIMSSDR_ERROR_OTHER, set_streaming false opened_device, opened_world) /\
  timssdr_stop_tx [] opened_device opened_world =
    Ok (TIMSSDR_ERROR_OTHER, set_streaming false opened_device, opened_world).
Proof.
  split; [reflexivity |].
  apply (stop_without_session_returns_other [] opened_device opened_world). reflexivity.
Defined.

(** X2. Whenever [timssdr_stop_tx] (or [timssdr_stop_rx], the same code)
    returns for a device with a session, it returns [TIMSSDR_SUCCESS] with
    [transfers_setup] and [flush] false and [active_transfers <= 0]; when
    the count is not positive on entry it returns without waiting. *)
Theorem stop_with_session_postcondition {App : Type} (sched : list (list completion))
    (d : timssdr_device App) (w : world App) :
  transfers_check_setup d = true ->
  (forall result d' w',
     timssdr_stop_tx sched d w = Ok (result, d', w') ->
     timssdr_stop_rx sched d w = Ok (result, d', w') /\
     result = TIMSSDR_SUCCESS /\ transfers_setup d' = false /\ flush d' = false /\
     active_transfers d' <= 0) /\
  (active_transfers d <= 0 ->
   exists w',
     timssdr_stop_tx sched d w =
       Ok (TIMSSDR_SUCCESS,
           set_flush false (set_transfers_setup false (set_streaming false d)), w')).
Proof.
  intros Hsetup. split.
  - intros result d' w' H. unfold timssdr_stop_tx, timssdr_stop_rx in *.
    destruct (cancel_transfers sched d w) as [[[r d1] w1] | |] eqn:Ecancel;
      try discriminate H.
    cbn in H |- *.
    apply cancel_transfers_spec in Ecancel as [_ Hpost]. rewrite Hsetup in Hpost.
    destruct (r =? TIMSSDR_SUCCESS); cbn in H |- *; injection H as <- <- <-; auto.
  - intros Hcount. unfold timssdr_stop_tx, cancel_transfers.
    replace (transfers_check_setup (set_streaming false d)) with (transfers_check_setup d)
      by reflexivity.
    rewrite Hsetup.
    assert (Hwait : forall (d0 : timssdr_device App) (w0 : world App),
               active_transfers d0 = active_transfers d ->
               wait_all_finished sched d0 w0 = Ok (d0, w0)).
    { intros d0 w0 Heq. destruct sched; cbn; rewrite Heq;
        destruct (Z.ltb_spec 0 (active_transfers d)); auto; lia. }
    rewrite Hwait by reflexivity. cbn [mbind outcome_bind].
    eexists. reflexivity.
Qed.

Lemma stop_with_session_postcondition_witness :
  (transfers_check_setup (rx_device keep_going) = true /\
   exists d' w',
     timssdr_stop_tx [four_cancelled] (rx_device keep_going) rx_world =
       Ok (TIMSSDR_SUCCESS, d', w') /\
     timssdr_stop_rx [four_cancelled] (rx_device keep_going) rx_world =
       Ok (TIMSSDR_SUCCESS, d', w') /\
     transfers_setup d' = false /\ flush d' = false /\ active_transfers d' <= 0) /\
  (transfers_check_setup retired_rx_device = true /\
   active_transfers retired_rx_device <= 0 /\
   exists w',
     timssdr_stop_tx [] retired_rx_device rx_world =
       Ok (TIMSSDR_SUCCESS,
           set_flush false (set_transfers_setup false (set_streaming false retired_rx_device)),
           w')).
Proof.
  split.
  - split; [reflexivity |].
    destruct (stop_with_session_postcondition [four_cancelled] (rx_device keep_going)
                rx_world eq_refl) as [Hpost _].
    assert (Hreturns :
              match timssdr_stop_tx [four_cancelled] (rx_device keep_going) rx_world with
              | Ok _ => true
              | _ => false
              end = true) by (vm_compute; reflexivity).
    destruct (timssdr_stop_tx [four_cancelled] (rx_device keep_going) rx_world)
      as [[[result d'] w'] | |]; [| discriminate Hreturns | discriminate Hreturns].
    destruct (Hpost result d' w' eq_refl) as (Hrx & -> & Hsetup & Hflush & Hcount).
    exists d', w'. repeat split; assumption.
  - assert (Hcount : active_transfers retired_rx_device <= 0) by (cbn; lia).
    split; [reflexivity |]. split; [exact Hcount |].
    destruct (stop_with_session_postcondition [] retired_rx_device rx_world eq_refl)
      as [_ Hnow].
    exact (Hnow Hcount).
Defined.

(** *** Starting a session *)

Lemma submissions_app (tr1 tr2 : list event) :
  submissions (tr1 ++ tr2) = submissions tr1 ++ submissions tr2.
Proof.
  induction tr1 as [| e tr1 IH]; [reflexivity |].
  destruct e; cbn; rewrite IH; reflexivity.
Qed.

Lemma blocks_accepted_app (tr1 tr2 : list event) :
  blocks_accepted (tr1 ++ tr2) = (blocks_accepted tr1 + blocks_accepted tr2)%nat.
Proof.
  induction tr1 as [| e tr1 IH]; [reflexivity |].
  destruct e as [| | | | | | | | r t ret | |]; cbn; rewrite ?IH; try reflexivity.
  destruct ((ret =? 0) && (0 <? valid_length t)); reflexivity.
Qed.

Lemma put_xfer_active {App : Type} (i : nat) (t : libusb_transfer) (d : timssdr_device App) :
  active_transfers (put_xfer (Slot i) t d) = active_transfers d.
Proof. reflexivity. Qed.

Lemma fill_tx_buffers_accepted {App : Type} (n : nat) :
  forall (idx ready ready' : nat) (d d' : timssdr_device App) (w w' : world App),
    fill_tx_buffers n idx ready d w = Ok (ready', d', w') ->
    exists new,
      trace w' = trace w ++ new /\
      (ready' = ready + blocks_accepted new)%nat /\
      submissions new = [] /\
      libusb_submit_result w' = libusb_submit_result w /\
      active_transfers d' = active_transfers d.
Proof.
  induction n as [| n IH]; intros idx ready ready' d d' w w' H; cbn [fill_tx_buffers] in H.
  - injection H as <- <- <-. exists []. rewrite app_nil_r. cbn. repeat split; auto; lia.
  - destruct (get_xfer d (Slot idx)) as [usb | |]; try discriminate H.
    cbn [mbind outcome_bind] in H.
    destruct (callback d) as [f |]; [| discriminate H].
    set (t0 := mk_timssdr_transfer _ _ _ _ _) in H.
    destruct (f (app w) t0) as [[ret t1] a].
    destruct ((ret =? 0) && (0 <? valid_length t1)) eqn:Econt.
    + apply IH in H as (new & Htr & Hready & Hsub & Horacle & Hact).
      exists (EvSampleBlock (Slot idx) t1 ret :: new).
      split; [rewrite Htr; cbn; now rewrite <- app_assoc |].
      cbn. rewrite Econt. split; [lia |]. split; [assumption |]. split; [assumption |].
      rewrite Hact. reflexivity.
    + injection H as <- <- <-. exists [EvSampleBlock (Slot idx) t1 ret].
      split; [reflexivity |]. cbn. rewrite Econt. repeat split; auto; lia.
Qed.

Lemma submit_ready_transfers_accepted {App : Type} (endpoint : Z)
    (cbk : libusb_transfer_cb_fn) (n : nat) :
  forall (idx : nat) (error error' : Z) (d d' : timssdr_device App) (w w' : world App),
    (forall k, libusb_submit_result w k = 0) ->
    submit_ready_transfers n idx error endpoint cbk d w = Ok (error', d', w') ->
    exists new,
      trace w' = trace w ++ new /\
      error' = match n with O => error | S _ => 0 end /\
      active_transfers d' = active_transfers d + Z.of_nat n /\
      submissions new = map Slot (seq idx n) /\
      blocks_accepted new = 0%nat /\
      libusb_submit_result w' = libusb_submit_result w /\
      glob w' = glob w.
Proof.
  induction n as [| n IH]; intros idx error error' d d' w w' Hall H;
    cbn [submit_ready_transfers] in H.
  - injection H as <- <- <-. exists []. rewrite app_nil_r. cbn. repeat split; auto; lia.
  - destruct (get_xfer d (Slot idx)) as [usb | |]; try discriminate H.
    cbn [mbind outcome_bind] in H.
    destruct (if endpoint =? TX_ENDPOINT_ADDRESS then _ else _) as [t1 | |];
      try discriminate H.
    cbn [mbind outcome_bind] in H. unfold libusb_submit_transfer in H.
    rewrite Hall in H. cbn in H.
    apply IH in H as (new & Htr & Herr & Hact & Hsub & Hacc & Horacle & Hglob);
      [| exact Hall].
    exists (EvSubmit (Slot idx) t1 0 :: new).
    split; [rewrite Htr; cbn; now rewrite <- app_assoc |].
    split; [destruct n; exact Herr |].
    split; [rewrite Hact; cbn; destruct (put_xfer_active idx t1 d); lia |].
    cbn. rewrite Hsub. repeat split; auto.
Qed.

(** The first loop of [prepare_transfers] does nothing but call the
    sample-block callback. *)
Lemma fill_tx_buffers_calls_only {App : Type} (n : nat) :
  forall (idx ready ready' : nat) (d d' : timssdr_device App) (w w' : world App),
    fill_tx_buffers n idx ready d w = Ok (ready', d', w') ->
    exists new, trace w' = trace w ++ new /\ sample_block_calls new = length new.
Proof.
  induction n as [| n IH]; intros idx ready ready' d d' w w' H; cbn [fill_tx_buffers] in H.
  - injection H as <- <- <-. exists []. now rewrite app_nil_r.
  - destruct (get_xfer d (Slot idx)) as [usb | |]; try discriminate H.
    cbn [mbind outcome_bind] in H.
    destruct (callback d) as [f |]; [| discriminate H].
    set (t0 := mk_timssdr_transfer _ _ _ _ _) in H.
    destruct (f (app w) t0) as [[ret t1] a].
    destruct ((ret =? 0) && (0 <? valid_length t1)).
    + apply IH in H as (new & Htr & Hcalls).
      exists (EvSampleBlock (Slot idx) t1 ret :: new).
      split; [rewrite Htr; cbn; now rewrite <- app_assoc |]. cbn. now rewrite Hcalls.
    + injection H as <- <- <-. exists [EvSampleBlock (Slot idx) t1 ret].
      split; reflexivity.
Qed.

(** The second loop does nothing but submit transfers. *)
Lemma submit_ready_transfers_submits_only {App : Type} (endpoint : Z)
    (cbk : libusb_transfer_cb_fn) (n : nat) :
  forall (idx : nat) (error error' : Z) (d d' : timssdr_device App) (w w' : world App),
    submit_ready_transfers n idx error endpoint cbk d w = Ok (error', d', w') ->
    exists new, trace w' = trace w ++ new /\ length (submissions new) = length new.
Proof.
  induction n as [| n IH]; intros idx error error' d d' w w' H;
    cbn [submit_ready_transfers] in H.
  - injection H as <- <- <-. exists []. now rewrite app_nil_r.
  - destruct (get_xfer d (Slot idx)) as [usb | |]; try discriminate H.
    cbn [mbind outcome_bind] in H.
    destruct (if endpoint =? TX_ENDPOINT_ADDRESS then _ else _) as [t1 | |];
      try discriminate H.
    cbn [mbind outcome_bind] in H. unfold libusb_submit_transfer in H.
    destruct (negb (libusb_submit_result w (submits w) =? 0)).
    + injection H as <- <- <-. eexists [_]. split; reflexivity.
    + apply IH in H as (new & Htr & Hsub).
      eexists (_ :: new). split; [rewrite Htr; cbn; now rewrite <- app_assoc |].
      cbn. now rewrite Hsub.
Qed.

(** X3. With a transport that accepts every submission and the local
    [error] holding 0 before the submit loop, [prepare_transfers] returns
    [TIMSSDR_SUCCESS] for every number of ready transfers, 0 included.
    Before it takes the lock it does nothing but call the sample-block
    callback; between the lock and the unlock it does nothing but submit:
    the ready slots in order and then, when not all [TRANSFER_COUNT] slots
    were ready and [flush] is armed, the flush transfer. It adds the number
    of ready slots to [active_transfers], sets [transfers_setup], and sets
    [streaming] exactly when all slots were ready. *)
Theorem prepare_transfers_sets_up_session {App : Type}
    (f : timssdr_sample_block_cb_fn App) (endpoint : Z) (cbk : libusb_transfer_cb_fn)
    (d : timssdr_device App) (w : world App) :
  ring_ok d ->
  callback d = Some f ->
  sample_block_cb_ok f ->
  flush_ok d ->
  (forall k, libusb_submit_result w k = 0) ->
  exists d' w' filling submitting,
    prepare_transfers 0 endpoint cbk d w = Ok (TIMSSDR_SUCCESS, d', w') /\
    trace w' = trace w ++ filling ++ [EvLock] ++ submitting ++ [EvUnlock] /\
    sample_block_calls filling = length filling /\
    length (submissions submitting) = length submitting /\
    transfers_setup d' = true /\
    let ready_transfers :=
      if endpoint =? TX_ENDPOINT_ADDRESS then blocks_accepted filling
      else TRANSFER_COUNT in
    streaming d' = Nat.eqb ready_transfers TRANSFER_COUNT /\
    active_transfers d' = active_transfers d + Z.of_nat ready_transfers /\
    submissions submitting =
      map Slot (seq 0 ready_transfers) ++
      (if negb (streaming d') && flush d then [FlushTransfer] else []).
Proof.
  intros Hring Hcb Hf Hflush Hall. unfold prepare_transfers.
  destruct (ring_ok_transfers d Hring) as (ts & ->).
  assert (Hfill : exists ready d1 w1 new1,
             (if endpoint =? TX_ENDPOINT_ADDRESS
              then fill_tx_buffers TRANSFER_COUNT 0 0 d w
              else Ok (TRANSFER_COUNT, d, w)) = Ok (ready, d1, w1) /\
             trace w1 = trace w ++ new1 /\
             ready = (if endpoint =? TX_ENDPOINT_ADDRESS
                      then blocks_accepted new1 else TRANSFER_COUNT) /\
             (ready <= TRANSFER_COUNT)%nat /\
             sample_block_calls new1 = length new1 /\
             libusb_submit_result w1 = libusb_submit_result w /\
             active_transfers d1 = active_transfers d /\
             ring_ok d1 /\
             same_flags d d1 /\
             (endpoint = TX_ENDPOINT_ADDRESS ->
              forall j, (j < ready)%nat -> filled new1 d1 j)).
  { destruct (Z.eqb_spec endpoint TX_ENDPOINT_ADDRESS) as [Hep | Hep].
    - destruct (fill_tx_buffers_spec f TRANSFER_COUNT 0 0 d w)
        as (ready & d1 & w1 & new1 & Hrun & Htr1 & Hready & Hring1 & Hsame1 & _ & Hfilled & _);
        [lia | assumption | assumption | assumption |].
      destruct (fill_tx_buffers_accepted _ _ _ _ _ _ _ _ Hrun)
        as (new1' & Htr1' & Hacc & _ & Horacle & Hact).
      assert (new1' = new1) as -> by (rewrite Htr1 in Htr1'; now apply app_inv_head in Htr1').
      destruct (fill_tx_buffers_calls_only _ _ _ _ _ _ _ _ Hrun) as (new1' & Htr1'' & Hcalls).
      assert (new1' = new1) as ->
        by (rewrite Htr1 in Htr1''; now apply app_inv_head in Htr1'').
      exists ready, d1, w1, new1. split; [exact Hrun |]. split; [exact Htr1 |].
      split; [exact Hacc |]. split; [cbn in Hready; lia |].
      repeat split; auto. intros _ j Hj. apply Hfilled. lia.
    - exists TRANSFER_COUNT, d, w, []. rewrite app_nil_r.
      repeat split; auto using same_flags_refl. intros Hep'. contradiction. }
  destruct Hfill as (ready & d1 & w1 & new1 & -> & Htr1 & Hready & Hle & Hcalls1 & Horacle1 &
                     Hact1 & Hring1 & Hsame1 & Hfilled).
  cbn [mbind outcome_bind].
  destruct (submit_ready_transfers_spec new1 endpoint cbk ready 0 0 d1 (log EvLock w1))
    as (error & d2 & w2 & new2 & Hrun2 & Htr2 & _ & _ & Hsame2); [lia | assumption | |].
  { intros Hep j Hj. apply Hfilled; [assumption | lia]. }
  rewrite Hrun2. cbn [mbind outcome_bind].
  destruct (submit_ready_transfers_accepted endpoint cbk ready 0 0 error d1 d2
              (log EvLock w1) w2) as (new2' & Htr2' & Herr & Hact2 & Hsub2 & _ & Horacle2 & _).
  { intros k. cbn. rewrite Horacle1. apply Hall. }
  { exact Hrun2. }
  assert (new2' = new2) as -> by (rewrite Htr2 in Htr2'; now apply app_inv_head in Htr2').
  destruct (submit_ready_transfers_submits_only _ _ _ _ _ _ _ _ _ _ Hrun2)
    as (new2' & Htr2'' & Honly2).
  assert (new2' = new2) as -> by (rewrite Htr2 in Htr2''; now apply app_inv_head in Htr2'').
  assert (error = 0) as -> by (destruct ready; exact Herr).
  assert (Hflags : flush d2 = flush d /\ flush_transfer d2 = flush_transfer d).
  { unfold same_session in Hsame2. unfold same_flags in Hsame1.
    rewrite Hsame2, Hsame1. split; reflexivity. }
  destruct Hflags as [Hfl Hft].
  cbn [Z.eqb streaming set_transfers_setup set_streaming flush].
  assert (Htrace : forall tail,
             trace w2 ++ tail ++ [EvUnlock] =
             trace w ++ new1 ++ [EvLock] ++ (new2 ++ tail) ++ [EvUnlock]).
  { intros tail. rewrite Htr2. cbn [log trace]. rewrite Htr1.
    rewrite <- !app_assoc. reflexivity. }
  destruct (negb (ready =? TRANSFER_COUNT)%nat && flush d2) eqn:Earm.
  - apply andb_true_iff in Earm as [Hstop Earm].
    unfold submit_flush_transfer. cbn [flush_transfer set_transfers_setup set_streaming].
    destruct (flush_transfer d2) as [ft |] eqn:Eft.
    2:{ exfalso. apply Hflush; congruence. }
    cbn [mbind outcome_bind]. unfold libusb_submit_transfer.
    rewrite Horacle2. cbn [libusb_submit_result log]. rewrite Horacle1, Hall. cbn.
    eexists _, _, new1, (new2 ++ [EvSubmit FlushTransfer ft 0]).
    split; [reflexivity |]. cbn zeta. rewrite <- Hready. cbn.
    split; [rewrite <- app_assoc; apply Htrace |].
    split; [exact Hcalls1 |].
    split; [rewrite submissions_app, !length_app, Honly2; reflexivity |].
    split; [reflexivity |]. split; [reflexivity |].
    split; [rewrite Hact2, Hact1; reflexivity |].
    rewrite submissions_app, Hsub2. cbn.
    rewrite Hstop. rewrite <- Hfl, Earm. reflexivity.
  - cbn [mbind outcome_bind].
    eexists _, _, new1, new2.
    split; [reflexivity |]. cbn zeta. rewrite <- Hready. cbn.
    split; [specialize (Htrace []); rewrite app_nil_r in Htrace; exact Htrace |].
    split; [exact Hcalls1 |]. split; [exact Honly2 |].
    split; [reflexivity |]. split; [reflexivity |].
    split; [rewrite Hact2, Hact1; reflexivity |].
    rewrite Hsub2. rewrite <- Hfl, Earm, app_nil_r. reflexivity.
Qed.

Lemma prepare_transfers_sets_up_session_witness :
  ring_ok tx_ready_device /\
  callback tx_ready_device = Some send_100 /\
  sample_block_cb_ok send_100 /\
  flush_ok tx_ready_device /\
  (forall k, libusb_submit_result opened_world k = 0) /\
  exists d' w' filling submitting,
    prepare_transfers 0 TX_ENDPOINT_ADDRESS cb_timssdr_libusb_transfer_callback
      tx_ready_device opened_world = Ok (TIMSSDR_SUCCESS, d', w') /\
    trace w' = trace opened_world ++ filling ++ [EvLock] ++ submitting ++ [EvUnlock] /\
    sample_block_calls filling = length filling /\
    length (submissions submitting) = length submitting /\
    transfers_setup d' = true /\
    let ready_transfers :=
      if TX_ENDPOINT_ADDRESS =? TX_ENDPOINT_ADDRESS
      then blocks_accepted filling else TRANSFER_COUNT in
    streaming d' = Nat.eqb ready_transfers TRANSFER_COUNT /\
    active_transfers d' = active_transfers tx_ready_device + Z.of_nat ready_transfers /\
    submissions submitting =
      map Slot (seq 0 ready_transfers) ++
      (if negb (streaming d') && flush tx_ready_device then [FlushTransfer] else []).
Proof.
  assert (Hring : ring_ok tx_ready_device)
    by apply (ring_ok_repeat tx_ready_device idle_slot eq_refl slot_ok_idle_slot).
  assert (Hflush : flush_ok tx_ready_device) by (intros Hfl; discriminate Hfl).
  assert (Hall : forall k, libusb_submit_result opened_world k = 0) by reflexivity.
  split; [exact Hring |]. split; [reflexivity |].
  split; [exact sample_block_cb_ok_send_100 |]. split; [exact Hflush |].
  split; [exact Hall |].
  apply (prepare_transfers_sets_up_session send_100 TX_ENDPOINT_ADDRESS
           cb_timssdr_libusb_transfer_callback tx_ready_device opened_world
           Hring eq_refl sample_block_cb_ok_send_100 Hflush Hall).
Defined.

(** The submit loop assigns [error] in its first round: with at least one
    ready transfer the value [error] had before does not matter. *)
Lemma submit_ready_transfers_assigns_error {App : Type} (n idx : nat) (e e' : Z)
    (endpoint : Z) (cbk : libusb_transfer_cb_fn) (d : timssdr_device App) (w : world App) :
  submit_ready_transfers (S n) idx e endpoint cbk d w =
  submit_ready_transfers (S n) idx e' endpoint cbk d w.
Proof. reflexivity. Qed.

(** X4. The value the local [error] of [prepare_transfers] holds before the
    submit loop has no effect when at least one transfer is ready: always
    for the RX endpoint, and for the TX endpoint unless the callback
    refuses the first buffer. *)
Theorem prepare_transfers_error_assigned_when_ready {App : Type} (error_uninit : Z)
    (endpoint : Z) (cbk : libusb_transfer_cb_fn) (d : timssdr_device App) (w : world App) :
  (endpoint = TX_ENDPOINT_ADDRESS ->
   forall d1 w1, fill_tx_buffers TRANSFER_COUNT 0 0 d w <> Ok (0%nat, d1, w1)) ->
  prepare_transfers error_uninit endpoint cbk d w = prepare_transfers 0 endpoint cbk d w.
Proof.
  intros Hready. unfold prepare_transfers.
  destruct (transfers d) as [ts |]; [| reflexivity].
  destruct (Z.eqb_spec endpoint TX_ENDPOINT_ADDRESS) as [Hep | Hep].
  - specialize (Hready Hep).
    destruct (fill_tx_buffers TRANSFER_COUNT 0 0 d w) as [[[ready d1] w1] | |];
      [| reflexivity | reflexivity].
    destruct ready as [| ready]; [exfalso; now apply (Hready d1 w1) |].
    cbn [mbind outcome_bind].
    now rewrite (submit_ready_transfers_assigns_error ready 0 error_uninit 0).
  - cbn [mbind outcome_bind]. unfold TRANSFER_COUNT at 1.
    now rewrite (submit_ready_transfers_assigns_error 3 0 error_uninit 0).
Qed.

Lemma prepare_transfers_error_assigned_when_ready_witness :
  (TX_ENDPOINT_ADDRESS = TX_ENDPOINT_ADDRESS ->
   forall d1 w1,
     fill_tx_buffers TRANSFER_COUNT 0 0 tx_ready_device opened_world <> Ok (0%nat, d1, w1)) /\
  prepare_transfers 7 TX_ENDPOINT_ADDRESS cb_timssdr_libusb_transfer_callback
    tx_ready_device opened_world =
  prepare_transfers 0 TX_ENDPOINT_ADDRESS cb_timssdr_libusb_transfer_callback
    tx_ready_device opened_world.
Proof.
  assert (Hready : TX_ENDPOINT_ADDRESS = TX_ENDPOINT_ADDRESS ->
                   forall d1 w1,
                     fill_tx_buffers TRANSFER_COUNT 0 0 tx_ready_device opened_world
                       <> Ok (0%nat, d1, w1)).
  { intros _ d1 w1 H.
    assert (Hn : match fill_tx_buffers TRANSFER_COUNT 0 0 tx_ready_device opened_world with
                 | Ok (ready, _, _) => ready
                 | _ => 0%nat
                 end = 0%nat) by (now rewrite H).
    vm_compute in Hn. discriminate Hn. }
  split; [exact Hready |].
  apply (prepare_transfers_error_assigned_when_ready 7 TX_ENDPOINT_ADDRESS
           cb_timssdr_libusb_transfer_callback tx_ready_device opened_world Hready).
Defined.

(** X5. A start call on a device with a running session returns
    [TIMSSDR_ERROR_BUSY]: the world is unchanged (nothing is submitted, no
    callback is called), and so are the installed callback, [streaming],
    [transfers_setup], [active_transfers] and the ring; [timssdr_start_rx]
    changes [rx_ctx] only, [timssdr_start_tx] changes [tx_ctx] and arms
    [flush] when a flush transfer exists. *)
Theorem start_with_session_is_rejected {App : Type} (error_uninit : Z)
    (cb : option (timssdr_sample_block_cb_fn App)) (c : ctx) (d : timssdr_device App)
    (w : world App) :
  transfers_setup d = true ->
  timssdr_start_rx error_uninit cb c d w = Ok (TIMSSDR_ERROR_BUSY, set_rx_ctx c d, w) /\
  timssdr_start_tx error_uninit cb c d w =
    Ok (TIMSSDR_ERROR_BUSY,
        set_tx_ctx c (match flush_transfer d with Some _ => set_flush true d | None => d end),
        w) /\
  forall result d' w',
    timssdr_start_rx error_uninit cb c d w = Ok (result, d', w') \/
    timssdr_start_tx error_uninit cb c d w = Ok (result, d', w') ->
    w' = w /\ callback d' = callback d /\ streaming d' = streaming d /\
    transfers_setup d' = true /\ active_transfers d' = active_transfers d /\
    transfers d' = transfers d.
Proof.
  intros Hsetup.
  assert (Hrx : timssdr_start_rx error_uninit cb c d w =
                  Ok (TIMSSDR_ERROR_BUSY, set_rx_ctx c d, w)).
  { unfold timssdr_start_rx, prepare_setup_transfers. cbn. now rewrite Hsetup. }
  assert (Htx : timssdr_start_tx error_uninit cb c d w =
                  Ok (TIMSSDR_ERROR_BUSY,
                      set_tx_ctx c
                        (match flush_transfer d with Some _ => set_flush true d | None => d end),
                      w)).
  { unfold timssdr_start_tx, prepare_setup_transfers.
    destruct (flush_transfer d); cbn; now rewrite Hsetup. }
  split; [exact Hrx |]. split; [exact Htx |].
  intros result d' w' [H | H]; [rewrite Hrx in H | rewrite Htx in H];
    injection H as <- <- <-; repeat split; auto; destruct (flush_transfer d); auto.
Qed.

Lemma start_with_session_is_rejected_witness :
  transfers_setup (rx_device keep_going) = true /\
  timssdr_start_rx 3 (Some decline) 8 (rx_device keep_going) rx_world =
    Ok (TIMSSDR_ERROR_BUSY, set_rx_ctx 8 (rx_device keep_going), rx_world) /\
  timssdr_start_tx 3 (Some decline) 8 (rx_device keep_going) rx_world =
    Ok (TIMSSDR_ERROR_BUSY,
        set_tx_ctx 8
          (match flush_transfer (rx_device keep_going) with
           | Some _ => set_flush true (rx_device keep_going)
           | None => rx_device keep_going
           end),
        rx_world) /\
  forall result d' w',
    timssdr_start_rx 3 (Some decline) 8 (rx_device keep_going) rx_world = Ok (result, d', w') \/
    timssdr_start_tx 3 (Some decline) 8 (rx_device keep_going) rx_world = Ok (result, d', w') ->
    w' = rx_world /\ callback d' = callback (rx_device keep_going) /\
    streaming d' = streaming (rx_device keep_going) /\
    transfers_setup d' = true /\
    active_transfers d' = active_transfers (rx_device keep_going) /\
    transfers d' = transfers (rx_device keep_going).
Proof.
  split; [reflexivity |].
  apply (start_with_session_is_rejected 3 (Some decline) 8 (rx_device keep_going) rx_world).
  reflexivity.
Defined.

(** *** The count of open devices *)

Lemma allocate_slots_glob {App : Type} (n : nat) :
  forall (idx : nat) (ok : nat -> bool) (ts : list (option libusb_transfer)) (w : world App),
    glob (allocate_slots n idx ok ts w).2 = glob w.
Proof.
  induction n as [| n IH]; intros idx ok ts w; cbn [allocate_slots]; [reflexivity |].
  destruct (ok idx); [| reflexivity]. cbn. rewrite IH. reflexivity.
Qed.

Lemma timssdr_open_counter {App : Type} (device_out : bool) (found : option Z)
    (env : open_env) (w : world App) :
  open_devices (glob (timssdr_open device_out found env w).2) =
    if (timssdr_open device_out found env w).1.1 =? TIMSSDR_SUCCESS
    then uint16 (open_devices (glob w) + 1)
    else open_devices (glob w).
Proof.
  unfold timssdr_open. destruct device_out; [| reflexivity].
  destruct found as [h |]; [| reflexivity]. cbn [negb].
  unfold timssdr_open_setup.
  destruct (Z.eqb_spec (set_configuration_result env) LIBUSB_SUCCESS) as [Hc | Hc]; cbn [negb].
  2:{ cbn. destruct (Z.eqb_spec (set_configuration_result env) TIMSSDR_SUCCESS); [| reflexivity].
      exfalso. apply Hc. assumption. }
  destruct (claim_interface_result env =? LIBUSB_SUCCESS); [| reflexivity]. cbn [negb].
  destruct (calloc_device_ok env); [| reflexivity]. cbn [negb].
  destruct (mutex_init_result env =? 0); [| reflexivity]. cbn [negb].
  destruct (cond_init_result env =? 0); [| reflexivity]. cbn [negb].
  unfold allocate_transfers. cbn [transfers fresh_device].
  destruct (calloc_transfers_ok env); [| reflexivity].
  pose proof (allocate_slots_glob (App := App) TRANSFER_COUNT 0 (alloc_transfer_ok env)
                (repeat None TRANSFER_COUNT) w) as Hglob.
  destruct (allocate_slots TRANSFER_COUNT 0 (alloc_transfer_ok env)
              (repeat None TRANSFER_COUNT) w) as [[result ts] w1].
  cbn in Hglob.
  destruct (result =? 0); cbn [negb]; [| cbn; now rewrite Hglob].
  unfold create_transfer_thread. cbn.
  destruct (pthread_create_result env =? 0); cbn; now rewrite Hglob.
Qed.

Lemma free_slots_glob {App : Type} (n : nat) :
  forall (idx : nat) (ts : list (option libusb_transfer)) (w : world App),
    glob (free_slots n idx ts w) = glob w.
Proof.
  induction n as [| n IH]; intros idx ts w; cbn [free_slots]; [reflexivity |].
  rewrite IH. destruct (ts !! idx) as [[t |] |]; reflexivity.
Qed.

Lemma timssdr_close_counter {App : Type} (sched : list (list completion)) (join_result : Z)
    (d : timssdr_device App) (w w' : world App) (result : Z) :
  timssdr_close sched join_result (Some d) w = Ok (result, w') ->
  open_devices (glob w') = uint16 (open_devices (glob w) - 1).
Proof.
  unfold timssdr_close. intros H.
  destruct (kill_transfer_thread sched join_result d w) as [[[r2 d1] w1] | |] eqn:Ekill;
    try discriminate H.
  assert (Hglob : glob w1 = glob w).
  { unfold kill_transfer_thread in Ekill.
    destruct (transfer_thread_started d).
    - destruct (cancel_transfers sched d w) as [[[r d0] w0] | |] eqn:Ecancel;
        try discriminate Ekill.
      apply cancel_transfers_spec in Ecancel as [Hg _].
      cbn in Ekill. destruct (join_result =? 0); cbn in Ekill;
        injection Ekill as <- <- <-; exact Hg.
    - injection Ekill as <- <- <-. reflexivity. }
  cbn [mbind outcome_bind] in H.
  set (d2 := set_usb_device None d1) in H.
  assert (Hfree : glob (free_transfers d2 w1).2 = glob w).
  { unfold free_transfers, free_flush_transfer. destruct (transfers d2) as [ts |].
    - change (flush_transfer (set_transfers None d2)) with (flush_transfer d1).
      destruct (flush_transfer d1); unfold log; cbn [snd glob];
        rewrite free_slots_glob; exact Hglob.
    - change (flush_transfer d2) with (flush_transfer d1).
      destruct (flush_transfer d1); unfold log; cbn [snd glob]; exact Hglob. }
  destruct (free_transfers d2 w1) as [[r3 d3] w3]. cbn in Hfree, H.
  destruct (r2 =? TIMSSDR_SUCCESS); cbn in H; injection H as <- <-; cbn; now rewrite Hfree.
Qed.

Lemma uint16_step (n k : Z) : uint16 (uint16 n + k) = uint16 (n + k).
Proof. unfold uint16. now rewrite Zplus_mod_idemp_l. Qed.

(** X6. The resource law for closes of devices: after a sequence of
    [timssdr_open] calls and [timssdr_close] calls on devices (not NULL)
    that all return, [open_devices] is its initial value plus the number of
    successful opens minus the number of closes, modulo 2^16. *)
Theorem open_devices_counts_opens_minus_closes {App : Type}
    (calls : list (lifecycle_call App)) :
  forall (w w' : world App) (results : list Z),
    0 <= open_devices (glob w) < 65536 ->
    run_lifecycle calls w = Ok (results, w') ->
    open_devices (glob w') =
      uint16 (open_devices (glob w) + successful_opens calls results - closes calls).
Proof.
  induction calls as [| call calls IH]; intros w w' results Hrange H.
  - injection H as <- <-. cbn. unfold uint16. rewrite Z.mod_small; lia.
  - destruct call as [device_out found env | sched join_result device];
      cbn [run_lifecycle] in H.
    + pose proof (timssdr_open_counter device_out found env w) as Hopen.
      destruct (timssdr_open device_out found env w) as [[result od] w1]. cbn in Hopen.
      destruct (run_lifecycle calls w1) as [[results1 w2] | |] eqn:Erest; try discriminate H.
      cbn in H. injection H as <- <-.
      rewrite (IH w1 w2 results1); [| | exact Erest].
      * cbn [successful_opens closes]. rewrite Hopen.
        destruct (result =? TIMSSDR_SUCCESS).
        -- rewrite <- Z.add_sub_assoc, uint16_step. f_equal; lia.
        -- f_equal; lia.
      * rewrite Hopen. destruct (result =? TIMSSDR_SUCCESS); [| assumption].
        unfold uint16. apply Z.mod_pos_bound. lia.
    + destruct (timssdr_close sched join_result (Some device) w) as [[result w1] | |] eqn:Eclose;
        try discriminate H.
      cbn [mbind outcome_bind] in H.
      apply timssdr_close_counter in Eclose.
      destruct (run_lifecycle calls w1) as [[results1 w2] | |] eqn:Erest; try discriminate H.
      cbn in H. injection H as <- <-.
      rewrite (IH w1 w2 results1); [| | exact Erest].
      * cbn [successful_opens closes]. rewrite Eclose.
        rewrite <- Z.add_sub_assoc, uint16_step. f_equal; lia.
      * rewrite Eclose. unfold uint16. apply Z.mod_pos_bound. lia.
Qed.

Lemma open_devices_counts_opens_minus_closes_witness :
  0 <= open_devices (glob initial_world) < 65536 /\
  exists results w',
    run_lifecycle open_then_close initial_world = Ok (results, w') /\
    results = [TIMSSDR_SUCCESS; TIMSSDR_SUCCESS] /\
    open_devices (glob w') =
      uint16 (open_devices (glob initial_world) +
              successful_opens open_then_close results - closes open_then_close).
Proof.
  assert (Hrange : 0 <= open_devices (glob initial_world) < 65536) by (cbn; lia).
  split; [exact Hrange |].
  eexists _, _. split; [reflexivity |]. split; [reflexivity |].
  apply (open_devices_counts_opens_minus_closes open_then_close initial_world _ _
           Hrange eq_refl).
Defined.

(** X7. [timssdr_exit] returns [TIMSSDR_SUCCESS] exactly when
    [open_devices] is zero, and [TIMSSDR_ERROR_NOT_LAST_DEVICE] otherwise. *)
Theorem timssdr_exit_iff_no_open_devices {App : Type} (w : world App) :
  (fst (timssdr_exit w) = TIMSSDR_SUCCESS <-> open_devices (glob w) = 0) /\
  fst (timssdr_exit w) =
    (if open_devices (glob w) =? 0 then TIMSSDR_SUCCESS else TIMSSDR_ERROR_NOT_LAST_DEVICE).
Proof.
  unfold timssdr_exit. destruct (Z.eqb_spec (open_devices (glob w)) 0) as [Hz | Hnz]; cbn.
  - split; [tauto | reflexivity].
  - split; [| reflexivity]. split; [discriminate | contradiction].
Qed.

(** * Beyond the claims: the rest of [timssdr.c] *)

(** ** Opening, closing and the life of the transfers *)

Lemma allocate_slots_spec {App : Type} (n : nat) :
  forall (idx : nat) (ok : nat -> bool) (ts : list (option libusb_transfer)) (w : world App),
    exists k,
      (k <= n)%nat /\
      (forall j, (j < k)%nat -> ok (idx + j)%nat = true) /\
      allocate_slots n idx ok ts w =
        (if (k <? n)%nat then TIMSSDR_ERROR_LIBUSB else TIMSSDR_SUCCESS,
         allocated_ring idx k ts,
         mk_world (glob w) (app w) (trace w ++ slot_allocations idx k) (submits w)
           (libusb_submit_result w)) /\
      ((k < n)%nat -> ok (idx + k)%nat = false).
Proof.
  induction n as [| n IH]; intros idx ok ts w.
  - exists 0%nat. cbn. rewrite app_nil_r. destruct w. repeat split; auto; lia.
  - cbn [allocate_slots]. destruct (ok idx) eqn:Eok.
    + change (usb_buffer _) with (Some (zeros TRANSFER_BUFFER_SIZE)). cbv beta iota.
      destruct (IH (S idx) ok (<[idx := Some idle_slot]> ts)
                  (log (EvAllocTransfer (Slot idx)) w)) as (k & Hk & Hok & Hrun & Hfail).
      exists (S k). split; [lia |]. split.
      { intros j Hj. destruct j as [| j]; [now rewrite Nat.add_0_r |].
        replace (idx + S j)%nat with (S idx + j)%nat by lia. apply Hok. lia. }
      split.
      { fold idle_slot. rewrite Hrun. cbn [log glob app trace submits libusb_submit_result].
        unfold slot_allocations, allocated_ring. cbn [seq map foldl].
        rewrite <- app_assoc. cbn [app].
        replace (S k <? S n)%nat with (k <? n)%nat by reflexivity. reflexivity. }
      intros Hlt. replace (idx + S k)%nat with (S idx + k)%nat by lia. apply Hfail. lia.
    + exists 0%nat. cbn. rewrite app_nil_r, Nat.add_0_r. destruct w.
      repeat split; auto; lia.
Qed.

(** X8. [timssdr_open] stores a device exactly when it returns
    [TIMSSDR_SUCCESS]. The device then has the handle libusb found, a ring
    of [TRANSFER_COUNT] allocated slots that own their buffers, a started
    transfer thread, no session, no callbacks and no flush transfer; the
    four allocations are the only calls made and [open_devices] went up by
    one. When it fails, [open_devices] and the libusb context are as before. *)
Theorem timssdr_open_gives_idle_device {App : Type} (device_out : bool) (found : option Z)
    (env : open_env) (w : world App) :
  match timssdr_open device_out found env w with
  | (result, Some d, w') =>
      result = TIMSSDR_SUCCESS /\ device_out = true /\
      (exists h, found = Some h /\ d = idle_device h) /\
      ring_ok d /\
      trace w' = trace w ++ slot_allocations 0 TRANSFER_COUNT /\
      glob w' = set_open_devices (uint16 (open_devices (glob w) + 1)) (glob w)
  | (result, None, w') =>
      result <> TIMSSDR_SUCCESS /\
      open_devices (glob w') = open_devices (glob w) /\
      g_libusb_context (glob w') = g_libusb_context (glob w)
  end.
Proof.
  unfold timssdr_open. destruct device_out; cbn [negb]; [| repeat split; discriminate].
  destruct found as [h |]; [| repeat split; discriminate].
  unfold timssdr_open_setup.
  destruct (Z.eqb_spec (set_configuration_result env) LIBUSB_SUCCESS) as [Hc | Hc];
    cbn [negb]; [| repeat split; auto].
  destruct (claim_interface_result env =? LIBUSB_SUCCESS); cbn [negb];
    [| repeat split; discriminate].
  destruct (calloc_device_ok env); cbn [negb]; [| repeat split; discriminate].
  destruct (mutex_init_result env =? 0); cbn [negb]; [| repeat split; discriminate].
  destruct (cond_init_result env =? 0); cbn [negb]; [| repeat split; discriminate].
  unfold allocate_transfers. cbn [transfers fresh_device].
  destruct (calloc_transfers_ok env); [| repeat split; discriminate].
  destruct (allocate_slots_spec (App := App) TRANSFER_COUNT 0 (alloc_transfer_ok env)
              (repeat None TRANSFER_COUNT) w) as (k & Hk & _ & -> & _).
  destruct (Nat.ltb_spec k TRANSFER_COUNT) as [Hlt | Hge].
  { cbn. repeat split; discriminate. }
  assert (k = TRANSFER_COUNT) as -> by lia.
  cbn [Z.eqb TIMSSDR_SUCCESS negb]. unfold create_transfer_thread.
  cbn [transfer_thread_started set_transfers negb].
  destruct (pthread_create_result env =? 0); cbn [negb Z.eqb TIMSSDR_SUCCESS TIMSSDR_ERROR_THREAD];
    [| repeat split; discriminate].
  match goal with
  | |- context [set_transfer_thread_started true ?x] =>
      change (set_transfer_thread_started true x) with (@idle_device App h)
  end.
  split; [reflexivity |]. split; [reflexivity |].
  split; [exists h; split; reflexivity |].
  split; [apply (ring_ok_repeat (idle_device h) idle_slot eq_refl slot_ok_idle_slot) |].
  split; reflexivity.
Qed.

(** X9. When [timssdr_open_setup] gets as far as the ring and
    [libusb_alloc_transfer] fails for slot [k], or all four slots are
    allocated and [pthread_create] fails, it stores no device and returns
    [TIMSSDR_ERROR_NO_MEM] in the first case (whatever [allocate_transfers]
    reported) and [TIMSSDR_ERROR_THREAD] in the second; the transfers it
    allocated before are not freed, and the globals are unchanged. *)
Theorem timssdr_open_setup_failure_keeps_allocations {App : Type} (h : Z) (env : open_env)
    (w : world App) (k : nat) :
  set_configuration_result env = LIBUSB_SUCCESS ->
  claim_interface_result env = LIBUSB_SUCCESS ->
  calloc_device_ok env = true ->
  mutex_init_result env = 0 ->
  cond_init_result env = 0 ->
  calloc_transfers_ok env = true ->
  (forall j, (j < k)%nat -> alloc_transfer_ok env j = true) ->
  ((k < TRANSFER_COUNT)%nat /\ alloc_transfer_ok env k = false \/
   k = TRANSFER_COUNT /\ pthread_create_result env <> 0) ->
  timssdr_open_setup h env w =
    (if (k <? TRANSFER_COUNT)%nat then TIMSSDR_ERROR_NO_MEM else TIMSSDR_ERROR_THREAD,
     None,
     mk_world (glob w) (app w) (trace w ++ slot_allocations 0 k) (submits w)
       (libusb_submit_result w)).
Proof.
  intros Hconf Hclaim Hdev Hmutex Hcond Hring Hok Hfail.
  unfold timssdr_open_setup. rewrite Hconf, Hclaim, Hdev, Hmutex, Hcond.
  cbn [Z.eqb LIBUSB_SUCCESS negb].
  unfold allocate_transfers. cbn [transfers fresh_device]. rewrite Hring.
  destruct (allocate_slots_spec (App := App) TRANSFER_COUNT 0 (alloc_transfer_ok env)
              (repeat None TRANSFER_COUNT) w) as (k' & Hk' & Hok' & -> & Hfail').
  assert (k' = k) as ->.
  { destruct (Nat.lt_trichotomy k' k) as [Hlt | [Heq | Hgt]]; [| exact Heq |].
    - specialize (Hfail' ltac:(destruct Hfail as [[? _] | [? _]]; lia)).
      cbn in Hfail'. rewrite Hok in Hfail' by exact Hlt. discriminate.
    - destruct Hfail as [[_ Hk] | [-> _]]; [| lia].
      specialize (Hok' k Hgt). cbn in Hok'. congruence. }
  destruct Hfail as [[Hlt _] | [-> Hthread]].
  - apply Nat.ltb_lt in Hlt. rewrite Hlt. reflexivity.
  - cbn [Nat.ltb Nat.leb TRANSFER_COUNT Z.eqb TIMSSDR_SUCCESS negb].
    unfold create_transfer_thread. cbn [transfer_thread_started set_transfers negb].
    apply Z.eqb_neq in Hthread. rewrite Hthread. reflexivity.
Qed.

Lemma timssdr_open_setup_failure_keeps_allocations_witness :
  timssdr_open_setup 1 third_alloc_fails initial_world =
    (TIMSSDR_ERROR_NO_MEM, None,
     mk_world (glob initial_world) (app initial_world)
       (trace initial_world ++ [EvAllocTransfer (Slot 0); EvAllocTransfer (Slot 1)])
       (submits initial_world) (libusb_submit_result initial_world)).
Proof.
  apply (timssdr_open_setup_failure_keeps_allocations 1 third_alloc_fails initial_world 2);
    try reflexivity.
  - intros j Hj. destruct j as [| [| j]]; [reflexivity | reflexivity | lia].
  - left. split; [unfold TRANSFER_COUNT; lia | reflexivity].
Defined.

Lemma alloc_free_log_app (tr1 tr2 : list event) :
  alloc_free_log (tr1 ++ tr2) = alloc_free_log tr1 ++ alloc_free_log tr2.
Proof.
  induction tr1 as [| e tr1 IH]; [reflexivity |].
  destruct e; cbn; rewrite ?IH; reflexivity.
Qed.

Lemma alloc_free_log_log {App : Type} (e : event) (w : world App) :
  match e with EvAllocTransfer _ | EvFreeTransfer _ => False | _ => True end ->
  alloc_free_log (trace (log e w)) = alloc_free_log (trace w).
Proof.
  intros He. unfold log. cbn [trace]. rewrite alloc_free_log_app.
  destruct e; try contradiction; cbn; apply app_nil_r.
Qed.

Lemma same_ring_refl {App : Type} (d : timssdr_device App) (w : world App) :
  same_ring d w d w.
Proof. repeat split. Qed.

Lemma same_ring_trans {App : Type} (d1 d2 d3 : timssdr_device App) (w1 w2 w3 : world App) :
  same_ring d1 w1 d2 w2 -> same_ring d2 w2 d3 w3 -> same_ring d1 w1 d3 w3.
Proof. intros (H1 & H2 & H3) (H4 & H5 & H6). repeat split; congruence. Qed.

Lemma keeps_transfers_refl {App : Type} (d : timssdr_device App) (w : world App) :
  keeps_transfers d w d w.
Proof. split; reflexivity. Qed.

Lemma keeps_transfers_trans {App : Type} (d1 d2 d3 : timssdr_device App)
    (w1 w2 w3 : world App) :
  keeps_transfers d1 w1 d2 w2 -> keeps_transfers d2 w2 d3 w3 -> keeps_transfers d1 w1 d3 w3.
Proof. intros (H1 & H2) (H3 & H4). split; congruence. Qed.

Lemma same_ring_keeps {App : Type} (d d' : timssdr_device App) (w w' : world App) :
  same_ring d w d' w' -> keeps_transfers d w d' w'.
Proof.
  intros (Ht & Hf & Hl). split; [| exact Hl]. unfold held_transfers. now rewrite Ht, Hf.
Qed.

Lemma allocated_slots_insert (ts : list (option libusb_transfer)) (i : nat)
    (t u : libusb_transfer) (first n : nat) :
  ts !! i = Some (Some u) ->
  allocated_slots (<[i := Some t]> ts) first n = allocated_slots ts first n.
Proof.
  intros Hi. unfold allocated_slots. revert first.
  induction n as [| n IH]; intros first; [reflexivity |].
  cbn [seq flat_map]. rewrite IH. f_equal.
  destruct (decide (i = first)) as [-> | Hne].
  - rewrite list_lookup_insert_eq by (now apply lookup_lt_Some in Hi). now rewrite Hi.
  - now rewrite list_lookup_insert_ne.
Qed.

Lemma held_transfers_put {App : Type} (d : timssdr_device App) (r : xfer_ref)
    (t u : libusb_transfer) :
  get_xfer d r = Ok u -> held_transfers (put_xfer r t d) = held_transfers d.
Proof.
  unfold get_xfer, put_xfer, held_transfers. destruct r as [i |].
  - destruct (transfers d) as [ts |] eqn:Ets; [| discriminate].
    destruct (ts !! i) as [[u' |] |] eqn:Ei; try discriminate. intros _.
    cbn [transfers set_transfers flush_transfer]. rewrite ?Ets. cbn [option_map].
    now rewrite (allocated_slots_insert ts i t u').
  - destruct (flush_transfer d) eqn:Ef; [| discriminate]. intros _. reflexivity.
Qed.

Lemma get_xfer_same_ring {App : Type} (d d' : timssdr_device App) (r : xfer_ref) :
  transfers d' = transfers d -> flush_transfer d' = flush_transfer d ->
  get_xfer d' r = get_xfer d r.
Proof. intros Ht Hf. unfold get_xfer. now rewrite Ht, Hf. Qed.

Lemma flush_if_armed_same_ring {App : Type} (d d' : timssdr_device App) (w w' : world App) :
  flush_if_armed d w = Ok (d', w') -> same_ring d w d' w'.
Proof.
  unfold flush_if_armed, submit_flush_transfer, libusb_submit_transfer.
  destruct (flush d); [| intros H; injection H as <- <-; apply same_ring_refl].
  destruct (flush_transfer d) as [t |]; [| discriminate]. cbn [mbind outcome_bind].
  destruct (_ =? LIBUSB_SUCCESS); intros H; injection H as <- <-;
    (repeat split; cbn [trace]; rewrite alloc_free_log_app; cbn; apply app_nil_r).
Qed.

Lemma retire_transfer_same_ring {App : Type} (d d' : timssdr_device App) (w w' : world App) :
  retire_transfer d w = (d', w') -> same_ring d w d' w'.
Proof.
  unfold retire_transfer. cbn [active_transfers set_streaming flush].
  destruct (active_transfers d =? 1); [destruct (flush d) |]; cbn [negb];
    intros H; injection H as <- <-; repeat split.
  now rewrite alloc_free_log_log.
Qed.

Lemma resubmit_or_flush_same_ring {App : Type} (r : xfer_ref) (usb usb' : libusb_transfer)
    (t : timssdr_transfer) (d d' : timssdr_device App) (w w' : world App)
    (resubmit : option Z) :
  resubmit_or_flush r usb t d w = Ok (resubmit, usb', d', w') -> same_ring d w d' w'.
Proof.
  unfold resubmit_or_flush. intros H.
  destruct (streaming d).
  - destruct (callback d) as [f |]; [| discriminate H].
    destruct (f (app w) t) as [[ret t1] a].
    assert (Hcall : same_ring d w d (log (EvSampleBlock r t1 ret) (set_app a w))).
    { repeat split. now rewrite alloc_free_log_log. }
    destruct ((ret =? 0) && (0 <? valid_length t1)).
    + destruct (transfers_setup d).
      * destruct (if usb_endpoint (written_back t1 usb) =? TX_ENDPOINT_ADDRESS
                  then pad_transfer (set_usb_length (valid_length t1) (written_back t1 usb))
                  else Ok (written_back t1 usb)) as [u | |]; try discriminate H.
        cbn [mbind outcome_bind] in H. unfold libusb_submit_transfer in H.
        injection H as <- <- <- <-.
        eapply same_ring_trans; [exact Hcall |]. repeat split.
        cbn [trace]. rewrite alloc_free_log_app. cbn. apply app_nil_r.
      * injection H as <- <- <- <-. exact Hcall.
    + destruct (flush_if_armed d _) as [[d1 w1] | |] eqn:Efl; try discriminate H.
      cbn [mbind outcome_bind] in H. injection H as <- <- <- <-.
      eapply same_ring_trans; [exact Hcall |]. now apply flush_if_armed_same_ring.
  - destruct (flush_if_armed d w) as [[d1 w1] | |] eqn:Efl; try discriminate H.
    cbn [mbind outcome_bind] in H. injection H as <- <- <- <-.
    now apply flush_if_armed_same_ring.
Qed.

Lemma timssdr_libusb_transfer_callback_keeps {App : Type} (r : xfer_ref)
    (d d' : timssdr_device App) (w w' : world App) :
  timssdr_libusb_transfer_callback r d w = Ok (d', w') -> keeps_transfers d w d' w'.
Proof.
  unfold timssdr_libusb_transfer_callback. intros H.
  destruct (get_xfer d r) as [usb | |] eqn:Eget; try discriminate H.
  cbn [mbind outcome_bind] in H.
  set (t0 := mk_timssdr_transfer _ _ _ _ _) in H.
  set (success := usb_status usb =? LIBUSB_TRANSFER_COMPLETED) in H.
  assert (Hcall : alloc_free_log (trace (call_tx_completion_callback d t0 success w).2) =
                  alloc_free_log (trace w)).
  { unfold call_tx_completion_callback. destruct (tx_completion_callback d) as [f |]; [| auto].
    destruct (f (app w) t0 success). cbn [snd]. now rewrite alloc_free_log_log. }
  destruct (call_tx_completion_callback d t0 success w) as [t1 w1]. cbn [snd] in Hcall.
  assert (Hmid : exists resubmit usb1 d1 w2,
             same_ring d w d1 w2 /\
             (let '(d2, w3) :=
                match resubmit with
                | Some result =>
                    if result =? LIBUSB_SUCCESS then (put_xfer r usb1 d1, w2)
                    else retire_transfer (put_xfer r usb1 d1) w2
                | None => retire_transfer (put_xfer r usb1 d1) w2
                end in Ok (d2, log EvUnlock w3)) = Ok (d', w')).
  { destruct success.
    - destruct (resubmit_or_flush r (written_back t1 usb) t1 d (log EvLock w1))
        as [[[[resubmit usb1] d1] w2] | |] eqn:Erun; try discriminate H.
      exists resubmit, usb1, d1, w2. split; [| exact H].
      apply resubmit_or_flush_same_ring in Erun.
      eapply same_ring_trans; [| exact Erun]. repeat split.
      now rewrite alloc_free_log_log.
    - eexists None, _, _, _. split; [| exact H]. repeat split.
      now rewrite alloc_free_log_log. }
  clear H. destruct Hmid as (resubmit & usb1 & d1 & w2 & (Ht & Hf & Hl) & H).
  assert (Hput : keeps_transfers d w (put_xfer r usb1 d1) w2).
  { split; [| exact Hl].
    rewrite (held_transfers_put d1 r usb1 usb)
      by (now rewrite (get_xfer_same_ring d d1 r Ht Hf)).
    unfold held_transfers. now rewrite Ht, Hf. }
  assert (Hfinish : forall d2 w3,
             keeps_transfers (put_xfer r usb1 d1) w2 d2 w3 ->
             Ok (d2, log EvUnlock w3) = Ok (d', w') -> keeps_transfers d w d' w').
  { intros d2 w3 Hf2 Heq. injection Heq as <- <-.
    eapply keeps_transfers_trans; [exact Hput |].
    eapply keeps_transfers_trans; [exact Hf2 |]. split; [reflexivity |].
    now rewrite alloc_free_log_log. }
  destruct resubmit as [result |]; [destruct (result =? LIBUSB_SUCCESS) |].
  - eapply Hfinish; [apply keeps_transfers_refl | exact H].
  - destruct (retire_transfer (put_xfer r usb1 d1) w2) as [d2 w3] eqn:Eret.
    eapply Hfinish; [apply same_ring_keeps; eapply retire_transfer_same_ring; exact Eret |
                     exact H].
  - destruct (retire_transfer (put_xfer r usb1 d1) w2) as [d2 w3] eqn:Eret.
    eapply Hfinish; [apply same_ring_keeps; eapply retire_transfer_same_ring; exact Eret |
                     exact H].
Qed.

Lemma timssdr_libusb_flush_callback_keeps {App : Type} (usb : libusb_transfer)
    (d d' : timssdr_device App) (w w' : world App) :
  timssdr_libusb_flush_callback usb d w = (d', w') -> keeps_transfers d w d' w'.
Proof.
  unfold timssdr_libusb_flush_callback.
  cbn [flush_callback set_active_transfers set_flush flush_ctx].
  destruct (flush_callback d); intros H; injection H as <- <-; apply same_ring_keeps;
    repeat split; unfold log, set_app; cbn [trace];
    rewrite !alloc_free_log_app; cbn; now rewrite !app_nil_r.
Qed.

Lemma libusb_complete_keeps {App : Type} (c : completion)
    (d d' : timssdr_device App) (w w' : world App) :
  libusb_complete c d w = Ok (d', w') -> keeps_transfers d w d' w'.
Proof.
  destruct c as [r status n]. unfold libusb_complete. intros H.
  destruct (get_xfer d r) as [t | |] eqn:Eget; try discriminate H.
  cbn [mbind outcome_bind] in H.
  set (t1 := set_usb_actual_length n (set_usb_status status t)) in H.
  assert (Hput : keeps_transfers d w (put_xfer r t1 d) w).
  { split; [| reflexivity]. now apply (held_transfers_put d r t1 t). }
  destruct (usb_callback t1).
  - injection H as <- <-. exact Hput.
  - eapply keeps_transfers_trans; [exact Hput |].
    now apply timssdr_libusb_transfer_callback_keeps in H.
  - injection H as H. eapply keeps_transfers_trans; [exact Hput |].
    now apply timssdr_libusb_flush_callback_keeps in H.
Qed.

Lemma libusb_handle_events_keeps {App : Type} (batch : list completion) :
  forall (d d' : timssdr_device App) (w w' : world App),
    libusb_handle_events batch d w = Ok (d', w') -> keeps_transfers d w d' w'.
Proof.
  induction batch as [| c batch IH]; intros d d' w w' H; cbn [libusb_handle_events] in H.
  - injection H as <- <-. apply keeps_transfers_refl.
  - destruct (libusb_complete c d w) as [[d1 w1] | |] eqn:Ec; try discriminate H.
    cbn [mbind outcome_bind] in H.
    eapply keeps_transfers_trans; [eapply libusb_complete_keeps; exact Ec |]. now apply IH.
Qed.

Lemma wait_all_finished_keeps {App : Type} (sched : list (list completion)) :
  forall (d d' : timssdr_device App) (w w' : world App),
    wait_all_finished sched d w = Ok (d', w') -> keeps_transfers d w d' w'.
Proof.
  induction sched as [| batch sched IH]; intros d d' w w' H; cbn [wait_all_finished] in H.
  - destruct (0 <? active_transfers d); [discriminate H |].
    injection H as <- <-. apply keeps_transfers_refl.
  - destruct (0 <? active_transfers d).
    + destruct (libusb_handle_events batch d (log EvCondWait w)) as [[d1 w1] | |] eqn:Eb;
        try discriminate H.
      cbn [mbind outcome_bind] in H. apply IH in H.
      apply libusb_handle_events_keeps in Eb.
      eapply keeps_transfers_trans; [| exact H].
      eapply keeps_transfers_trans; [| exact Eb]. split; [reflexivity |].
      now rewrite alloc_free_log_log.
    + injection H as <- <-. apply keeps_transfers_refl.
Qed.

Lemma cancel_slots_alloc_free_log {App : Type} (n : nat) :
  forall (idx : nat) (ts : list (option libusb_transfer)) (w : world App),
    alloc_free_log (trace (cancel_slots n idx ts w)) = alloc_free_log (trace w).
Proof.
  induction n as [| n IH]; intros idx ts w; cbn [cancel_slots]; [reflexivity |].
  rewrite IH. destruct (ts !! idx) as [[t |] |]; try reflexivity.
  now rewrite alloc_free_log_log.
Qed.

Lemma cancel_transfers_keeps {App : Type} (sched : list (list completion))
    (d d' : timssdr_device App) (w w' : world App) (result : Z) :
  cancel_transfers sched d w = Ok (result, d', w') -> keeps_transfers d w d' w'.
Proof.
  unfold cancel_transfers.
  destruct (transfers_check_setup (set_streaming false d)); intros H.
  - match type of H with
    | context [wait_all_finished sched ?d0 ?w0] =>
        assert (Hw0 : keeps_transfers d w d0 w0);
        [| destruct (wait_all_finished sched d0 w0) as [[d1 w1] | |] eqn:Ewait;
           try discriminate H; apply wait_all_finished_keeps in Ewait ]
    end.
    { split; [reflexivity |].
      change (flush_transfer (set_streaming false d)) with (flush_transfer d).
      destruct (flush_transfer d); rewrite ?alloc_free_log_log by exact I;
        rewrite cancel_slots_alloc_free_log; now rewrite alloc_free_log_log. }
    cbn [mbind outcome_bind] in H. injection H as <- <- <-.
    eapply keeps_transfers_trans; [exact Hw0 |].
    eapply keeps_transfers_trans; [exact Ewait |].
    split; [reflexivity |]. now rewrite alloc_free_log_log.
  - injection H as <- <- <-. split; reflexivity.
Qed.

Lemma free_slots_alloc_free_log {App : Type} (n : nat) :
  forall (idx : nat) (ts : list (option libusb_transfer)) (w : world App),
    alloc_free_log (trace (free_slots n idx ts w)) =
      alloc_free_log (trace w) ++ map (pair false) (allocated_slots ts idx n).
Proof.
  induction n as [| n IH]; intros idx ts w; cbn [free_slots].
  - cbn. now rewrite app_nil_r.
  - rewrite IH. unfold allocated_slots. cbn [seq flat_map]. rewrite map_app, app_assoc.
    f_equal. destruct (ts !! idx) as [[t |] |]; cbn; rewrite ?app_nil_r; try reflexivity.
    unfold log. cbn [trace]. rewrite alloc_free_log_app. reflexivity.
Qed.

Lemma free_transfers_alloc_free_log {App : Type} (d : timssdr_device App) (w : world App) :
  alloc_free_log (trace (free_transfers d w).2) =
    alloc_free_log (trace w) ++ map (pair false) (held_transfers d).
Proof.
  unfold free_transfers, free_flush_transfer, held_transfers.
  destruct (transfers d) as [ts |]; cbn [snd fst flush_transfer set_transfers].
  - destruct (flush_transfer d).
    + unfold log. cbn [trace].
      rewrite alloc_free_log_app, free_slots_alloc_free_log, map_app, <- app_assoc.
      reflexivity.
    + now rewrite free_slots_alloc_free_log, app_nil_r.
  - destruct (flush_transfer d); [| now rewrite app_nil_r].
    unfold log. cbn [trace]. now rewrite alloc_free_log_app.
Qed.

Lemma kill_transfer_thread_keeps {App : Type} (sched : list (list completion))
    (join_result : Z) (d d' : timssdr_device App) (w w' : world App) (result : Z) :
  kill_transfer_thread sched join_result d w = Ok (result, d', w') ->
  keeps_transfers d w d' w' /\
  result = (if transfer_thread_started d && negb (join_result =? 0)
            then TIMSSDR_ERROR_THREAD else TIMSSDR_SUCCESS).
Proof.
  unfold kill_transfer_thread. destruct (transfer_thread_started d); cbn [andb].
  - destruct (cancel_transfers sched d w) as [[[r d0] w0] | |] eqn:Ecancel; try discriminate.
    apply cancel_transfers_keeps in Ecancel as [Hheld Hlog]. cbn [mbind outcome_bind].
    destruct (negb (join_result =? 0)); intros H; injection H as <- <- <-;
      (split; [split; [exact Hheld | exact Hlog] | reflexivity]).
  - intros H. injection H as <- <- <-. split; [split; reflexivity | reflexivity].
Qed.

(** X10. Whenever [timssdr_close] of a device returns, it has called
    [libusb_free_transfer] exactly once on every transfer the device held on
    entry (the allocated slots of the ring in order, then the flush
    transfer) and on nothing else, whatever the completion handlers did in
    between and also when [pthread_join] failed; it returns
    [TIMSSDR_ERROR_THREAD] exactly when the thread was started and
    [pthread_join] failed, else [TIMSSDR_SUCCESS]. It returns without
    waiting when the device has no session or no active transfer. *)
Theorem timssdr_close_frees_every_transfer {App : Type} (sched : list (list completion))
    (join_result : Z) (d : timssdr_device App) (w : world App) :
  (forall result w',
     timssdr_close sched join_result (Some d) w = Ok (result, w') ->
     alloc_free_log (trace w') =
       alloc_free_log (trace w) ++ map (pair false) (held_transfers d) /\
     result = (if transfer_thread_started d && negb (join_result =? 0)
               then TIMSSDR_ERROR_THREAD else TIMSSDR_SUCCESS)) /\
  (transfers_check_setup d = false \/ active_transfers d <= 0 ->
   exists result w', timssdr_close sched join_result (Some d) w = Ok (result, w')).
Proof.
  split.
  - intros result w' H. unfold timssdr_close in H.
    destruct (kill_transfer_thread sched join_result d w) as [[[r2 d1] w1] | |] eqn:Ekill;
      try discriminate H.
    apply kill_transfer_thread_keeps in Ekill as [[Hheld Hlog] Hr2].
    cbn [mbind outcome_bind] in H.
    pose proof (free_transfers_alloc_free_log (set_usb_device None d1) w1) as Hfree.
    change (held_transfers (set_usb_device None d1)) with (held_transfers d1) in Hfree.
    rewrite Hheld, Hlog in Hfree.
    destruct (free_transfers (set_usb_device None d1) w1) as [[r3 d3] w3].
    cbn [snd] in Hfree. cbn [mbind outcome_bind] in H.
    destruct (negb (r2 =? TIMSSDR_SUCCESS)) eqn:Er2; injection H as <- <-;
      (split; [exact Hfree |]).
    + exact Hr2.
    + rewrite <- Hr2. apply negb_false_iff, Z.eqb_eq in Er2. now rewrite Er2.
  - intros Hidle.
    assert (Hcancel : exists r d0 w0, cancel_transfers sched d w = Ok (r, d0, w0)).
    { unfold cancel_transfers.
      change (transfers_check_setup (set_streaming false d)) with (transfers_check_setup d).
      destruct (transfers_check_setup d) eqn:Esetup; [| eauto].
      destruct Hidle as [Hidle | Hidle]; [discriminate Hidle |].
      match goal with
      | |- context [wait_all_finished sched ?d0 ?w0] =>
          assert (Hwait : wait_all_finished sched d0 w0 = Ok (d0, w0))
      end.
      { destruct sched; cbn [wait_all_finished active_transfers set_flush
                               set_transfers_setup set_streaming];
          destruct (Z.ltb_spec 0 (active_transfers d)); auto; lia. }
      rewrite Hwait. cbn [mbind outcome_bind]. eauto. }
    destruct Hcancel as (r & d0 & w0 & Hcancel).
    unfold timssdr_close, kill_transfer_thread. rewrite Hcancel.
    destruct (transfer_thread_started d); cbn [mbind outcome_bind].
    + destruct (negb (join_result =? 0)); cbn [mbind outcome_bind];
        match goal with
        | |- context [free_transfers ?d2 ?w2] => destruct (free_transfers d2 w2) as [[? ?] ?]
        end; cbn [mbind outcome_bind];
        match goal with
        | |- context [if ?b then _ else _] => destruct b
        end; eauto.
    + match goal with
      | |- context [free_transfers ?d2 ?w2] => destruct (free_transfers d2 w2) as [[? ?] ?]
      end; cbn [mbind outcome_bind];
      match goal with
      | |- context [if ?b then _ else _] => destruct b
      end; eauto.
Qed.

(** ** The end of a session *)

Lemma cancellations_app (tr1 tr2 : list event) :
  cancellations (tr1 ++ tr2) = cancellations tr1 ++ cancellations tr2.
Proof.
  induction tr1 as [| e tr1 IH]; [reflexivity |].
  destruct e; cbn; rewrite ?IH; reflexivity.
Qed.

Lemma in_flight_put {App : Type} (d : timssdr_device App) (i : nat)
    (u t : libusb_transfer) :
  get_xfer d (Slot i) = Ok u ->
  usb_callback t = usb_callback u ->
  forall j v, get_xfer d (Slot j) = Ok v ->
    exists v', get_xfer (put_xfer (Slot i) t d) (Slot j) = Ok v' /\
               usb_callback v' = usb_callback v.
Proof.
  intros Hi Hcb j v Hj. destruct (decide (i = j)) as [<- | Hne].
  - exists t. split; [now apply (get_put_same d i u t) |]. congruence.
  - exists v. split; [| reflexivity]. now rewrite get_put_other.
Qed.

(** What the data handler does for a transfer that did not complete. *)
Lemma failed_completion {App : Type} (i : nat) (status n : Z) (usb : libusb_transfer)
    (d : timssdr_device App) (w : world App) :
  get_xfer d (Slot i) = Ok usb ->
  usb_callback usb = cb_timssdr_libusb_transfer_callback ->
  status <> LIBUSB_TRANSFER_COMPLETED ->
  exists d' w' new,
    libusb_complete (Completion (Slot i) status n) d w = Ok (d', w') /\
    trace w' = trace w ++ new /\
    sample_block_calls new = 0%nat /\ submissions new = [] /\ cancellations new = [] /\
    active_transfers d' = active_transfers d - 1 /\
    transfers_setup d' = transfers_setup d /\
    streaming d' = false /\ flush d' = false /\
    (forall j v, get_xfer d (Slot j) = Ok v ->
       exists v', get_xfer d' (Slot j) = Ok v' /\ usb_callback v' = usb_callback v).
Proof.
  intros Hget Hcb Hstatus. unfold libusb_complete. rewrite Hget. cbn [mbind outcome_bind].
  set (t := set_usb_actual_length n (set_usb_status status usb)).
  change (usb_callback t) with (usb_callback usb). rewrite Hcb.
  unfold timssdr_libusb_transfer_callback.
  rewrite (get_put_same d i usb t Hget). cbn [mbind outcome_bind].
  change (usb_status t) with status.
  apply Z.eqb_neq in Hstatus. rewrite Hstatus.
  set (d0 := put_xfer (Slot i) t d).
  set (t0 := mk_timssdr_transfer _ _ _ _ _).
  assert (Hcall : exists t1 w1 new1,
             call_tx_completion_callback d0 t0 false w = (t1, w1) /\
             trace w1 = trace w ++ new1 /\
             sample_block_calls new1 = 0%nat /\ submissions new1 = [] /\
             cancellations new1 = []).
  { unfold call_tx_completion_callback. destruct (tx_completion_callback d0) as [f |].
    - destruct (f (app w) t0 false) as [t1 a]. eexists _, _, [_].
      split; [reflexivity |]. repeat split.
    - exists t0, w, []. rewrite app_nil_r. repeat split. }
  destruct Hcall as (t1 & w1 & new1 & -> & Htr1 & Hs1 & Hsub1 & Hc1).
  cbn [mbind outcome_bind].
  set (u := written_back t1 t).
  assert (Hu : usb_callback u = usb_callback usb).
  { unfold u, written_back. destruct (buffer t1); reflexivity. }
  set (d1 := put_xfer (Slot i) u (set_flush false (set_streaming false d0))).
  assert (Hd1 : forall j v, get_xfer d (Slot j) = Ok v ->
            exists v', get_xfer d1 (Slot j) = Ok v' /\ usb_callback v' = usb_callback v).
  { intros j v Hj.
    destruct (in_flight_put d i usb t Hget eq_refl j v Hj) as (v1 & Hv1 & Hcb1).
    destruct (in_flight_put d0 i t u (get_put_same d i usb t Hget) Hu j v1 Hv1)
      as (v2 & Hv2 & Hcb2).
    exists v2. split; [exact Hv2 | congruence]. }
  assert (Hflags : active_transfers d1 = active_transfers d /\
                   transfers_setup d1 = transfers_setup d /\ flush d1 = false).
  { repeat split. }
  destruct Hflags as (Hact & Hsetup & Hflush).
  unfold retire_transfer. cbn [active_transfers set_streaming flush].
  rewrite Hflush, Hact. cbn [negb].
  destruct (Z.eqb_spec (active_transfers d) 1) as [Hone | Hmore].
  - eexists _, _, (new1 ++ [EvLock; EvBroadcast; EvUnlock]).
    split; [reflexivity |].
    split; [cbn [trace log]; rewrite Htr1, <- !app_assoc; reflexivity |].
    split; [rewrite sample_block_calls_app, Hs1; reflexivity |].
    split; [rewrite submissions_app, Hsub1; reflexivity |].
    split; [rewrite cancellations_app, Hc1; reflexivity |].
    split; [cbn [active_transfers set_active_transfers]; lia |].
    split; [exact Hsetup |]. split; [reflexivity |]. split; [exact Hflush |].
    exact Hd1.
  - eexists _, _, (new1 ++ [EvLock; EvUnlock]).
    split; [reflexivity |].
    split; [cbn [trace log]; rewrite Htr1, <- !app_assoc; reflexivity |].
    split; [rewrite sample_block_calls_app, Hs1; reflexivity |].
    split; [rewrite submissions_app, Hsub1; reflexivity |].
    split; [rewrite cancellations_app, Hc1; reflexivity |].
    split; [cbn [active_transfers set_active_transfers]; lia |].
    split; [exact Hsetup |]. split; [reflexivity |]. split; [exact Hflush |].
    exact Hd1.
Qed.

Lemma failed_in_flight_step {App : Type} (d d' : timssdr_device App) (c : completion) :
  (forall j v, get_xfer d (Slot j) = Ok v ->
     exists v', get_xfer d' (Slot j) = Ok v' /\ usb_callback v' = usb_callback v) ->
  failed_in_flight d c -> failed_in_flight d' c.
Proof.
  intros Hstep. destruct c as [[i |] status n]; [| auto].
  intros (Hstatus & usb & Hget & Hcb). split; [exact Hstatus |].
  destruct (Hstep i usb Hget) as (v' & Hv' & Hcb'). exists v'. split; congruence.
Qed.

Lemma failed_batch {App : Type} (batch : list completion) :
  forall (d : timssdr_device App) (w : world App),
    Forall (failed_in_flight d) batch ->
    exists d' w' new,
      libusb_handle_events batch d w = Ok (d', w') /\
      trace w' = trace w ++ new /\
      sample_block_calls new = 0%nat /\ submissions new = [] /\ cancellations new = [] /\
      active_transfers d' = active_transfers d - Z.of_nat (length batch) /\
      transfers_setup d' = transfers_setup d /\
      (streaming d = false -> streaming d' = false) /\
      (flush d = false -> flush d' = false).
Proof.
  induction batch as [| c batch IH]; intros d w Hall.
  - exists d, w, []. rewrite app_nil_r. cbn. repeat split; auto; lia.
  - apply Forall_cons in Hall as [Hc Hrest].
    destruct c as [[i |] status n]; [| contradiction].
    destruct Hc as (Hstatus & usb & Hget & Hcb).
    destruct (failed_completion i status n usb d w Hget Hcb Hstatus)
      as (d1 & w1 & new1 & Hrun & Htr1 & Hs1 & Hsub1 & Hc1 & Hact1 & Hsetup1 & Hstr1 &
          Hfl1 & Hstep).
    destruct (IH d1 w1) as (d2 & w2 & new2 & Hrun2 & Htr2 & Hs2 & Hsub2 & Hc2 & Hact2 &
                            Hsetup2 & Hstr2 & Hfl2).
    { eapply Forall_impl; [exact Hrest |]. intros c Hc. now apply (failed_in_flight_step d). }
    exists d2, w2, (new1 ++ new2).
    cbn [libusb_handle_events]. rewrite Hrun. cbn [mbind outcome_bind].
    split; [exact Hrun2 |].
    split; [rewrite Htr2, Htr1, <- app_assoc; reflexivity |].
    split; [rewrite sample_block_calls_app, Hs1, Hs2; reflexivity |].
    split; [rewrite submissions_app, Hsub1, Hsub2; reflexivity |].
    split; [rewrite cancellations_app, Hc1, Hc2; reflexivity |].
    split; [rewrite Hact2, Hact1; cbn [length]; lia |].
    split; [congruence |]. split; auto.
Qed.

Lemma cancel_slots_spec {App : Type} (n : nat) :
  forall (idx : nat) (ts : list (option libusb_transfer)) (w : world App),
    exists new,
      cancel_slots n idx ts w =
        mk_world (glob w) (app w) (trace w ++ new) (submits w) (libusb_submit_result w) /\
      new = map EvCancel (allocated_slots ts idx n).
Proof.
  induction n as [| n IH]; intros idx ts w; cbn [cancel_slots].
  - exists []. rewrite app_nil_r. destruct w. split; reflexivity.
  - match goal with
    | |- context [cancel_slots n (S idx) ts ?w0] =>
        destruct (IH (S idx) ts w0) as (new & -> & ->)
    end.
    unfold allocated_slots. cbn [seq flat_map].
    destruct (ts !! idx) as [[t |] |]; eexists; (split; [| reflexivity]);
      cbn [log glob app trace submits libusb_submit_result app map];
      rewrite <- ?app_assoc; reflexivity.
Qed.

Lemma map_EvCancel_facts (rs : list xfer_ref) :
  sample_block_calls (map EvCancel rs) = 0%nat /\
  submissions (map EvCancel rs) = [] /\
  cancellations (map EvCancel rs) = rs.
Proof.
  induction rs as [| r rs (IH1 & IH2 & IH3)]; [repeat split |].
  cbn. rewrite IH3. auto.
Qed.

(** X11. The ordinary end of a session. When the device has a session and
    every one of its [active_transfers] data transfers is reported as not
    completed (cancelled, failed or timed out) while [timssdr_stop_rx] or
    [timssdr_stop_tx] waits, the call returns [TIMSSDR_SUCCESS] after one
    wait with [active_transfers] exactly 0 and [streaming],
    [transfers_setup] and [flush] false. It has called
    [libusb_cancel_transfer] once on every transfer the device holds (ring
    slots in order, then the flush transfer), has submitted nothing and has
    not called the sample-block callback. *)
Theorem stop_returns_after_cancellations {App : Type} (batch : list completion)
    (d : timssdr_device App) (w : world App) :
  transfers_check_setup d = true ->
  Forall (failed_in_flight d) batch ->
  active_transfers d = Z.of_nat (length batch) ->
  exists d' w' new,
    timssdr_stop_rx [batch] d w = Ok (TIMSSDR_SUCCESS, d', w') /\
    timssdr_stop_tx [batch] d w = Ok (TIMSSDR_SUCCESS, d', w') /\
    trace w' = trace w ++ new /\
    active_transfers d' = 0 /\
    streaming d' = false /\ transfers_setup d' = false /\ flush d' = false /\
    cancellations new = held_transfers d /\
    submissions new = [] /\
    sample_block_calls new = 0%nat.
Proof.
  intros Hsetup Hall Hcount.
  assert (Hcancel : exists d' w' new,
             cancel_transfers [batch] d w = Ok (TIMSSDR_SUCCESS, d', w') /\
             trace w' = trace w ++ new /\
             active_transfers d' = 0 /\
             streaming d' = false /\ transfers_setup d' = false /\ flush d' = false /\
             cancellations new = held_transfers d /\
             submissions new = [] /\
             sample_block_calls new = 0%nat).
  { unfold cancel_transfers.
    change (transfers_check_setup (set_streaming false d)) with (transfers_check_setup d).
    rewrite Hsetup.
    destruct (transfers d) as [ts |] eqn:Ets; [| unfold transfers_check_setup in Hsetup;
                                                 rewrite Ets in Hsetup; discriminate].
    change (transfers (set_streaming false d)) with (transfers d). rewrite Ets.
    change (default [] (Some ts)) with ts.
    destruct (cancel_slots_spec TRANSFER_COUNT 0 ts (log EvLock w)) as (new0 & -> & ->).
    cbn [log glob app trace submits libusb_submit_result].
    change (flush_transfer (set_streaming false d)) with (flush_transfer d).
    set (d0 := set_flush false (set_transfers_setup false (set_streaming false d))).
    destruct (map_EvCancel_facts (allocated_slots ts 0 TRANSFER_COUNT)) as (Hq1 & Hq2 & Hq3).
    assert (Hall0 : Forall (failed_in_flight d0) batch).
    { eapply Forall_impl; [exact Hall |]. intros c Hc.
      apply (failed_in_flight_step d); [| exact Hc]. intros j v Hj. exists v. auto. }
    assert (Hwait : forall w0 : world App,
               exists d' w' new,
                 wait_all_finished [batch] d0 w0 = Ok (d', w') /\
                 trace w' = trace w0 ++ new /\
                 active_transfers d' = 0 /\
                 streaming d' = false /\ transfers_setup d' = false /\ flush d' = false /\
                 cancellations new = [] /\ submissions new = [] /\
                 sample_block_calls new = 0%nat).
    { intros w0. cbn [wait_all_finished].
      change (active_transfers d0) with (active_transfers d).
      destruct (Z.ltb_spec 0 (active_transfers d)) as [Hpos | Hzero].
      - destruct (failed_batch batch d0 (log EvCondWait w0) Hall0)
          as (d1 & w1 & new1 & -> & Htr1 & Hs1 & Hsub1 & Hc1 & Hact1 & Hsetup1 & Hstr1 & Hfl1).
        cbn [mbind outcome_bind].
        change (active_transfers d0) with (active_transfers d) in Hact1.
        assert (Hzero : active_transfers d1 = 0) by lia.
        rewrite Hzero. cbn [Z.ltb Z.compare].
        exists d1, w1, (EvCondWait :: new1).
        split; [reflexivity |].
        split; [rewrite Htr1; cbn [log trace]; rewrite <- app_assoc; reflexivity |].
        repeat split; auto.
      - exists d0, w0, []. rewrite app_nil_r.
        split; [reflexivity |]. split; [reflexivity |].
        split; [change (active_transfers d0) with (active_transfers d); lia |].
        repeat split. }
    unfold held_transfers. rewrite Ets.
    destruct (flush_transfer d) as [ft |].
    - match goal with
      | |- context [wait_all_finished [batch] d0 ?w0] =>
          destruct (Hwait w0) as (d1 & w1 & new1 & -> & Htr1 & Hact & Hstr & Hset & Hfl &
                                  Hc1 & Hsub1 & Hs1)
      end.
      cbn [mbind outcome_bind log trace] in Htr1 |- *.
      eexists d1, _, (EvLock :: map EvCancel (allocated_slots ts 0 TRANSFER_COUNT)
                        ++ [EvCancel FlushTransfer] ++ new1 ++ [EvUnlock]).
      split; [reflexivity |].
      split; [cbn [trace log]; rewrite Htr1; cbn [app];
              repeat (rewrite <- app_assoc || rewrite <- app_comm_cons); reflexivity |].
      split; [exact Hact |]. split; [exact Hstr |]. split; [exact Hset |].
      split; [exact Hfl |].
      split; [cbn [cancellations]; rewrite !cancellations_app, Hq3, Hc1; reflexivity |].
      split; [cbn [submissions]; rewrite !submissions_app, Hq2, Hsub1; reflexivity |].
      cbn [sample_block_calls]. rewrite !sample_block_calls_app, Hq1, Hs1. reflexivity.
    - match goal with
      | |- context [wait_all_finished [batch] d0 ?w0] =>
          destruct (Hwait w0) as (d1 & w1 & new1 & -> & Htr1 & Hact & Hstr & Hset & Hfl &
                                  Hc1 & Hsub1 & Hs1)
      end.
      cbn [mbind outcome_bind log trace] in Htr1 |- *.
      eexists d1, _, (EvLock :: map EvCancel (allocated_slots ts 0 TRANSFER_COUNT)
                        ++ new1 ++ [EvUnlock]).
      split; [reflexivity |].
      split; [cbn [trace log]; rewrite Htr1; cbn [app];
              repeat (rewrite <- app_assoc || rewrite <- app_comm_cons); reflexivity |].
      split; [exact Hact |]. split; [exact Hstr |]. split; [exact Hset |].
      split; [exact Hfl |].
      split; [cbn [cancellations]; rewrite !cancellations_app, Hq3, Hc1;
              cbn [cancellations app]; rewrite !app_nil_r; reflexivity |].
      split; [cbn [submissions]; rewrite !submissions_app, Hq2, Hsub1; reflexivity |].
      cbn [sample_block_calls]. rewrite !sample_block_calls_app, Hq1, Hs1. reflexivity. }
  destruct Hcancel as (d' & w' & new & Hrun & Hrest).
  exists d', w', new. unfold timssdr_stop_rx, timssdr_stop_tx. rewrite Hrun.
  split; [reflexivity |]. split; [reflexivity |]. exact Hrest.
Qed.

Lemma stop_returns_after_cancellations_witness :
  transfers_check_setup (rx_device keep_going) = true /\
  Forall (failed_in_flight (rx_device keep_going)) four_cancelled /\
  active_transfers (rx_device keep_going) = Z.of_nat (length four_cancelled) /\
  exists d' w' new,
    timssdr_stop_rx [four_cancelled] (rx_device keep_going) rx_world =
      Ok (TIMSSDR_SUCCESS, d', w') /\
    timssdr_stop_tx [four_cancelled] (rx_device keep_going) rx_world =
      Ok (TIMSSDR_SUCCESS, d', w') /\
    trace w' = trace rx_world ++ new /\
    active_transfers d' = 0 /\
    streaming d' = false /\ transfers_setup d' = false /\ flush d' = false /\
    cancellations new = held_transfers (rx_device keep_going) /\
    submissions new = [] /\
    sample_block_calls new = 0%nat.
Proof.
  assert (Hall : Forall (failed_in_flight (rx_device keep_going)) four_cancelled).
  { repeat constructor; try discriminate; eexists; split; reflexivity. }
  split; [reflexivity |]. split; [exact Hall |]. split; [reflexivity |].
  apply (stop_returns_after_cancellations four_cancelled (rx_device keep_going) rx_world
           eq_refl Hall eq_refl).
Defined.

Lemma submit_ready_transfers_failure {App : Type} (endpoint : Z)
    (cbk : libusb_transfer_cb_fn) (err : Z) (n : nat) :
  forall (idx k : nat) (error : Z) (d : timssdr_device App) (w : world App),
    endpoint <> TX_ENDPOINT_ADDRESS ->
    (idx + n <= TRANSFER_COUNT)%nat ->
    (k < n)%nat ->
    ring_ok d ->
    (forall j, (j < k)%nat -> libusb_submit_result w (submits w + j)%nat = 0) ->
    libusb_submit_result w (submits w + k)%nat = err ->
    err <> 0 ->
    exists d' w' new,
      submit_ready_transfers n idx error endpoint cbk d w = Ok (err, d', w') /\
      trace w' = trace w ++ new /\
      glob w' = set_last_libusb_error err (glob w) /\
      active_transfers d' = active_transfers d + Z.of_nat k /\
      same_session d d' /\
      submissions new = map Slot (seq idx (S k)) /\
      cancellations new = [] /\
      sample_block_calls new = 0%nat.
Proof.
  induction n as [| n IH]; intros idx k error d w Hep Hidx Hk Hring Hok Herr Hnz; [lia |].
  cbn [submit_ready_transfers].
  destruct (Hring idx ltac:(lia)) as (usb & Hget & Hslot). rewrite Hget.
  cbn [mbind outcome_bind].
  apply Z.eqb_neq in Hep. rewrite Hep. cbn [mbind outcome_bind].
  set (t := set_usb_callback cbk (set_usb_endpoint endpoint usb)).
  unfold libusb_submit_transfer.
  destruct k as [| k].
  - rewrite Nat.add_0_r in Herr. rewrite Herr.
    apply Z.eqb_neq in Hnz. rewrite Hnz. cbn [negb].
    eexists _, _, [_]. split; [reflexivity |]. split; [reflexivity |].
    split; [reflexivity |]. split; [cbn; lia |].
    split; [unfold same_session; destruct d; reflexivity |]. repeat split.
  - pose proof (Hok 0%nat ltac:(lia)) as H0. rewrite Nat.add_0_r in H0. rewrite H0.
    cbn [Z.eqb negb].
    match goal with
    | |- context [submit_ready_transfers n (S idx) 0 endpoint cbk ?d1 ?w1] =>
        destruct (IH (S idx) k 0 d1 w1) as (d' & w' & new & Hrun & Htr & Hglob & Hact & Hsame &
                                             Hsub & Hcan & Hcalls)
    end; try assumption; try lia.
    { apply (ring_ok_flags (put_xfer (Slot idx) t d)); [reflexivity |].
      apply ring_ok_put; [exact Hring |].
      destruct Hslot as (b & Hb & Hlen). exists b. split; assumption. }
    { intros j Hj. cbn [libusb_submit_result submits].
      replace (S (submits w) + j)%nat with (submits w + S j)%nat by lia. apply Hok. lia. }
    { cbn [libusb_submit_result submits].
      replace (S (submits w) + k)%nat with (submits w + S k)%nat by lia. exact Herr. }
    exists d', w', (EvSubmit (Slot idx) t 0 :: new).
    split; [exact Hrun |].
    split; [rewrite Htr; cbn [trace]; rewrite <- app_assoc; reflexivity |].
    split; [exact Hglob |].
    split; [rewrite Hact; cbn [active_transfers set_active_transfers];
            destruct (put_xfer_active idx t d); lia |].
    split.
    { unfold same_session in *. rewrite Hsame at 1. destruct d; reflexivity. }
    split; [cbn [submissions seq map]; rewrite Hsub; reflexivity |].
    split; [exact Hcan | exact Hcalls].
Qed.

(** X12. A start that fails half way. When libusb accepts the first [k]
    transfers of the ring and refuses the next one ([k] < [TRANSFER_COUNT]),
    [timssdr_start_rx] returns [TIMSSDR_ERROR_LIBUSB] with
    [last_libusb_error] holding libusb's code, but the [k] transfers it
    submitted stay in flight: they are counted in [active_transfers], none is
    cancelled, and [transfers_setup] stays false, so that a following
    [timssdr_stop_rx] returns [TIMSSDR_ERROR_OTHER] without cancelling
    them either. The callback of the failed call stays installed. *)
Theorem start_rx_failure_leaves_transfers_in_flight {App : Type} (error_uninit : Z)
    (cb : option (timssdr_sample_block_cb_fn App)) (c : ctx) (d : timssdr_device App)
    (w : world App) (k : nat) (err : Z) :
  ring_ok d ->
  transfers_setup d = false ->
  (k < TRANSFER_COUNT)%nat ->
  (forall j, (j < k)%nat -> libusb_submit_result w (submits w + j)%nat = 0) ->
  libusb_submit_result w (submits w + k)%nat = err ->
  err <> 0 ->
  exists d' w' new,
    timssdr_start_rx error_uninit cb c d w = Ok (TIMSSDR_ERROR_LIBUSB, d', w') /\
    trace w' = trace w ++ new /\
    last_libusb_error (glob w') = err /\
    active_transfers d' = active_transfers d + Z.of_nat k /\
    transfers_setup d' = false /\ streaming d' = streaming d /\ callback d' = cb /\
    submissions new = map Slot (seq 0 (S k)) /\
    cancellations new = [] /\
    forall sched,
      timssdr_stop_rx sched d' w' = Ok (TIMSSDR_ERROR_OTHER, set_streaming false d', w').
Proof.
  intros Hring Hsetup Hk Hok Herr Hnz.
  unfold timssdr_start_rx, prepare_setup_transfers.
  cbn [transfers_setup set_rx_ctx]. rewrite Hsetup.
  unfold prepare_transfers.
  destruct (ring_ok_transfers d Hring) as (ts & Hts).
  cbn [transfers set_callback set_rx_ctx]. rewrite Hts.
  change (RX_ENDPOINT_ADDRESS =? TX_ENDPOINT_ADDRESS) with false.
  cbn [mbind outcome_bind].
  set (d0 := set_callback cb (set_rx_ctx c d)).
  destruct (submit_ready_transfers_failure RX_ENDPOINT_ADDRESS
              cb_timssdr_libusb_transfer_callback err TRANSFER_COUNT 0 k error_uninit d0
              (log EvLock w))
    as (d' & w' & new & -> & Htr & Hglob & Hact & Hsame & Hsub & Hcan & Hcalls);
    try assumption; try discriminate; try lia.
  cbn [mbind outcome_bind].
  apply Z.eqb_neq in Hnz. rewrite Hnz. cbn [mbind outcome_bind]. rewrite Hnz.
  assert (Hflags : transfers_setup d' = false /\ streaming d' = streaming d /\
                   callback d' = cb).
  { unfold same_session in Hsame. rewrite Hsame. repeat split. exact Hsetup. }
  destruct Hflags as (Hsetup' & Hstr' & Hcb').
  exists d', (log EvUnlock w'), (EvLock :: new ++ [EvUnlock]).
  split; [reflexivity |].
  split; [cbn [trace log] in Htr |- *; rewrite Htr;
          repeat (rewrite <- app_assoc || rewrite <- app_comm_cons); reflexivity |].
  split; [cbn [glob log]; rewrite Hglob; reflexivity |].
  split; [exact Hact |]. split; [exact Hsetup' |]. split; [exact Hstr' |].
  split; [exact Hcb' |].
  split; [cbn [submissions]; rewrite submissions_app, Hsub; cbn [submissions];
          now rewrite app_nil_r |].
  split; [cbn [cancellations]; rewrite cancellations_app, Hcan; reflexivity |].
  intros sched. unfold timssdr_stop_rx, cancel_transfers, transfers_check_setup.
  cbn [transfers_setup set_streaming transfers]. rewrite Hsetup'.
  destruct (transfers d'); reflexivity.
Qed.

Lemma start_rx_failure_leaves_transfers_in_flight_witness :
  exists d' w' new,
    timssdr_start_rx 0 (Some keep_going) 5 opened_device third_submit_refused =
      Ok (TIMSSDR_ERROR_LIBUSB, d', w') /\
    trace w' = trace third_submit_refused ++ new /\
    last_libusb_error (glob w') = LIBUSB_ERROR_BUSY /\
    active_transfers d' = active_transfers opened_device + Z.of_nat 2 /\
    transfers_setup d' = false /\ streaming d' = streaming opened_device /\
    callback d' = Some keep_going /\
    submissions new = map Slot (seq 0 3) /\
    cancellations new = [] /\
    forall sched,
      timssdr_stop_rx sched d' w' = Ok (TIMSSDR_ERROR_OTHER, set_streaming false d', w').
Proof.
  apply (start_rx_failure_leaves_transfers_in_flight 0 (Some keep_going) 5 opened_device
           third_submit_refused 2 LIBUSB_ERROR_BUSY).
  - apply (ring_ok_repeat opened_device idle_slot eq_refl slot_ok_idle_slot).
  - reflexivity.
  - unfold TRANSFER_COUNT. lia.
  - intros j Hj. destruct j as [| [| j]]; [reflexivity | reflexivity | lia].
  - reflexivity.
  - discriminate.
Defined.

(** ** The block-complete callback, the flush and the library state *)

Lemma tx_block_complete_calls_app (tr1 tr2 : list event) :
  tx_block_complete_calls (tr1 ++ tr2) =
    tx_block_complete_calls tr1 ++ tx_block_complete_calls tr2.
Proof.
  induction tr1 as [| e tr1 IH]; [reflexivity |].
  destruct e; cbn; rewrite ?IH; reflexivity.
Qed.

Lemma no_block_complete_call_refl {App : Type} (w : world App) :
  no_block_complete_call w w.
Proof. exists []. now rewrite app_nil_r. Qed.

Lemma no_block_complete_call_trans {App : Type} (w1 w2 w3 : world App) :
  no_block_complete_call w1 w2 -> no_block_complete_call w2 w3 ->
  no_block_complete_call w1 w3.
Proof.
  intros (n1 & H1 & Hc1) (n2 & H2 & Hc2). exists (n1 ++ n2).
  split; [rewrite H2, H1; now rewrite app_assoc |].
  now rewrite tx_block_complete_calls_app, Hc1, Hc2.
Qed.

Lemma no_block_complete_call_log {App : Type} (e : event) (w : world App) :
  match e with EvTxBlockComplete _ _ => False | _ => True end ->
  no_block_complete_call w (log e w).
Proof. intros He. exists [e]. split; [reflexivity |]. destruct e; auto; contradiction. Qed.

Lemma no_block_complete_call_submit {App : Type} (r : xfer_ref) (t : libusb_transfer)
    (w : world App) :
  no_block_complete_call w (libusb_submit_transfer r t w).2.
Proof. eexists [_]. split; reflexivity. Qed.

Lemma flush_if_armed_no_block_complete {App : Type} (d d' : timssdr_device App)
    (w w' : world App) :
  flush_if_armed d w = Ok (d', w') -> no_block_complete_call w w'.
Proof.
  unfold flush_if_armed, submit_flush_transfer.
  destruct (flush d); [| intros H; injection H as <- <-; apply no_block_complete_call_refl].
  destruct (flush_transfer d) as [t |]; [| discriminate]. cbn [mbind outcome_bind].
  pose proof (no_block_complete_call_submit FlushTransfer t w) as Hsub.
  destruct (libusb_submit_transfer FlushTransfer t w) as [result w1]. cbn [snd] in Hsub.
  destruct (result =? LIBUSB_SUCCESS); intros H; injection H as <- <-; exact Hsub.
Qed.

Lemma retire_transfer_no_block_complete {App : Type} (d d' : timssdr_device App)
    (w w' : world App) :
  retire_transfer d w = (d', w') -> no_block_complete_call w w'.
Proof.
  unfold retire_transfer. cbn [active_transfers set_streaming flush].
  destruct (active_transfers d =? 1); [destruct (flush d) |]; cbn [negb];
    intros H; injection H as <- <-;
    (apply no_block_complete_call_refl || now apply no_block_complete_call_log).
Qed.

Lemma resubmit_or_flush_no_block_complete {App : Type} (r : xfer_ref)
    (usb usb' : libusb_transfer) (t : timssdr_transfer) (d d' : timssdr_device App)
    (w w' : world App) (resubmit : option Z) :
  resubmit_or_flush r usb t d w = Ok (resubmit, usb', d', w') ->
  no_block_complete_call w w'.
Proof.
  unfold resubmit_or_flush. intros H.
  destruct (streaming d).
  - destruct (callback d) as [f |]; [| discriminate H].
    destruct (f (app w) t) as [[ret t1] a].
    assert (Hcall : no_block_complete_call w (log (EvSampleBlock r t1 ret) (set_app a w))).
    { exists [EvSampleBlock r t1 ret]. split; reflexivity. }
    destruct ((ret =? 0) && (0 <? valid_length t1)).
    + destruct (transfers_setup d).
      * destruct (if usb_endpoint (written_back t1 usb) =? TX_ENDPOINT_ADDRESS
                  then pad_transfer (set_usb_length (valid_length t1) (written_back t1 usb))
                  else Ok (written_back t1 usb)) as [u | |]; try discriminate H.
        cbn [mbind outcome_bind] in H.
        match type of H with
        | context [libusb_submit_transfer r u ?w0] =>
            pose proof (no_block_complete_call_submit r u w0) as Hsub;
            destruct (libusb_submit_transfer r u w0) as [result w1]
        end.
        cbn [snd] in Hsub. injection H as <- <- <- <-.
        eapply no_block_complete_call_trans; [exact Hcall | exact Hsub].
      * injection H as <- <- <- <-. exact Hcall.
    + destruct (flush_if_armed d _) as [[d1 w1] | |] eqn:Efl; try discriminate H.
      cbn [mbind outcome_bind] in H. injection H as <- <- <- <-.
      eapply no_block_complete_call_trans; [exact Hcall |].
      now apply flush_if_armed_no_block_complete in Efl.
  - destruct (flush_if_armed d w) as [[d1 w1] | |] eqn:Efl; try discriminate H.
    cbn [mbind outcome_bind] in H. injection H as <- <- <- <-.
    now apply flush_if_armed_no_block_complete in Efl.
Qed.

(** X13. The data completion handler calls the block-complete callback, when
    one is installed, exactly once per completion, whatever the transfer's
    status and whether or not the device is streaming. The call is the
    first thing the handler does, before it takes the transfer lock; it gets
    the descriptor of the completed transfer ([valid_length] is
    [actual_length], [buffer_length] is [TRANSFER_BUFFER_SIZE]) and the
    success flag, which is true exactly for status COMPLETED. Without an
    installed callback the handler starts by taking the lock. *)
Theorem tx_block_complete_callback_once_before_lock {App : Type} (i : nat)
    (d : timssdr_device App) (w : world App) (usb : libusb_transfer) :
  completion_ready d i ->
  get_xfer d (Slot i) = Ok usb ->
  let transfer :=
    mk_timssdr_transfer (usb_buffer usb) TRANSFER_BUFFER_SIZE (usb_actual_length usb)
      (rx_ctx d) (tx_ctx d) in
  let success := usb_status usb =? LIBUSB_TRANSFER_COMPLETED in
  exists d' w' rest,
    timssdr_libusb_transfer_callback (Slot i) d w = Ok (d', w') /\
    tx_block_complete_calls rest = [] /\
    trace w' =
      trace w ++
      match tx_completion_callback d with
      | Some f => [EvTxBlockComplete (f (app w) transfer success).1 success]
      | None => []
      end ++ EvLock :: rest.
Proof.
  intros Hready Hget transfer success.
  destruct (handler_total i d w usb Hready Hget) as (d' & w' & new & Hrun & _).
  exists d', w'. unfold timssdr_libusb_transfer_callback in Hrun |- *.
  rewrite Hget in Hrun |- *. cbn [mbind outcome_bind] in Hrun |- *.
  fold transfer success in Hrun |- *.
  assert (Hcall : exists t1 w1,
             call_tx_completion_callback d transfer success w = (t1, w1) /\
             trace w1 =
               trace w ++
               match tx_completion_callback d with
               | Some f => [EvTxBlockComplete (f (app w) transfer success).1 success]
               | None => []
               end).
  { unfold call_tx_completion_callback. destruct (tx_completion_callback d) as [f |].
    - destruct (f (app w) transfer success) as [t1 a]. eexists _, _.
      split; reflexivity.
    - exists transfer, w. now rewrite app_nil_r. }
  destruct Hcall as (t1 & w1 & Hcall & Htr1). rewrite Hcall in Hrun |- *.
  assert (Hlock : trace (log EvLock w1) = trace w1 ++ [EvLock]) by reflexivity.
  assert (Hmid : exists resubmit usb1 d1 w2,
             no_block_complete_call (log EvLock w1) w2 /\
             (let '(d2, w3) :=
                match resubmit with
                | Some result =>
                    if result =? LIBUSB_SUCCESS then (put_xfer (Slot i) usb1 d1, w2)
                    else retire_transfer (put_xfer (Slot i) usb1 d1) w2
                | None => retire_transfer (put_xfer (Slot i) usb1 d1) w2
                end in Ok (d2, log EvUnlock w3)) = Ok (d', w')).
  { destruct success.
    - destruct (resubmit_or_flush (Slot i) (written_back t1 usb) t1 d (log EvLock w1))
        as [[[[resubmit usb1] d1] w2] | |] eqn:Erun; try discriminate Hrun.
      exists resubmit, usb1, d1, w2. split; [| exact Hrun].
      now apply resubmit_or_flush_no_block_complete in Erun.
    - eexists None, _, _, _. split; [| exact Hrun]. apply no_block_complete_call_refl. }
  destruct Hmid as (resubmit & usb1 & d1 & w2 & Hquiet & H).
  assert (Hfinish : forall d2 w3,
             no_block_complete_call w2 w3 ->
             Ok (d2, log EvUnlock w3) = Ok (d', w') ->
             exists rest,
               Ok (d', w') = Ok (d', w') /\
               tx_block_complete_calls rest = [] /\
               trace w' =
                 trace w ++
                 match tx_completion_callback d with
                 | Some f => [EvTxBlockComplete (f (app w) transfer success).1 success]
                 | None => []
                 end ++ EvLock :: rest).
  { intros d2 w3 Hq3 Heq. injection Heq as <- <-.
    destruct (no_block_complete_call_trans _ _ _ Hquiet
                (no_block_complete_call_trans _ _ _ Hq3
                   (no_block_complete_call_log EvUnlock w3 I))) as (rest & Htr & Hnone).
    exists rest. split; [reflexivity |]. split; [exact Hnone |].
    rewrite Htr, Hlock, Htr1, <- !app_assoc. reflexivity. }
  rewrite Hrun.
  destruct resubmit as [result |]; [destruct (result =? LIBUSB_SUCCESS) |].
  - eapply Hfinish; [apply no_block_complete_call_refl | exact H].
  - destruct (retire_transfer (put_xfer (Slot i) usb1 d1) w2) as [d2 w3] eqn:Eret.
    eapply Hfinish; [eapply retire_transfer_no_block_complete; exact Eret | exact H].
  - destruct (retire_transfer (put_xfer (Slot i) usb1 d1) w2) as [d2 w3] eqn:Eret.
    eapply Hfinish; [eapply retire_transfer_no_block_complete; exact Eret | exact H].
Qed.

Lemma tx_block_complete_callback_once_before_lock_witness :
  completion_ready rx_counting_device 0 /\
  get_xfer rx_counting_device (Slot 0) = Ok (busy_slot RX_ENDPOINT_ADDRESS) /\
  exists d' w' rest,
    timssdr_libusb_transfer_callback (Slot 0) rx_counting_device rx_world = Ok (d', w') /\
    tx_block_complete_calls rest = [] /\
    trace w' =
      trace rx_world ++
      [EvTxBlockComplete
         (mk_timssdr_transfer (usb_buffer (busy_slot RX_ENDPOINT_ADDRESS))
            TRANSFER_BUFFER_SIZE 0 5 0) true] ++ EvLock :: rest.
Proof.
  assert (Hready : completion_ready rx_counting_device 0).
  { split; [| split; [| split]].
    - exists (busy_slot RX_ENDPOINT_ADDRESS).
      split; [reflexivity |]. split; [apply slot_ok_busy_slot | discriminate].
    - exists keep_going. split; [reflexivity | apply sample_block_cb_ok_keep_going].
    - intros f Hf. injection Hf as <-. intros a t s. split; [intros b Hb; eauto | auto].
    - discriminate. }
  split; [exact Hready |]. split; [reflexivity |].
  apply (tx_block_complete_callback_once_before_lock 0 rx_counting_device rx_world
           (busy_slot RX_ENDPOINT_ADDRESS) Hready eq_refl).
Defined.

(** X14. [timssdr_disable_tx_flush] undoes [timssdr_enable_tx_flush]: on a
    device without a flush transfer, enabling (with a successful
    allocation) and then disabling frees the one transfer that was
    allocated and leaves the device as it was, with the flush callback NULL
    and the flush context NULL; on a device without a flush transfer
    disabling frees nothing. Both calls return [TIMSSDR_SUCCESS]. *)
Theorem disable_tx_flush_undoes_enable {App : Type} (calloc_ok : bool)
    (cb : option (timssdr_flush_cb_fn App)) (c : ctx) (d : timssdr_device App)
    (w : world App) :
  flush_transfer d = None ->
  timssdr_disable_tx_flush d w =
    (TIMSSDR_SUCCESS, set_flush_ctx 0 (set_flush_callback None d), w) /\
  match timssdr_enable_tx_flush true calloc_ok cb c d w with
  | (result, d1, w1) =>
      result = TIMSSDR_SUCCESS /\
      held_transfers d1 = held_transfers d ++ [FlushTransfer] /\
      timssdr_disable_tx_flush d1 w1 =
        (TIMSSDR_SUCCESS, set_flush_ctx 0 (set_flush_callback None d),
         mk_world (glob w) (app w)
           (trace w ++ [EvAllocTransfer FlushTransfer; EvFreeTransfer FlushTransfer])
           (submits w) (libusb_submit_result w))
  end.
Proof.
  intros Hnone. destruct d as [ud ts cbk tts str rc tc de tsu act fl ft fcb tcb fc].
  cbn in Hnone. subst ft.
  unfold timssdr_disable_tx_flush, timssdr_enable_tx_flush, free_flush_transfer,
    held_transfers.
  cbn [flush_transfer set_flush_ctx set_flush_callback set_flush_transfer transfers].
  split; [destruct w; reflexivity |]. split; [reflexivity |].
  split; [now rewrite app_nil_r |].
  unfold log. cbn [glob app trace submits libusb_submit_result].
  rewrite <- app_assoc. reflexivity.
Qed.

Lemma disable_tx_flush_undoes_enable_witness :
  timssdr_disable_tx_flush opened_device opened_world =
    (TIMSSDR_SUCCESS, set_flush_ctx 0 (set_flush_callback None opened_device), opened_world) /\
  match timssdr_enable_tx_flush true true None 9 opened_device opened_world with
  | (result, d1, w1) =>
      result = TIMSSDR_SUCCESS /\
      held_transfers d1 = held_transfers opened_device ++ [FlushTransfer] /\
      timssdr_disable_tx_flush d1 w1 =
        (TIMSSDR_SUCCESS, set_flush_ctx 0 (set_flush_callback None opened_device),
         mk_world (glob opened_world) (app opened_world)
           (trace opened_world ++
            [EvAllocTransfer FlushTransfer; EvFreeTransfer FlushTransfer])
           (submits opened_world) (libusb_submit_result opened_world))
  end.
Proof.
  apply (disable_tx_flush_undoes_enable true None 9 opened_device opened_world). reflexivity.
Defined.

(** X15. [timssdr_disable_tx_flush] frees the flush transfer and sets the
    pointer to NULL but leaves [flush] as it is. When [flush] is armed (a TX
    session was started after the flush was enabled), the next completed
    data transfer for which the handler turns to the flush (the device is
    no longer streaming, or the sample-block callback declines) passes the
    NULL pointer to [libusb_submit_transfer]. *)
Theorem disable_tx_flush_keeps_flush_armed {App : Type} (d : timssdr_device App)
    (w : world App) (i : nat) (usb : libusb_transfer) (n : Z) :
  flush d = true ->
  get_xfer d (Slot i) = Ok usb ->
  usb_callback usb = cb_timssdr_libusb_transfer_callback ->
  (streaming d = true ->
   exists f, callback d = Some f /\ forall a t, (f a t).1.1 <> 0) ->
  match timssdr_disable_tx_flush d w with
  | (result, d1, w1) =>
      result = TIMSSDR_SUCCESS /\ flush d1 = true /\ flush_transfer d1 = None /\
      libusb_complete (Completion (Slot i) LIBUSB_TRANSFER_COMPLETED n) d1 w1 = Fault
  end.
Proof.
  intros Hflush Hget Hcb Hdecline. unfold timssdr_disable_tx_flush.
  split; [reflexivity |]. split; [exact Hflush |]. split; [reflexivity |].
  set (d1 := set_flush_ctx 0 (set_flush_callback None (set_flush_transfer None d))).
  set (w1 := free_flush_transfer d w).
  assert (Hget1 : get_xfer d1 (Slot i) = Ok usb) by exact Hget.
  unfold libusb_complete. rewrite Hget1. cbn [mbind outcome_bind].
  set (t := set_usb_actual_length n (set_usb_status LIBUSB_TRANSFER_COMPLETED usb)).
  change (usb_callback t) with (usb_callback usb). rewrite Hcb.
  unfold timssdr_libusb_transfer_callback.
  rewrite (get_put_same d1 i usb t Hget1). cbn [mbind outcome_bind].
  change (usb_status t =? LIBUSB_TRANSFER_COMPLETED) with true.
  destruct (call_tx_completion_callback _ _ true w1) as [t1 w2].
  unfold resubmit_or_flush.
  set (d2 := put_xfer (Slot i) t d1).
  assert (Harmed : forall w0 : world App, flush_if_armed d2 w0 = Fault).
  { intros w0. unfold flush_if_armed, submit_flush_transfer.
    change (flush d2) with (flush d). rewrite Hflush. reflexivity. }
  change (streaming d2) with (streaming d). change (callback d2) with (callback d).
  destruct (streaming d) eqn:Estr.
  - destruct (Hdecline eq_refl) as (f & -> & Hf).
    specialize (Hf (app (log EvLock w2)) t1).
    destruct (f (app (log EvLock w2)) t1) as [[ret t2] a]. cbn [fst] in Hf.
    apply Z.eqb_neq in Hf. rewrite Hf. cbn [andb]. rewrite Harmed. reflexivity.
  - rewrite Harmed. reflexivity.
Qed.

Lemma disable_tx_flush_keeps_flush_armed_witness :
  match timssdr_disable_tx_flush armed_device rx_world with
  | (result, d1, w1) =>
      result = TIMSSDR_SUCCESS /\ flush d1 = true /\ flush_transfer d1 = None /\
      libusb_complete (Completion (Slot 0) LIBUSB_TRANSFER_COMPLETED 512) d1 w1 = Fault
  end.
Proof.
  apply (disable_tx_flush_keeps_flush_armed armed_device rx_world 0
           (busy_slot RX_ENDPOINT_ADDRESS) 512); try reflexivity.
  intros _. exists decline. split; [reflexivity |]. intros a t. discriminate.
Defined.

(** X16. [timssdr_init] and [timssdr_exit] can be called repeatedly. With a
    libusb context [timssdr_init] returns [TIMSSDR_SUCCESS] and changes
    nothing, whatever [libusb_init] would answer; without one a failing
    [libusb_init] gives [TIMSSDR_ERROR_LIBUSB], records the code and leaves
    the context NULL, so that a later call tries again. With no device
    open, [timssdr_exit] after a successful [timssdr_init] restores the
    state before the [timssdr_init], and a second [timssdr_exit] returns
    [TIMSSDR_SUCCESS] again and changes nothing more. *)
Theorem timssdr_init_exit_repeatable {App : Type} (libusb_init_result : Z) (w : world App) :
  (g_libusb_context (glob w) = true ->
   timssdr_init libusb_init_result w = (TIMSSDR_SUCCESS, w)) /\
  (g_libusb_context (glob w) = false -> libusb_init_result <> 0 ->
   timssdr_init libusb_init_result w =
     (TIMSSDR_ERROR_LIBUSB, set_last_error libusb_init_result w) /\
   g_libusb_context (glob (set_last_error libusb_init_result w)) = false) /\
  (g_libusb_context (glob w) = false -> open_devices (glob w) = 0 ->
   fst (timssdr_init 0 w) = TIMSSDR_SUCCESS /\
   timssdr_exit (snd (timssdr_init 0 w)) = (TIMSSDR_SUCCESS, w)) /\
  (open_devices (glob w) = 0 ->
   timssdr_exit (snd (timssdr_exit w)) = timssdr_exit w /\
   fst (timssdr_exit w) = TIMSSDR_SUCCESS).
Proof.
  destruct w as [[n c e] a tr s o]. unfold timssdr_init, timssdr_exit, set_last_error.
  cbn [glob g_libusb_context open_devices set_glob set_g_libusb_context
         set_last_libusb_error last_libusb_error fst snd].
  split; [intros ->; reflexivity |].
  split.
  { intros -> Hnz. apply Z.eqb_neq in Hnz. rewrite Hnz. split; reflexivity. }
  split.
  { intros -> ->. cbn. split; reflexivity. }
  intros ->. cbn. split; reflexivity.
Qed.

(** X17. The thirteen codes of [enum timssdr_error] have thirteen different
    names, none of them the name of an unknown code; for
    [TIMSSDR_ERROR_LIBUSB] this is its fixed name [USB error], used when
    [libusb_strerror] is not available or no libusb error is recorded. *)
Theorem timssdr_error_names_distinct (has : bool) (strerror : Z -> option string)
    (g : globals) :
  has = false \/ last_libusb_error g = LIBUSB_SUCCESS ->
  NoDup (map (timssdr_error_name has strerror g) timssdr_error_codes) /\
  ~ In (Some "unknown error code"%string)
      (map (timssdr_error_name has strerror g) timssdr_error_codes) /\
  timssdr_error_name has strerror g TIMSSDR_ERROR_LIBUSB = Some "USB error"%string.
Proof.
  intros Hfixed.
  assert (Husb : (has && negb (last_libusb_error g =? LIBUSB_SUCCESS)) = false).
  { destruct Hfixed as [-> | ->]; [reflexivity | apply andb_false_r]. }
  assert (Hname : forall c, timssdr_error_name has strerror g c =
                            timssdr_error_name false strerror g c).
  { intros c. unfold timssdr_error_name. now rewrite Husb. }
  rewrite (List.map_ext _ _ Hname), Hname. vm_compute.
  split; [| split; [| reflexivity]].
  - repeat (constructor;
            [rewrite ?not_elem_of_cons; repeat split; try discriminate; apply not_elem_of_nil |]).
    constructor.
  - intuition discriminate.
Qed.

Lemma timssdr_error_names_distinct_witness :
  NoDup (map (timssdr_error_name false (fun _ => None) (mk_globals 0 true (-4)))
           timssdr_error_codes) /\
  ~ In (Some "unknown error code"%string)
      (map (timssdr_error_name false (fun _ => None) (mk_globals 0 true (-4)))
         timssdr_error_codes) /\
  timssdr_error_name false (fun _ => None) (mk_globals 0 true (-4)) TIMSSDR_ERROR_LIBUSB =
    Some "USB error"%string.
Proof.
  apply (timssdr_error_names_distinct false (fun _ => None) (mk_globals 0 true (-4))).
  left. reflexivity.
Defined.

(** ** Configuring the device *)

Lemma descriptor_reads_app (l1 l2 : list libusb_call) :
  descriptor_reads (l1 ++ l2) = (descriptor_reads l1 + descriptor_reads l2)%nat.
Proof.
  induction l1 as [| c l1 IH]; [reflexivity |]. destruct c; cbn; rewrite ?IH; reflexivity.
Qed.

Lemma no_set_configuration_app (l1 l2 : list libusb_call) :
  no_set_configuration l1 -> no_set_configuration l2 -> no_set_configuration (l1 ++ l2).
Proof. intros H1 H2 c Hin. apply in_app_or in Hin as [Hin | Hin]; [eapply H1 | eapply H2]; eauto. Qed.

Lemma detaches_active_only_app (ans : libusb_answers) (calls l1 l2 : list libusb_call) :
  detaches_active_only ans calls l1 ->
  detaches_active_only ans (calls ++ l1) l2 ->
  detaches_active_only ans calls (l1 ++ l2).
Proof.
  intros H1 H2 pre post i Heq.
  apply List.app_eq_app in Heq as (l & [[-> Hl] | [-> Hl]]).
  - destruct l as [| c l].
    + cbn in Hl. destruct (H2 [] post i (eq_sym Hl)) as (pre' & Hpre & _).
      destruct pre'; discriminate Hpre.
    + injection Hl as <- ->.
      destruct (H1 pre l i eq_refl) as (pre' & -> & Hans).
      exists pre'. split; [reflexivity | exact Hans].
  - destruct (H2 l post i Hl) as (pre' & -> & Hans).
    exists (l1 ++ pre'). split; [now rewrite app_assoc |]. now rewrite app_assoc.
Qed.

Lemma detaches_active_only_quiet (ans : libusb_answers) (calls new : list libusb_call) :
  (forall i, ~ In (DetachKernelDriver i) new) -> detaches_active_only ans calls new.
Proof.
  intros Hnone pre post i ->. exfalso. apply (Hnone i), in_app_iff. right. now left.
Qed.

Lemma detaches_active_only_pair (ans : libusb_answers) (calls : list libusb_call) (i : nat) :
  libusb_kernel_driver_active ans calls i = 1 ->
  detaches_active_only ans calls [KernelDriverActive i; DetachKernelDriver i].
Proof.
  intros Hans pre post j Heq. destruct pre as [| c [| c' pre]].
  - discriminate Heq.
  - injection Heq as <- <- <-. exists []. split; [reflexivity |]. now rewrite app_nil_r.
  - injection Heq as _ _ Heq. destruct pre; discriminate Heq.
Qed.

(** A return of [TIMSSDR_ERROR_LIBUSB] right after the call [call], whose
    answer was stored. *)
Lemma reports_libusb_error_failure (ans : libusb_answers) (g : globals)
    (before : list libusb_call) (call : libusb_call) :
  libusb_answer ans before call <> 0 ->
  reports_libusb_error ans g
    (TIMSSDR_ERROR_LIBUSB, before ++ [call],
     set_last_libusb_error (libusb_answer ans before call) g).
Proof. intros Hnz. right. split; [reflexivity |]. exists before, call. auto. Qed.

Lemma reports_libusb_error_success (ans : libusb_answers) (g : globals)
    (calls : list libusb_call) :
  reports_libusb_error ans g (TIMSSDR_SUCCESS, calls, g).
Proof. left. split; reflexivity. Qed.

Lemma detach_interfaces_spec (ans : libusb_answers) (n : nat) :
  forall (i : nat) (calls : list libusb_call) (g : globals),
    configuration_step ans calls g (detach_interfaces ans n i calls g) /\
    exists new,
      (detach_interfaces ans n i calls g).1.2 = calls ++ new /\
      descriptor_reads new = 0%nat.
Proof.
  induction n as [| n IH]; intros i calls g; cbn [detach_interfaces].
  - split; [split; [apply reports_libusb_error_success |] |]; exists []; rewrite app_nil_r;
      repeat split; auto.
    + intros pre post j Heq. destruct pre; discriminate Heq.
    + intros c [].
  - assert (Hq : detaches_active_only ans calls [KernelDriverActive i] /\
                 no_set_configuration [KernelDriverActive i]).
    { split; [apply detaches_active_only_quiet |]; intros c [Hc | []]; discriminate Hc. }
    destruct Hq as [Hq1 Hq2].
    destruct (Z.ltb_spec (libusb_kernel_driver_active ans calls i) 0) as [Hneg | Hpos].
    + destruct (libusb_kernel_driver_active ans calls i =? LIBUSB_ERROR_NOT_SUPPORTED).
      * split; [split; [apply reports_libusb_error_success |] |];
          exists [KernelDriverActive i]; repeat split; auto.
      * split; [split; [apply (reports_libusb_error_failure ans g calls
                                 (KernelDriverActive i)); cbn; lia |] |];
          exists [KernelDriverActive i]; repeat split; auto.
    + destruct (Z.eqb_spec (libusb_kernel_driver_active ans calls i) 1) as [Hone | Hother].
      * set (calls1 := calls ++ [KernelDriverActive i]).
        assert (Hpair : detaches_active_only ans calls
                          [KernelDriverActive i; DetachKernelDriver i])
          by (now apply detaches_active_only_pair).
        assert (Hns : no_set_configuration [KernelDriverActive i; DetachKernelDriver i]).
        { intros c [Hc | [Hc | []]]; discriminate Hc. }
        destruct (Z.eqb_spec (libusb_detach_kernel_driver ans calls1 i) 0)
          as [Hzero | Hfail]; cbn [negb].
        -- destruct (IH (S i) (calls1 ++ [DetachKernelDriver i]) g)
             as [[Hrep (new & Hnew & Hdet & Hnoset)] (new' & Hnew' & Hreads)].
           assert (new' = new) as -> by (rewrite Hnew in Hnew'; now apply app_inv_head in Hnew').
           split; [split; [exact Hrep |] |];
             exists ([KernelDriverActive i; DetachKernelDriver i] ++ new).
           ++ split; [rewrite Hnew; unfold calls1; now rewrite <- !app_assoc |].
              split; [| now apply no_set_configuration_app].
              apply detaches_active_only_app; [exact Hpair |].
              unfold calls1 in Hdet. now rewrite <- app_assoc in Hdet.
           ++ split; [rewrite Hnew; unfold calls1; now rewrite <- !app_assoc |].
              rewrite descriptor_reads_app, Hreads. reflexivity.
        -- split; [split; [apply (reports_libusb_error_failure ans g calls1
                                    (DetachKernelDriver i)); exact Hfail |] |];
             exists [KernelDriverActive i; DetachKernelDriver i];
             (split; [unfold calls1; now rewrite <- app_assoc |]); auto.
      * destruct (IH (S i) (calls ++ [KernelDriverActive i]) g)
          as [[Hrep (new & Hnew & Hdet & Hnoset)] (new' & Hnew' & Hreads)].
        assert (new' = new) as -> by (rewrite Hnew in Hnew'; now apply app_inv_head in Hnew').
        split; [split; [exact Hrep |] |]; exists ([KernelDriverActive i] ++ new).
        -- split; [rewrite Hnew; now rewrite <- app_assoc |].
           split; [| now apply no_set_configuration_app].
           now apply detaches_active_only_app.
        -- split; [rewrite Hnew; now rewrite <- app_assoc |].
           rewrite descriptor_reads_app, Hreads. reflexivity.
Qed.

Lemma detach_kernel_drivers_spec (ans : libusb_answers) (calls : list libusb_call)
    (g : globals) :
  configuration_step ans calls g (detach_kernel_drivers ans calls g) /\
  exists new,
    (detach_kernel_drivers ans calls g).1.2 = calls ++ new /\
    descriptor_reads new = 1%nat.
Proof.
  unfold detach_kernel_drivers.
  pose proof (reports_libusb_error_failure ans g calls GetActiveConfigDescriptor) as Hfailure.
  cbn [libusb_answer] in Hfailure.
  destruct (libusb_get_active_config_descriptor ans calls) as [result num_interfaces].
  cbn [fst] in Hfailure.
  assert (Hq : detaches_active_only ans calls [GetActiveConfigDescriptor] /\
               no_set_configuration [GetActiveConfigDescriptor]).
  { split; [apply detaches_active_only_quiet |]; intros c [Hc | []]; discriminate Hc. }
  destruct Hq as [Hq1 Hq2].
  destruct (Z.ltb_spec result 0) as [Hneg | Hpos].
  - split; [split; [apply Hfailure; lia |] |];
      exists [GetActiveConfigDescriptor]; repeat split; auto.
  - destruct (detach_interfaces_spec ans num_interfaces 0
                ((calls ++ [GetActiveConfigDescriptor]) ++ [FreeConfigDescriptor]) g)
      as [[Hrep (new & Hnew & Hdet & Hnoset)] (new' & Hnew' & Hreads)].
    assert (new' = new) as -> by (rewrite Hnew in Hnew'; now apply app_inv_head in Hnew').
    assert (Hq3 : detaches_active_only ans calls
                    [GetActiveConfigDescriptor; FreeConfigDescriptor] /\
                  no_set_configuration [GetActiveConfigDescriptor; FreeConfigDescriptor]).
    { split; [apply detaches_active_only_quiet |]; intros c [Hc | [Hc | []]];
        discriminate Hc. }
    destruct Hq3 as [Hq3 Hq4].
    split; [split; [exact Hrep |] |];
      exists ([GetActiveConfigDescriptor; FreeConfigDescriptor] ++ new).
    + split; [rewrite Hnew; now rewrite <- !app_assoc |].
      split; [| now apply no_set_configuration_app].
      apply detaches_active_only_app; [exact Hq3 |]. now rewrite <- !app_assoc in Hdet.
    + split; [rewrite Hnew; now rewrite <- !app_assoc |].
      rewrite descriptor_reads_app, Hreads. reflexivity.
Qed.

(** X18. [detach_kernel_drivers] returns [TIMSSDR_SUCCESS] with the globals
    unchanged, or it returns [TIMSSDR_ERROR_LIBUSB] right after a libusb
    call that failed, with the code that call returned, which is not 0, in
    [last_libusb_error]. It reads the configuration descriptor once, and it
    calls [libusb_detach_kernel_driver] only for an interface for which
    [libusb_kernel_driver_active] has just answered 1. When libusb answers
    [LIBUSB_ERROR_NOT_SUPPORTED] for the first interface, it returns success
    at once and looks at no other interface. *)
Theorem detach_kernel_drivers_reports (ans : libusb_answers) (calls : list libusb_call)
    (g : globals) :
  reports_libusb_error ans g (detach_kernel_drivers ans calls g) /\
  (exists new,
     (detach_kernel_drivers ans calls g).1.2 = calls ++ new /\
     detaches_active_only ans calls new /\
     descriptor_reads new = 1%nat) /\
  (forall result n,
     libusb_get_active_config_descriptor ans calls = (result, S n) ->
     0 <= result ->
     libusb_kernel_driver_active ans
       (calls ++ [GetActiveConfigDescriptor; FreeConfigDescriptor]) 0 =
       LIBUSB_ERROR_NOT_SUPPORTED ->
     detach_kernel_drivers ans calls g =
       (TIMSSDR_SUCCESS,
        calls ++ [GetActiveConfigDescriptor; FreeConfigDescriptor; KernelDriverActive 0],
        g)).
Proof.
  destruct (detach_kernel_drivers_spec ans calls g)
    as [[Hrep (new & Hnew & Hdet & _)] (new' & Hnew' & Hreads)].
  assert (new' = new) as -> by (rewrite Hnew in Hnew'; now apply app_inv_head in Hnew').
  split; [exact Hrep |]. split; [exists new; auto |].
  intros result n Hdesc Hpos Hans. unfold detach_kernel_drivers. rewrite Hdesc.
  destruct (Z.ltb_spec result 0); [lia |]. cbn [detach_interfaces].
  replace ((calls ++ [GetActiveConfigDescriptor]) ++ [FreeConfigDescriptor])
    with (calls ++ [GetActiveConfigDescriptor; FreeConfigDescriptor])
    by (now rewrite <- app_assoc).
  rewrite Hans. cbn. now rewrite <- app_assoc.
Qed.

(** The statements of [set_timssdr_configuration] after the block
    [if (curr_config != config)]: one more pass over the kernel drivers. *)
Lemma set_timssdr_configuration_finish (ans : libusb_answers) (calls1 : list libusb_call)
    (g : globals) :
  let out :=
    (let '(result, calls, g) := detach_kernel_drivers ans calls1 g in
     if negb (result =? 0) then (result, calls, g) else (LIBUSB_SUCCESS, calls, g)) in
  reports_libusb_error ans g out /\
  exists new,
    out.1.2 = calls1 ++ new /\ detaches_active_only ans calls1 new /\
    no_set_configuration new /\ descriptor_reads new = 1%nat.
Proof.
  destruct (detach_kernel_drivers_spec ans calls1 g)
    as [[Hrep (new & Hnew & Hdet & Hnoset)] (new' & Hnew' & Hreads)].
  assert (new' = new) as -> by (rewrite Hnew in Hnew'; now apply app_inv_head in Hnew').
  destruct (detach_kernel_drivers ans calls1 g) as [[r c] g2]. cbn [fst snd] in *.
  destruct (Z.eqb_spec r 0) as [-> | Hnz]; cbn [negb fst snd];
    (split; [exact Hrep | exists new; auto]).
Qed.

Lemma set_timssdr_configuration_result (ans : libusb_answers) (config : Z)
    (calls : list libusb_call) (g : globals) :
  reports_libusb_error ans g (set_timssdr_configuration ans config calls g).
Proof.
  unfold set_timssdr_configuration.
  pose proof (reports_libusb_error_failure ans g calls GetConfiguration) as Hfailure.
  cbn [libusb_answer] in Hfailure.
  destruct (libusb_get_configuration ans calls) as [result curr_config].
  cbn [fst] in Hfailure.
  destruct (Z.eqb_spec result 0) as [-> | Hfail]; cbn [negb];
    [| apply Hfailure; exact Hfail].
  destruct (curr_config =? config); cbn [negb];
    [apply (set_timssdr_configuration_finish ans (calls ++ [GetConfiguration]) g) |].
  destruct (detach_kernel_drivers_spec ans (calls ++ [GetConfiguration]) g) as [[Hrep _] _].
  destruct (detach_kernel_drivers ans (calls ++ [GetConfiguration]) g) as [[r1 c1] g1].
  destruct (Z.eqb_spec r1 0) as [-> | Hnz1]; cbn [negb]; [| exact Hrep].
  assert (g1 = g) as ->.
  { destruct Hrep as [[_ Hg] | [Hr _]]; [exact Hg | discriminate Hr]. }
  destruct (Z.eqb_spec (libusb_set_configuration ans c1 config) 0) as [Hzero | Hfail2];
    cbn [negb];
    [apply (set_timssdr_configuration_finish ans (c1 ++ [SetConfiguration config]) g) |].
  apply (reports_libusb_error_failure ans g c1 (SetConfiguration config)). exact Hfail2.
Qed.

(** X19. [set_timssdr_configuration] returns [LIBUSB_SUCCESS] with the
    globals unchanged, or it returns [TIMSSDR_ERROR_LIBUSB] right after a
    libusb call that failed, with the code that call returned, which is not
    0, in [last_libusb_error]. Its first call reads the configuration. When
    the device already has the requested one, one pass over the kernel
    drivers follows and [libusb_set_configuration] is not called; when it
    has another one and the function succeeds, the calls are a first pass,
    then [libusb_set_configuration] with the requested configuration, then
    a second pass. A pass reads the configuration descriptor once and sets
    no configuration, and a kernel driver is only detached from an
    interface on which [libusb_kernel_driver_active] has just answered 1. *)
Theorem set_timssdr_configuration_reports (ans : libusb_answers) (config : Z)
    (calls : list libusb_call) (g : globals) :
  reports_libusb_error ans g (set_timssdr_configuration ans config calls g) /\
  exists new,
    (set_timssdr_configuration ans config calls g).1.2 = calls ++ GetConfiguration :: new /\
    detaches_active_only ans calls (GetConfiguration :: new) /\
    (libusb_get_configuration ans calls = (0, config) ->
     no_set_configuration new /\ descriptor_reads new = 1%nat) /\
    (forall result curr_config,
       libusb_get_configuration ans calls = (result, curr_config) ->
       curr_config <> config ->
       (set_timssdr_configuration ans config calls g).1.1 = LIBUSB_SUCCESS ->
       exists pass1 pass2,
         new = pass1 ++ SetConfiguration config :: pass2 /\
         no_set_configuration pass1 /\ descriptor_reads pass1 = 1%nat /\
         no_set_configuration pass2 /\ descriptor_reads pass2 = 1%nat).
Proof.
  split; [apply set_timssdr_configuration_result |].
  unfold set_timssdr_configuration.
  destruct (libusb_get_configuration ans calls) as [result curr_config].
  assert (Hq1 : detaches_active_only ans calls [GetConfiguration]).
  { apply detaches_active_only_quiet. intros c [Hc | []]. discriminate Hc. }
  destruct (Z.eqb_spec result 0) as [-> | Hfail]; cbn [negb].
  2:{ exists []. split; [reflexivity |]. split; [exact Hq1 |].
      split; [intros Heq; injection Heq as Heq _; contradiction |].
      intros r c _ _ Hres. discriminate Hres. }
  destruct (Z.eqb_spec curr_config config) as [-> | Hdiff]; cbn [negb].
  - destruct (set_timssdr_configuration_finish ans (calls ++ [GetConfiguration]) g)
      as (_ & new & Hnew & Hdet & Hnoset & Hreads).
    exists new. split; [rewrite Hnew; now rewrite <- app_assoc |].
    split; [apply (detaches_active_only_app ans calls [GetConfiguration] new Hq1 Hdet) |].
    split; [intros _; split; assumption |].
    intros r c Heq Hne. injection Heq as _ <-. contradiction.
  - destruct (detach_kernel_drivers_spec ans (calls ++ [GetConfiguration]) g)
      as [[Hrep1 (new1 & Hnew1 & Hdet1 & Hnoset1)] (new1' & Hnew1' & Hreads1)].
    assert (new1' = new1) as ->
      by (rewrite Hnew1 in Hnew1'; now apply app_inv_head in Hnew1').
    destruct (detach_kernel_drivers ans (calls ++ [GetConfiguration]) g) as [[r1 c1] g1].
    cbn [fst snd] in *. subst c1.
    assert (Hdet01 : detaches_active_only ans calls (GetConfiguration :: new1))
      by (apply (detaches_active_only_app ans calls [GetConfiguration] new1 Hq1 Hdet1)).
    destruct (Z.eqb_spec r1 0) as [-> | Hnz1]; cbn [negb fst snd].
    2:{ exists new1. split; [now rewrite <- app_assoc |]. split; [exact Hdet01 |].
        split; [intros Heq; injection Heq as Heq; contradiction |].
        intros r c _ _ Hres. contradiction. }
    assert (g1 = g) as ->.
    { destruct Hrep1 as [[_ Hg] | [Hr _]]; [exact Hg | discriminate Hr]. }
    set (calls2 := (calls ++ [GetConfiguration]) ++ new1).
    assert (Hdet2 : detaches_active_only ans calls
                      ((GetConfiguration :: new1) ++ [SetConfiguration config])).
    { apply detaches_active_only_app; [exact Hdet01 |].
      apply detaches_active_only_quiet. intros i [Hc | []]. discriminate Hc. }
    destruct (Z.eqb_spec (libusb_set_configuration ans calls2 config) 0)
      as [Hzero | Hfail2]; cbn [negb fst snd].
    2:{ exists (new1 ++ [SetConfiguration config]).
        split; [unfold calls2; now rewrite <- !app_assoc |]. split; [exact Hdet2 |].
        split; [intros Heq; injection Heq as Heq; contradiction |].
        intros r c _ _ Hres. discriminate Hres. }
    destruct (set_timssdr_configuration_finish ans (calls2 ++ [SetConfiguration config]) g)
      as (_ & new & Hnew & Hdet & Hnoset & Hreads).
    exists (new1 ++ SetConfiguration config :: new).
    split; [rewrite Hnew; unfold calls2; now rewrite <- !app_assoc |].
    split.
    { change (GetConfiguration :: new1 ++ SetConfiguration config :: new)
        with ((GetConfiguration :: new1) ++ [SetConfiguration config] ++ new).
      rewrite app_assoc.
      apply detaches_active_only_app; [exact Hdet2 |].
      replace (calls ++ (GetConfiguration :: new1) ++ [SetConfiguration config])
        with (calls2 ++ [SetConfiguration config])
        by (unfold calls2; now rewrite <- !app_assoc).
      exact Hdet. }
    split; [intros Heq; injection Heq as Heq; contradiction |].
    intros r c _ _ _. exists new1, new. repeat split; assumption.
Qed.

(** X20. The error [set_timssdr_configuration] reports has libusb's own
    name for the call that failed: when the function fails, it has just
    made a libusb call that returned a code other than 0, and
    [timssdr_error_name] of its result, with [libusb_strerror] available,
    is what [libusb_strerror] says about that code; without
    [libusb_strerror] it is [USB error]. *)
Theorem configuration_failure_has_libusb_name (ans : libusb_answers) (config : Z)
    (calls : list libusb_call) (g : globals) (strerror : Z -> option string) :
  (set_timssdr_configuration ans config calls g).1.1 <> LIBUSB_SUCCESS ->
  match set_timssdr_configuration ans config calls g with
  | (result, calls', g') =>
      result = TIMSSDR_ERROR_LIBUSB /\
      exists before call,
        calls' = before ++ [call] /\
        libusb_answer ans before call <> 0 /\
        timssdr_error_name true strerror g' result =
          strerror (libusb_answer ans before call) /\
        timssdr_error_name false strerror g' result = Some "USB error"%string
  end.
Proof.
  intros Hfail. pose proof (set_timssdr_configuration_result ans config calls g) as Hrep.
  destruct (set_timssdr_configuration ans config calls g) as [[result calls'] g'].
  unfold reports_libusb_error in Hrep. cbn [fst snd] in *.
  destruct Hrep as [[Hr _] | (-> & before & call & -> & Hnz & ->)]; [contradiction |].
  split; [reflexivity |]. exists before, call. split; [reflexivity |]. split; [exact Hnz |].
  assert (Hname : forall has g0,
             timssdr_error_name has strerror g0 TIMSSDR_ERROR_LIBUSB =
               if has && negb (last_libusb_error g0 =? LIBUSB_SUCCESS)
               then strerror (last_libusb_error g0) else Some "USB error"%string)
    by reflexivity.
  rewrite !Hname. cbn [last_libusb_error set_last_libusb_error].
  apply Z.eqb_neq in Hnz. unfold LIBUSB_SUCCESS. rewrite Hnz. split; reflexivity.
Qed.

Lemma configuration_failure_has_libusb_name_witness :
  (set_timssdr_configuration device_gone USB_CONFIG_STANDARD [] (mk_globals 0 true 0)).1.1
    <> LIBUSB_SUCCESS /\
  match set_timssdr_configuration device_gone USB_CONFIG_STANDARD [] (mk_globals 0 true 0) with
  | (result, calls', g') =>
      result = TIMSSDR_ERROR_LIBUSB /\
      exists before call,
        calls' = before ++ [call] /\
        libusb_answer device_gone before call <> 0 /\
        timssdr_error_name true
          (fun code => if code =? -4 then Some "No such device"%string
                       else Some "Other error"%string) g' result =
          (fun code => if code =? -4 then Some "No such device"%string
                       else Some "Other error"%string) (libusb_answer device_gone before call) /\
        timssdr_error_name false
          (fun code => if code =? -4 then Some "No such device"%string
                       else Some "Other error"%string) g' result =
          Some "USB error"%string
  end.
Proof.
  assert (Hfail : (set_timssdr_configuration device_gone USB_CONFIG_STANDARD []
                     (mk_globals 0 true 0)).1.1 <> LIBUSB_SUCCESS) by discriminate.
  split; [exact Hfail |].
  apply (configuration_failure_has_libusb_name device_gone USB_CONFIG_STANDARD []
           (mk_globals 0 true 0)
           (fun code => if code =? -4 then Some "No such device"%string
                        else Some "Other error"%string) Hfail).
Defined.

(** X21. [timssdr_open_setup] begins with [set_timssdr_configuration], and
    when that fails the open is over: it has just made a libusb call that
    returned a code other than 0, it returns [TIMSSDR_ERROR_LIBUSB] and
    stores no device, and the library state is as before except for
    [last_libusb_error], which holds that code: no interface is claimed,
    nothing is allocated and [open_devices] is unchanged, whatever the rest
    of the set-up would have met. *)
Theorem timssdr_open_setup_configuration_first {App : Type} (ans : libusb_answers)
    (usb_device' : Z) (env : open_env) (w : world App) :
  (set_timssdr_configuration ans USB_CONFIG_STANDARD [] (glob w)).1.1 <> LIBUSB_SUCCESS ->
  exists before call,
    libusb_answer ans before call <> 0 /\
    timssdr_open_setup_configuring ans usb_device' env w =
      (TIMSSDR_ERROR_LIBUSB, None, set_last_error (libusb_answer ans before call) w,
       before ++ [call]).
Proof.
  intros Hfail. unfold timssdr_open_setup_configuring.
  pose proof (set_timssdr_configuration_result ans USB_CONFIG_STANDARD [] (glob w)) as Hrep.
  destruct (set_timssdr_configuration ans USB_CONFIG_STANDARD [] (glob w))
    as [[result calls] g]. unfold reports_libusb_error in Hrep. cbn [fst snd] in *.
  destruct Hrep as [[Hr _] | (-> & before & call & -> & Hnz & ->)]; [contradiction |].
  exists before, call. split; [exact Hnz |]. reflexivity.
Qed.

Lemma timssdr_open_setup_configuration_first_witness :
  (set_timssdr_configuration device_gone USB_CONFIG_STANDARD [] (glob initial_world)).1.1
    <> LIBUSB_SUCCESS /\
  exists before call,
    libusb_answer device_gone before call <> 0 /\
    timssdr_open_setup_configuring device_gone 1 all_ok initial_world =
      (TIMSSDR_ERROR_LIBUSB, None,
       set_last_error (libusb_answer device_gone before call) initial_world,
       before ++ [call]).
Proof.
  assert (Hfail : (set_timssdr_configuration device_gone USB_CONFIG_STANDARD []
                     (glob initial_world)).1.1 <> LIBUSB_SUCCESS) by discriminate.
  split; [exact Hfail |].
  apply (timssdr_open_setup_configuration_first device_gone 1 all_ok initial_world Hfail).
Defined.

(** ** Finding the boards on the bus *)

Lemma strlen_le (s : list Z) : (strlen s <= length s)%nat.
Proof. induction s as [| c s IH]; cbn; [lia |]. destruct (c =? 0); lia. Qed.

Lemma strncmp_spec (m : nat) :
  forall (s1 d : list Z),
    (m <= length s1)%nat -> (m <= strlen d)%nat ->
    exists diff,
      strncmp s1 (d ++ [0]) m = Ok diff /\ (diff = 0 <-> take m s1 = take m d).
Proof.
  induction m as [| m IH]; intros s1 d Hlen Hd.
  - exists 0. cbn. split; [reflexivity | tauto].
  - destruct s1 as [| c1 s1]; [cbn in Hlen; lia |].
    destruct d as [| c2 d]; [cbn in Hd; lia |].
    cbn [strlen] in Hd. destruct (Z.eqb_spec c2 0) as [Hz | Hnz]; [lia |].
    change ((c2 :: d) ++ [0]) with (c2 :: (d ++ [0])). cbn [strncmp].
    destruct (Z.eqb_spec c1 c2) as [-> | Hne].
    + apply Z.eqb_neq in Hnz. rewrite Hnz.
      destruct (IH s1 d) as (diff & Hrun & Hiff); [cbn in Hlen; lia | lia |].
      exists diff. split; [exact Hrun |]. cbn [take]. rewrite Hiff.
      split; [intros ->; reflexivity | intros H; now injection H].
    + exists (c1 - c2). split; [reflexivity |]. cbn [take].
      split; [lia | intros H; injection H as H _; contradiction].
Qed.

Lemma open_handles_app (log new : list usb_event) :
  open_handles (log ++ new) =
    foldl (fun held e =>
             match e with
             | UsbOpen i result => if result =? 0 then held ++ [i] else held
             | UsbClose i => remove Nat.eq_dec i held
             | _ => held
             end) (open_handles log) new.
Proof. unfold open_handles. apply foldl_app. Qed.

(** The array after the serial number of [dev] was read into it and
    terminated. *)
Lemma read_serial_spec (dev : libusb_device) (chars serial_number : list Z) :
  string_descriptor dev = inr chars ->
  length serial_number = 64%nat ->
  let '(result, data) := libusb_get_string_descriptor_ascii dev serial_number in
  let len := if result >=? USB_MAX_SERIAL_LENGTH then USB_MAX_SERIAL_LENGTH else result in
  len = Z.of_nat (length (take 32 chars)) /\
  exists data',
    terminate_at data len = Ok data' /\
    length data' = 64%nat /\
    take (length (take 32 chars)) data' = take 32 chars /\
    data' !! length (take 32 chars) = Some 0.
Proof.
  intros Hdesc Hlen. unfold libusb_get_string_descriptor_ascii. rewrite Hdesc.
  set (chars' := take 63 chars).
  assert (Hc' : (length chars' <= 63)%nat) by (unfold chars'; rewrite length_take; lia).
  set (data := chars' ++ [0] ++ drop (S (length chars')) serial_number).
  assert (Hdata : length data = 64%nat).
  { unfold data. rewrite !length_app, length_drop. cbn [length]. lia. }
  assert (Hclip : (if Z.of_nat (length chars') >=? USB_MAX_SERIAL_LENGTH
                   then USB_MAX_SERIAL_LENGTH else Z.of_nat (length chars')) =
                  Z.of_nat (length (take 32 chars))).
  { unfold chars', USB_MAX_SERIAL_LENGTH. rewrite !length_take.
    destruct (Z.geb_spec (Z.of_nat (63 `min` length chars)) 32); lia. }
  rewrite Hclip. split; [reflexivity |].
  assert (Hle : (length (take 32 chars) <= length chars')%nat).
  { unfold chars'. rewrite !length_take. lia. }
  unfold terminate_at. rewrite Hdata.
  destruct (Z.leb_spec 0 (Z.of_nat (length (take 32 chars)))); [| lia].
  destruct (Z.ltb_spec (Z.of_nat (length (take 32 chars))) (Z.of_nat 64));
    [| rewrite length_take in *; lia].
  cbn [andb]. rewrite Nat2Z.id. eexists. split; [reflexivity |].
  split; [now rewrite length_insert |].
  split.
  - rewrite take_insert_ge by lia. unfold data. rewrite take_app_le by exact Hle.
    unfold chars'. rewrite take_take, length_take.
    destruct (Nat.le_ge_cases 32 (length chars)) as [Hlong | Hshort].
    + replace ((32 `min` length chars) `min` 63)%nat with 32%nat by lia. reflexivity.
    + replace ((32 `min` length chars) `min` 63)%nat with (length chars) by lia.
      now rewrite !take_ge by lia.
  - apply list_lookup_insert_eq. lia.
Qed.

Lemma open_usb_round_skips (desired : list Z) (match_len : Z) (i : nat)
    (dev : libusb_device) (serial_number : list Z) (log : list usb_event) :
  candidate dev = false ->
  exists log',
    timssdr_open_usb_round (Some desired) match_len i dev serial_number log =
      Ok (Continue serial_number log') /\
    open_handles log' = open_handles log.
Proof.
  unfold candidate, is_timssdr, timssdr_open_usb_round. intros Hc.
  destruct ((idVendor dev =? timssdr_usb_vid) && (idProduct dev =? timssdr_usb_pid));
    [| exists log; split; reflexivity].
  destruct (0 <? iSerialNumber dev); [| exists log; split; reflexivity].
  cbn [andb] in Hc. rewrite Hc. cbn [negb].
  eexists. split; [reflexivity |]. rewrite open_handles_app. cbn [foldl]. now rewrite Hc.
Qed.

Lemma open_usb_round_compares (desired : list Z) (i : nat) (dev : libusb_device)
    (chars serial_number : list Z) (log : list usb_event) :
  candidate dev = true ->
  string_descriptor dev = inr chars ->
  (strlen desired <= length (take 32 chars))%nat ->
  length serial_number = 64%nat ->
  exists serial_number',
    timssdr_open_usb_round (Some desired) (Z.of_nat (strlen desired)) i dev serial_number log =
      Ok (if serial_ends_with desired dev
          then Break (Some i) (log ++ [UsbOpen i 0])
          else Continue serial_number' (log ++ [UsbOpen i 0] ++ [UsbClose i])) /\
    length serial_number' = 64%nat.
Proof.
  unfold candidate, is_timssdr, timssdr_open_usb_round. intros Hc Hdesc Hm Hlen.
  apply andb_prop in Hc as [Hc Hopen]. apply andb_prop in Hc as [Hid Hserial].
  rewrite Hid, Hserial, Hopen. cbn [negb]. apply Z.eqb_eq in Hopen. rewrite Hopen.
  pose proof (read_serial_spec dev chars serial_number Hdesc Hlen) as Hread.
  destruct (libusb_get_string_descriptor_ascii dev serial_number) as [result data].
  destruct Hread as (Hclip & data' & Hterm & Hlen' & Htake & Hnul).
  rewrite Hclip in Hterm |- *. rewrite Hterm. cbn [mbind outcome_bind].
  assert (HL : (length (take 32 chars) <= 32)%nat) by (rewrite length_take; lia).
  set (L := length (take 32 chars)) in *.
  destruct (Z.ltb_spec (Z.of_nat L - Z.of_nat (strlen desired)) 0); [lia |].
  replace (Z.to_nat (Z.of_nat L - Z.of_nat (strlen desired)))
    with (L - strlen desired)%nat by lia.
  rewrite Nat2Z.id.
  destruct (strncmp_spec (strlen desired) (drop (L - strlen desired) data') desired)
    as (diff & -> & Hiff); [rewrite length_drop, Hlen'; lia | lia |].
  cbn [mbind outcome_bind].
  assert (Hsuffix : take (strlen desired) (drop (L - strlen desired) data') =
                    drop (length (listed_serial dev) - strlen desired) (listed_serial dev)).
  { unfold listed_serial. rewrite Hdesc. fold L. rewrite take_drop_commute.
    replace (L - strlen desired + strlen desired)%nat with L by lia.
    now rewrite Htake. }
  rewrite Hsuffix in Hiff. unfold serial_ends_with.
  exists data'. split; [| exact Hlen'].
  destruct (Z.eqb_spec diff 0) as [Hz | Hnz].
  - rewrite bool_decide_eq_true_2 by (now apply Hiff). reflexivity.
  - rewrite bool_decide_eq_false_2 by (intros Heq; apply Hnz; now apply Hiff).
    now rewrite <- app_assoc.
Qed.

Lemma open_usb_scan_finds (desired : list Z) (devices : list libusb_device) :
  forall (i : nat) (serial_number : list Z) (log : list usb_event),
    length serial_number = 64%nat ->
    serials_readable desired devices ->
    open_handles log = [] ->
    exists log',
      timssdr_open_usb_scan (Some desired) (Z.of_nat (strlen desired)) devices i
        serial_number log =
        Ok (fst <$> find_device (fun dev => candidate dev && serial_ends_with desired dev)
                      devices i, log') /\
      open_handles log' =
        match find_device (fun dev => candidate dev && serial_ends_with desired dev)
                devices i with
        | Some (k, _) => [k]
        | None => []
        end.
Proof.
  induction devices as [| dev devices IH]; intros i serial_number log Hlen Hread Hclosed.
  - exists log. split; [reflexivity | exact Hclosed].
  - apply Forall_cons in Hread as [Hdev Hrest]. cbn [timssdr_open_usb_scan find_device].
    destruct (candidate dev) eqn:Hc; cbn [andb].
    + destruct (Hdev eq_refl) as (chars & Hdesc & Hm).
      destruct (open_usb_round_compares desired i dev chars serial_number log Hc Hdesc Hm Hlen)
        as (serial_number' & -> & Hlen').
      cbn [mbind outcome_bind]. destruct (serial_ends_with desired dev).
      * eexists. split; [reflexivity |]. rewrite open_handles_app, Hclosed. reflexivity.
      * apply (IH (S i) serial_number' _ Hlen' Hrest).
        rewrite !open_handles_app, Hclosed. cbn.
        destruct (Nat.eq_dec i i); [reflexivity | contradiction].
    + destruct (open_usb_round_skips desired (Z.of_nat (strlen desired)) i dev serial_number
                  log Hc) as (log1 & -> & Hlog1).
      cbn [mbind outcome_bind]. apply (IH (S i) serial_number log1 Hlen Hrest).
      now rewrite Hlog1.
Qed.

Lemma open_usb_scan_first (devices : list libusb_device) :
  forall (i : nat) (serial_number : list Z) (log : list usb_event),
    timssdr_open_usb_scan None 0 devices i serial_number log =
      Ok match find_device is_timssdr devices i with
         | Some (k, dev) =>
             (if libusb_open_result dev =? 0 then Some k else None,
              log ++ [UsbOpen k (libusb_open_result dev)])
         | None => (None, log)
         end.
Proof.
  induction devices as [| dev devices IH]; intros i serial_number log; [reflexivity |].
  cbn [timssdr_open_usb_scan find_device]. unfold timssdr_open_usb_round, is_timssdr.
  destruct ((idVendor dev =? timssdr_usb_vid) && (idProduct dev =? timssdr_usb_pid));
    cbn [mbind outcome_bind]; [reflexivity | apply IH].
Qed.

(** X22. Without a serial number, [timssdr_open_usb] calls [libusb_open] on
    the first device of the list with the vendor and product id of the
    board and on no other device; it returns that handle, or NULL when the
    open failed (it does not go on to a second board) or when no device has
    these ids, and it frees the device list. *)
Theorem timssdr_open_usb_opens_first_board (device_list : option (list libusb_device))
    (serial_number : list Z) :
  timssdr_open_usb None device_list serial_number =
    Ok match find_device is_timssdr (default [] device_list) 0 with
       | Some (k, dev) =>
           (if libusb_open_result dev =? 0 then Some k else None,
            [UsbOpen k (libusb_open_result dev); UsbFreeDeviceList])
       | None => (None, [UsbFreeDeviceList])
       end.
Proof.
  unfold timssdr_open_usb. cbn [Z.ltb Z.compare]. rewrite open_usb_scan_first.
  cbn [mbind outcome_bind].
  destruct (find_device is_timssdr (default [] device_list) 0) as [[k dev] |]; reflexivity.
Qed.

(** X23. With a serial number of at most 32 characters, [timssdr_open_usb]
    returns the handle of the first board of the list that has a
    serial-number string, can be opened, and whose serial number (its first
    32 characters) ends with the requested one, or NULL; every other handle
    it opened is closed again, and the device list is freed. This holds when
    the serial number of every such board can be read and is not shorter
    than the requested one. *)
Theorem timssdr_open_usb_matches_serial_suffix (desired : list Z)
    (devices : list libusb_device) (serial_number : list Z) :
  (strlen desired <= 32)%nat ->
  length serial_number = 64%nat ->
  serials_readable desired devices ->
  exists log,
    timssdr_open_usb (Some desired) (Some devices) serial_number =
      Ok (fst <$> find_device (fun dev => candidate dev && serial_ends_with desired dev)
                    devices 0,
          log ++ [UsbFreeDeviceList]) /\
    open_handles (log ++ [UsbFreeDeviceList]) =
      match find_device (fun dev => candidate dev && serial_ends_with desired dev)
              devices 0 with
      | Some (k, _) => [k]
      | None => []
      end.
Proof.
  intros Hm Hlen Hread. unfold timssdr_open_usb.
  destruct (Z.ltb_spec 32 (Z.of_nat (strlen desired))); [lia |].
  destruct (open_usb_scan_finds desired devices 0 serial_number [] Hlen Hread eq_refl)
    as (log & Hrun & Hheld).
  exists log. change (default [] (Some devices)) with devices.
  rewrite Hrun. cbn [mbind outcome_bind]. split; [reflexivity |].
  rewrite open_handles_app, Hheld. reflexivity.
Qed.

Lemma serials_readable_two_boards : serials_readable serial_0002 two_boards.
Proof.
  unfold serials_readable, two_boards.
  apply List.Forall_cons; [intros Hc; discriminate Hc |].
  apply List.Forall_cons; [intros _; exists serial_TIMS0001; split; [reflexivity | cbn; lia] |].
  apply List.Forall_cons; [intros _; exists serial_TIMS0002; split; [reflexivity | cbn; lia] |].
  apply List.Forall_nil.
Qed.

Lemma timssdr_open_usb_matches_serial_suffix_witness :
  exists log,
    timssdr_open_usb (Some serial_0002) (Some two_boards) (repeat 0 64) =
      Ok (Some 2%nat, log ++ [UsbFreeDeviceList]) /\
    open_handles (log ++ [UsbFreeDeviceList]) = [2%nat].
Proof.
  apply (timssdr_open_usb_matches_serial_suffix serial_0002 two_boards (repeat 0 64)).
  - cbn. lia.
  - reflexivity.
  - exact serials_readable_two_boards.
Defined.

Lemma open_usb_scan_skips (desired : list Z) (match_len : Z) (pre : list libusb_device) :
  forall (rest : list libusb_device) (i : nat) (serial_number : list Z)
         (log : list usb_event),
    Forall (fun dev => candidate dev = false) pre ->
    exists log',
      timssdr_open_usb_scan (Some desired) match_len (pre ++ rest) i serial_number log =
      timssdr_open_usb_scan (Some desired) match_len rest (i + length pre) serial_number log'.
Proof.
  induction pre as [| dev pre IH]; intros rest i serial_number log Hpre.
  - exists log. cbn. now rewrite Nat.add_0_r.
  - apply Forall_cons in Hpre as [Hdev Hpre].
    destruct (open_usb_round_skips desired match_len i dev serial_number log Hdev)
      as (log1 & Hround & _).
    destruct (IH rest (S i) serial_number log1 Hpre) as (log' & Hrun).
    exists log'. change ((dev :: pre) ++ rest) with (dev :: (pre ++ rest)).
    cbn [timssdr_open_usb_scan length]. rewrite Hround.
    cbn [mbind outcome_bind]. rewrite Hrun. f_equal. lia.
Qed.

(** X24. Two lengths [timssdr_open_usb] does not check. A requested serial
    number of more than 32 characters makes it return NULL at once, without
    looking at a device and without freeing the device list. And when the
    first board it opens has a serial number shorter than the requested
    one, or the read of that serial number fails with a negative code, it
    computes an address before the start of the local array
    [serial_number]: the behaviour is undefined. *)
Theorem timssdr_open_usb_unchecked_lengths (desired : list Z)
    (device_list : option (list libusb_device)) (serial_number : list Z) :
  ((32 < strlen desired)%nat ->
   timssdr_open_usb (Some desired) device_list serial_number = Ok (None, [])) /\
  (forall pre dev post,
     device_list = Some (pre ++ dev :: post) ->
     Forall (fun d => candidate d = false) pre ->
     candidate dev = true ->
     (strlen desired <= 32)%nat ->
     length serial_number = 64%nat ->
     (exists error, string_descriptor dev = inl error /\ error < 0) \/
     (exists chars, string_descriptor dev = inr chars /\
                    (length (take 32 chars) < strlen desired)%nat) ->
     timssdr_open_usb (Some desired) device_list serial_number = Fault).
Proof.
  split.
  - intros Hlong. unfold timssdr_open_usb.
    destruct (Z.ltb_spec 32 (Z.of_nat (strlen desired))); [reflexivity | lia].
  - intros pre dev post -> Hpre Hc Hm Hlen Hbad. unfold timssdr_open_usb.
    destruct (Z.ltb_spec 32 (Z.of_nat (strlen desired))); [lia |].
    change (default [] (Some (pre ++ dev :: post))) with (pre ++ dev :: post).
    destruct (open_usb_scan_skips desired (Z.of_nat (strlen desired)) pre (dev :: post) 0
                serial_number [] Hpre) as (log' & ->).
    cbn [timssdr_open_usb_scan].
    assert (Hround : timssdr_open_usb_round (Some desired) (Z.of_nat (strlen desired))
                       (0 + length pre) dev serial_number log' = Fault).
    { unfold candidate, is_timssdr in Hc. unfold timssdr_open_usb_round.
      apply andb_prop in Hc as [Hc Hopen]. apply andb_prop in Hc as [Hid Hserial].
      rewrite Hid, Hserial, Hopen. cbn [negb].
      destruct Hbad as [(error & Hdesc & Hneg) | (chars & Hdesc & Hshort)].
      - unfold libusb_get_string_descriptor_ascii. rewrite Hdesc.
        unfold USB_MAX_SERIAL_LENGTH. destruct (Z.geb_spec error 32); [lia |].
        unfold terminate_at. destruct (Z.leb_spec 0 error); [lia |]. reflexivity.
      - pose proof (read_serial_spec dev chars serial_number Hdesc Hlen) as Hread.
        destruct (libusb_get_string_descriptor_ascii dev serial_number) as [result data].
        destruct Hread as (Hclip & data' & Hterm & _).
        rewrite Hclip in Hterm |- *. rewrite Hterm. cbn [mbind outcome_bind].
        destruct (Z.ltb_spec (Z.of_nat (length (take 32 chars)) -
                              Z.of_nat (strlen desired)) 0); [reflexivity | lia]. }
    rewrite Hround. reflexivity.
Qed.

(** X25. [timssdr_open_by_serial] without a serial number is [timssdr_open].
    With one, it returns [TIMSSDR_ERROR_INVALID_PARAM] for a NULL [device]
    before it looks at any USB device; otherwise it sets up the board
    [timssdr_open_usb] finds (the first board that can be opened and whose
    serial number ends with the requested one), and returns
    [TIMSSDR_ERROR_NOT_FOUND] with the library state unchanged when there is
    none. No other handle stays open. *)
Theorem timssdr_open_by_serial_finds_board {App : Type} (desired : list Z)
    (device_out : bool) (found : option Z) (devices : list libusb_device)
    (serial_number : list Z) (env : open_env) (w : world App) :
  (strlen desired <= 32)%nat ->
  length serial_number = 64%nat ->
  serials_readable desired devices ->
  timssdr_open_by_serial None device_out found (Some devices) serial_number env w =
    Ok (timssdr_open device_out found env w, []) /\
  timssdr_open_by_serial (Some desired) false found (Some devices) serial_number env w =
    Ok (TIMSSDR_ERROR_INVALID_PARAM, None, w, []) /\
  exists log,
    timssdr_open_by_serial (Some desired) true found (Some devices) serial_number env w =
      Ok (match find_device (fun dev => candidate dev && serial_ends_with desired dev)
                  devices 0 with
          | Some (k, _) => timssdr_open_setup (Z.of_nat k) env w
          | None => (TIMSSDR_ERROR_NOT_FOUND, None, w)
          end, log) /\
    open_handles log =
      match find_device (fun dev => candidate dev && serial_ends_with desired dev)
              devices 0 with
      | Some (k, _) => [k]
      | None => []
      end.
Proof.
  intros Hm Hlen Hread. split; [| split; [reflexivity |]].
  - unfold timssdr_open_by_serial.
    destruct (timssdr_open device_out found env w) as [[result device] w']. reflexivity.
  - unfold timssdr_open_by_serial, timssdr_open_usb. cbn [negb].
    destruct (Z.ltb_spec 32 (Z.of_nat (strlen desired))); [lia |].
    change (default [] (Some devices)) with devices.
    destruct (open_usb_scan_finds desired devices 0 serial_number [] Hlen Hread eq_refl)
      as (log & -> & Hheld).
    cbn [mbind outcome_bind]. exists (log ++ [UsbFreeDeviceList]).
    split; [| rewrite open_handles_app, Hheld; reflexivity].
    destruct (find_device _ devices 0) as [[k dev] |]; cbn [fmap option_fmap option_map fst];
      [| reflexivity].
    destruct (timssdr_open_setup (Z.of_nat k) env w) as [[result device] w']. reflexivity.
Qed.

Lemma timssdr_open_by_serial_finds_board_witness :
  timssdr_open_by_serial None true (Some 1) (Some two_boards) (repeat 0 64) all_ok
    initial_world =
    Ok (timssdr_open true (Some 1) all_ok initial_world, []) /\
  timssdr_open_by_serial (Some serial_0002) false (Some 1) (Some two_boards) (repeat 0 64)
    all_ok initial_world =
    Ok (TIMSSDR_ERROR_INVALID_PARAM, None, initial_world, []) /\
  exists log,
    timssdr_open_by_serial (Some serial_0002) true (Some 1) (Some two_boards) (repeat 0 64)
      all_ok initial_world =
      Ok (timssdr_open_setup 2 all_ok initial_world, log) /\
    open_handles log = [2%nat].
Proof.
  apply (timssdr_open_by_serial_finds_board serial_0002 true (Some 1) two_boards
           (repeat 0 64) all_ok initial_world).
  - cbn. lia.
  - reflexivity.
  - exact serials_readable_two_boards.
Defined.

(** ** The device list *)

Lemma boards_app (l1 l2 : list libusb_device) :
  forall i, boards (l1 ++ l2) i = boards l1 i ++ boards l2 (i + length l1).
Proof.
  induction l1 as [| dev l1 IH]; intros i.
  - cbn. now rewrite Nat.add_0_r.
  - change ((dev :: l1) ++ l2) with (dev :: (l1 ++ l2)). cbn [boards length].
    rewrite IH. replace (S i + length l1)%nat with (i + S (length l1))%nat by lia.
    destruct (is_timssdr dev); reflexivity.
Qed.

Lemma boards_length (devices : list libusb_device) :
  forall i, (length (boards devices i) <= length devices)%nat.
Proof.
  induction devices as [| dev devices IH]; intros i; cbn; [lia |].
  specialize (IH (S i)). destruct (is_timssdr dev); cbn; lia.
Qed.

Lemma boards_lookup (devices : list libusb_device) :
  forall i k j dev,
    boards devices i !! k = Some (j, dev) ->
    (i <= j)%nat /\ devices !! (j - i)%nat = Some dev /\ is_timssdr dev = true.
Proof.
  induction devices as [| d devices IH]; intros i k j dev Hk; [discriminate Hk |].
  cbn [boards] in Hk. destruct (is_timssdr d) eqn:Hid.
  - destruct k as [| k].
    + injection Hk as <- <-. rewrite Nat.sub_diag. auto.
    + destruct (IH (S i) k j dev Hk) as (Hle & Hdev & Hb).
      split; [lia |]. split; [| exact Hb].
      replace (j - i)%nat with (S (j - S i)) by lia. exact Hdev.
  - destruct (IH (S i) k j dev Hk) as (Hle & Hdev & Hb).
    split; [lia |]. split; [| exact Hb].
    replace (j - i)%nat with (S (j - S i)) by lia. exact Hdev.
Qed.

Lemma printed_ids_app (l1 l2 : list usb_event) :
  printed_ids (l1 ++ l2) = printed_ids l1 ++ printed_ids l2.
Proof.
  induction l1 as [| e l1 IH]; [reflexivity |]. destruct e; cbn; rewrite ?IH; reflexivity.
Qed.

Lemma uint8_small (c : nat) : (c < 256)%nat -> Z.to_nat (uint8 (Z.of_nat c)) = c.
Proof. intros Hc. unfold uint8. rewrite Z.mod_small by lia. apply Nat2Z.id. Qed.

Lemma store_next {A : Type} (l : list A) (z v : A) (n : nat) :
  (length l < n)%nat ->
  store (Some (l ++ repeat z (n - length l))) (length l) v =
    Ok (Some ((l ++ [v]) ++ repeat z (n - length (l ++ [v])))).
Proof.
  intros Hlt. unfold store. rewrite length_app, repeat_length.
  destruct (Nat.ltb_spec (length l) (length l + (n - length l))); [| lia].
  rewrite insert_app_r_alt by lia. rewrite Nat.sub_diag.
  replace (n - length l)%nat with (S (n - length (l ++ [v]))) by (rewrite length_app; cbn; lia).
  cbn. now rewrite <- app_assoc.
Qed.

Lemma same_array {A : Type} (l : list A) (z : A) (n : nat) :
  (length l < n)%nat ->
  l ++ repeat z (n - length l) = (l ++ [z]) ++ repeat z (n - length (l ++ [z])).
Proof.
  intros Hlt.
  replace (n - length l)%nat with (S (n - length (l ++ [z]))) by (rewrite length_app; cbn; lia).
  cbn. now rewrite <- app_assoc.
Qed.

Lemma strdup_terminated (mem : list Z) :
  forall k, mem !! k = Some 0 ->
    exists s, strdup mem = Ok s /\ (length s <= k)%nat /\
              (Forall (fun c => c <> 0) (take k mem) -> s = take k mem).
Proof.
  induction mem as [| c mem IH]; intros k Hk; [discriminate Hk |].
  cbn [strdup]. destruct k as [| k].
  - injection Hk as ->. exists []. cbn. repeat split; auto.
  - destruct (Z.eqb_spec c 0) as [-> | Hnz].
    + exists []. split; [reflexivity |]. split; [cbn; lia |].
      intros Hall. apply Forall_cons in Hall as [Hc _]. contradiction.
    + destruct (IH k Hk) as (s & -> & Hlen & Hs). cbn [mbind outcome_bind].
      exists (c :: s). split; [reflexivity |]. split; [cbn; lia |].
      intros Hall. cbn [take] in Hall |- *. apply Forall_cons in Hall as [_ Hall].
      now rewrite Hs.
Qed.

Lemma uint8_clip_range (result : Z) :
  0 <= (if uint8 result >=? USB_MAX_SERIAL_LENGTH then USB_MAX_SERIAL_LENGTH else uint8 result)
    <= 32.
Proof.
  unfold uint8, USB_MAX_SERIAL_LENGTH.
  pose proof (Z.mod_pos_bound result 256 ltac:(lia)).
  destruct (Z.geb_spec (result mod 256) 32); lia.
Qed.

Lemma store_at_end {A : Type} (l : list A) (z v : A) (n c : nat) :
  length l = c -> (c < n)%nat ->
  store (Some (l ++ repeat z (n - c))) c v =
    Ok (Some ((l ++ [v]) ++ repeat z (n - S c))).
Proof.
  intros <- Hlt. rewrite store_next by exact Hlt. rewrite length_app. cbn [length].
  now rewrite Nat.add_1_r.
Qed.

Lemma same_array_at_end {A : Type} (l : list A) (z : A) (n c : nat) :
  length l = c -> (c < n)%nat ->
  l ++ repeat z (n - c) = (l ++ [z]) ++ repeat z (n - S c).
Proof.
  intros <- Hlt. rewrite (same_array l z n Hlt). rewrite length_app. cbn [length].
  now rewrite Nat.add_1_r.
Qed.

Lemma list_serial_copy (dev : libusb_device) (serial_number : list Z) :
  length serial_number = 64%nat ->
  exists data' s,
    (let '(result, data) := libusb_get_string_descriptor_ascii dev serial_number in
     terminate_at data
       (if uint8 result >=? USB_MAX_SERIAL_LENGTH then USB_MAX_SERIAL_LENGTH
        else uint8 result)) = Ok data' /\
    length data' = 64%nat /\
    strdup data' = Ok s /\
    (length s <= 32)%nat /\
    (forall chars, string_descriptor dev = inr chars ->
       Forall (fun c => c <> 0) (take 32 chars) -> s = take 32 chars) /\
    (forall error, string_descriptor dev = inl error -> 32 <= uint8 error ->
       data' = <[32%nat := 0]> serial_number).
Proof.
  intros Hlen. destruct (string_descriptor dev) as [error | chars] eqn:Hdesc.
  - unfold libusb_get_string_descriptor_ascii. rewrite Hdesc.
    pose proof (uint8_clip_range error) as Hrange.
    set (len := if uint8 error >=? USB_MAX_SERIAL_LENGTH then USB_MAX_SERIAL_LENGTH
                else uint8 error) in *.
    unfold terminate_at. rewrite Hlen.
    destruct (Z.leb_spec 0 len); [| lia]. destruct (Z.ltb_spec len (Z.of_nat 64)); [| lia].
    cbn [andb].
    destruct (strdup_terminated (<[Z.to_nat len := 0]> serial_number) (Z.to_nat len))
      as (s & Hs & Hslen & _); [apply list_lookup_insert_eq; lia |].
    exists (<[Z.to_nat len := 0]> serial_number), s.
    split; [reflexivity |]. split; [now rewrite length_insert |]. split; [exact Hs |].
    split; [lia |]. split; [intros chars' Hc; discriminate Hc |].
    intros error' Herr Hbig. injection Herr as <-. unfold len, USB_MAX_SERIAL_LENGTH.
    destruct (Z.geb_spec (uint8 error) 32); [reflexivity | lia].
  - pose proof (read_serial_spec dev chars serial_number Hdesc Hlen) as Hread.
    unfold libusb_get_string_descriptor_ascii in *. rewrite Hdesc in *.
    assert (Hsmall : uint8 (Z.of_nat (length (take 63 chars))) =
                     Z.of_nat (length (take 63 chars))).
    { unfold uint8. apply Z.mod_small. rewrite length_take. lia. }
    rewrite Hsmall.
    destruct Hread as (Hclip & data' & Hterm & Hlen' & Htake & Hnul).
    destruct (strdup_terminated data' (length (take 32 chars)) Hnul) as (s & Hs & Hslen & Hcopy).
    exists data', s. split; [exact Hterm |]. split; [exact Hlen' |]. split; [exact Hs |].
    split; [rewrite length_take in Hslen; lia |].
    split; [| intros error Herr; discriminate Herr].
    intros chars' Hc Hnz. injection Hc as <-. rewrite Htake in Hcopy. now apply Hcopy.
Qed.

(** A round of the loop for a device that is not a board. *)
Lemma device_list_round_other (env : list_env) (i : nat) (dev : libusb_device)
    (serial_number : list Z) (lst : timssdr_device_list_t) (log : list usb_event) :
  is_timssdr dev = false ->
  timssdr_device_list_round env i dev serial_number lst log =
    Ok (serial_number, lst, log ++ [PrintIds (idVendor dev) (idProduct dev)]).
Proof. unfold is_timssdr, timssdr_device_list_round. now intros ->. Qed.

(** A round of the loop for a board. *)
Lemma device_list_round_board (env : list_env) (i : nat) (dev : libusb_device)
    (serial_number : list Z) (lst : timssdr_device_list_t) (log : list usb_event)
    (n room : nat) (bs : list (nat * libusb_device))
    (entries : list (option (list Z))) :
  is_timssdr dev = true ->
  built n room bs entries lst ->
  (length bs < n)%nat -> (length bs < room)%nat -> (n <= 256)%nat ->
  length serial_number = 64%nat ->
  open_handles log = [] ->
  exists serial_number' lst' new entry,
    timssdr_device_list_round env i dev serial_number lst log =
      Ok (serial_number', lst', (log ++ [PrintIds (idVendor dev) (idProduct dev)]) ++ new) /\
    built n room (bs ++ [(i, dev)]) (entries ++ [entry]) lst' /\
    serial_entry_ok env (i, dev) entry /\
    length serial_number' = 64%nat /\
    open_handles ((log ++ [PrintIds (idVendor dev) (idProduct dev)]) ++ new) = [] /\
    printed_ids new = [] /\
    usb_devices lst' = usb_devices lst /\ usb_devicecount lst' = usb_devicecount lst /\
    (serial_readable dev = true ->
     exists s,
       strdup serial_number' = Ok s /\
       entry = (if strdup_ok env i then Some s else None) /\
       forall error, string_descriptor dev = inl error -> 32 <= uint8 error ->
                     serial_number' = <[32%nat := 0]> serial_number).
Proof.
  intros Hid (Hcount & Hindex & Hids & Hserials & Hentries) Hroom Hfit Hn Hlen Hclosed.
  unfold timssdr_device_list_round. unfold is_timssdr in Hid. rewrite Hid.
  apply andb_prop in Hid as [_ Hpid]. apply Z.eqb_eq in Hpid.
  rewrite Hcount, uint8_small by lia.
  cbn [usb_board_ids set_devicecount]. rewrite Hids.
  rewrite (store_at_end _ 0 (idProduct dev) room (length bs)) by (auto using repeat_length).
  cbn [mbind outcome_bind usb_device_index set_usb_board_ids set_devicecount]. rewrite Hindex.
  rewrite (store_at_end _ 0 (Z.of_nat i) n (length bs)) by (auto using length_map).
  cbn [mbind outcome_bind].
  set (lst2 := set_usb_device_index _ _).
  assert (Hbuilt : forall entry,
             built n room (bs ++ [(i, dev)]) (entries ++ [entry])
               (set_serial_numbers
                  (Some ((entries ++ [entry]) ++ repeat None (n - S (length bs)))) lst2)).
  { intros entry. unfold built, lst2.
    cbn [devicecount usb_device_index usb_board_ids serial_numbers set_serial_numbers
           set_usb_device_index set_usb_board_ids set_devicecount].
    rewrite !length_app. cbn [length]. rewrite !Nat.add_1_r.
    split; [lia |]. split; [now rewrite map_app |].
    split; [rewrite Hpid; unfold timssdr_usb_pid; cbn [repeat]; now rewrite repeat_cons |].
    split; [reflexivity | lia]. }
  assert (Hnone : set_serial_numbers
                    (Some ((entries ++ [None]) ++ repeat None (n - S (length bs)))) lst2 = lst2).
  { unfold set_serial_numbers. cbn.
    rewrite <- (same_array_at_end entries None n (length bs)) by auto.
    rewrite <- Hserials. unfold lst2. reflexivity. }
  assert (Hnone_ok : serial_readable dev = false -> serial_entry_ok env (i, dev) None).
  { intros Hr. repeat split; auto; try discriminate. cbn [snd]. intros chars Hr'. congruence. }
  assert (Hprint : open_handles (log ++ [PrintIds (idVendor dev) (idProduct dev)]) =
             open_handles log).

  { rewrite open_handles_app. reflexivity. }
  unfold serial_readable in Hnone_ok.
  destruct (0 <? iSerialNumber dev) eqn:Hserial.
  - destruct (Z.eqb_spec (libusb_open_result dev) 0) as [Hopen | Hopen]; cbn [negb].
    + destruct (list_serial_copy dev serial_number Hlen)
        as (data' & s & Hterm & Hlen' & Hs & Hslen & Hcopy & Hstale).
      destruct (libusb_get_string_descriptor_ascii dev serial_number) as [result data].
      rewrite Hterm. cbn [mbind outcome_bind]. rewrite Hs. cbn [mbind outcome_bind].
      change (serial_numbers lst2) with (serial_numbers lst). rewrite Hserials.
      rewrite (store_at_end entries None _ n (length bs)) by auto.
      cbn [mbind outcome_bind].
      eexists data', _, [UsbOpen i (libusb_open_result dev); UsbClose i], _.
      split; [rewrite <- (app_assoc _ [UsbOpen i (libusb_open_result dev)] [UsbClose i]);
              reflexivity |].
      split; [apply Hbuilt |].
      split.
      { unfold serial_entry_ok, serial_readable. cbn [fst snd].
        split; [intros s' Hs'; destruct (strdup_ok env i); [injection Hs' as <-; exact Hslen |
                                                             discriminate Hs'] |].
        split; [rewrite Hserial, Hopen; discriminate |].
        split; [intros ->; reflexivity |].
        intros chars _ -> Hdesc Hnz. now rewrite (Hcopy chars Hdesc Hnz). }
      split; [exact Hlen' |].
      split.
      { rewrite open_handles_app, Hprint, Hopen, Hclosed. cbn.
        destruct (Nat.eq_dec i i) as [_ | Hne]; [reflexivity | contradiction]. }
      split; [reflexivity |]. split; [reflexivity |]. split; [reflexivity |].
      intros _. exists s. split; [exact Hs |]. split; [reflexivity | exact Hstale].
    + eexists serial_number, lst2, [UsbOpen i (libusb_open_result dev)], None.
      split; [reflexivity |].
      split; [rewrite <- Hnone at 1; apply Hbuilt |].
      split; [apply Hnone_ok; reflexivity |].
      split; [exact Hlen |].
      split; [rewrite open_handles_app, Hprint, Hclosed; cbn; apply Z.eqb_neq in Hopen;
              now rewrite Hopen |].
      split; [reflexivity |]. split; [reflexivity |]. split; [reflexivity |].
      unfold serial_readable. apply Z.eqb_neq in Hopen. rewrite Hserial, Hopen.
      intros Hr. discriminate Hr.
  - eexists serial_number, lst2, [], None.
    split; [now rewrite app_nil_r |].
    split; [rewrite <- Hnone at 1; apply Hbuilt |].
    split; [apply Hnone_ok; reflexivity |].
    split; [exact Hlen |].
    split; [rewrite app_nil_r, Hprint; exact Hclosed |].
    split; [reflexivity |]. split; [reflexivity |]. split; [reflexivity |].
    unfold serial_readable. rewrite Hserial. intros Hr. discriminate Hr.
Qed.

(** A round of the loop for a board when [usb_board_ids] is full: the
    store of the product id is behind the block. *)
Lemma device_list_round_overruns (env : list_env) (i : nat) (dev : libusb_device)
    (serial_number : list Z) (lst : timssdr_device_list_t) (log : list usb_event)
    (n room : nat) (bs : list (nat * libusb_device))
    (entries : list (option (list Z))) :
  is_timssdr dev = true ->
  built n room bs entries lst ->
  (room <= length bs < 256)%nat ->
  timssdr_device_list_round env i dev serial_number lst log = Fault.
Proof.
  intros Hid (Hcount & _ & Hids & _) Hfull.
  unfold timssdr_device_list_round. unfold is_timssdr in Hid. rewrite Hid.
  rewrite Hcount, uint8_small by lia.
  cbn [usb_board_ids set_devicecount]. rewrite Hids. unfold store.
  rewrite length_app, !repeat_length.
  destruct (Nat.ltb_spec (length bs) (length bs + (room - length bs))); [lia |].
  reflexivity.
Qed.

Lemma timssdr_device_list_scan_spec (env : list_env) (rest : list libusb_device) :
  forall (i : nat) (serial_number : list Z) (lst : timssdr_device_list_t)
         (log : list usb_event) (n room : nat) (bs : list (nat * libusb_device))
         (entries : list (option (list Z))),
    built n room bs entries lst ->
    (length bs + length rest <= n)%nat ->
    (length bs + length (boards rest i) <= room)%nat ->
    (n <= 256)%nat ->
    length serial_number = 64%nat ->
    open_handles log = [] ->
    exists serial_number' lst' new entries',
      timssdr_device_list_scan env rest i serial_number lst log =
        Ok (serial_number', lst', log ++ new) /\
      built n room (bs ++ boards rest i) (entries ++ entries') lst' /\
      Forall2 (serial_entry_ok env) (boards rest i) entries' /\
      length serial_number' = 64%nat /\
      open_handles (log ++ new) = [] /\
      printed_ids new = map (fun dev => (idVendor dev, idProduct dev)) rest /\
      usb_devices lst' = usb_devices lst /\ usb_devicecount lst' = usb_devicecount lst.
Proof.
  induction rest as [| dev rest IH];
    intros i serial_number lst log n room bs entries Hbuilt Hroom Hfit Hn Hlen Hclosed.
  - exists serial_number, lst, [], []. cbn [timssdr_device_list_scan boards].
    rewrite !app_nil_r. split; [reflexivity |]. split; [exact Hbuilt |].
    split; [constructor |]. repeat split; auto.
  - cbn [timssdr_device_list_scan boards length] in *.
    destruct (is_timssdr dev) eqn:Hid; cbn [length] in Hfit.
    + destruct (device_list_round_board env i dev serial_number lst log n room bs entries
                  Hid Hbuilt ltac:(lia) ltac:(lia) Hn Hlen Hclosed)
        as (buf1 & lst1 & new1 & entry & -> & Hbuilt1 & Hentry & Hlen1 & Hclosed1 & Hprint1 &
            Hdevs1 & Hcount1 & _).
      cbn [mbind outcome_bind].
      destruct (IH (S i) buf1 lst1 _ n room (bs ++ [(i, dev)]) (entries ++ [entry])
                  Hbuilt1 ltac:(rewrite length_app; cbn; lia)
                  ltac:(rewrite length_app; cbn; lia) Hn Hlen1 Hclosed1)
        as (buf2 & lst2 & new2 & entries2 & -> & Hbuilt2 & Hentries2 & Hlen2 & Hclosed2 &
            Hprint2 & Hdevs2 & Hcount2).
      exists buf2, lst2, ((PrintIds (idVendor dev) (idProduct dev) :: new1) ++ new2),
        (entry :: entries2).
      assert (Hlog : ((log ++ [PrintIds (idVendor dev) (idProduct dev)]) ++ new1) ++ new2 =
                     log ++ (PrintIds (idVendor dev) (idProduct dev) :: new1) ++ new2).
      { rewrite <- !app_assoc. reflexivity. }
      rewrite <- Hlog.
      split; [reflexivity |].
      split; [rewrite <- !app_assoc in Hbuilt2; exact Hbuilt2 |].
      split; [constructor; assumption |].
      split; [exact Hlen2 |]. split; [exact Hclosed2 |].
      split; [rewrite <- app_comm_cons; cbn [printed_ids map];
              rewrite printed_ids_app, Hprint1, Hprint2; reflexivity |].
      split; congruence.
    + rewrite (device_list_round_other env i dev serial_number lst log Hid).
      cbn [mbind outcome_bind].
      destruct (IH (S i) serial_number lst
                  (log ++ [PrintIds (idVendor dev) (idProduct dev)]) n room bs entries
                  Hbuilt ltac:(lia) ltac:(lia) Hn Hlen
                  ltac:(rewrite open_handles_app, Hclosed; reflexivity))
        as (buf2 & lst2 & new2 & entries2 & -> & Hbuilt2 & Hentries2 & Hlen2 & Hclosed2 &
            Hprint2 & Hdevs2 & Hcount2).
      exists buf2, lst2, (PrintIds (idVendor dev) (idProduct dev) :: new2), entries2.
      assert (Hlog : (log ++ [PrintIds (idVendor dev) (idProduct dev)]) ++ new2 =
                     log ++ PrintIds (idVendor dev) (idProduct dev) :: new2).
      { rewrite <- app_assoc. reflexivity. }
      rewrite <- Hlog.
      split; [reflexivity |]. split; [exact Hbuilt2 |]. split; [exact Hentries2 |].
      split; [exact Hlen2 |]. split; [exact Hclosed2 |].
      split; [cbn [printed_ids map]; now rewrite Hprint2 |].
      split; assumption.
Qed.

(** [usb_board_ids] has room for half as many elements as there are USB
    devices. *)
Lemma usb_board_ids_room_half (n b : nat) :
  (b <= usb_board_ids_room n <-> 2 * b <= n)%nat.
Proof.
  unfold usb_board_ids_room, calloc_elements, sizeof_timssdr_usb_vid,
    sizeof_timssdr_usb_board_id.
  zify. Z.to_euclidean_division_equations. lia.
Qed.

(** The loop runs into the end of [usb_board_ids] when the devices left
    hold more boards than the array has room for. *)
Lemma timssdr_device_list_scan_overruns (env : list_env) (rest : list libusb_device) :
  forall (i : nat) (serial_number : list Z) (lst : timssdr_device_list_t)
         (log : list usb_event) (n room : nat) (bs : list (nat * libusb_device))
         (entries : list (option (list Z))),
    built n room bs entries lst ->
    (length bs + length rest <= n)%nat ->
    (length bs <= room < length bs + length (boards rest i))%nat ->
    (n <= 256)%nat ->
    length serial_number = 64%nat ->
    open_handles log = [] ->
    timssdr_device_list_scan env rest i serial_number lst log = Fault.
Proof.
  induction rest as [| dev rest IH];
    intros i serial_number lst log n room bs entries Hbuilt Hroom Hfull Hn Hlen Hclosed.
  - cbn [boards length] in Hfull. lia.
  - cbn [timssdr_device_list_scan boards length] in *.
    destruct (is_timssdr dev) eqn:Hid; cbn [length] in Hfull.
    + destruct (Nat.eq_dec (length bs) room) as [Heq | Hne].
      * rewrite (device_list_round_overruns env i dev serial_number lst log n room bs
                   entries Hid Hbuilt ltac:(lia)).
        reflexivity.
      * destruct (device_list_round_board env i dev serial_number lst log n room bs entries
                    Hid Hbuilt ltac:(lia) ltac:(lia) Hn Hlen Hclosed)
          as (buf1 & lst1 & new1 & entry & -> & Hbuilt1 & _ & Hlen1 & Hclosed1 & _).
        cbn [mbind outcome_bind].
        apply (IH (S i) buf1 lst1 _ n room (bs ++ [(i, dev)]) (entries ++ [entry]) Hbuilt1);
          rewrite ?length_app; cbn [length]; try lia; assumption.
    + rewrite (device_list_round_other env i dev serial_number lst log Hid).
      cbn [mbind outcome_bind].
      apply (IH (S i) serial_number lst _ n room bs entries Hbuilt); try lia;
        try assumption.
      rewrite open_handles_app, Hclosed. reflexivity.
Qed.

(** Every allocation succeeded: [timssdr_device_list] is its loop over the
    devices, started on arrays of zeros. *)
Lemma timssdr_device_list_loop (env : list_env) (devices : list libusb_device)
    (serial_number : list Z) :
  calloc_list_ok env = true ->
  calloc_serial_numbers_ok env = true ->
  calloc_usb_board_ids_ok env = true ->
  calloc_usb_device_index_ok env = true ->
  exists lst0,
    built (length devices) (usb_board_ids_room (length devices)) [] [] lst0 /\
    usb_devices lst0 = Some devices /\
    usb_devicecount lst0 = Z.of_nat (length devices) /\
    timssdr_device_list env (inr devices) serial_number =
      ('(_, lst, log) ← timssdr_device_list_scan env devices 0 serial_number lst0
                          [PrintDevicesFound];
       Ok (Some lst, log)).
Proof.
  intros Hlist Hserials Hids Hindex. unfold timssdr_device_list.
  rewrite Hlist, Hserials, Hids, Hindex. cbn [negb].
  cbn [usb_devicecount set_serial_numbers set_usb_board_ids set_usb_device_index
         serial_numbers usb_board_ids usb_device_index usb_devices].
  rewrite Nat2Z.id. change (default [] (Some devices)) with devices.
  eexists. split; [| split; [| split; [| reflexivity]]].
  - unfold built, usb_board_ids_room. cbn. rewrite !Nat.sub_0_r. repeat split.
  - reflexivity.
  - reflexivity.
Qed.

(** What [timssdr_device_list] returns when the allocations succeed and
    [usb_board_ids] has room for the boards. *)
Lemma timssdr_device_list_lists (env : list_env) (devices : list libusb_device)
    (serial_number : list Z) :
  calloc_list_ok env = true ->
  calloc_serial_numbers_ok env = true ->
  calloc_usb_board_ids_ok env = true ->
  calloc_usb_device_index_ok env = true ->
  (length devices <= 256)%nat ->
  length serial_number = 64%nat ->
  (2 * length (boards devices 0) <= length devices)%nat ->
  exists lst log entries,
    timssdr_device_list env (inr devices) serial_number = Ok (Some lst, log) /\
    built (length devices) (usb_board_ids_room (length devices)) (boards devices 0)
      entries lst /\
    Forall2 (serial_entry_ok env) (boards devices 0) entries /\
    usb_devices lst = Some devices /\
    usb_devicecount lst = Z.of_nat (length devices) /\
    open_handles log = [] /\
    printed_ids log = map (fun dev => (idVendor dev, idProduct dev)) devices.
Proof.
  intros Hlist Hserials Hids Hindex Hn Hlen Hhalf.
  destruct (timssdr_device_list_loop env devices serial_number Hlist Hserials Hids Hindex)
    as (lst0 & Hbuilt0 & Hdevs0 & Hcount0 & ->).
  apply usb_board_ids_room_half in Hhalf.
  destruct (timssdr_device_list_scan_spec env devices 0 serial_number lst0
              [PrintDevicesFound] (length devices) (usb_board_ids_room (length devices))
              [] [] Hbuilt0 ltac:(cbn [length]; lia) ltac:(cbn [length]; lia) Hn Hlen eq_refl)
    as (buf' & lst' & new & entries & -> & Hbuilt & Hentries & _ & Hclosed & Hprint &
        Hdevs & Hcount).
  cbn [mbind outcome_bind]. exists lst', ([PrintDevicesFound] ++ new), entries.
  split; [reflexivity |]. split; [exact Hbuilt |]. split; [exact Hentries |].
  split; [congruence |]. split; [congruence |]. split; [exact Hclosed |].
  exact Hprint.
Qed.

Lemma lookup_repeat {A : Type} (x : A) (n : nat) :
  forall k, (k < n)%nat -> repeat x n !! k = Some x.
Proof.
  induction n as [| n IH]; intros k Hk; [lia |].
  destruct k as [| k]; [reflexivity |]. cbn. apply IH. lia.
Qed.

(** X26. [usb_board_ids] is allocated with 2 bytes per USB device and
    written with 4 bytes per board, so [timssdr_device_list] returns a list
    exactly on a bus where at most half of the devices are boards. The list
    then holds all the USB devices and, in their order, one entry per
    board: [devicecount] is the number of boards, [usb_device_index[k]] is
    the index of the k-th board in [usb_devices], [usb_board_ids[k]] is the
    product id, and [serial_numbers[k]] is NULL or a string of at most 32
    characters (the first 32 characters of the serial-number string when
    the board can be opened and the string read); the entries after the last
    board are NULL, every handle opened on the way is closed again, and one
    line was printed per USB device. On a bus where more than half of the
    devices are boards (a board alone, say) the store of a product id runs
    past the end of [usb_board_ids]: undefined behaviour. *)
Theorem timssdr_device_list_lists_every_board (env : list_env)
    (devices : list libusb_device) (serial_number : list Z) :
  allocations_ok env ->
  (length devices <= 256)%nat ->
  length serial_number = 64%nat ->
  ((2 * length (boards devices 0) <= length devices)%nat ->
   exists lst log index ids serials,
     timssdr_device_list env (inr devices) serial_number = Ok (Some lst, log) /\
     usb_devices lst = Some devices /\
     usb_devicecount lst = Z.of_nat (length devices) /\
     devicecount lst = Z.of_nat (length (boards devices 0)) /\
     usb_device_index lst = Some index /\ usb_board_ids lst = Some ids /\
     serial_numbers lst = Some serials /\
     length index = length devices /\ length ids = Nat.div2 (length devices) /\
     length serials = length devices /\
     (forall k i dev,
        boards devices 0 !! k = Some (i, dev) ->
        index !! k = Some (Z.of_nat i) /\
        devices !! i = Some dev /\
        ids !! k = Some TIMSSDR_PRODUCT_ID /\
        exists entry, serials !! k = Some entry /\ serial_entry_ok env (i, dev) entry) /\
     (forall k, (length (boards devices 0) <= k < length devices)%nat ->
                serials !! k = Some None) /\
     open_handles log = [] /\
     printed_ids log = map (fun dev => (idVendor dev, idProduct dev)) devices) /\
  ((length devices < 2 * length (boards devices 0))%nat ->
   timssdr_device_list env (inr devices) serial_number = Fault).
Proof.
  intros (Hlist & Hserials & Hids & Hindex) Hn Hlen. split.
  - intros Hhalf.
    destruct (timssdr_device_list_lists env devices serial_number Hlist Hserials Hids
                Hindex Hn Hlen Hhalf)
      as (lst & log & entries & Hrun & (Hcount & Hidx & Hbids & Hser & Hentries) & Hall &
          Hdevs & Hdc & Hclosed & Hprint).
    pose proof (boards_length devices 0) as Hle.
    pose proof (proj2 (usb_board_ids_room_half (length devices) _) Hhalf) as Hfit.
    assert (Hroom : usb_board_ids_room (length devices) = Nat.div2 (length devices)).
    { unfold usb_board_ids_room, calloc_elements, sizeof_timssdr_usb_vid,
        sizeof_timssdr_usb_board_id.
      zify. Z.to_euclidean_division_equations. lia. }
    set (c := length (boards devices 0)) in *.
    eexists lst, log, _, _, _.
    split; [exact Hrun |]. split; [exact Hdevs |]. split; [exact Hdc |].
    split; [exact Hcount |]. split; [exact Hidx |]. split; [exact Hbids |].
    split; [exact Hser |].
    split; [rewrite length_app, length_map, repeat_length; fold c; lia |].
    split; [rewrite length_app, !repeat_length, <- Hroom; lia |].
    split; [rewrite length_app, repeat_length, Hentries; lia |].
    split.
    + intros k i dev Hk.
      assert (Hkc : (k < c)%nat) by (now apply lookup_lt_Some in Hk).
      destruct (boards_lookup devices 0 k i dev Hk) as (_ & Hdev & _).
      rewrite Nat.sub_0_r in Hdev.
      split; [rewrite lookup_app_l by (now rewrite length_map);
              now rewrite list_lookup_fmap, Hk |].
      split; [exact Hdev |].
      split; [rewrite lookup_app_l by (now rewrite repeat_length);
              apply lookup_repeat; exact Hkc |].
      destruct (Forall2_lookup_l _ _ _ k (i, dev) Hall Hk) as (entry & Hentry & Hok).
      exists entry. split; [| exact Hok].
      rewrite lookup_app_l by (now rewrite Hentries). exact Hentry.
    + split; [| split; [exact Hclosed | exact Hprint]].
      intros k Hk. rewrite lookup_app_r by (rewrite Hentries; lia).
      apply lookup_repeat. rewrite Hentries. lia.
  - intros Hmany.
    destruct (timssdr_device_list_loop env devices serial_number Hlist Hserials Hids
                Hindex) as (lst0 & Hbuilt0 & _ & _ & ->).
    assert (Hfull : (usb_board_ids_room (length devices) < length (boards devices 0))%nat).
    { destruct (Nat.le_gt_cases (length (boards devices 0))
                  (usb_board_ids_room (length devices))) as [Hfit | Hfull];
        [apply usb_board_ids_room_half in Hfit; lia | exact Hfull]. }
    rewrite (timssdr_device_list_scan_overruns env devices 0 serial_number lst0
               [PrintDevicesFound] (length devices) (usb_board_ids_room (length devices))
               [] [] Hbuilt0 ltac:(cbn [length]; lia) ltac:(cbn [length]; lia) Hn Hlen
               eq_refl).
    reflexivity.
Qed.

(** X27. [timssdr_device_list_open] on a list [timssdr_device_list] has
    returned (at most half of the devices being boards) stays inside the
    arrays of the list: it returns [TIMSSDR_ERROR_INVALID_PARAM], changing
    nothing, for a NULL list, a NULL [device] or an index outside
    [0, devicecount); for the index of the k-th board it calls
    [libusb_open] on that board and, when that fails, returns
    [TIMSSDR_ERROR_LIBUSB] with the code in [last_libusb_error]; otherwise
    it sets the board up as [timssdr_open] would. *)
Theorem timssdr_device_list_open_opens_listed_board {App : Type} (env : list_env)
    (devices : list libusb_device) (serial_number : list Z) (idx : Z) (device_out : bool)
    (open_result : Z) (oenv : open_env) (w : world App) :
  allocations_ok env ->
  (length devices <= 256)%nat ->
  length serial_number = 64%nat ->
  (2 * length (boards devices 0) <= length devices)%nat ->
  exists lst log,
    timssdr_device_list env (inr devices) serial_number = Ok (Some lst, log) /\
    timssdr_device_list_open None idx device_out open_result oenv w =
      Ok (TIMSSDR_ERROR_INVALID_PARAM, None, w) /\
    (device_out = false \/ idx < 0 \/ Z.of_nat (length (boards devices 0)) <= idx ->
     timssdr_device_list_open (Some lst) idx device_out open_result oenv w =
       Ok (TIMSSDR_ERROR_INVALID_PARAM, None, w)) /\
    (forall k i dev,
       boards devices 0 !! k = Some (i, dev) ->
       timssdr_device_list_open (Some lst) (Z.of_nat k) true open_result oenv w =
         Ok (if negb (open_result =? 0)
             then (TIMSSDR_ERROR_LIBUSB, None, set_last_error open_result w)
             else timssdr_open_setup (Z.of_nat i) oenv w)).
Proof.
  intros (Hlist & Hserials & Hids & Hindex) Hn Hlen Hhalf.
  destruct (timssdr_device_list_lists env devices serial_number Hlist Hserials Hids Hindex
              Hn Hlen Hhalf)
    as (lst & log & entries & Hrun & (Hcount & Hidx & Hbids & Hser & Hentries) & Hall &
        Hdevs & Hdc & Hclosed & Hprint).
  exists lst, log. split; [exact Hrun |]. split; [reflexivity |]. split.
  - intros Hbad. unfold timssdr_device_list_open. rewrite Hcount.
    destruct device_out; cbn [negb orb]; [| reflexivity].
    destruct Hbad as [Hbad | [Hbad | Hbad]]; [discriminate Hbad | |].
    + destruct (Z.ltb_spec idx 0); [reflexivity | lia].
    + destruct (idx <? 0); [reflexivity |]. cbn [orb].
      destruct (Z.geb_spec idx (Z.of_nat (length (boards devices 0)))); [reflexivity | lia].
  - intros k i dev Hk.
    assert (Hkc : (k < length (boards devices 0))%nat) by (now apply lookup_lt_Some in Hk).
    destruct (boards_lookup devices 0 k i dev Hk) as (_ & Hdev & _).
    rewrite Nat.sub_0_r in Hdev. apply lookup_lt_Some in Hdev.
    unfold timssdr_device_list_open. rewrite Hcount, Hidx, Hdevs. cbn [negb orb].
    destruct (Z.ltb_spec (Z.of_nat k) 0); [lia |]. cbn [orb].
    destruct (Z.geb_spec (Z.of_nat k) (Z.of_nat (length (boards devices 0)))); [lia |].
    rewrite Nat2Z.id, lookup_app_l by (now rewrite length_map).
    rewrite list_lookup_fmap, Hk. cbn [fmap option_fmap option_map fst].
    destruct (Z.leb_spec 0 (Z.of_nat i)); [| lia].
    destruct (Z.ltb_spec (Z.of_nat i) (Z.of_nat (length devices))); [| lia].
    cbn [andb]. destruct (negb (open_result =? 0)); reflexivity.
Qed.

Lemma stored_strings_app (l1 l2 : list (option (list Z))) :
  forall i, stored_strings (l1 ++ l2) i =
            stored_strings l1 i ++ stored_strings l2 (i + length l1).
Proof.
  induction l1 as [| e l1 IH]; intros i.
  - cbn. now rewrite Nat.add_0_r.
  - change ((e :: l1) ++ l2) with (e :: (l1 ++ l2)). cbn [stored_strings length].
    rewrite IH. replace (S i + length l1)%nat with (i + S (length l1))%nat by lia.
    destruct e; reflexivity.
Qed.

Lemma stored_strings_none (n : nat) :
  forall i, stored_strings (repeat None n) i = [].
Proof. induction n as [| n IH]; intros i; [reflexivity |]. cbn. apply IH. Qed.

Lemma free_serial_numbers_spec (entries : list (option (list Z))) :
  forall (rest before : list (option (list Z))) (log : list usb_event),
    free_serial_numbers (length entries) (length before)
      (Some (before ++ entries ++ rest)) log =
      Ok (log ++ map FreeSerialNumber (stored_strings entries (length before))).
Proof.
  induction entries as [| e entries IH]; intros rest before log.
  - cbn. now rewrite app_nil_r.
  - cbn [length free_serial_numbers].
    rewrite lookup_app_r by lia. rewrite Nat.sub_diag.
    change (((e :: entries) ++ rest) !! 0%nat) with (Some e).
    replace (before ++ (e :: entries) ++ rest) with ((before ++ [e]) ++ entries ++ rest)
      by (now rewrite <- app_assoc).
    replace (S (length before)) with (length (before ++ [e]))
      by (rewrite length_app; cbn; lia).
    destruct e as [s |]; rewrite IH; cbn [stored_strings map];
      rewrite ?length_app; cbn [length]; rewrite ?Nat.add_1_r; [| reflexivity].
    now rewrite <- app_assoc.
Qed.

(** X28. [timssdr_device_list_free] on a list [timssdr_device_list] has
    returned (at most half of the devices being boards) frees the USB
    device list, every serial-number string the list holds (each once: no
    string is stored beyond [devicecount]), the three arrays and the list
    itself, and reads nothing outside the arrays. *)
Theorem timssdr_device_list_free_frees_every_string (env : list_env)
    (devices : list libusb_device) (serial_number : list Z) (log0 : list usb_event) :
  allocations_ok env ->
  (length devices <= 256)%nat ->
  length serial_number = 64%nat ->
  (2 * length (boards devices 0) <= length devices)%nat ->
  exists lst log serials,
    timssdr_device_list env (inr devices) serial_number = Ok (Some lst, log) /\
    serial_numbers lst = Some serials /\
    timssdr_device_list_free lst log0 =
      Ok (log0 ++ [UsbFreeDeviceList] ++ map FreeSerialNumber (stored_strings serials 0) ++
          [FreeSerialNumbers; FreeUsbBoardIds; FreeUsbDeviceIndex; FreeList]).
Proof.
  intros (Hlist & Hserials & Hids & Hindex) Hn Hlen Hhalf.
  destruct (timssdr_device_list_lists env devices serial_number Hlist Hserials Hids Hindex
              Hn Hlen Hhalf)
    as (lst & log & entries & Hrun & (Hcount & Hidx & Hbids & Hser & Hentries) & Hall &
        Hdevs & Hdc & Hclosed & Hprint).
  eexists lst, log, _. split; [exact Hrun |]. split; [exact Hser |].
  unfold timssdr_device_list_free. rewrite Hcount, Hser, Hidx, Hbids, Nat2Z.id, <- Hentries.
  change (free_serial_numbers (length entries) 0) with
    (free_serial_numbers (length entries) (length (@nil (option (list Z))))).
  change (Some (entries ++ repeat None (length devices - length entries))) with
    (Some ([] ++ entries ++ repeat None (length devices - length entries))).
  rewrite (free_serial_numbers_spec entries _ [] _). cbn [mbind outcome_bind length].
  rewrite stored_strings_app, stored_strings_none, app_nil_r.
  rewrite <- !app_assoc. reflexivity.
Qed.

(** X29. When an allocation fails, [timssdr_device_list] returns NULL
    without looking at a device: at once when the list itself cannot be
    allocated, and otherwise after freeing the USB device list, the arrays
    it did get and the list. *)
Theorem timssdr_device_list_allocation_failure (env : list_env)
    (device_list : Z + list libusb_device) (serial_number : list Z) :
  (calloc_list_ok env = false ->
   timssdr_device_list env device_list serial_number = Ok (None, [])) /\
  (calloc_list_ok env = true ->
   calloc_serial_numbers_ok env && calloc_usb_board_ids_ok env &&
     calloc_usb_device_index_ok env = false ->
   timssdr_device_list env device_list serial_number =
     Ok (None,
         [UsbFreeDeviceList] ++
         (if calloc_serial_numbers_ok env then [FreeSerialNumbers] else []) ++
         (if calloc_usb_board_ids_ok env then [FreeUsbBoardIds] else []) ++
         (if calloc_usb_device_index_ok env then [FreeUsbDeviceIndex] else []) ++
         [FreeList])).
Proof.
  unfold timssdr_device_list. split.
  - intros ->. reflexivity.
  - intros -> Hfail. cbn [negb].
    destruct (calloc_serial_numbers_ok env), (calloc_usb_board_ids_ok env),
      (calloc_usb_device_index_ok env); try discriminate Hfail;
      destruct device_list; reflexivity.
Qed.

Lemma timssdr_device_list_scan_app (env : list_env) (l1 l2 : list libusb_device) :
  forall (i : nat) (serial_number : list Z) (lst : timssdr_device_list_t)
         (log : list usb_event),
    timssdr_device_list_scan env (l1 ++ l2) i serial_number lst log =
      ('(serial_number, lst, log) ← timssdr_device_list_scan env l1 i serial_number lst log;
       timssdr_device_list_scan env l2 (i + length l1) serial_number lst log).
Proof.
  induction l1 as [| dev l1 IH]; intros i serial_number lst log.
  - cbn. now rewrite Nat.add_0_r.
  - change ((dev :: l1) ++ l2) with (dev :: (l1 ++ l2)).
    cbn [timssdr_device_list_scan length].
    destruct (timssdr_device_list_round env i dev serial_number lst log)
      as [[[buf1 lst1] log1] | |]; [| reflexivity | reflexivity].
    cbn [mbind outcome_bind]. rewrite IH.
    now replace (S i + length l1)%nat with (i + S (length l1))%nat by lia.
Qed.

(** Writing a 0 at or behind the end of the string in a buffer does not
    change the string. *)
Lemma strdup_insert_behind (mem : list Z) :
  forall (k : nat) (s : list Z),
    strdup mem = Ok s -> (length s <= k)%nat -> strdup (<[k := 0]> mem) = Ok s.
Proof.
  induction mem as [| c mem IH]; intros k s Hs Hk; [discriminate Hs |].
  cbn [strdup] in Hs. destruct (Z.eqb_spec c 0) as [-> | Hnz].
  - injection Hs as <-. destruct k as [| k]; reflexivity.
  - destruct (strdup mem) as [s' | |] eqn:Hmem; try discriminate Hs.
    injection Hs as <-. cbn [length] in Hk. destruct k as [| k]; [lia |].
    change (<[S k := 0]> (c :: mem)) with (c :: <[k := 0]> mem). cbn [strdup].
    destruct (Z.eqb_spec c 0); [contradiction |].
    rewrite (IH k s' eq_refl) by lia. reflexivity.
Qed.

(** X30. The local array [serial_number] of [timssdr_device_list] is not
    cleared between devices: when the string descriptor of a board cannot
    be read (the error code, converted to [uint8_t], is at least 32), the
    board is listed with the serial number of the board before it. The bus
    is one for which the function returns a list: at most half of its
    devices are boards. *)
Theorem timssdr_device_list_repeats_serial_on_read_error (env : list_env)
    (pre post : list libusb_device) (dev1 dev2 : libusb_device) (serial_number : list Z)
    (error : Z) :
  allocations_ok env ->
  (length (pre ++ dev1 :: dev2 :: post) <= 256)%nat ->
  length serial_number = 64%nat ->
  (2 * length (boards (pre ++ dev1 :: dev2 :: post) 0) <=
     length (pre ++ dev1 :: dev2 :: post))%nat ->
  is_timssdr dev1 = true -> serial_readable dev1 = true ->
  is_timssdr dev2 = true -> serial_readable dev2 = true ->
  string_descriptor dev2 = inl error -> 32 <= uint8 error ->
  strdup_ok env (length pre) = true -> strdup_ok env (S (length pre)) = true ->
  exists lst log serials s,
    timssdr_device_list env (inr (pre ++ dev1 :: dev2 :: post)) serial_number =
      Ok (Some lst, log) /\
    serial_numbers lst = Some serials /\
    serials !! length (boards pre 0) = Some (Some s) /\
    serials !! S (length (boards pre 0)) = Some (Some s) /\
    (forall chars, string_descriptor dev1 = inr chars ->
                   Forall (fun c => c <> 0) (take 32 chars) -> s = take 32 chars).
Proof.
  intros (Hlist & Hserials & Hids & Hindex) Hn Hlen Hhalf Hid1 Hread1 Hid2 Hread2 Hdesc2
    Herr Hdup1 Hdup2.
  set (devices := pre ++ dev1 :: dev2 :: post) in *.
  assert (Hlens : length devices = (length pre + S (S (length post)))%nat)
    by (unfold devices; rewrite length_app; reflexivity).
  assert (Hboards : boards devices 0 =
                    boards pre 0 ++ (length pre, dev1) :: (S (length pre), dev2) ::
                    boards post (S (S (length pre)))).
  { unfold devices. rewrite boards_app. cbn [boards Nat.add]. now rewrite Hid1, Hid2. }
  apply usb_board_ids_room_half in Hhalf.
  rewrite Hboards, length_app in Hhalf. cbn [length] in Hhalf.
  destruct (timssdr_device_list_loop env devices serial_number Hlist Hserials Hids Hindex)
    as (lst0 & Hbuilt0 & _ & _ & ->).
  set (room := usb_board_ids_room (length devices)) in *.
  unfold devices. rewrite timssdr_device_list_scan_app.
  pose proof (boards_length pre 0) as Hbpre.
  destruct (timssdr_device_list_scan_spec env pre 0 serial_number lst0 [PrintDevicesFound]
              (length devices) room [] [] Hbuilt0 ltac:(cbn [length]; lia)
              ltac:(cbn [length]; lia) Hn Hlen eq_refl)
    as (bufA & lstA & newA & entriesA & -> & HbuiltA & HentriesA & HlenA & HclosedA & _).
  cbn [mbind outcome_bind app] in HbuiltA |- *.
  change (0 + length pre)%nat with (length pre). cbn [timssdr_device_list_scan].
  destruct (device_list_round_board env (length pre) dev1 bufA lstA _ (length devices) room
              (boards pre 0) entriesA Hid1 HbuiltA ltac:(lia) ltac:(lia) Hn HlenA HclosedA)
    as (buf1 & lst1 & new1 & entry1 & -> & Hbuilt1 & Hentry1 & Hlen1 & Hclosed1 & _ & _ & _ &
        Hcopy1).
  destruct (Hcopy1 Hread1) as (s & Hs & -> & _). rewrite Hdup1 in *.
  cbn [mbind outcome_bind].
  destruct (device_list_round_board env (S (length pre)) dev2 buf1 lst1 _ (length devices)
              room (boards pre 0 ++ [(length pre, dev1)]) (entriesA ++ [Some s]) Hid2 Hbuilt1
              ltac:(rewrite length_app; cbn [length]; lia)
              ltac:(rewrite length_app; cbn [length]; lia) Hn Hlen1 Hclosed1)
    as (buf2 & lst2 & new2 & entry2 & -> & Hbuilt2 & Hentry2 & Hlen2 & Hclosed2 & _ & _ & _ &
        Hcopy2).
  destruct (Hcopy2 Hread2) as (s2 & Hs2 & -> & Hstale). rewrite Hdup2 in *.
  rewrite (Hstale error Hdesc2 Herr) in Hs2.
  assert (Hs32 : (length s <= 32)%nat) by (destruct Hentry1 as (Hl & _); now apply Hl).
  rewrite (strdup_insert_behind buf1 32 s Hs Hs32) in Hs2. injection Hs2 as <-.
  cbn [mbind outcome_bind].
  destruct (timssdr_device_list_scan_spec env post (S (S (length pre))) buf2 lst2 _
              (length devices) room _ _ Hbuilt2
              ltac:(rewrite !length_app; cbn [length]; lia)
              ltac:(rewrite !length_app; cbn [length]; lia) Hn Hlen2 Hclosed2)
    as (bufB & lstB & newB & entriesB & -> & HbuiltB & _).
  cbn [mbind outcome_bind].
  destruct HbuiltB as (_ & _ & _ & Hser & _).
  assert (HlA : length entriesA = length (boards pre 0))
    by (destruct HbuiltA as (_ & _ & _ & _ & H); exact H).
  eexists lstB, _, _, s. split; [reflexivity |]. split; [exact Hser |].
  rewrite <- HlA, <- !app_assoc. cbn [app].
  split; [now rewrite lookup_app_r, Nat.sub_diag by lia |].
  split; [rewrite lookup_app_r by lia;
          now replace (S (length entriesA) - length entriesA)%nat with 1%nat by lia |].
  intros chars Hdesc1 Hnz. destruct Hentry1 as (_ & _ & _ & H4).
  specialize (H4 chars Hread1 Hdup1 Hdesc1 Hnz). now injection H4.
Qed.

Lemma allocations_ok_allocating : allocations_ok allocating.
Proof. repeat split. Qed.

Lemma timssdr_device_list_lists_every_board_witness :
  allocations_ok allocating /\
  (length two_boards_two_mice <= 256)%nat /\
  (length two_boards <= 256)%nat /\
  length zeroed_serial_number = 64%nat /\
  (2 * length (boards two_boards_two_mice 0) <= length two_boards_two_mice)%nat /\
  (length two_boards < 2 * length (boards two_boards 0))%nat /\
  (exists lst log index ids serials,
     timssdr_device_list allocating (inr two_boards_two_mice) zeroed_serial_number =
       Ok (Some lst, log) /\
     usb_devices lst = Some two_boards_two_mice /\
     usb_devicecount lst = Z.of_nat (length two_boards_two_mice) /\
     devicecount lst = Z.of_nat (length (boards two_boards_two_mice 0)) /\
     usb_device_index lst = Some index /\ usb_board_ids lst = Some ids /\
     serial_numbers lst = Some serials /\
     length index = length two_boards_two_mice /\
     length ids = Nat.div2 (length two_boards_two_mice) /\
     length serials = length two_boards_two_mice /\
     (forall k i dev,
        boards two_boards_two_mice 0 !! k = Some (i, dev) ->
        index !! k = Some (Z.of_nat i) /\
        two_boards_two_mice !! i = Some dev /\
        ids !! k = Some TIMSSDR_PRODUCT_ID /\
        exists entry,
          serials !! k = Some entry /\ serial_entry_ok allocating (i, dev) entry) /\
     (forall k,
        (length (boards two_boards_two_mice 0) <= k < length two_boards_two_mice)%nat ->
        serials !! k = Some None) /\
     open_handles log = [] /\
     printed_ids log =
       map (fun dev => (idVendor dev, idProduct dev)) two_boards_two_mice) /\
  timssdr_device_list allocating (inr two_boards) zeroed_serial_number = Fault.
Proof.
  assert (Hn : (length two_boards_two_mice <= 256)%nat) by (cbn; lia).
  assert (Hn' : (length two_boards <= 256)%nat) by (cbn; lia).
  assert (Hhalf : (2 * length (boards two_boards_two_mice 0) <=
                   length two_boards_two_mice)%nat) by (cbn; lia).
  assert (Hmany : (length two_boards < 2 * length (boards two_boards 0))%nat) by (cbn; lia).
  split; [exact allocations_ok_allocating |]. split; [exact Hn |]. split; [exact Hn' |].
  split; [reflexivity |]. split; [exact Hhalf |]. split; [exact Hmany |].
  split.
  - apply (timssdr_device_list_lists_every_board allocating two_boards_two_mice
             zeroed_serial_number allocations_ok_allocating Hn eq_refl). exact Hhalf.
  - apply (timssdr_device_list_lists_every_board allocating two_boards
             zeroed_serial_number allocations_ok_allocating Hn' eq_refl). exact Hmany.
Defined.

Lemma timssdr_device_list_open_opens_listed_board_witness :
  allocations_ok allocating /\
  (length two_boards_two_mice <= 256)%nat /\
  length zeroed_serial_number = 64%nat /\
  (2 * length (boards two_boards_two_mice 0) <= length two_boards_two_mice)%nat /\
  exists lst log,
    timssdr_device_list allocating (inr two_boards_two_mice) zeroed_serial_number =
      Ok (Some lst, log) /\
    timssdr_device_list_open None 1 true 0 all_ok initial_world =
      Ok (TIMSSDR_ERROR_INVALID_PARAM, None, initial_world) /\
    (true = false \/ 1 < 0 \/ Z.of_nat (length (boards two_boards_two_mice 0)) <= 1 ->
     timssdr_device_list_open (Some lst) 1 true 0 all_ok initial_world =
       Ok (TIMSSDR_ERROR_INVALID_PARAM, None, initial_world)) /\
    (forall k i dev,
       boards two_boards_two_mice 0 !! k = Some (i, dev) ->
       timssdr_device_list_open (Some lst) (Z.of_nat k) true 0 all_ok initial_world =
         Ok (if negb (0 =? 0)
             then (TIMSSDR_ERROR_LIBUSB, None, set_last_error 0 initial_world)
             else timssdr_open_setup (Z.of_nat i) all_ok initial_world)).
Proof.
  assert (Hn : (length two_boards_two_mice <= 256)%nat) by (cbn; lia).
  assert (Hhalf : (2 * length (boards two_boards_two_mice 0) <=
                   length two_boards_two_mice)%nat) by (cbn; lia).
  split; [exact allocations_ok_allocating |]. split; [exact Hn |]. split; [reflexivity |].
  split; [exact Hhalf |].
  apply (timssdr_device_list_open_opens_listed_board allocating two_boards_two_mice
           zeroed_serial_number 1 true 0 all_ok initial_world
           allocations_ok_allocating Hn eq_refl Hhalf).
Defined.

Lemma timssdr_device_list_free_frees_every_string_witness :
  allocations_ok allocating /\
  (length two_boards_two_mice <= 256)%nat /\
  length zeroed_serial_number = 64%nat /\
  (2 * length (boards two_boards_two_mice 0) <= length two_boards_two_mice)%nat /\
  exists lst log serials,
    timssdr_device_list allocating (inr two_boards_two_mice) zeroed_serial_number =
      Ok (Some lst, log) /\
    serial_numbers lst = Some serials /\
    timssdr_device_list_free lst [] =
      Ok ([] ++ [UsbFreeDeviceList] ++ map FreeSerialNumber (stored_strings serials 0) ++
          [FreeSerialNumbers; FreeUsbBoardIds; FreeUsbDeviceIndex; FreeList]).
Proof.
  assert (Hn : (length two_boards_two_mice <= 256)%nat) by (cbn; lia).
  assert (Hhalf : (2 * length (boards two_boards_two_mice 0) <=
                   length two_boards_two_mice)%nat) by (cbn; lia).
  split; [exact allocations_ok_allocating |]. split; [exact Hn |]. split; [reflexivity |].
  split; [exact Hhalf |].
  apply (timssdr_device_list_free_frees_every_string allocating two_boards_two_mice
           zeroed_serial_number [] allocations_ok_allocating Hn eq_refl Hhalf).
Defined.

Lemma timssdr_device_list_repeats_serial_on_read_error_witness :
  allocations_ok allocating /\
  (length ([mouse; mouse] ++ board serial_TIMS0001 :: unreadable_board :: []) <= 256)%nat /\
  length zeroed_serial_number = 64%nat /\
  (2 * length (boards ([mouse; mouse] ++ board serial_TIMS0001 :: unreadable_board :: []) 0)
     <= length ([mouse; mouse] ++ board serial_TIMS0001 :: unreadable_board :: []))%nat /\
  is_timssdr (board serial_TIMS0001) = true /\
  serial_readable (board serial_TIMS0001) = true /\
  is_timssdr unreadable_board = true /\ serial_readable unreadable_board = true /\
  string_descriptor unreadable_board = inl (-1) /\ 32 <= uint8 (-1) /\
  strdup_ok allocating (length [mouse; mouse]) = true /\
  strdup_ok allocating (S (length [mouse; mouse])) = true /\
  exists lst log serials s,
    timssdr_device_list allocating
      (inr ([mouse; mouse] ++ board serial_TIMS0001 :: unreadable_board :: []))
      zeroed_serial_number = Ok (Some lst, log) /\
    serial_numbers lst = Some serials /\
    serials !! length (boards [mouse; mouse] 0) = Some (Some s) /\
    serials !! S (length (boards [mouse; mouse] 0)) = Some (Some s) /\
    (forall chars, string_descriptor (board serial_TIMS0001) = inr chars ->
                   Forall (fun c => c <> 0) (take 32 chars) -> s = take 32 chars).
Proof.
  assert (Hn : (length ([mouse; mouse] ++ board serial_TIMS0001 :: unreadable_board :: [])
                <= 256)%nat) by (cbn; lia).
  assert (Hhalf : (2 * length (boards ([mouse; mouse] ++
                                        board serial_TIMS0001 :: unreadable_board :: []) 0)
                   <= length ([mouse; mouse] ++
                              board serial_TIMS0001 :: unreadable_board :: []))%nat)
    by (cbn; lia).
  assert (Herr : 32 <= uint8 (-1)) by (vm_compute; discriminate).
  split; [exact allocations_ok_allocating |]. split; [exact Hn |].
  split; [reflexivity |]. split; [exact Hhalf |].
  do 5 (split; [reflexivity |]). split; [exact Herr |].
  do 2 (split; [reflexivity |]).
  apply (timssdr_device_list_repeats_serial_on_read_error allocating [mouse; mouse] []
           (board serial_TIMS0001) unreadable_board zeroed_serial_number (-1)
           allocations_ok_allocating Hn eq_refl Hhalf eq_refl eq_refl eq_refl eq_refl eq_refl
           Herr eq_refl eq_refl).
Defined.
